(** * Bot SDK plumbing layer (agent/sdk.ts): correlation of actions with
    acknowledgements, reconnection and world-state fan-out.

    The class [BotSDK] is embedded as a record of its private fields together
    with the part of the JavaScript runtime its methods talk to: the sockets
    it opened, the live timers, the promises it handed out and the queue of
    continuations that resume after an [await].  Every method and every event
    handler of the source is a function on that record; one task of the event
    loop (an API call, a socket event or a timer firing) is one [step]. *)

From Stdlib Require Import List String ZArith Bool Arith Lia.
Import ListNotations.
Local Open Scope string_scope.
Local Open Scope list_scope.

(** ** Insertion-ordered maps

    A JavaScript [Map] iterates in insertion order, [set] on a present key
    keeps its position, [delete] removes it. *)

Section AList.
Context {K V : Type}.
Variable eq_dec : forall a b : K, {a = b} + {a <> b}.

Fixpoint alist_get (k : K) (m : list (K * V)) : option V :=
  match m with
  | [] => None
  | (k', v) :: m' => if eq_dec k k' then Some v else alist_get k m'
  end.

Fixpoint alist_set (k : K) (v : V) (m : list (K * V)) : list (K * V) :=
  match m with
  | [] => [(k, v)]
  | (k', v') :: m' =>
      if eq_dec k k' then (k, v) :: m' else (k', v') :: alist_set k v m'
  end.

Fixpoint alist_delete (k : K) (m : list (K * V)) : list (K * V) :=
  match m with
  | [] => []
  | (k', v) :: m' =>
      if eq_dec k k' then alist_delete k m' else (k', v) :: alist_delete k m'
  end.

Definition keys (m : list (K * V)) : list K := map fst m.
End AList.

(** ** Values on the wire *)

#[local] Unset Elimination Schemes.
Inductive json : Type :=
| JNull
| JBool (b : bool)
| JNum (n : Z)
| JStr (s : string)
| JArr (items : list json)
| JObj (members : list (string * json)).
#[local] Set Elimination Schemes.

(* The payload of a MessageEvent, written as what [JSON.parse] makes of it:
   [NotJSON] is text on which it throws a SyntaxError. *)
Inductive wire : Type :=
| NotJSON (text : string)
| JSON (value : json).

Definition JSON_parse (data : wire) : option json :=
  match data with
  | NotJSON _ => None
  | JSON v => Some v
  end.

(* Reading a property: [None] is [undefined].  Only the own members of an
   object are found; reading a property of [null] is the caller's TypeError. *)
Definition member (name : string) (j : json) : option json :=
  match j with
  | JObj ms => alist_get string_dec name ms
  | _ => None
  end.

(* ToBoolean. *)
Definition truthy (v : option json) : bool :=
  match v with
  | None => false
  | Some JNull => false
  | Some (JBool b) => b
  | Some (JNum n) => negb (n =? 0)%Z
  | Some (JStr s) => negb (s =? "")
  | Some (JArr _) => true
  | Some (JObj _) => true
  end.

(* [v === 'literal'] *)
Definition is_string (lit : string) (v : option json) : bool :=
  match v with
  | Some (JStr s) => s =? lit
  | _ => false
  end.

(** ** Types of the SDK *)

Inductive ConnectionState := disconnected | connecting | connected | reconnecting.

Definition ConnectionState_eqb (a b : ConnectionState) : bool :=
  match a, b with
  | disconnected, disconnected | connecting, connecting
  | connected, connected | reconnecting, reconnecting => true
  | _, _ => false
  end.

Inductive ReadyState := CONNECTING | OPEN | CLOSING | CLOSED.

Definition ReadyState_eqb (a b : ReadyState) : bool :=
  match a, b with
  | CONNECTING, CONNECTING | OPEN, OPEN | CLOSING, CLOSING | CLOSED, CLOSED => true
  | _, _ => false
  end.

(* A JavaScript number that may be [Infinity] (reconnectMaxRetries). *)
Inductive Limit := Finite (n : Z) | Infinity.

(* this.reconnectAttempt >= this.config.reconnectMaxRetries *)
Definition reaches (attempt : Z) (max : Limit) : bool :=
  match max with
  | Finite n => (n <=? attempt)%Z
  | Infinity => false
  end.

Record SDKConfig := {
  botUsername : string;
  actionTimeout : Z;
  autoReconnect : bool;
  reconnectMaxRetries : Limit;
  reconnectBaseDelay : Z;
  reconnectMaxDelay : Z
}.

(* The optional fields of the constructor's argument. *)
Record SDKConfigInput := {
  in_botUsername : string;
  in_actionTimeout : option Z;
  in_autoReconnect : option bool;
  in_reconnectMaxRetries : option Limit;
  in_reconnectBaseDelay : option Z;
  in_reconnectMaxDelay : option Z
}.

(* [a ?? b] *)
Definition nullish {A} (a : option A) (b : A) : A :=
  match a with Some x => x | None => b end.

(* [n || b] on an optional number: 0 is falsy. *)
Definition or_default (n : option Z) (b : Z) : Z :=
  match n with
  | Some x => if (x =? 0)%Z then b else x
  | None => b
  end.

Record BotAction := {
  action_type : string;
  action_fields : list (string * json)
}.

Inductive Error :=
| Connection_timeout
| WebSocket_error
| Connection_closed
| Connection_failed
| waitForConnection_timed_out
| Not_connected (st : ConnectionState)
| Action_timed_out (type : string)
| No_result_in_action_response
| Server_error (message : json)
| Unknown_error
| waitForCondition_timed_out
| TypeError
| Listener_error.

(* Promises are named after the call that made them and a serial number. *)
Inductive Promise :=
| connect_promise (n : nat)
| action_promise (n : nat)
| waitForConnection_promise (n : nat)
| waitForCondition_promise (n : nat)
| async_return (n : nat).

Definition Promise_eq_dec (a b : Promise) : {a = b} + {a <> b}.
Proof. decide equality; apply Nat.eq_dec. Defined.
Arguments Promise_eq_dec : simpl never.

Inductive Outcome :=
| Resolved (value : option json)
| Rejected (reason : Error).

(* The handle setTimeout returns, named after the call site that set the
   timer and a serial number. *)
Inductive TimerId :=
| handshake_timer_id (n : nat)
| reconnect_timer_id (n : nat)
| action_timer_id (n : nat)
| waitForConnection_timer_id (n : nat)
| waitForCondition_timer_id (n : nat).

Definition TimerId_eq_dec (a b : TimerId) : {a = b} + {a <> b}.
Proof. decide equality; apply Nat.eq_dec. Defined.
Arguments TimerId_eq_dec : simpl never.

(* interface PendingAction: [resolve] and [reject] are the two handles of one
   promise, [timeout] is the handle of the deadline timer. *)
Record PendingAction := {
  promise : Promise;
  timeout : TimerId
}.

(* Identity of a function object: one the caller passed in, or a closure the
   SDK allocated. *)
Inductive FnId := UserFn (n : nat) | Closure (n : nat).

Definition FnId_eq_dec (a b : FnId) : {a = b} + {a <> b}.
Proof. decide equality; apply Nat.eq_dec. Defined.
Arguments FnId_eq_dec : simpl never.

(** Sets of functions.  A [Set] holds a function object once, in insertion
    order; [ident] is the identity of a member. *)

Section FnSet.
Context {A : Type}.
Variable ident : A -> FnId.

Definition is_fn (f : FnId) (x : A) : bool :=
  if FnId_eq_dec (ident x) f then true else false.

Definition fnset_add (x : A) (l : list A) : list A :=
  if existsb (is_fn (ident x)) l then l else l ++ [x].

Definition fnset_delete (f : FnId) (l : list A) : list A :=
  filter (fun x => negb (is_fn f x)) l.
End FnSet.

(* Members of this.stateListeners: a caller's listener is an observer that
   may throw; the closure made by call [n] of waitForCondition captured its
   predicate, the timer [waitForCondition_timer_id n] and the promise
   [waitForCondition_promise n]. *)
Inductive StateListener :=
| user_state_listener (fn : nat) (throws : json -> bool)
| waitForCondition_listener (n : nat) (predicate : json -> bool).

Definition state_listener_id (l : StateListener) : FnId :=
  match l with
  | user_state_listener fn _ => UserFn fn
  | waitForCondition_listener n _ => Closure n
  end.

(* Members of this.connectionListeners; the closure made by call [n] of
   waitForConnection captured [waitForConnection_timer_id n] and
   [waitForConnection_promise n]. *)
Inductive ConnectionListener :=
| user_connection_listener (fn : nat) (throws : ConnectionState -> bool)
| waitForConnection_listener (n : nat).

Definition connection_listener_id (l : ConnectionListener) : FnId :=
  match l with
  | user_connection_listener fn _ => UserFn fn
  | waitForConnection_listener n => Closure n
  end.

(* Callbacks handed to setTimeout.  A closure made by call [n] refers to
   what that call made: its socket and promise for connect, its listener and
   promise for the two waits. *)
Inductive Callback :=
| connect_timeout (n : nat)
| reconnect_timer
| action_timeout (actionId : string) (p : Promise) (type : string)
| waitForConnection_timeout (n : nat)
| waitForCondition_timeout (n : nat).

Record Timer := {
  delay : Z;
  callback : Callback
}.

Inductive OutMessage :=
| sdk_connect (username clientId : string)
| sdk_action (username actionId : string) (action : BotAction).

(* A WebSocket made by connect().  Socket [n] is the one made by call [n];
   the handlers hung on it captured the handshake timer
   [handshake_timer_id n] and the promise [connect_promise n]. *)
Record WebSocket := {
  readyState : ReadyState;
  sent : list OutMessage;
  checkConnected_attached : bool
}.

(* The rest of an async function after an [await]. *)
Inductive Continuation :=
| sendAction_resume (action : BotAction) (stamp : string) (result : Promise).

(** ** The object and its runtime

    The first twelve fields are the private fields of the class.  The others
    are the runtime around it: every socket it made (a socket it no longer
    points to still delivers its events), the timers that are set, every call
    of a promise's resolve or reject (newest first), the continuations parked
    on a pending promise, the microtask queue, every call of a caller's state
    listener (newest first) and the serial number for the next allocation. *)

Record Runtime := mkRuntime {
  config : SDKConfig;
  sdkClientId : string;
  ws : option nat;
  state : option json;
  pendingActions : list (string * PendingAction);
  stateListeners : list StateListener;
  connectionListeners : list ConnectionListener;
  connectPromise : option Promise;
  connectionState : ConnectionState;
  reconnectAttempt : Z;
  reconnectTimer : option nat;
  intentionalDisconnect : bool;
  sockets : list (nat * WebSocket);
  timers : list (TimerId * Timer);
  settles : list (Promise * Outcome);
  awaiters : list (Promise * Continuation);
  microtasks : list (Continuation * Outcome);
  notified : list (FnId * json);
  next_id : nat
}.

Definition set_config (v : SDKConfig) (r : Runtime) : Runtime :=
  {| config := v; sdkClientId := sdkClientId r; ws := ws r; state := state r;
     pendingActions := pendingActions r; stateListeners := stateListeners r;
     connectionListeners := connectionListeners r; connectPromise := connectPromise r;
     connectionState := connectionState r; reconnectAttempt := reconnectAttempt r;
     reconnectTimer := reconnectTimer r; intentionalDisconnect := intentionalDisconnect r;
     sockets := sockets r; timers := timers r; settles := settles r;
     awaiters := awaiters r; microtasks := microtasks r; notified := notified r;
     next_id := next_id r |}.

Definition set_sdkClientId (v : string) (r : Runtime) : Runtime :=
  {| config := config r; sdkClientId := v; ws := ws r; state := state r;
     pendingActions := pendingActions r; stateListeners := stateListeners r;
     connectionListeners := connectionListeners r; connectPromise := connectPromise r;
     connectionState := connectionState r; reconnectAttempt := reconnectAttempt r;
     reconnectTimer := reconnectTimer r; intentionalDisconnect := intentionalDisconnect r;
     sockets := sockets r; timers := timers r; settles := settles r;
     awaiters := awaiters r; microtasks := microtasks r; notified := notified r;
     next_id := next_id r |}.

Definition set_ws (v : option nat) (r : Runtime) : Runtime :=
  {| config := config r; sdkClientId := sdkClientId r; ws := v; state := state r;
     pendingActions := pendingActions r; stateListeners := stateListeners r;
     connectionListeners := connectionListeners r; connectPromise := connectPromise r;
     connectionState := connectionState r; reconnectAttempt := reconnectAttempt r;
     reconnectTimer := reconnectTimer r; intentionalDisconnect := intentionalDisconnect r;
     sockets := sockets r; timers := timers r; settles := settles r;
     awaiters := awaiters r; microtasks := microtasks r; notified := notified r;
     next_id := next_id r |}.

Definition set_state (v : option json) (r : Runtime) : Runtime :=
  {| config := config r; sdkClientId := sdkClientId r; ws := ws r; state := v;
     pendingActions := pendingActions r; stateListeners := stateListeners r;
     connectionListeners := connectionListeners r; connectPromise := connectPromise r;
     connectionState := connectionState r; reconnectAttempt := reconnectAttempt r;
     reconnectTimer := reconnectTimer r; intentionalDisconnect := intentionalDisconnect r;
     sockets := sockets r; timers := timers r; settles := settles r;
     awaiters := awaiters r; microtasks := microtasks r; notified := notified r;
     next_id := next_id r |}.

Definition set_pendingActions (v : list (string * PendingAction)) (r : Runtime) : Runtime :=
  {| config := config r; sdkClientId := sdkClientId r; ws := ws r; state := state r;
     pendingActions := v; stateListeners := stateListeners r;
     connectionListeners := connectionListeners r; connectPromise := connectPromise r;
     connectionState := connectionState r; reconnectAttempt := reconnectAttempt r;
     reconnectTimer := reconnectTimer r; intentionalDisconnect := intentionalDisconnect r;
     sockets := sockets r; timers := timers r; settles := settles r;
     awaiters := awaiters r; microtasks := microtasks r; notified := notified r;
     next_id := next_id r |}.

Definition set_stateListeners (v : list StateListener) (r : Runtime) : Runtime :=
  {| config := config r; sdkClientId := sdkClientId r; ws := ws r; state := state r;
     pendingActions := pendingActions r; stateListeners := v;
     connectionListeners := connectionListeners r; connectPromise := connectPromise r;
     connectionState := connectionState r; reconnectAttempt := reconnectAttempt r;
     reconnectTimer := reconnectTimer r; intentionalDisconnect := intentionalDisconnect r;
     sockets := sockets r; timers := timers r; settles := settles r;
     awaiters := awaiters r; microtasks := microtasks r; notified := notified r;
     next_id := next_id r |}.

Definition set_connectionListeners (v : list ConnectionListener) (r : Runtime) : Runtime :=
  {| config := config r; sdkClientId := sdkClientId r; ws := ws r; state := state r;
     pendingActions := pendingActions r; stateListeners := stateListeners r;
     connectionListeners := v; connectPromise := connectPromise r;
     connectionState := connectionState r; reconnectAttempt := reconnectAttempt r;
     reconnectTimer := reconnectTimer r; intentionalDisconnect := intentionalDisconnect r;
     sockets := sockets r; timers := timers r; settles := settles r;
     awaiters := awaiters r; microtasks := microtasks r; notified := notified r;
     next_id := next_id r |}.

Definition set_connectPromise (v : option Promise) (r : Runtime) : Runtime :=
  {| config := config r; sdkClientId := sdkClientId r; ws := ws r; state := state r;
     pendingActions := pendingActions r; stateListeners := stateListeners r;
     connectionListeners := connectionListeners r; connectPromise := v;
     connectionState := connectionState r; reconnectAttempt := reconnectAttempt r;
     reconnectTimer := reconnectTimer r; intentionalDisconnect := intentionalDisconnect r;
     sockets := sockets r; timers := timers r; settles := settles r;
     awaiters := awaiters r; microtasks := microtasks r; notified := notified r;
     next_id := next_id r |}.

Definition set_connectionState (v : ConnectionState) (r : Runtime) : Runtime :=
  {| config := config r; sdkClientId := sdkClientId r; ws := ws r; state := state r;
     pendingActions := pendingActions r; stateListeners := stateListeners r;
     connectionListeners := connectionListeners r; connectPromise := connectPromise r;
     connectionState := v; reconnectAttempt := reconnectAttempt r;
     reconnectTimer := reconnectTimer r; intentionalDisconnect := intentionalDisconnect r;
     sockets := sockets r; timers := timers r; settles := settles r;
     awaiters := awaiters r; microtasks := microtasks r; notified := notified r;
     next_id := next_id r |}.

Definition set_reconnectAttempt (v : Z) (r : Runtime) : Runtime :=
  {| config := config r; sdkClientId := sdkClientId r; ws := ws r; state := state r;
     pendingActions := pendingActions r; stateListeners := stateListeners r;
     connectionListeners := connectionListeners r; connectPromise := connectPromise r;
     connectionState := connectionState r; reconnectAttempt := v;
     reconnectTimer := reconnectTimer r; intentionalDisconnect := intentionalDisconnect r;
     sockets := sockets r; timers := timers r; settles := settles r;
     awaiters := awaiters r; microtasks := microtasks r; notified := notified r;
     next_id := next_id r |}.

Definition set_reconnectTimer (v : option nat) (r : Runtime) : Runtime :=
  {| config := config r; sdkClientId := sdkClientId r; ws := ws r; state := state r;
     pendingActions := pendingActions r; stateListeners := stateListeners r;
     connectionListeners := connectionListeners r; connectPromise := connectPromise r;
     connectionState := connectionState r; reconnectAttempt := reconnectAttempt r;
     reconnectTimer := v; intentionalDisconnect := intentionalDisconnect r;
     sockets := sockets r; timers := timers r; settles := settles r;
     awaiters := awaiters r; microtasks := microtasks r; notified := notified r;
     next_id := next_id r |}.

Definition set_intentionalDisconnect (v : bool) (r : Runtime) : Runtime :=
  {| config := config r; sdkClientId := sdkClientId r; ws := ws r; state := state r;
     pendingActions := pendingActions r; stateListeners := stateListeners r;
     connectionListeners := connectionListeners r; connectPromise := connectPromise r;
     connectionState := connectionState r; reconnectAttempt := reconnectAttempt r;
     reconnectTimer := reconnectTimer r; intentionalDisconnect := v; sockets := sockets r;
     timers := timers r; settles := settles r; awaiters := awaiters r;
     microtasks := microtasks r; notified := notified r; next_id := next_id r |}.

Definition set_sockets (v : list (nat * WebSocket)) (r : Runtime) : Runtime :=
  {| config := config r; sdkClientId := sdkClientId r; ws := ws r; state := state r;
     pendingActions := pendingActions r; stateListeners := stateListeners r;
     connectionListeners := connectionListeners r; connectPromise := connectPromise r;
     connectionState := connectionState r; reconnectAttempt := reconnectAttempt r;
     reconnectTimer := reconnectTimer r; intentionalDisconnect := intentionalDisconnect r;
     sockets := v; timers := timers r; settles := settles r; awaiters := awaiters r;
     microtasks := microtasks r; notified := notified r; next_id := next_id r |}.

Definition set_timers (v : list (TimerId * Timer)) (r : Runtime) : Runtime :=
  {| config := config r; sdkClientId := sdkClientId r; ws := ws r; state := state r;
     pendingActions := pendingActions r; stateListeners := stateListeners r;
     connectionListeners := connectionListeners r; connectPromise := connectPromise r;
     connectionState := connectionState r; reconnectAttempt := reconnectAttempt r;
     reconnectTimer := reconnectTimer r; intentionalDisconnect := intentionalDisconnect r;
     sockets := sockets r; timers := v; settles := settles r; awaiters := awaiters r;
     microtasks := microtasks r; notified := notified r; next_id := next_id r |}.

Definition set_settles (v : list (Promise * Outcome)) (r : Runtime) : Runtime :=
  {| config := config r; sdkClientId := sdkClientId r; ws := ws r; state := state r;
     pendingActions := pendingActions r; stateListeners := stateListeners r;
     connectionListeners := connectionListeners r; connectPromise := connectPromise r;
     connectionState := connectionState r; reconnectAttempt := reconnectAttempt r;
     reconnectTimer := reconnectTimer r; intentionalDisconnect := intentionalDisconnect r;
     sockets := sockets r; timers := timers r; settles := v; awaiters := awaiters r;
     microtasks := microtasks r; notified := notified r; next_id := next_id r |}.

Definition set_awaiters (v : list (Promise * Continuation)) (r : Runtime) : Runtime :=
  {| config := config r; sdkClientId := sdkClientId r; ws := ws r; state := state r;
     pendingActions := pendingActions r; stateListeners := stateListeners r;
     connectionListeners := connectionListeners r; connectPromise := connectPromise r;
     connectionState := connectionState r; reconnectAttempt := reconnectAttempt r;
     reconnectTimer := reconnectTimer r; intentionalDisconnect := intentionalDisconnect r;
     sockets := sockets r; timers := timers r; settles := settles r; awaiters := v;
     microtasks := microtasks r; notified := notified r; next_id := next_id r |}.

Definition set_microtasks (v : list (Continuation * Outcome)) (r : Runtime) : Runtime :=
  {| config := config r; sdkClientId := sdkClientId r; ws := ws r; state := state r;
     pendingActions := pendingActions r; stateListeners := stateListeners r;
     connectionListeners := connectionListeners r; connectPromise := connectPromise r;
     connectionState := connectionState r; reconnectAttempt := reconnectAttempt r;
     reconnectTimer := reconnectTimer r; intentionalDisconnect := intentionalDisconnect r;
     sockets := sockets r; timers := timers r; settles := settles r;
     awaiters := awaiters r; microtasks := v; notified := notified r; next_id := next_id r |}.

Definition set_notified (v : list (FnId * json)) (r : Runtime) : Runtime :=
  {| config := config r; sdkClientId := sdkClientId r; ws := ws r; state := state r;
     pendingActions := pendingActions r; stateListeners := stateListeners r;
     connectionListeners := connectionListeners r; connectPromise := connectPromise r;
     connectionState := connectionState r; reconnectAttempt := reconnectAttempt r;
     reconnectTimer := reconnectTimer r; intentionalDisconnect := intentionalDisconnect r;
     sockets := sockets r; timers := timers r; settles := settles r;
     awaiters := awaiters r; microtasks := microtasks r; notified := v;
     next_id := next_id r |}.

Definition set_next_id (v : nat) (r : Runtime) : Runtime :=
  {| config := config r; sdkClientId := sdkClientId r; ws := ws r; state := state r;
     pendingActions := pendingActions r; stateListeners := stateListeners r;
     connectionListeners := connectionListeners r; connectPromise := connectPromise r;
     connectionState := connectionState r; reconnectAttempt := reconnectAttempt r;
     reconnectTimer := reconnectTimer r; intentionalDisconnect := intentionalDisconnect r;
     sockets := sockets r; timers := timers r; settles := settles r;
     awaiters := awaiters r; microtasks := microtasks r; notified := notified r;
     next_id := v |}.

(** ** Runtime primitives *)

Definition find_socket (s : nat) (r : Runtime) : option WebSocket :=
  alist_get Nat.eq_dec s (sockets r).

Definition update_socket (s : nat) (f : WebSocket -> WebSocket) (r : Runtime) : Runtime :=
  match find_socket s r with
  | Some sock => set_sockets (alist_set Nat.eq_dec s (f sock) (sockets r)) r
  | None => r
  end.

Definition with_readyState (st : ReadyState) (sock : WebSocket) : WebSocket :=
  {| readyState := st; sent := sent sock;
     checkConnected_attached := checkConnected_attached sock |}.

Definition with_sent (m : OutMessage) (sock : WebSocket) : WebSocket :=
  {| readyState := readyState sock; sent := sent sock ++ [m];
     checkConnected_attached := checkConnected_attached sock |}.

Definition without_checkConnected (sock : WebSocket) : WebSocket :=
  {| readyState := readyState sock; sent := sent sock;
     checkConnected_attached := false |}.

(* WebSocket.prototype.close: starts the closing handshake; the close event
   is a later task.  Nothing happens on a socket already closing or closed. *)
Definition ws_close_method (s : nat) (r : Runtime) : Runtime :=
  update_socket s
    (fun sock =>
       match readyState sock with
       | CONNECTING | OPEN => with_readyState CLOSING sock
       | CLOSING | CLOSED => sock
       end) r.

Definition setTimeout (t : TimerId) (cb : Callback) (ms : Z) (r : Runtime) : Runtime :=
  set_timers (alist_set TimerId_eq_dec t {| delay := ms; callback := cb |} (timers r)) r.

Definition clearTimeout (t : TimerId) (r : Runtime) : Runtime :=
  set_timers (alist_delete TimerId_eq_dec t (timers r)) r.

Definition fresh (r : Runtime) : Runtime := set_next_id (S (next_id r)) r.

(* The state of a promise is fixed by the first call that settled it. *)
Fixpoint promise_state (p : Promise) (log : list (Promise * Outcome)) : option Outcome :=
  match log with
  | [] => None
  | (q, o) :: older =>
      match promise_state p older with
      | Some first => Some first
      | None => if Promise_eq_dec p q then Some o else None
      end
  end.

(* Number of calls of resolve or reject on [p]. *)
Fixpoint settle_calls (p : Promise) (log : list (Promise * Outcome)) : nat :=
  match log with
  | [] => 0
  | (q, _) :: older =>
      (if Promise_eq_dec p q then 1 else 0) + settle_calls p older
  end.

Definition awaits (p : Promise) (a : Promise * Continuation) : bool :=
  if Promise_eq_dec (fst a) p then true else false.

(* A call of resolve or reject: it is recorded, and the continuations parked
   on the promise move to the microtask queue with the outcome. *)
Definition settle (p : Promise) (o : Outcome) (r : Runtime) : Runtime :=
  let r := set_settles ((p, o) :: settles r) r in
  let woken := filter (awaits p) (awaiters r) in
  let r := set_microtasks (microtasks r ++ map (fun a => (snd a, o)) woken) r in
  set_awaiters (filter (fun a => negb (awaits p a)) (awaiters r)) r.

(* [await p] followed by [k]. *)
Definition await (p : Promise) (k : Continuation) (r : Runtime) : Runtime :=
  match promise_state p (settles r) with
  | Some o => set_microtasks (microtasks r ++ [(k, o)]) r
  | None => set_awaiters (awaiters r ++ [(p, k)]) r
  end.

Inductive Completion := Returns | Throws (e : Error).

(* [try { body } catch (e) { console.error(e) }]: what the body did before
   it threw stays done, the exception goes no further. *)
Definition try_catch (body : Runtime -> Runtime * Completion) (r : Runtime) : Runtime :=
  fst (body r).

(** ** Connection *)

Definition isConnected (r : Runtime) : bool :=
  match ws r with
  | Some s =>
      match find_socket s r with
      | Some sock => ReadyState_eqb (readyState sock) OPEN
      | None => false
      end
  | None => false
  end.

Definition send (m : OutMessage) (r : Runtime) : Runtime :=
  match ws r with
  | Some s => if isConnected r then update_socket s (with_sent m) r else r
  | None => r
  end.

Definition unsubscribe_connection (fn : FnId) (r : Runtime) : Runtime :=
  set_connectionListeners
    (fnset_delete connection_listener_id fn (connectionListeners r)) r.

(* listener(state, attempt) for a member of this.connectionListeners *)
Definition call_connection_listener (st : ConnectionState) (attempt : option Z)
    (l : ConnectionListener) (r : Runtime) : Runtime * Completion :=
  match l with
  | user_connection_listener _ throws =>
      (r, if throws st then Throws Listener_error else Returns)
  | waitForConnection_listener n =>
      match st with
      | connected =>
          let r := clearTimeout (waitForConnection_timer_id n) r in
          let r := unsubscribe_connection (Closure n) r in
          (settle (waitForConnection_promise n) (Resolved None) r, Returns)
      | disconnected =>
          let r := clearTimeout (waitForConnection_timer_id n) r in
          let r := unsubscribe_connection (Closure n) r in
          (settle (waitForConnection_promise n) (Rejected Connection_failed) r,
           Returns)
      | _ => (r, Returns)
      end
  end.

Definition setConnectionState (st : ConnectionState) (attempt : option Z)
    (r : Runtime) : Runtime :=
  let r := set_connectionState st r in
  fold_left (fun r l => try_catch (call_connection_listener st attempt l) r)
            (connectionListeners r) r.

Definition connect (r : Runtime) : Runtime * Promise :=
  if isConnected r then
    let p := async_return (next_id r) in
    (settle p (Resolved None) (fresh r), p)
  else
    match connectPromise r with
    | Some p => (r, p)
    | None =>
        let r := set_intentionalDisconnect false r in
        let isReconnect := ConnectionState_eqb (connectionState r) reconnecting in
        let r := if isReconnect then r else setConnectionState connecting None r in
        let n := next_id r in
        let p := connect_promise n in
        let r := fresh r in
        let r := set_sockets
                   (alist_set Nat.eq_dec n
                      {| readyState := CONNECTING; sent := [];
                         checkConnected_attached := true |} (sockets r)) r in
        let r := set_ws (Some n) r in
        let r := setTimeout (handshake_timer_id n) (connect_timeout n) 10000 r in
        (set_connectPromise (Some p) r, p)
    end.

Definition reconnect_delay (cfg : SDKConfig) (attempt : Z) : Z :=
  Z.min (reconnectBaseDelay cfg * 2 ^ (attempt - 1)) (reconnectMaxDelay cfg).

Definition scheduleReconnect (r : Runtime) : Runtime :=
  if reaches (reconnectAttempt r) (reconnectMaxRetries (config r)) then
    setConnectionState disconnected None r
  else
    let r := set_reconnectAttempt (reconnectAttempt r + 1) r in
    let r := setConnectionState reconnecting (Some (reconnectAttempt r)) r in
    let ms := reconnect_delay (config r) (reconnectAttempt r) in
    let n := next_id r in
    let r := fresh r in
    let r := setTimeout (reconnect_timer_id n) reconnect_timer ms r in
    set_reconnectTimer (Some n) r.

Definition disconnect (r : Runtime) : Runtime * Promise :=
  let r := set_intentionalDisconnect true r in
  let r := match reconnectTimer r with
           | Some n => set_reconnectTimer None (clearTimeout (reconnect_timer_id n) r)
           | None => r
           end in
  let r := match ws r with
           | Some s => set_ws None (ws_close_method s r)
           | None => r
           end in
  let r := set_connectPromise None r in
  let r := set_reconnectAttempt 0 r in
  let r := setConnectionState disconnected None r in
  let p := async_return (next_id r) in
  (settle p (Resolved None) (fresh r), p).

Definition onConnectionStateChange (l : ConnectionListener) (r : Runtime) : Runtime :=
  set_connectionListeners
    (fnset_add connection_listener_id l (connectionListeners r)) r.

Definition waitForConnection (ms : Z) (r : Runtime) : Runtime * Promise :=
  let n := next_id r in
  let r := fresh r in
  if isConnected r then
    let p := async_return n in
    (settle p (Resolved None) r, p)
  else
    let p := waitForConnection_promise n in
    let r := setTimeout (waitForConnection_timer_id n) (waitForConnection_timeout n)
               ms r in
    (onConnectionStateChange (waitForConnection_listener n) r, p).

(** ** State subscriptions *)

Definition onStateUpdate (l : StateListener) (r : Runtime) : Runtime :=
  set_stateListeners (fnset_add state_listener_id l (stateListeners r)) r.

Definition unsubscribe_state (fn : FnId) (r : Runtime) : Runtime :=
  set_stateListeners (fnset_delete state_listener_id fn (stateListeners r)) r.

(* listener(message.state) for a member of this.stateListeners *)
Definition call_state_listener (snapshot : json) (l : StateListener)
    (r : Runtime) : Runtime * Completion :=
  match l with
  | user_state_listener fn throws =>
      (set_notified ((UserFn fn, snapshot) :: notified r) r,
       if throws snapshot then Throws Listener_error else Returns)
  | waitForCondition_listener n predicate =>
      if predicate snapshot then
        let r := clearTimeout (waitForCondition_timer_id n) r in
        let r := unsubscribe_state (Closure n) r in
        (settle (waitForCondition_promise n) (Resolved (Some snapshot)) r, Returns)
      else (r, Returns)
  end.

(** ** Raw actions *)

Definition actionId_of (stamp : string) : string := ("act-" ++ stamp)%string.

(* sendAction from the connection check on. *)
Definition sendAction_body (action : BotAction) (stamp : string) (result : Promise)
    (r : Runtime) : Runtime :=
  if negb (isConnected r) then
    settle result (Rejected (Not_connected (connectionState r))) r
  else
    let actionId := actionId_of stamp in
    let t := action_timer_id (next_id r) in
    let r := fresh r in
    let r := setTimeout t (action_timeout actionId result (action_type action))
               (actionTimeout (config r)) r in
    let r := set_pendingActions
               (alist_set string_dec actionId {| promise := result; timeout := t |}
                  (pendingActions r)) r in
    send (sdk_action (botUsername (config r)) actionId action) r.

Definition sendAction (action : BotAction) (stamp : string) (r : Runtime)
    : Runtime * Promise :=
  let result := action_promise (next_id r) in
  let r := fresh r in
  if ConnectionState_eqb (connectionState r) reconnecting then
    let (r, p) := waitForConnection 60000 r in
    (await p (sendAction_resume action stamp result) r, result)
  else
    (sendAction_body action stamp result r, result).

(* A continuation leaves the microtask queue: a rejected await throws out of
   the async function, a fulfilled one goes on. *)
Definition resume (r : Runtime) (ko : Continuation * Outcome) : Runtime :=
  match fst ko with
  | sendAction_resume action stamp result =>
      match snd ko with
      | Rejected e => settle result (Rejected e) r
      | Resolved _ => sendAction_body action stamp result r
      end
  end.

Definition run_microtasks (r : Runtime) : Runtime :=
  fold_left resume (microtasks r) (set_microtasks [] r).

(** ** State waiting *)

Definition subscribe_waitForCondition (predicate : json -> bool) (ms : Z) (n : nat)
    (r : Runtime) : Runtime * Promise :=
  let p := waitForCondition_promise n in
  let r := setTimeout (waitForCondition_timer_id n) (waitForCondition_timeout n)
             ms r in
  (onStateUpdate (waitForCondition_listener n predicate) r, p).

Definition waitForCondition (predicate : json -> bool) (ms : Z) (r : Runtime)
    : Runtime * Promise :=
  let n := next_id r in
  let r := fresh r in
  match state r with
  | Some current =>
      if truthy (Some current) && predicate current then
        let p := async_return n in
        (settle p (Resolved (Some current)) r, p)
      else subscribe_waitForCondition predicate ms n r
  | None => subscribe_waitForCondition predicate ms n r
  end.

(** ** Inbound messages *)

(* pendingActions.get(message.actionId): the keys are strings. *)
Definition get_pending (actionId : option json) (r : Runtime) : option PendingAction :=
  match actionId with
  | Some (JStr id) => alist_get string_dec id (pendingActions r)
  | _ => None
  end.

Definition delete_pending (actionId : option json) (r : Runtime) : Runtime :=
  match actionId with
  | Some (JStr id) =>
      set_pendingActions (alist_delete string_dec id (pendingActions r)) r
  | _ => r
  end.

Definition handle_state (message : json) (r : Runtime) : Runtime :=
  if is_string "sdk_state" (member "type" message) && truthy (member "state" message) then
    match member "state" message with
    | Some snapshot =>
        let r := set_state (Some snapshot) r in
        fold_left (fun r l => try_catch (call_state_listener snapshot l) r)
                  (stateListeners r) r
    | None => r
    end
  else r.

Definition handle_action_result (message : json) (r : Runtime) : Runtime :=
  if is_string "sdk_action_result" (member "type" message)
     && truthy (member "actionId" message) then
    match get_pending (member "actionId" message) r with
    | Some pending =>
        let r := clearTimeout (timeout pending) r in
        let r := delete_pending (member "actionId" message) r in
        if truthy (member "result" message) then
          settle (promise pending) (Resolved (member "result" message)) r
        else
          settle (promise pending) (Rejected No_result_in_action_response) r
    | None => r
    end
  else r.

(* new Error(message.error || 'Unknown error') *)
Definition error_of (reason : option json) : Error :=
  match reason with
  | Some e => if truthy (Some e) then Server_error e else Unknown_error
  | None => Unknown_error
  end.

Definition handle_error (message : json) (r : Runtime) : Runtime :=
  if is_string "sdk_error" (member "type" message) then
    if truthy (member "actionId" message) then
      match get_pending (member "actionId" message) r with
      | Some pending =>
          let r := clearTimeout (timeout pending) r in
          let r := delete_pending (member "actionId" message) r in
          settle (promise pending) (Rejected (error_of (member "error" message))) r
      | None => r
      end
    else r
  else r.

(* Reading [message.type] of null throws outside the try block. *)
Definition handleMessage (data : wire) (r : Runtime) : Runtime * Completion :=
  match JSON_parse data with
  | None => (r, Returns)
  | Some JNull => (r, Throws TypeError)
  | Some message =>
      let r := handle_state message r in
      let r := handle_action_result message r in
      let r := handle_error message r in
      (r, Returns)
  end.

(** ** Handlers hung on a socket by connect() *)

Definition onopen (s : nat) (r : Runtime) : Runtime :=
  let r := clearTimeout (handshake_timer_id s) r in
  send (sdk_connect (botUsername (config r)) (sdkClientId r)) r.

Definition reject_pending (r : Runtime) (entry : string * PendingAction) : Runtime :=
  let r := clearTimeout (timeout (snd entry)) r in
  settle (promise (snd entry)) (Rejected Connection_closed) r.

Definition onclose (r : Runtime) : Runtime :=
  let r := set_connectPromise None r in
  let r := set_ws None r in
  let r := fold_left reject_pending (pendingActions r) r in
  let r := set_pendingActions [] r in
  if autoReconnect (config r) && negb (intentionalDisconnect r) then
    scheduleReconnect r
  else
    setConnectionState disconnected None r.

Definition onerror (s : nat) (r : Runtime) : Runtime :=
  let r := clearTimeout (handshake_timer_id s) r in
  settle (connect_promise s) (Rejected WebSocket_error) r.

(* The listener of socket [s] that waits for sdk_connected.  Its try block
   swallows the SyntaxError of the parse and the TypeError of null.
   removeEventListener finds the listener only on the socket it was added
   to. *)
Definition checkConnected (s : nat) (data : wire) (r : Runtime) : Runtime :=
  match JSON_parse data with
  | None => r
  | Some JNull => r
  | Some msg =>
      if is_string "sdk_connected" (member "type" msg) then
        let r := match ws r with
                 | Some current =>
                     if Nat.eqb current s then update_socket s without_checkConnected r
                     else r
                 | None => r
                 end in
        let r := set_reconnectAttempt 0 r in
        let r := setConnectionState connected None r in
        settle (connect_promise s) (Resolved None) r
      else r
  end.

(** ** Timers *)

Definition run_callback (cb : Callback) (r : Runtime) : Runtime :=
  match cb with
  | connect_timeout n =>
      let r := settle (connect_promise n) (Rejected Connection_timeout) r in
      match ws r with
      | Some s => ws_close_method s r
      | None => r
      end
  | reconnect_timer =>
      let r := set_reconnectTimer None r in
      fst (connect r)
  | action_timeout actionId p type =>
      let r := set_pendingActions
                 (alist_delete string_dec actionId (pendingActions r)) r in
      settle p (Rejected (Action_timed_out type)) r
  | waitForConnection_timeout n =>
      let r := unsubscribe_connection (Closure n) r in
      settle (waitForConnection_promise n) (Rejected waitForConnection_timed_out) r
  | waitForCondition_timeout n =>
      let r := unsubscribe_state (Closure n) r in
      settle (waitForCondition_promise n) (Rejected waitForCondition_timed_out) r
  end.

(** ** The event loop *)

Inductive Event :=
| call_connect
| call_disconnect
| call_sendAction (action : BotAction) (stamp : string)
| call_waitForConnection (ms : Z)
| call_waitForCondition (predicate : json -> bool) (ms : Z)
| call_onStateUpdate (fn : nat) (throws : json -> bool)
| call_unsubscribe_state (fn : nat)
| call_onConnectionStateChange (fn : nat) (throws : ConnectionState -> bool)
| call_unsubscribe_connection (fn : nat)
| ws_open (s : nat)
| ws_message (s : nat) (data : wire)
| ws_error (s : nat)
| ws_close (s : nat)
| timer_fires (t : TimerId).

(* One macrotask.  An event that cannot happen in the current state (an
   unknown socket, a message on a socket that is not open, a timer that is
   not set) changes nothing. *)
Definition task (e : Event) (r : Runtime) : Runtime :=
  match e with
  | call_connect => fst (connect r)
  | call_disconnect => fst (disconnect r)
  | call_sendAction action stamp => fst (sendAction action stamp r)
  | call_waitForConnection ms => fst (waitForConnection ms r)
  | call_waitForCondition predicate ms => fst (waitForCondition predicate ms r)
  | call_onStateUpdate fn throws =>
      onStateUpdate (user_state_listener fn throws) r
  | call_unsubscribe_state fn => unsubscribe_state (UserFn fn) r
  | call_onConnectionStateChange fn throws =>
      onConnectionStateChange (user_connection_listener fn throws) r
  | call_unsubscribe_connection fn => unsubscribe_connection (UserFn fn) r
  | ws_open s =>
      match find_socket s r with
      | Some sock =>
          match readyState sock with
          | CONNECTING => onopen s (update_socket s (with_readyState OPEN) r)
          | _ => r
          end
      | None => r
      end
  | ws_message s data =>
      match find_socket s r with
      | Some sock =>
          match readyState sock with
          | OPEN =>
              let r := fst (handleMessage data r) in
              if checkConnected_attached sock then checkConnected s data r else r
          | _ => r
          end
      | None => r
      end
  | ws_error s =>
      match find_socket s r with
      | Some sock =>
          match readyState sock with
          | CLOSED => r
          | _ => onerror s r
          end
      | None => r
      end
  | ws_close s =>
      match find_socket s r with
      | Some sock =>
          match readyState sock with
          | CLOSED => r
          | _ => onclose (update_socket s (with_readyState CLOSED) r)
          end
      | None => r
      end
  | timer_fires t =>
      match alist_get TimerId_eq_dec t (timers r) with
      | Some tm => run_callback (callback tm) (clearTimeout t r)
      | None => r
      end
  end.

Definition step (r : Runtime) (e : Event) : Runtime := run_microtasks (task e r).

Definition run (r : Runtime) (trace : list Event) : Runtime := fold_left step trace r.

(** ** Construction *)

Definition constructor (c : SDKConfigInput) (clientId : string) : Runtime :=
  {| config :=
       {| botUsername := in_botUsername c;
          actionTimeout := or_default (in_actionTimeout c) 30000%Z;
          autoReconnect := nullish (in_autoReconnect c) true;
          reconnectMaxRetries := nullish (in_reconnectMaxRetries c) Infinity;
          reconnectBaseDelay := nullish (in_reconnectBaseDelay c) 1000%Z;
          reconnectMaxDelay := nullish (in_reconnectMaxDelay c) 30000%Z |};
     sdkClientId := clientId;
     ws := None; state := None; pendingActions := [];
     stateListeners := []; connectionListeners := [];
     connectPromise := None; connectionState := disconnected;
     reconnectAttempt := 0%Z; reconnectTimer := None; intentionalDisconnect := false;
     sockets := []; timers := []; settles := []; awaiters := [];
     microtasks := []; notified := []; next_id := 1 |}.

(** * Vocabulary of the properties *)


(** ** Where the promise of a sendAction call is *)

Definition result_of (k : Continuation) : Promise :=
  match k with sendAction_resume _ _ p => p end.

Definition stamp_of (k : Continuation) : string :=
  match k with sendAction_resume _ stamp _ => stamp end.

Definition is_promise (p q : Promise) : bool :=
  if Promise_eq_dec p q then true else false.

Definition pending_count (p : Promise) (m : list (string * PendingAction)) : nat :=
  List.length (filter (fun e => is_promise p (promise (snd e))) m).

Definition parked_count (p : Promise) (l : list (Promise * Continuation)) : nat :=
  List.length (filter (fun a => is_promise p (result_of (snd a))) l).

Definition queued_count (p : Promise) (l : list (Continuation * Outcome)) : nat :=
  List.length (filter (fun a => is_promise p (result_of (fst a))) l).

Definition in_flight (x : option Promise) (p : Promise) : nat :=
  match x with
  | Some q => if Promise_eq_dec p q then 1 else 0
  | None => 0
  end.

(* setTimeout hands each kind of callback its own kind of handle. *)
Definition timer_kind (t : TimerId) (cb : Callback) : Prop :=
  match cb with
  | connect_timeout n => t = handshake_timer_id n
  | reconnect_timer => exists n, t = reconnect_timer_id n
  | action_timeout _ _ _ => exists n, t = action_timer_id n
  | waitForConnection_timeout n => t = waitForConnection_timer_id n
  | waitForCondition_timeout n => t = waitForCondition_timer_id n
  end.

(* The calls of sendAction made so far: the stamp that went into the action
   id and the promise returned. *)
Definition History := list (string * Promise).


(** ** The invariant of the states the SDK can reach *)

Record InvC (base : list (Promise * Outcome)) (unacked : bool)
    (x : option Promise) (H : History)
    (cfg : SDKConfig) (pend : list (string * PendingAction)) (tim : list (TimerId * Timer))
    (setl : list (Promise * Outcome)) (aw : list (Promise * Continuation))
    (mt : list (Continuation * Outcome)) (nid : nat)
    (sl : list StateListener) (cl : list ConnectionListener)
    (st : option json) : Prop := {
  inv_conserve : forall s p, In (s, p) H ->
    pending_count p pend + parked_count p aw + queued_count p mt
      + settle_calls p setl + in_flight x p = 1;
  inv_pending_hist : forall id pa, In (id, pa) pend ->
    exists s, id = actionId_of s /\ In (s, promise pa) H;
  inv_parked_hist : forall q k, In (q, k) aw -> In (stamp_of k, result_of k) H;
  inv_queued_hist : forall k o, In (k, o) mt -> In (stamp_of k, result_of k) H;
  inv_hist_fresh : forall s p, In (s, p) H -> exists n, p = action_promise n /\ n < nid;
  inv_hist_stamps : NoDup (map fst H);
  inv_settled_hist : forall n o, In (action_promise n, o) setl ->
    exists s, In (s, action_promise n) H;
  inv_timer_entry : forall t tm id p ty,
    alist_get TimerId_eq_dec t tim = Some tm ->
    callback tm = action_timeout id p ty ->
    alist_get string_dec id pend = Some {| promise := p; timeout := t |};
  inv_entry_timer : forall id pa, In (id, pa) pend ->
    exists n ty, timeout pa = action_timer_id n /\ n < nid /\
      alist_get TimerId_eq_dec (timeout pa) tim
        = Some {| delay := actionTimeout cfg;
                  callback := action_timeout id (promise pa) ty |};
  inv_keys : NoDup (keys pend);
  inv_parked_wait : forall q k, In (q, k) aw ->
    exists m ms, q = waitForConnection_promise m /\ m < nid /\
      In (waitForConnection_listener m) cl /\
      alist_get TimerId_eq_dec (waitForConnection_timer_id m) tim
        = Some {| delay := ms; callback := waitForConnection_timeout m |};
  inv_cl_fresh : forall m, In (waitForConnection_listener m) cl -> m < nid;
  inv_sl_fresh : forall m f, In (waitForCondition_listener m f) sl -> m < nid;
  inv_state_truthy : forall s, st = Some s -> truthy (Some s) = true;
  inv_timer_kind : forall t tm, alist_get TimerId_eq_dec t tim = Some tm ->
    timer_kind t (callback tm);
  inv_log_grows : exists newer, setl = newer ++ base;
  inv_unacked : unacked = true ->
    forall n v, ~ In (connect_promise n, Resolved v) setl;
  inv_handshake_delay : forall n tm,
    alist_get TimerId_eq_dec (handshake_timer_id n) tim = Some tm -> delay tm = 10000%Z
}.

Arguments inv_conserve {base unacked x H cfg pend tim setl aw mt nid sl cl st} _.
Arguments inv_pending_hist {base unacked x H cfg pend tim setl aw mt nid sl cl st} _.
Arguments inv_parked_hist {base unacked x H cfg pend tim setl aw mt nid sl cl st} _.
Arguments inv_queued_hist {base unacked x H cfg pend tim setl aw mt nid sl cl st} _.
Arguments inv_hist_fresh {base unacked x H cfg pend tim setl aw mt nid sl cl st} _.
Arguments inv_hist_stamps {base unacked x H cfg pend tim setl aw mt nid sl cl st} _.
Arguments inv_settled_hist {base unacked x H cfg pend tim setl aw mt nid sl cl st} _.
Arguments inv_timer_entry {base unacked x H cfg pend tim setl aw mt nid sl cl st} _.
Arguments inv_entry_timer {base unacked x H cfg pend tim setl aw mt nid sl cl st} _.
Arguments inv_keys {base unacked x H cfg pend tim setl aw mt nid sl cl st} _.
Arguments inv_parked_wait {base unacked x H cfg pend tim setl aw mt nid sl cl st} _.
Arguments inv_cl_fresh {base unacked x H cfg pend tim setl aw mt nid sl cl st} _.
Arguments inv_sl_fresh {base unacked x H cfg pend tim setl aw mt nid sl cl st} _.
Arguments inv_state_truthy {base unacked x H cfg pend tim setl aw mt nid sl cl st} _.
Arguments inv_timer_kind {base unacked x H cfg pend tim setl aw mt nid sl cl st} _.
Arguments inv_log_grows {base unacked x H cfg pend tim setl aw mt nid sl cl st} _.
Arguments inv_unacked {base unacked x H cfg pend tim setl aw mt nid sl cl st} _.
Arguments inv_handshake_delay {base unacked x H cfg pend tim setl aw mt nid sl cl st} _.
(* [x] is the promise held by the running code, [rest] the microtasks still
   to run in this drain of the queue, [base] an earlier state of the log,
   [unacked] says that no sdk_connected message has come yet. *)
Definition InvG (base : list (Promise * Outcome)) (unacked : bool) (x : option Promise)
    (rest : list (Continuation * Outcome)) (H : History) (r : Runtime) : Prop :=
  InvC base unacked x H (config r) (pendingActions r) (timers r) (settles r) (awaiters r)
       (rest ++ microtasks r) (next_id r) (stateListeners r)
       (connectionListeners r) (state r).

(* What holds between two tasks. *)
Definition Inv (base : list (Promise * Outcome)) (unacked : bool) (H : History)
    (r : Runtime) : Prop :=
  InvG base unacked None [] H r.

Definition quiet_timer (t : TimerId) : Prop :=
  match t with
  | action_timer_id _ | waitForConnection_timer_id _ => False
  | _ => True
  end.


(** ** Traces of events *)

(* Is the payload an sdk_connected message? *)
Definition acks (data : wire) : bool :=
  match JSON_parse data with
  | Some m => is_string "sdk_connected" (member "type" m)
  | None => false
  end.

(* The stamps that sendAction drew along a trace, and the history the trace
   adds: one entry per call of sendAction. *)
Definition stamp_drawn (e : Event) : list string :=
  match e with
  | call_sendAction _ stamp => [stamp]
  | _ => []
  end.

Definition stamps (trace : list Event) : list string := flat_map stamp_drawn trace.

Definition issued (r : Runtime) (e : Event) : History :=
  match e with
  | call_sendAction _ stamp => [(stamp, action_promise (next_id r))]
  | _ => []
  end.

Fixpoint calls (r : Runtime) (trace : list Event) : History :=
  match trace with
  | [] => []
  | e :: rest => issued r e ++ calls (step r e) rest
  end.

(* Does the event deliver an sdk_connected message? *)
Definition is_ack (e : Event) : bool :=
  match e with
  | ws_message _ data => acks data
  | _ => false
  end.

Definition unacked_trace (trace : list Event) : bool :=
  forallb (fun e => negb (is_ack e)) trace.


(** ** Messages that handleMessage passes over *)

(* What handleMessage passes over: text that does not parse; a message (any
   JSON value but null) whose type is none of the three handled; a result or
   an error whose action id names no pending action. *)
Definition passed_over (r : Runtime) (data : wire) : Prop :=
  match JSON_parse data with
  | None => True
  | Some JNull => False
  | Some m =>
      (is_string "sdk_state" (member "type" m) = false
       /\ is_string "sdk_action_result" (member "type" m) = false
       /\ is_string "sdk_error" (member "type" m) = false)
      \/ ((is_string "sdk_action_result" (member "type" m) = true
           \/ is_string "sdk_error" (member "type" m) = true)
          /\ get_pending (member "actionId" m) r = None)
  end.


(** ** Views of the state *)

(* The fields that settling a promise, setting or clearing a timer,
   allocating a serial number and (un)subscribing a listener do not
   touch. *)
Definition plain (r : Runtime) :=
  (config r, sdkClientId r, ws r, connectPromise r, connectionState r,
   reconnectAttempt r, reconnectTimer r, intentionalDisconnect r,
   sockets r, pendingActions r, state r, notified r).

(* The part of [plain] that sending on a socket leaves alone too. *)
Definition link (r : Runtime) :=
  (config r, connectionState r, reconnectAttempt r, reconnectTimer r,
   intentionalDisconnect r).


(** ** Connection states and backoff *)


(* The transition table of section 4.4 of the specification, as the set of
   its edges. *)
Definition table_4_4 (from to : ConnectionState) : bool :=
  match from, to with
  | disconnected, connecting
  | connecting, connected
  | connecting, disconnected
  | connected, reconnecting
  | connected, disconnected
  | reconnecting, connected
  | reconnecting, reconnecting
  | reconnecting, disconnected => true
  | _, _ => false
  end.

(* Where the close of a socket leads, whatever the state it is met in. *)
Definition after_close (r : Runtime) : ConnectionState * Z :=
  if autoReconnect (config r) && negb (intentionalDisconnect r) then
    if reaches (reconnectAttempt r) (reconnectMaxRetries (config r))
    then (disconnected, reconnectAttempt r)
    else (reconnecting, (reconnectAttempt r + 1)%Z)
  else (disconnected, reconnectAttempt r).

Definition connection (r : Runtime) : ConnectionState * Z :=
  (connectionState r, reconnectAttempt r).

(* Where an event can take the connection state and the attempt counter. *)
Definition transitions (r : Runtime) (e : Event) : list (ConnectionState * Z) :=
  match e with
  | call_connect | timer_fires _ =>
      [connection r;
       (if ConnectionState_eqb (connectionState r) reconnecting
        then reconnecting else connecting, reconnectAttempt r)]
  | ws_message _ _ => [connection r; (connected, 0%Z)]
  | ws_close _ => [connection r; after_close r]
  | call_disconnect => [(disconnected, 0%Z)]
  | _ => [connection r]
  end.


(** ** Fan-out of a state push *)

(* The calls of callers' listeners that a push of [snapshot] owes. *)
Definition owed_calls (snapshot : json) (l : list StateListener) : list (FnId * json) :=
  flat_map (fun x => match x with
                     | user_state_listener fn _ => [(UserFn fn, snapshot)]
                     | waitForCondition_listener _ _ => []
                     end) l.

Definition fan_out (snapshot : json) (l : list StateListener) (r : Runtime) : Runtime :=
  fold_left (fun r x => try_catch (call_state_listener snapshot x) r) l r.

(* What the closure of waitForCondition number [n] leaves behind when it has
   ended the wait with [o]. *)
Definition wait_over (n : nat) (o : Outcome) (r : Runtime) : Prop :=
  (forall x, In x (stateListeners r) -> state_listener_id x <> Closure n)
  /\ In (waitForCondition_promise n, o) (settles r)
  /\ alist_get TimerId_eq_dec (waitForCondition_timer_id n) (timers r) = None.


(** ** Promises of waitForConnection *)

(* The serial number in a promise, a timer or a listener of waitForConnection
   has been drawn already, and the promise of an async function that
   returned is fulfilled. *)
Definition WaitFresh (setl : list (Promise * Outcome)) (tim : list (TimerId * Timer))
    (cl : list ConnectionListener) (nid : nat) : Prop :=
  (forall m o, In (waitForConnection_promise m, o) setl -> m < nid)
  /\ (forall m o, In (async_return m, o) setl -> exists v, o = Resolved v)
  /\ (forall t tm m, alist_get TimerId_eq_dec t tim = Some tm ->
        callback tm = waitForConnection_timeout m -> m < nid)
  /\ (forall m, In (waitForConnection_listener m) cl -> m < nid).

Definition wait_fresh (r : Runtime) : Prop :=
  WaitFresh (settles r) (timers r) (connectionListeners r) (next_id r).

(* A promise of connect, sendAction or waitForCondition. *)
Definition not_wait (p : Promise) : Prop :=
  (forall m, p <> waitForConnection_promise m) /\ (forall m, p <> async_return m).

Definition pending_not_wait (r : Runtime) : Prop :=
  forall id pa, In (id, pa) (pendingActions r) -> not_wait (promise pa).


(** ** A registered action *)

(* What the registering branch of sendAction makes of [r]. *)
Definition registered (a : BotAction) (stamp : string) (p : Promise) (r r' : Runtime) : Prop :=
  pendingActions r'
  = alist_set string_dec (actionId_of stamp)
      {| promise := p; timeout := action_timer_id (next_id r) |} (pendingActions r)
  /\ timers r'
     = alist_set TimerId_eq_dec (action_timer_id (next_id r))
         {| delay := actionTimeout (config r);
            callback := action_timeout (actionId_of stamp) p (action_type a) |} (timers r)
  /\ settles r' = settles r
  /\ connectionState r' = connectionState r
  /\ exists s sock,
       ws r = Some s /\ find_socket s r = Some sock /\ readyState sock = OPEN
       /\ find_socket s r'
          = Some (with_sent (sdk_action (botUsername (config r)) (actionId_of stamp) a) sock)
       /\ ws r' = Some s /\ config r' = config r.

(* What a waitForConnection listener makes of a state change. *)
Definition wait_outcome (st : ConnectionState) : option Outcome :=
  match st with
  | connected => Some (Resolved None)
  | disconnected => Some (Rejected Connection_failed)
  | _ => None
  end.

(* The action of the sendAction call that drew [stamp] is in the pending
   map under its id, with the promise [p] of the call, and its sdk_action
   message has gone out on the current socket, which is open. *)
Definition registered_for (a : BotAction) (stamp : string) (p : Promise) (user : string)
    (r : Runtime) : Prop :=
  isConnected r = true
  /\ (exists pa, alist_get string_dec (actionId_of stamp) (pendingActions r) = Some pa
                 /\ promise pa = p)
  /\ exists s sock, ws r = Some s /\ find_socket s r = Some sock
                    /\ In (sdk_action user (actionId_of stamp) a) (sent sock).


(** ** Sample configurations, messages and runs *)

Definition demo_config : SDKConfigInput :=
  {| in_botUsername := "bot"; in_actionTimeout := None; in_autoReconnect := None;
     in_reconnectMaxRetries := None; in_reconnectBaseDelay := None;
     in_reconnectMaxDelay := None |}.

Definition sdk_connected_message : wire := JSON (JObj [("type", JStr "sdk_connected")]).

Definition walkTo : BotAction := {| action_type := "walkTo"; action_fields := [] |}.

Definition action_result_message (id : string) : wire :=
  JSON (JObj [("type", JStr "sdk_action_result"); ("actionId", JStr id);
              ("result", JObj [("success", JBool true)])]).

Definition waiting_trace : list Event :=
  [call_connect; ws_open 1; ws_message 1 sdk_connected_message;
   call_sendAction walkTo "1-a"].


Definition thrower : json -> bool := fun _ => true.

Definition quiet_listener : json -> bool := fun _ => false.

Definition state_message (snapshot : json) : json :=
  JObj [("type", JStr "sdk_state"); ("state", snapshot)].

Definition tick_7 : json := JObj [("tick", JNum 7)].

Definition push_7 : wire := JSON (state_message tick_7).

Definition any_snapshot : json -> bool := fun _ => true.

Definition two_waiting_trace : list Event :=
  waiting_trace ++ [call_sendAction walkTo "2-b"].

Definition dropped_trace : list Event :=
  [call_connect; ws_open 1; ws_message 1 sdk_connected_message; ws_close 1].

Definition reopened_trace : list Event :=
  dropped_trace ++ [timer_fires (reconnect_timer_id 2); ws_open 3].


(** ** Proof automation *)

Ltac strip :=
  repeat match goal with
  | |- InvG ?base ?unacked ?x ?rest ?H (set_sdkClientId _ ?r) => change (InvG base unacked x rest H r)
  | |- InvG ?base ?unacked ?x ?rest ?H (set_ws _ ?r) => change (InvG base unacked x rest H r)
  | |- InvG ?base ?unacked ?x ?rest ?H (set_connectPromise _ ?r) => change (InvG base unacked x rest H r)
  | |- InvG ?base ?unacked ?x ?rest ?H (set_connectionState _ ?r) => change (InvG base unacked x rest H r)
  | |- InvG ?base ?unacked ?x ?rest ?H (set_reconnectAttempt _ ?r) => change (InvG base unacked x rest H r)
  | |- InvG ?base ?unacked ?x ?rest ?H (set_reconnectTimer _ ?r) => change (InvG base unacked x rest H r)
  | |- InvG ?base ?unacked ?x ?rest ?H (set_intentionalDisconnect _ ?r) => change (InvG base unacked x rest H r)
  | |- InvG ?base ?unacked ?x ?rest ?H (set_sockets _ ?r) => change (InvG base unacked x rest H r)
  | |- InvG ?base ?unacked ?x ?rest ?H (set_notified _ ?r) => change (InvG base unacked x rest H r)
  end.

Ltac open_def f := unfold f; cbv zeta; cbn [fst snd].

Ltac wstrip :=
  repeat match goal with
  | |- wait_fresh (set_sdkClientId _ ?r) => change (wait_fresh r)
  | |- wait_fresh (set_ws _ ?r) => change (wait_fresh r)
  | |- wait_fresh (set_state _ ?r) => change (wait_fresh r)
  | |- wait_fresh (set_pendingActions _ ?r) => change (wait_fresh r)
  | |- wait_fresh (set_stateListeners _ ?r) => change (wait_fresh r)
  | |- wait_fresh (set_connectPromise _ ?r) => change (wait_fresh r)
  | |- wait_fresh (set_connectionState _ ?r) => change (wait_fresh r)
  | |- wait_fresh (set_reconnectAttempt _ ?r) => change (wait_fresh r)
  | |- wait_fresh (set_reconnectTimer _ ?r) => change (wait_fresh r)
  | |- wait_fresh (set_intentionalDisconnect _ ?r) => change (wait_fresh r)
  | |- wait_fresh (set_sockets _ ?r) => change (wait_fresh r)
  | |- wait_fresh (set_awaiters _ ?r) => change (wait_fresh r)
  | |- wait_fresh (set_microtasks _ ?r) => change (wait_fresh r)
  | |- wait_fresh (set_notified _ ?r) => change (wait_fresh r)
  end.


(* What holds of the connection state and the attempt counter under a
   configuration: the counter is not negative and not beyond the configured
   maximum, zero while connected, at least one while reconnecting. *)
Definition attempt_ok (cfg : SDKConfig) (c : ConnectionState * Z) : Prop :=
  (0 <= snd c)%Z
  /\ (forall m, reconnectMaxRetries cfg = Finite m -> (snd c <= Z.max 0 m)%Z)
  /\ (fst c = connected -> snd c = 0%Z)
  /\ (fst c = reconnecting -> (1 <= snd c)%Z).

(* A configuration under which no retry is ever scheduled. *)
Definition retries_off (cfg : SDKConfig) : Prop :=
  autoReconnect cfg = false
  \/ exists m, reconnectMaxRetries cfg = Finite m /\ (m <= 0)%Z.

Definition no_retries_config : SDKConfigInput :=
  {| in_botUsername := "bot"; in_actionTimeout := None; in_autoReconnect := None;
     in_reconnectMaxRetries := Some (Finite 0); in_reconnectBaseDelay := None;
     in_reconnectMaxDelay := None |}.


(* What the closure of waitForConnection number [n] leaves behind when it has
   ended the wait with [o]: no listener of its own, its promise settled, its
   timer gone. *)
Definition connection_wait_over (n : nat) (o : Outcome) (r : Runtime) : Prop :=
  (forall x, In x (connectionListeners r) -> connection_listener_id x <> Closure n)
  /\ In (waitForConnection_promise n, o) (settles r)
  /\ alist_get TimerId_eq_dec (waitForConnection_timer_id n) (timers r) = None.


(* An action message of the bot [user]. *)
Definition action_by (user : string) (m : OutMessage) : Prop :=
  exists actionId action, m = sdk_action user actionId action.

(* The messages this SDK writes: its identify message and its actions. *)
Definition own_message (user clientId : string) (m : OutMessage) : Prop :=
  m = sdk_connect user clientId \/ action_by user m.

(* What may have been written to a socket: nothing, or the identify message
   followed by messages of this SDK. *)
Definition identified (user clientId : string) (l : list OutMessage) : Prop :=
  l = []
  \/ exists rest, l = sdk_connect user clientId :: rest
                  /\ Forall (own_message user clientId) rest.

(* The sockets that connect() made and the bookkeeping around them: serial
   numbers in use were drawn before; nothing was sent on a socket that is
   still connecting; what was sent on a socket begins with the identify
   message of this SDK; the current socket exists, is not closed and, once
   open, has had the identify message; the promise kept in connectPromise
   is that of the current socket. *)
Definition SocketsOk (user clientId : string) (socks : list (nat * WebSocket))
    (cur : option nat) (cp : option Promise) (nid : nat)
    (setl : list (Promise * Outcome)) (tim : list (TimerId * Timer)) : Prop :=
  (forall s sock, alist_get Nat.eq_dec s socks = Some sock -> s < nid)
  /\ (forall s sock, alist_get Nat.eq_dec s socks = Some sock ->
        readyState sock = CONNECTING -> sent sock = [])
  /\ (forall s sock, alist_get Nat.eq_dec s socks = Some sock ->
        identified user clientId (sent sock))
  /\ (forall s, cur = Some s ->
        exists sock, alist_get Nat.eq_dec s socks = Some sock
                     /\ readyState sock <> CLOSED
                     /\ (readyState sock = OPEN -> sent sock <> []))
  /\ cp = option_map connect_promise cur
  /\ (forall n o, In (connect_promise n, o) setl -> n < nid)
  /\ (forall n tm, alist_get TimerId_eq_dec (handshake_timer_id n) tim = Some tm -> n < nid).

Definition sockets_ok (r : Runtime) : Prop :=
  SocketsOk (botUsername (config r)) (sdkClientId r) (sockets r) (ws r)
            (connectPromise r) (next_id r) (settles r) (timers r).

(* A promise of sendAction. *)
Definition is_action (p : Promise) : Prop := exists n, p = action_promise n.

Ltac sstrip :=
  repeat match goal with
  | |- sockets_ok (set_state _ ?r) => change (sockets_ok r)
  | |- sockets_ok (set_pendingActions _ ?r) => change (sockets_ok r)
  | |- sockets_ok (set_stateListeners _ ?r) => change (sockets_ok r)
  | |- sockets_ok (set_connectionListeners _ ?r) => change (sockets_ok r)
  | |- sockets_ok (set_connectionState _ ?r) => change (sockets_ok r)
  | |- sockets_ok (set_reconnectAttempt _ ?r) => change (sockets_ok r)
  | |- sockets_ok (set_reconnectTimer _ ?r) => change (sockets_ok r)
  | |- sockets_ok (set_intentionalDisconnect _ ?r) => change (sockets_ok r)
  | |- sockets_ok (set_awaiters _ ?r) => change (sockets_ok r)
  | |- sockets_ok (set_microtasks _ ?r) => change (sockets_ok r)
  | |- sockets_ok (set_notified _ ?r) => change (sockets_ok r)
  end.


Definition stale_timer_trace : list Event :=
  [call_connect; call_disconnect; call_connect; ws_open 3;
   ws_message 3 sdk_connected_message].


(* A retry is on its way: a socket is current, or a reconnect timer is
   set. *)
Definition retry_pending (r : Runtime) : Prop :=
  ws r <> None
  \/ exists n tm, alist_get TimerId_eq_dec (reconnect_timer_id n) (timers r) = Some tm.

Definition retry_ok (r : Runtime) : Prop :=
  connectionState r = reconnecting -> retry_pending r.

(* [r'] has the current socket and the reconnect timers of [r]. *)
Definition same_retry (r r' : Runtime) : Prop :=
  ws r' = ws r
  /\ forall n, alist_get TimerId_eq_dec (reconnect_timer_id n) (timers r')
               = alist_get TimerId_eq_dec (reconnect_timer_id n) (timers r).

Definition other_timer (t : TimerId) : Prop := forall n, t <> reconnect_timer_id n.

Ltac qstrip :=
  repeat match goal with
  | |- same_retry ?a (set_state _ ?r) => change (same_retry a r)
  | |- same_retry ?a (set_pendingActions _ ?r) => change (same_retry a r)
  | |- same_retry ?a (set_stateListeners _ ?r) => change (same_retry a r)
  | |- same_retry ?a (set_connectionListeners _ ?r) => change (same_retry a r)
  | |- same_retry ?a (set_connectionState _ ?r) => change (same_retry a r)
  | |- same_retry ?a (set_connectPromise _ ?r) => change (same_retry a r)
  | |- same_retry ?a (set_reconnectAttempt _ ?r) => change (same_retry a r)
  | |- same_retry ?a (set_reconnectTimer _ ?r) => change (same_retry a r)
  | |- same_retry ?a (set_intentionalDisconnect _ ?r) => change (same_retry a r)
  | |- same_retry ?a (set_awaiters _ ?r) => change (same_retry a r)
  | |- same_retry ?a (set_microtasks _ ?r) => change (same_retry a r)
  | |- same_retry ?a (set_notified _ ?r) => change (same_retry a r)
  | |- same_retry ?a (set_settles _ ?r) => change (same_retry a r)
  | |- same_retry ?a (set_next_id _ ?r) => change (same_retry a r)
  | |- same_retry ?a (set_sockets _ ?r) => change (same_retry a r)
  | |- same_retry ?a (settle _ _ ?r) => change (same_retry a r)
  | |- same_retry ?a (fresh ?r) => change (same_retry a r)
  end.


(* What the callers see of the world: the snapshot kept and the calls made
   to their state listeners. *)
Definition seen (r : Runtime) : option json * list (FnId * json) :=
  (state r, notified r).

(* The message is a state push with the truthy snapshot [snapshot]. *)
Definition pushes (data : wire) (snapshot : json) : Prop :=
  exists m, data = JSON m
            /\ m <> JNull
            /\ is_string "sdk_state" (member "type" m) = true
            /\ member "state" m = Some snapshot
            /\ truthy (Some snapshot) = true.


(* The promises, timers and listeners of waitForConnection and
   waitForCondition. *)
Definition wait_promise (p : Promise) : Prop :=
  match p with
  | waitForConnection_promise _ | waitForCondition_promise _ => True
  | _ => False
  end.

Definition wait_timer (t : TimerId) : Prop :=
  match t with
  | waitForConnection_timer_id _ | waitForCondition_timer_id _ => True
  | _ => False
  end.

(* The bookkeeping of the waits: a listener of a wait is subscribed exactly
   while the timer of the wait is set, and then the promise of the wait has
   not been settled; no promise of a wait is settled twice; the sets hold a
   function once; serial numbers not drawn yet are not in use. *)
Record WaitsOk (cl : list ConnectionListener) (sl : list StateListener)
    (tim : list (TimerId * Timer)) (setl : list (Promise * Outcome)) (nid : nat)
    : Prop := {
  wo_cl_nodup : NoDup (map connection_listener_id cl);
  wo_sl_nodup : NoDup (map state_listener_id sl);
  wo_cl_live : forall k, In (waitForConnection_listener k) cl ->
    settle_calls (waitForConnection_promise k) setl = 0
    /\ exists ms, alist_get TimerId_eq_dec (waitForConnection_timer_id k) tim
                  = Some {| delay := ms; callback := waitForConnection_timeout k |};
  wo_cl_timer : forall k tm,
    alist_get TimerId_eq_dec (waitForConnection_timer_id k) tim = Some tm ->
    In (waitForConnection_listener k) cl;
  wo_cl_once : forall k, settle_calls (waitForConnection_promise k) setl <= 1;
  wo_sl_live : forall k f, In (waitForCondition_listener k f) sl ->
    settle_calls (waitForCondition_promise k) setl = 0
    /\ exists ms, alist_get TimerId_eq_dec (waitForCondition_timer_id k) tim
                  = Some {| delay := ms; callback := waitForCondition_timeout k |};
  wo_sl_timer : forall k tm,
    alist_get TimerId_eq_dec (waitForCondition_timer_id k) tim = Some tm ->
    exists f, In (waitForCondition_listener k f) sl;
  wo_sl_once : forall k, settle_calls (waitForCondition_promise k) setl <= 1;
  wo_fresh : forall k, nid <= k ->
    settle_calls (waitForConnection_promise k) setl = 0
    /\ settle_calls (waitForCondition_promise k) setl = 0
    /\ ~ In (waitForConnection_listener k) cl
    /\ forall f, ~ In (waitForCondition_listener k f) sl
}.

Arguments wo_cl_nodup {cl sl tim setl nid} _.
Arguments wo_sl_nodup {cl sl tim setl nid} _.
Arguments wo_cl_live {cl sl tim setl nid} _.
Arguments wo_cl_timer {cl sl tim setl nid} _.
Arguments wo_cl_once {cl sl tim setl nid} _.
Arguments wo_sl_live {cl sl tim setl nid} _.
Arguments wo_sl_timer {cl sl tim setl nid} _.
Arguments wo_sl_once {cl sl tim setl nid} _.
Arguments wo_fresh {cl sl tim setl nid} _.

Definition waits_ok (r : Runtime) : Prop :=
  WaitsOk (connectionListeners r) (stateListeners r) (timers r) (settles r) (next_id r).

Ltac ostrip :=
  repeat match goal with
  | |- waits_ok (set_state _ ?r) => change (waits_ok r)
  | |- waits_ok (set_pendingActions _ ?r) => change (waits_ok r)
  | |- waits_ok (set_connectionState _ ?r) => change (waits_ok r)
  | |- waits_ok (set_connectPromise _ ?r) => change (waits_ok r)
  | |- waits_ok (set_reconnectAttempt _ ?r) => change (waits_ok r)
  | |- waits_ok (set_reconnectTimer _ ?r) => change (waits_ok r)
  | |- waits_ok (set_intentionalDisconnect _ ?r) => change (waits_ok r)
  | |- waits_ok (set_awaiters _ ?r) => change (waits_ok r)
  | |- waits_ok (set_microtasks _ ?r) => change (waits_ok r)
  | |- waits_ok (set_notified _ ?r) => change (waits_ok r)
  | |- waits_ok (set_sockets _ ?r) => change (waits_ok r)
  | |- waits_ok (set_ws _ ?r) => change (waits_ok r)
  end.




(** * Properties *)

(** ** Insertion-ordered maps *)

Section AListFacts.
Context {K V : Type}.
Variable eq_dec : forall a b : K, {a = b} + {a <> b}.
Implicit Types (m : list (K * V)) (k : K) (v : V).

Lemma alist_get_set_eq m k v : alist_get eq_dec k (alist_set eq_dec k v m) = Some v.
Proof.
  induction m as [|[k' v'] m IH]; simpl.
  - destruct (eq_dec k k); congruence.
  - destruct (eq_dec k k') as [->|Hn]; simpl.
    + destruct (eq_dec k' k'); congruence.
    + destruct (eq_dec k k'); congruence.
Qed.

Lemma alist_get_set_neq m k k' v :
  k' <> k -> alist_get eq_dec k' (alist_set eq_dec k v m) = alist_get eq_dec k' m.
Proof.
  intros Hne. induction m as [|[k0 v0] m IH]; simpl.
  - destruct (eq_dec k' k); congruence.
  - destruct (eq_dec k k0) as [->|Hn]; simpl.
    + destruct (eq_dec k' k0); congruence.
    + destruct (eq_dec k' k0); congruence.
Qed.

Lemma alist_get_delete_eq m k : alist_get eq_dec k (alist_delete eq_dec k m) = None.
Proof.
  induction m as [|[k' v'] m IH]; simpl; auto.
  destruct (eq_dec k k') as [->|Hn]; simpl; auto.
  destruct (eq_dec k k'); congruence.
Qed.

Lemma alist_get_delete_neq m k k' :
  k' <> k -> alist_get eq_dec k' (alist_delete eq_dec k m) = alist_get eq_dec k' m.
Proof.
  intros Hne. induction m as [|[k0 v0] m IH]; simpl; auto.
  destruct (eq_dec k k0) as [->|Hn]; simpl.
  - destruct (eq_dec k' k0); congruence.
  - destruct (eq_dec k' k0); congruence.
Qed.

Lemma alist_get_In m k v : alist_get eq_dec k m = Some v -> In (k, v) m.
Proof.
  induction m as [|[k' v'] m IH]; simpl; [discriminate|].
  destruct (eq_dec k k') as [->|Hn]; intros H.
  - left. congruence.
  - right. auto.
Qed.

Lemma alist_get_None m k : alist_get eq_dec k m = None -> ~ In k (keys m).
Proof.
  induction m as [|[k' v'] m IH]; simpl; auto.
  destruct (eq_dec k k') as [->|Hn]; [discriminate|].
  intros H [Hk|Hk]; [congruence|]. now apply IH.
Qed.

Lemma alist_not_In_get m k : ~ In k (keys m) -> alist_get eq_dec k m = None.
Proof.
  induction m as [|[k' v'] m IH]; simpl; auto.
  intros H. destruct (eq_dec k k') as [->|Hn]; [tauto|]. apply IH. tauto.
Qed.

Lemma alist_In_get m k v : NoDup (keys m) -> In (k, v) m -> alist_get eq_dec k m = Some v.
Proof.
  induction m as [|[k' v'] m IH]; simpl; [tauto|].
  intros Hnd [Heq|Hin].
  - inversion Heq; subst. destruct (eq_dec k k); congruence.
  - inversion Hnd as [|? ? Hnotin Hnd']; subst.
    destruct (eq_dec k k') as [->|Hn]; [|auto].
    exfalso. apply Hnotin. change k' with (fst (k', v)). now apply in_map.
Qed.

Lemma alist_In_delete m k k' v :
  In (k', v) (alist_delete eq_dec k m) <-> In (k', v) m /\ k' <> k.
Proof.
  induction m as [|[k0 v0] m IH]; simpl; [tauto|].
  destruct (eq_dec k k0) as [->|Hn]; simpl.
  - rewrite IH. split; [tauto|]. intros [[Heq|Hin] Hne]; [|tauto].
    inversion Heq; subst. tauto.
  - rewrite IH. split.
    + intros [Heq|[Hin Hne]]; [|tauto]. inversion Heq; subst. split; auto.
    + tauto.
Qed.

Lemma alist_keys_delete m k k' :
  In k' (keys (alist_delete eq_dec k m)) <-> In k' (keys m) /\ k' <> k.
Proof.
  induction m as [|[k0 v0] m IH]; simpl; [tauto|].
  destruct (eq_dec k k0) as [->|Hn]; simpl.
  - rewrite IH. split; [tauto|]. intros [[Heq|Hin] Hne]; [congruence|tauto].
  - rewrite IH. split.
    + intros [Heq|[Hin Hne]]; [|tauto]. subst. split; auto.
    + tauto.
Qed.

Lemma alist_NoDup_delete m k : NoDup (keys m) -> NoDup (keys (alist_delete eq_dec k m)).
Proof.
  induction m as [|[k0 v0] m IH]; simpl; auto.
  intros Hnd. inversion Hnd as [|? ? Hnotin Hnd']; subst.
  destruct (eq_dec k k0) as [->|Hn]; simpl; auto.
  constructor; auto. rewrite alist_keys_delete. tauto.
Qed.

Lemma alist_set_fresh m k v : ~ In k (keys m) -> alist_set eq_dec k v m = m ++ [(k, v)].
Proof.
  induction m as [|[k0 v0] m IH]; simpl; auto.
  intros H. destruct (eq_dec k k0) as [->|Hn]; [tauto|].
  f_equal. apply IH. tauto.
Qed.

Lemma alist_keys_set m k v k' :
  In k' (keys (alist_set eq_dec k v m)) <-> k' = k \/ In k' (keys m).
Proof.
  induction m as [|[k0 v0] m IH]; simpl.
  - intuition congruence.
  - destruct (eq_dec k k0) as [->|Hn]; simpl.
    + intuition congruence.
    + rewrite IH. intuition congruence.
Qed.

Lemma alist_NoDup_set m k v : NoDup (keys m) -> NoDup (keys (alist_set eq_dec k v m)).
Proof.
  induction m as [|[k0 v0] m IH]; simpl.
  - intros _. constructor; [simpl; tauto|constructor].
  - intros Hnd. inversion Hnd as [|? ? Hnotin Hnd']; subst.
    destruct (eq_dec k k0) as [->|Hn]; simpl.
    + constructor; auto.
    + constructor; auto. rewrite alist_keys_set. intuition congruence.
Qed.
End AListFacts.

(** ** Where an action promise can be

    A promise returned by sendAction is, until it is settled, held in exactly
    one place: an entry of the pending map, a continuation parked on
    waitForConnection, a continuation in the microtask queue, or the code
    that is running. *)


Lemma settle_calls_cons p q o log :
  settle_calls p ((q, o) :: log) = (if Promise_eq_dec p q then 1 else 0) + settle_calls p log.
Proof. reflexivity. Qed.

Lemma queued_count_app p l1 l2 :
  queued_count p (l1 ++ l2) = queued_count p l1 + queued_count p l2.
Proof. unfold queued_count. now rewrite filter_app, length_app. Qed.

Lemma parked_count_split p q aw o :
  parked_count p (filter (fun a => negb (awaits q a)) aw)
  + queued_count p (map (fun a => (snd a, o)) (filter (awaits q) aw))
  = parked_count p aw.
Proof.
  unfold parked_count, queued_count.
  induction aw as [|a aw IH]; simpl; auto.
  destruct (awaits q a); simpl.
  - destruct (is_promise p (result_of (snd a))); simpl; lia.
  - destruct (is_promise p (result_of (snd a))); simpl; lia.
Qed.

Lemma filter_all {A} (f : A -> bool) l : (forall x, In x l -> f x = true) -> filter f l = l.
Proof.
  induction l as [|a l IH]; simpl; auto.
  intros H. rewrite (H a) by auto. f_equal. auto.
Qed.

Lemma filter_none {A} (f : A -> bool) l : (forall x, In x l -> f x = false) -> filter f l = [].
Proof.
  induction l as [|a l IH]; simpl; auto.
  intros H. rewrite (H a) by auto. auto.
Qed.

(** ** Steps that keep the invariant *)

Lemma is_promise_true p q : is_promise p q = true <-> p = q.
Proof. unfold is_promise. destruct (Promise_eq_dec p q); split; congruence. Qed.

Lemma awaits_true p a : awaits p a = true <-> fst a = p.
Proof. unfold awaits. destruct (Promise_eq_dec (fst a) p); split; congruence. Qed.

Lemma no_awaiter {base unacked x H cfg pend tim setl aw mt nid sl cl st} q :
  InvC base unacked x H cfg pend tim setl aw mt nid sl cl st ->
  (forall m, q <> waitForConnection_promise m) ->
  filter (awaits q) aw = [] /\ filter (fun a => negb (awaits q a)) aw = aw.
Proof.
  intros HI Hq. split.
  - apply filter_none. intros [q' k] Hin.
    destruct (inv_parked_wait HI _ _ Hin) as (m & ms & -> & _).
    unfold awaits; simpl.
    destruct (Promise_eq_dec (waitForConnection_promise m) q) as [E|E]; simpl; auto;
    exfalso; apply (Hq m); congruence.
  - apply filter_all. intros [q' k] Hin.
    destruct (inv_parked_wait HI _ _ Hin) as (m & ms & -> & _).
    unfold awaits; simpl.
    destruct (Promise_eq_dec (waitForConnection_promise m) q) as [E|E]; simpl; auto;
    exfalso; apply (Hq m); congruence.
Qed.

Lemma InvG_settle_quiet base unacked x rest H r q o :
  (forall n, q <> action_promise n) ->
  (forall n, q <> waitForConnection_promise n) ->
  (unacked = true -> forall n v, (q, o) <> (connect_promise n, Resolved v)) ->
  InvG base unacked x rest H r -> InvG base unacked x rest H (settle q o r).
Proof.
  intros Ha Hw Hu HI. unfold InvG, settle in *; simpl.
  destruct (no_awaiter q HI Hw) as [-> ->]. simpl. rewrite app_nil_r.
  destruct HI as [c1 c2 c3 c4 c5 c6 c7 c8 c9 c10 c11 c12 c13 c14 c15 c16 c17 c18].
  constructor; auto.
  - intros s p Hin. specialize (c1 s p Hin). rewrite settle_calls_cons.
    destruct (c5 _ _ Hin) as (n & -> & _).
    destruct (Promise_eq_dec (action_promise n) q) as [<-|]; [exfalso; eapply Ha; eauto|].
    simpl. lia.
  - intros n o' [Heq|Hin]; [inversion Heq; subst; exfalso; eapply Ha; eauto|eauto].
  - destruct c16 as [newer ->]. eexists (_ :: newer). reflexivity.
  - intros Hun n v [Heq|Hin17]; [eapply Hu; eauto|eapply c17; eauto].
Qed.

Lemma alist_get_delete_Some {K V} (eq_dec : forall a b : K, {a = b} + {a <> b})
    (m : list (K * V)) k k' v :
  alist_get eq_dec k' (alist_delete eq_dec k m) = Some v ->
  k' <> k /\ alist_get eq_dec k' m = Some v.
Proof.
  intros Hg. destruct (eq_dec k' k) as [->|Hne].
  - rewrite alist_get_delete_eq in Hg. discriminate.
  - rewrite alist_get_delete_neq in Hg by assumption. auto.
Qed.


Lemma InvG_clear_quiet base unacked x rest H r t :
  quiet_timer t -> InvG base unacked x rest H r -> InvG base unacked x rest H (clearTimeout t r).
Proof.
  intros Hq HI. unfold InvG, clearTimeout in *; simpl.
  destruct HI as [c1 c2 c3 c4 c5 c6 c7 c8 c9 c10 c11 c12 c13 c14 c15 c16 c17 c18].
  constructor; auto.
  - intros t' tm id p ty Hg Hcb.
    apply alist_get_delete_Some in Hg as [_ Hg]. eauto.
  - intros id pa Hin. destruct (c9 _ _ Hin) as (n & ty & Ht & Hn & Hg).
    exists n, ty. repeat split; auto.
    rewrite alist_get_delete_neq; auto. rewrite Ht. intros E. rewrite <- E in Hq. exact Hq.
  - intros q k Hin. destruct (c11 _ _ Hin) as (m & ms & Hqm & Hm & Hl & Hg).
    exists m, ms. repeat split; auto.
    rewrite alist_get_delete_neq; auto. intros E. rewrite <- E in Hq. exact Hq.
  - intros t' tm Hg. apply alist_get_delete_Some in Hg as [_ Hg]. eauto.
  - intros n18 tm18 Hg18. apply alist_get_delete_Some in Hg18 as [_ Hg18]. eauto.
Qed.

Lemma InvG_setTimeout base unacked x rest H r t cb ms :
  (forall id p ty, cb <> action_timeout id p ty) ->
  timer_kind t cb ->
  (forall n, t = handshake_timer_id n -> ms = 10000%Z) ->
  InvG base unacked x rest H r -> InvG base unacked x rest H (setTimeout t cb ms r).
Proof.
  intros Hcb Hk Hms HI. unfold InvG, setTimeout in *; simpl.
  destruct HI as [c1 c2 c3 c4 c5 c6 c7 c8 c9 c10 c11 c12 c13 c14 c15 c16 c17 c18].
  assert (Hna : forall n, t <> action_timer_id n).
  { intros n ->. destruct cb; simpl in Hk; try discriminate;
      try (destruct Hk; discriminate). eapply Hcb; eauto. }
  constructor; auto.
  - intros t' tm id p ty Hg Hc.
    destruct (TimerId_eq_dec t' t) as [->|Hne].
    + rewrite alist_get_set_eq in Hg. inversion Hg; subst. simpl in Hc.
      exfalso. eapply Hcb; eauto.
    + rewrite alist_get_set_neq in Hg by assumption. eauto.
  - intros id pa Hin. destruct (c9 _ _ Hin) as (n & ty & Ht & Hn & Hg).
    exists n, ty. repeat split; auto.
    rewrite alist_get_set_neq; auto. rewrite Ht. intros E. eapply Hna; eauto.
  - intros q k Hin. destruct (c11 _ _ Hin) as (m & ms' & Hqm & Hm & Hl & Hg).
    destruct (TimerId_eq_dec (waitForConnection_timer_id m) t) as [<-|Hne].
    + exists m, ms. repeat split; auto. rewrite alist_get_set_eq.
      destruct cb; simpl in Hk; try discriminate; try (destruct Hk; discriminate).
      inversion Hk; subst. reflexivity.
    + exists m, ms'. repeat split; auto. rewrite alist_get_set_neq; auto.
  - intros t' tm Hg. destruct (TimerId_eq_dec t' t) as [->|Hne].
    + rewrite alist_get_set_eq in Hg. inversion Hg; subst. exact Hk.
    + rewrite alist_get_set_neq in Hg by assumption. eauto.
  - intros n18 tm18 Hg18. destruct (TimerId_eq_dec (handshake_timer_id n18) t) as [E|Hne].
    + rewrite <- E in Hg18. rewrite alist_get_set_eq in Hg18. inversion Hg18; subst tm18.
      simpl. eapply Hms; eauto.
    + rewrite alist_get_set_neq in Hg18 by assumption. eauto.
Qed.

Lemma InvG_fresh base unacked x rest H r : InvG base unacked x rest H r -> InvG base unacked x rest H (fresh r).
Proof.
  intros HI. unfold InvG, fresh in *; simpl.
  destruct HI as [c1 c2 c3 c4 c5 c6 c7 c8 c9 c10 c11 c12 c13 c14 c15 c16 c17 c18].
  constructor; auto.
  - intros s p Hin. destruct (c5 _ _ Hin) as (n & ? & ?). exists n. split; auto.
  - intros id pa Hin. destruct (c9 _ _ Hin) as (n & ty & ? & ? & ?).
    exists n, ty. repeat split; auto.
  - intros q k Hin. destruct (c11 _ _ Hin) as (m & ms & ? & ? & ? & ?).
    exists m, ms. repeat split; auto.
  - intros m Hin. apply c12 in Hin. lia.
  - intros m f Hin. apply c13 in Hin. lia.
Qed.

Lemma fnset_delete_In {A} (ident : A -> FnId) f (l : list A) a :
  In a (fnset_delete ident f l) <-> In a l /\ ident a <> f.
Proof.
  unfold fnset_delete. rewrite filter_In. unfold is_fn.
  destruct (FnId_eq_dec (ident a) f); simpl; intuition congruence.
Qed.

Lemma fnset_add_In {A} (ident : A -> FnId) x (l : list A) a :
  In a (fnset_add ident x l) -> In a l \/ a = x.
Proof.
  unfold fnset_add. destruct (existsb _ l); auto.
  rewrite in_app_iff. simpl. intuition.
Qed.

Lemma fnset_add_old {A} (ident : A -> FnId) x (l : list A) a :
  In a l -> In a (fnset_add ident x l).
Proof.
  unfold fnset_add. destruct (existsb _ l); auto.
  rewrite in_app_iff. auto.
Qed.

Lemma InvG_unsubscribe_state base unacked x rest H r fn :
  InvG base unacked x rest H r -> InvG base unacked x rest H (unsubscribe_state fn r).
Proof.
  intros HI. unfold InvG, unsubscribe_state in *; simpl.
  destruct HI as [c1 c2 c3 c4 c5 c6 c7 c8 c9 c10 c11 c12 c13 c14 c15 c16 c17 c18].
  constructor; auto.
  intros m f Hin. apply fnset_delete_In in Hin as [Hin _]. eauto.
Qed.

Lemma InvG_unsubscribe_user base unacked x rest H r fn :
  InvG base unacked x rest H r -> InvG base unacked x rest H (unsubscribe_connection (UserFn fn) r).
Proof.
  intros HI. unfold InvG, unsubscribe_connection in *; simpl.
  destruct HI as [c1 c2 c3 c4 c5 c6 c7 c8 c9 c10 c11 c12 c13 c14 c15 c16 c17 c18].
  constructor; auto.
  - intros q k Hin. destruct (c11 _ _ Hin) as (m & ms & ? & ? & ? & ?).
    exists m, ms. repeat split; auto. apply fnset_delete_In. split; auto.
    simpl. discriminate.
  - intros m Hin. apply fnset_delete_In in Hin as [Hin _]. eauto.
Qed.

Lemma InvG_onStateUpdate base unacked x rest H r l :
  match l with
  | waitForCondition_listener n _ => n < next_id r
  | _ => True
  end ->
  InvG base unacked x rest H r -> InvG base unacked x rest H (onStateUpdate l r).
Proof.
  intros Hl HI. unfold InvG, onStateUpdate in *; simpl.
  destruct HI as [c1 c2 c3 c4 c5 c6 c7 c8 c9 c10 c11 c12 c13 c14 c15 c16 c17 c18].
  constructor; auto.
  intros m f Hin. apply fnset_add_In in Hin as [Hin|E]; [eauto|subst l; exact Hl].
Qed.

Lemma InvG_onConnectionStateChange base unacked x rest H r l :
  match l with
  | waitForConnection_listener n => n < next_id r
  | _ => True
  end ->
  InvG base unacked x rest H r -> InvG base unacked x rest H (onConnectionStateChange l r).
Proof.
  intros Hl HI. unfold InvG, onConnectionStateChange in *; simpl.
  destruct HI as [c1 c2 c3 c4 c5 c6 c7 c8 c9 c10 c11 c12 c13 c14 c15 c16 c17 c18].
  constructor; auto.
  - intros q k Hin. destruct (c11 _ _ Hin) as (m & ms & ? & ? & ? & ?).
    exists m, ms. repeat split; auto. now apply fnset_add_old.
  - intros m Hin. apply fnset_add_In in Hin as [Hin|E]; [eauto|subst l; exact Hl].
Qed.

(* The closure of waitForConnection number [n] ends its wait. *)
Lemma InvG_wake base unacked x rest H r n o :
  InvG base unacked x rest H r ->
  InvG base unacked x rest H
    (settle (waitForConnection_promise n) o
       (unsubscribe_connection (Closure n)
          (clearTimeout (waitForConnection_timer_id n) r))).
Proof.
  intros HI. unfold InvG, settle, unsubscribe_connection, clearTimeout in *; simpl.
  destruct HI as [c1 c2 c3 c4 c5 c6 c7 c8 c9 c10 c11 c12 c13 c14 c15 c16 c17 c18].
  set (q := waitForConnection_promise n).
  constructor; auto.
  - intros s p Hin. specialize (c1 s p Hin).
    rewrite settle_calls_cons.
    destruct (c5 _ _ Hin) as (k & -> & _).
    destruct (Promise_eq_dec (action_promise k) q) as [E|E]; [discriminate|].
    rewrite app_assoc, queued_count_app.
    pose proof (parked_count_split (action_promise k) q (awaiters r) o). lia.
  - intros q' k Hin. apply filter_In in Hin as [Hin _]. eauto.
  - intros k o' Hin. rewrite in_app_iff in Hin. destruct Hin as [Hin|Hin].
    + apply (c4 k o'). rewrite in_app_iff. auto.
    + rewrite in_app_iff in Hin. destruct Hin as [Hin|Hin].
      * apply (c4 k o'). rewrite in_app_iff. auto.
      * apply in_map_iff in Hin as ([q' k'] & Heq & Hin). simpl in Heq.
        inversion Heq; subst. apply filter_In in Hin as [Hin _]. eauto.
  - intros m o' [Heq|Hin]; [discriminate|eauto].
  - intros t' tm id p ty Hg Hcb.
    apply alist_get_delete_Some in Hg as [_ Hg]. eauto.
  - intros id pa Hin. destruct (c9 _ _ Hin) as (k & ty & Ht & Hn & Hg).
    exists k, ty. repeat split; auto.
    rewrite alist_get_delete_neq; auto. rewrite Ht. discriminate.
  - intros q' k Hin. apply filter_In in Hin as [Hin Hnot].
    destruct (c11 _ _ Hin) as (m & ms & Hqm & Hm & Hl & Hg). subst q'.
    assert (Hmn : m <> n).
    { intros ->. unfold awaits in Hnot. simpl in Hnot. fold q in Hnot.
      destruct (Promise_eq_dec q q); [discriminate|congruence]. }
    exists m, ms. repeat split; auto.
    + apply fnset_delete_In. split; auto. simpl. congruence.
    + rewrite alist_get_delete_neq; auto. congruence.
  - intros m Hin. apply fnset_delete_In in Hin as [Hin _]. eauto.
  - intros t' tm Hg. apply alist_get_delete_Some in Hg as [_ Hg]. eauto.
  - destruct c16 as [newer ->]. eexists (_ :: newer). reflexivity.
  - intros Hun m v [Heq|Hin17]; [discriminate|eapply c17; eauto].
  - intros n18 tm18 Hg18. apply alist_get_delete_Some in Hg18 as [_ Hg18]. eauto.
Qed.


(* The invariant reads nine fields; a step that leaves them alone keeps it. *)
Lemma InvG_ext base unacked x rest H r r' :
  config r' = config r ->
  pendingActions r' = pendingActions r -> timers r' = timers r ->
  settles r' = settles r -> awaiters r' = awaiters r ->
  microtasks r' = microtasks r -> next_id r' = next_id r ->
  stateListeners r' = stateListeners r ->
  connectionListeners r' = connectionListeners r -> state r' = state r ->
  InvG base unacked x rest H r -> InvG base unacked x rest H r'.
Proof.
  unfold InvG. intros -> -> -> -> -> -> -> -> -> ->. auto.
Qed.


Lemma InvG_update_socket base unacked x rest H r s f :
  InvG base unacked x rest H r -> InvG base unacked x rest H (update_socket s f r).
Proof. unfold update_socket. destruct (find_socket s r); auto. Qed.

Lemma InvG_ws_close_method base unacked x rest H r s :
  InvG base unacked x rest H r -> InvG base unacked x rest H (ws_close_method s r).
Proof. apply InvG_update_socket. Qed.

Lemma InvG_send base unacked x rest H r m : InvG base unacked x rest H r -> InvG base unacked x rest H (send m r).
Proof.
  unfold send. destruct (ws r); auto. destruct (isConnected r); auto.
  apply InvG_update_socket.
Qed.

Lemma fold_left_keeps {A B} (P : A -> Prop) (f : A -> B -> A) l a :
  (forall a x, P a -> P (f a x)) -> P a -> P (fold_left f l a).
Proof. intros Hf. revert a. induction l; simpl; auto. Qed.

Lemma InvG_call_connection_listener base unacked x rest H st attempt l r :
  InvG base unacked x rest H r -> InvG base unacked x rest H (try_catch (call_connection_listener st attempt l) r).
Proof.
  intros HI. unfold try_catch, call_connection_listener.
  destruct l as [fn throws|n]; cbn [fst]; auto.
  destruct st; cbn [fst]; auto using InvG_wake.
Qed.

Lemma InvG_setConnectionState base unacked x rest H st attempt r :
  InvG base unacked x rest H r -> InvG base unacked x rest H (setConnectionState st attempt r).
Proof.
  intros HI. open_def setConnectionState.
  apply fold_left_keeps; [intros; now apply InvG_call_connection_listener|].
  strip. exact HI.
Qed.

Lemma InvG_connect base unacked x rest H r : InvG base unacked x rest H r -> InvG base unacked x rest H (fst (connect r)).
Proof.
  intros HI. open_def connect.
  destruct (isConnected r); cbn [fst].
  - apply InvG_settle_quiet; try discriminate; try (intros _ ? ?; discriminate). now apply InvG_fresh.
  - destruct (connectPromise r); cbn [fst]; auto.
    strip. apply InvG_setTimeout; [discriminate|reflexivity|first [reflexivity|discriminate]|].
    strip. apply InvG_fresh.
    destruct (ConnectionState_eqb _ _); strip; auto.
    apply InvG_setConnectionState. strip. exact HI.
Qed.

Lemma InvG_scheduleReconnect base unacked x rest H r :
  InvG base unacked x rest H r -> InvG base unacked x rest H (scheduleReconnect r).
Proof.
  intros HI. open_def scheduleReconnect.
  destruct (reaches _ _).
  - now apply InvG_setConnectionState.
  - strip. apply InvG_setTimeout; [discriminate|simpl; eauto|discriminate|].
    apply InvG_fresh. apply InvG_setConnectionState. strip. exact HI.
Qed.

Lemma InvG_disconnect base unacked x rest H r : InvG base unacked x rest H r -> InvG base unacked x rest H (fst (disconnect r)).
Proof.
  intros HI. open_def disconnect.
  apply InvG_settle_quiet; try discriminate; try (intros _ ? ?; discriminate). apply InvG_fresh.
  apply InvG_setConnectionState. strip.
  match goal with |- InvG _ _ _ _ _ (match ws ?r1 with _ => _ end) =>
    assert (H1 : InvG base unacked x rest H r1); [|destruct (ws r1); strip; auto using InvG_ws_close_method]
  end.
  destruct (reconnectTimer _); strip; auto.
  apply InvG_clear_quiet; simpl; auto.
Qed.

Lemma InvG_waitForConnection base unacked x rest H ms r :
  InvG base unacked x rest H r -> InvG base unacked x rest H (fst (waitForConnection ms r)).
Proof.
  intros HI. open_def waitForConnection.
  destruct (isConnected (fresh r)); cbn [fst].
  - apply InvG_settle_quiet; try discriminate; try (intros _ ? ?; discriminate). now apply InvG_fresh.
  - apply InvG_onConnectionStateChange; [simpl; lia|].
    apply InvG_setTimeout; [discriminate|reflexivity|first [reflexivity|discriminate]|]. now apply InvG_fresh.
Qed.

Lemma InvG_subscribe_waitForCondition base unacked x rest H f ms r :
  InvG base unacked x rest H r -> InvG base unacked x rest H (fst (subscribe_waitForCondition f ms (next_id r) (fresh r))).
Proof.
  intros HI. open_def subscribe_waitForCondition.
  apply InvG_onStateUpdate; [simpl; lia|].
  apply InvG_setTimeout; [discriminate|reflexivity|first [reflexivity|discriminate]|]. now apply InvG_fresh.
Qed.

Lemma InvG_waitForCondition base unacked x rest H f ms r :
  InvG base unacked x rest H r -> InvG base unacked x rest H (fst (waitForCondition f ms r)).
Proof.
  intros HI. open_def waitForCondition.
  change (state (fresh r)) with (state r).
  destruct (state r) as [current|].
  - destruct (truthy (Some current) && f current); cbn [fst].
    + apply InvG_settle_quiet; try discriminate; try (intros _ ? ?; discriminate). now apply InvG_fresh.
    + now apply InvG_subscribe_waitForCondition.
  - now apply InvG_subscribe_waitForCondition.
Qed.

Lemma InvG_call_state_listener base unacked x rest H snapshot l r :
  InvG base unacked x rest H r -> InvG base unacked x rest H (try_catch (call_state_listener snapshot l) r).
Proof.
  intros HI. unfold try_catch, call_state_listener.
  destruct l as [fn throws|n f]; cbn [fst]; strip; auto.
  destruct (f snapshot); cbn [fst]; auto.
  apply InvG_settle_quiet; try discriminate; try (intros _ ? ?; discriminate).
  apply InvG_unsubscribe_state. apply InvG_clear_quiet; simpl; auto.
Qed.

Lemma InvG_set_state base unacked x rest H snapshot r :
  truthy (Some snapshot) = true ->
  InvG base unacked x rest H r -> InvG base unacked x rest H (set_state (Some snapshot) r).
Proof.
  intros Ht HI. unfold InvG in *; simpl.
  destruct HI as [c1 c2 c3 c4 c5 c6 c7 c8 c9 c10 c11 c12 c13 c14 c15 c16 c17 c18].
  constructor; auto. intros s Hs. inversion Hs; subst. exact Ht.
Qed.

Lemma InvG_handle_state base unacked x rest H m r :
  InvG base unacked x rest H r -> InvG base unacked x rest H (handle_state m r).
Proof.
  intros HI. unfold handle_state.
  destruct (is_string "sdk_state" (member "type" m)); cbn [andb]; auto.
  destruct (member "state" m) as [snapshot|]; auto.
  destruct (truthy (Some snapshot)) eqn:Ht; auto.
  cbv zeta.
  apply fold_left_keeps; [intros; now apply InvG_call_state_listener|].
  now apply InvG_set_state.
Qed.

Lemma InvG_onopen base unacked x rest H s r : InvG base unacked x rest H r -> InvG base unacked x rest H (onopen s r).
Proof.
  intros HI. open_def onopen. apply InvG_send. apply InvG_clear_quiet; simpl; auto.
Qed.

Lemma InvG_onerror base unacked x rest H s r : InvG base unacked x rest H r -> InvG base unacked x rest H (onerror s r).
Proof.
  intros HI. open_def onerror. apply InvG_settle_quiet; try discriminate; try (intros _ ? ?; discriminate).
  apply InvG_clear_quiet; simpl; auto.
Qed.


Lemma checkConnected_not_ack s data r : acks data = false -> checkConnected s data r = r.
Proof.
  unfold acks, checkConnected. destruct (JSON_parse data) as [m|]; auto.
  intros ->. now destruct m.
Qed.

Lemma InvG_weaken base unacked x rest H r :
  InvG base unacked x rest H r -> InvG base false x rest H r.
Proof.
  unfold InvG. intros [c1 c2 c3 c4 c5 c6 c7 c8 c9 c10 c11 c12 c13 c14 c15 c16 c17 c18].
  constructor; auto. discriminate.
Qed.

Lemma InvG_checkConnected base unacked x rest H s data r :
  InvG base unacked x rest H r ->
  InvG base (unacked && negb (acks data)) x rest H (checkConnected s data r).
Proof.
  intros HI. destruct (acks data) eqn:Hack.
  2:{ rewrite checkConnected_not_ack by assumption. now rewrite andb_true_r. }
  rewrite andb_false_r. apply InvG_weaken in HI.
  open_def checkConnected.
  destruct (JSON_parse data) as [msg|]; auto.
  assert (Hgo : InvG base false x rest H
            (if is_string "sdk_connected" (member "type" msg)
             then
               settle (connect_promise s) (Resolved None)
                 (setConnectionState connected None
                    (set_reconnectAttempt 0
                       match ws r with
                       | Some current =>
                           if Nat.eqb current s
                           then update_socket s without_checkConnected r
                           else r
                       | None => r
                       end))
             else r)).
  { destruct (is_string _ _); auto.
    apply InvG_settle_quiet; try discriminate.
    apply InvG_setConnectionState. strip.
    destruct (ws r); auto. destruct (Nat.eqb _ _); auto.
    now apply InvG_update_socket. }
  destruct msg; auto.
Qed.


Lemma in_flight_some p q : in_flight (Some q) p = if Promise_eq_dec p q then 1 else 0.
Proof. reflexivity. Qed.

Lemma pending_count_app p m1 m2 :
  pending_count p (m1 ++ m2) = pending_count p m1 + pending_count p m2.
Proof. unfold pending_count. now rewrite filter_app, length_app. Qed.

Lemma parked_count_app p l1 l2 :
  parked_count p (l1 ++ l2) = parked_count p l1 + parked_count p l2.
Proof. unfold parked_count. now rewrite filter_app, length_app. Qed.

Lemma pending_count_zero p m :
  (forall id pa, In (id, pa) m -> promise pa <> p) -> pending_count p m = 0.
Proof.
  intros Hno. unfold pending_count. rewrite filter_none; auto.
  intros [id pa] Hin. simpl. unfold is_promise.
  destruct (Promise_eq_dec p (promise pa)) as [E|E]; auto.
  exfalso. eapply Hno; eauto.
Qed.

Lemma parked_count_zero p l :
  (forall q k, In (q, k) l -> result_of k <> p) -> parked_count p l = 0.
Proof.
  intros Hno. unfold parked_count. rewrite filter_none; auto.
  intros [q k] Hin. simpl. unfold is_promise.
  destruct (Promise_eq_dec p (result_of k)) as [E|E]; auto.
  exfalso. eapply Hno; eauto.
Qed.

Lemma queued_count_zero p l :
  (forall k o, In (k, o) l -> result_of k <> p) -> queued_count p l = 0.
Proof.
  intros Hno. unfold queued_count. rewrite filter_none; auto.
  intros [k o] Hin. simpl. unfold is_promise.
  destruct (Promise_eq_dec p (result_of k)) as [E|E]; auto.
  exfalso. eapply Hno; eauto.
Qed.

Lemma settle_calls_zero p log :
  (forall o, ~ In (p, o) log) -> settle_calls p log = 0.
Proof.
  induction log as [|[q o] log IH]; simpl; auto.
  intros Hno. destruct (Promise_eq_dec p q) as [->|E].
  - exfalso. eapply Hno; eauto.
  - simpl. apply IH. intros o' Hin. eapply Hno; eauto.
Qed.

Lemma settle_calls_pos p log : 0 < settle_calls p log -> exists o, In (p, o) log.
Proof.
  induction log as [|[q o] log IH]; simpl; [lia|].
  destruct (Promise_eq_dec p q) as [->|E]; simpl.
  - eauto.
  - intros Hpos. destruct (IH Hpos) as [o' ?]. eauto.
Qed.

Lemma pending_count_pos p m id pa :
  In (id, pa) m -> promise pa = p -> 0 < pending_count p m.
Proof.
  intros Hin Hp. unfold pending_count.
  induction m as [|e m IH]; simpl in *; [tauto|].
  destruct Hin as [->|Hin]; simpl.
  - unfold is_promise. rewrite Hp. destruct (Promise_eq_dec p p); [simpl; lia|congruence].
  - destruct (is_promise p (promise (snd e))); simpl; auto. apply IH in Hin. lia.
Qed.

Lemma pending_count_delete p m id pa :
  NoDup (keys m) -> alist_get string_dec id m = Some pa ->
  pending_count p (alist_delete string_dec id m)
  + (if Promise_eq_dec p (promise pa) then 1 else 0) = pending_count p m.
Proof.
  unfold pending_count.
  induction m as [|[id' pa'] m IH]; simpl; [discriminate|].
  intros Hnd Hg. inversion Hnd as [|? ? Hnotin Hnd']; subst.
  destruct (string_dec id id') as [->|Hne].
  - inversion Hg; subst. unfold is_promise at 2.
    assert (Hdel : alist_delete string_dec id' m = m).
    { clear -Hnotin. induction m as [|[k v] m IH]; simpl in *; auto.
      destruct (string_dec id' k) as [->|]; [tauto|]. f_equal. apply IH. tauto. }
    rewrite Hdel. destruct (Promise_eq_dec p (promise pa)); simpl; lia.
  - simpl. specialize (IH Hnd' Hg).
    destruct (is_promise p (promise pa')); simpl; lia.
Qed.

Lemma actionId_of_inj s s' : actionId_of s = actionId_of s' -> s = s'.
Proof. unfold actionId_of. simpl. intros E. now inversion E. Qed.

Lemma NoDup_fst_functional {A B} (l : list (A * B)) a b b' :
  NoDup (map fst l) -> In (a, b) l -> In (a, b') l -> b = b'.
Proof.
  induction l as [|[a0 b0] l IH]; simpl; [tauto|].
  intros Hnd H1 H2. inversion Hnd as [|? ? Hnotin Hnd']; subst.
  destruct H1 as [E1|H1], H2 as [E2|H2].
  - congruence.
  - inversion E1; subst. exfalso. apply Hnotin.
    change a with (fst (a, b')). now apply in_map.
  - inversion E2; subst. exfalso. apply Hnotin.
    change a with (fst (a, b)). now apply in_map.
  - eauto.
Qed.

(* The running code settles the promise it holds. *)
Lemma InvG_flight_settle base unacked rest H r s p o :
  In (s, p) H -> InvG base unacked (Some p) rest H r -> InvG base unacked None rest H (settle p o r).
Proof.
  intros Hin HI. unfold InvG, settle in *; simpl.
  destruct (inv_hist_fresh HI _ _ Hin) as (n & -> & Hn).
  destruct (no_awaiter (action_promise n) HI) as [-> ->]; [discriminate|].
  simpl. rewrite app_nil_r.
  destruct HI as [c1 c2 c3 c4 c5 c6 c7 c8 c9 c10 c11 c12 c13 c14 c15 c16 c17 c18].
  constructor; auto.
  - intros s' p' Hin'. specialize (c1 s' p' Hin'). rewrite settle_calls_cons.
    rewrite in_flight_some in c1. simpl. lia.
  - intros m o' [Heq|Hin']; [inversion Heq; subst; eauto|eauto].
  - destruct c16 as [newer ->]. eexists (_ :: newer). reflexivity.
  - intros Hun m v [Heq|Hin17]; [discriminate|eapply c17; eauto].
Qed.

Lemma microtasks_flight_settle base unacked rest H r s p o :
  In (s, p) H -> InvG base unacked (Some p) rest H r -> microtasks (settle p o r) = microtasks r.
Proof.
  intros Hin HI. unfold InvG, settle in *; simpl.
  destruct (inv_hist_fresh HI _ _ Hin) as (n & -> & Hn).
  destruct (no_awaiter (action_promise n) HI) as [-> _]; [discriminate|].
  simpl. now rewrite app_nil_r.
Qed.

(* sendAction makes its promise: it is new and the running code holds it. *)
Lemma InvG_issue base unacked rest H r s :
  ~ In s (map fst H) ->
  InvG base unacked None rest H r ->
  InvG base unacked (Some (action_promise (next_id r))) rest
       (H ++ [(s, action_promise (next_id r))]) (fresh r).
Proof.
  intros Hs HI. unfold InvG, fresh in *; simpl.
  destruct HI as [c1 c2 c3 c4 c5 c6 c7 c8 c9 c10 c11 c12 c13 c14 c15 c16 c17 c18].
  set (p := action_promise (next_id r)).
  assert (Hnew : forall s', ~ In (s', p) H).
  { intros s' Hin. destruct (c5 _ _ Hin) as (n & E & Hn). inversion E. lia. }
  constructor; auto.
  - intros s' p' Hin. rewrite in_flight_some.
    apply in_app_iff in Hin as [Hin|[Heq|[]]].
    + specialize (c1 _ _ Hin). simpl in c1.
      destruct (Promise_eq_dec p' p) as [->|]; [exfalso; eapply Hnew; eauto|lia].
    + inversion Heq; subst s' p'.
      rewrite pending_count_zero, parked_count_zero, queued_count_zero, settle_calls_zero.
      * destruct (Promise_eq_dec p p); [reflexivity|congruence].
      * intros o Hin. destruct (c7 _ _ Hin) as [s' Hin']. eapply Hnew; eauto.
      * intros k o Hin E. apply c4 in Hin. rewrite E in Hin. eapply Hnew; eauto.
      * intros q k Hin E. apply c3 in Hin. rewrite E in Hin. eapply Hnew; eauto.
      * intros id pa Hin E. destruct (c2 _ _ Hin) as (s' & _ & Hin').
        rewrite E in Hin'. eapply Hnew; eauto.
  - intros id pa Hin. destruct (c2 _ _ Hin) as (s' & ? & ?).
    exists s'. split; auto. apply in_app_iff. auto.
  - intros q k Hin. apply in_app_iff. eauto.
  - intros k o Hin. apply in_app_iff. eauto.
  - intros s' p' Hin. apply in_app_iff in Hin as [Hin|[Heq|[]]].
    + destruct (c5 _ _ Hin) as (n & ? & ?). exists n. split; auto.
    + inversion Heq; subst. exists (next_id r). split; auto.
  - rewrite map_app. simpl. apply NoDup_app; auto.
    + constructor; [simpl; tauto|constructor].
    + intros a Ha [<-|[]]. contradiction.
  - intros n o Hin. destruct (c7 _ _ Hin) as (s' & ?). exists s'. apply in_app_iff. auto.
  - intros id pa Hin. destruct (c9 _ _ Hin) as (n & ty & ? & ? & ?).
    exists n, ty. repeat split; auto.
  - intros q k Hin. destruct (c11 _ _ Hin) as (m & ms & ? & ? & ? & ?).
    exists m, ms. repeat split; auto.
  - intros m Hin. apply c12 in Hin. lia.
  - intros m f Hin. apply c13 in Hin. lia.
Qed.

(* The running code puts the promise it holds into the pending map. *)
Lemma InvG_register base unacked rest H r s p ty :
  In (s, p) H ->
  InvG base unacked (Some p) rest H r ->
  InvG base unacked None rest H
    (set_pendingActions
       (alist_set string_dec (actionId_of s)
          {| promise := p; timeout := action_timer_id (next_id r) |}
          (pendingActions r))
       (setTimeout (action_timer_id (next_id r))
          (action_timeout (actionId_of s) p ty) (actionTimeout (config r)) (fresh r))).
Proof.
  intros Hin HI. unfold InvG, setTimeout, fresh in *; simpl.
  destruct HI as [c1 c2 c3 c4 c5 c6 c7 c8 c9 c10 c11 c12 c13 c14 c15 c16 c17 c18].
  set (id := actionId_of s). set (t := action_timer_id (next_id r)).
  set (e := {| promise := p; timeout := t |}).
  assert (Hfree : ~ In id (keys (pendingActions r))).
  { intros Hk. apply in_map_iff in Hk as ([id' pa] & E & Hk). simpl in E. subst id'.
    destruct (c2 _ _ Hk) as (s' & E & Hin').
    apply actionId_of_inj in E. subst s'.
    assert (promise pa = p) by (eapply NoDup_fst_functional; eauto).
    pose proof (pending_count_pos _ _ _ _ Hk H0).
    specialize (c1 _ _ Hin). rewrite in_flight_some in c1.
    destruct (Promise_eq_dec p p); [lia|congruence]. }
  rewrite (alist_set_fresh string_dec _ _ e Hfree).
  constructor; auto.
  - intros s' p' Hin'. specialize (c1 _ _ Hin'). rewrite in_flight_some in c1.
    rewrite pending_count_app. unfold pending_count at 2. simpl. unfold is_promise.
    destruct (Promise_eq_dec p' p); simpl in *; lia.
  - intros id' pa Hk. apply in_app_iff in Hk as [Hk|[Heq|[]]]; eauto.
    inversion Heq; subst. exists s. split; auto.
  - intros s' p' Hin'. destruct (c5 _ _ Hin') as (n & ? & ?). exists n. split; auto.
  - intros t' tm id' p' ty' Hg Hc.
    destruct (TimerId_eq_dec t' t) as [->|Hne].
    + rewrite alist_get_set_eq in Hg. inversion Hg; subst tm. simpl in Hc.
      inversion Hc; subst. rewrite <- (alist_set_fresh string_dec _ _ e Hfree).
      apply alist_get_set_eq.
    + rewrite alist_get_set_neq in Hg by assumption.
      pose proof (c8 _ _ _ _ _ Hg Hc) as Hold.
      rewrite <- (alist_set_fresh string_dec _ _ e Hfree).
      rewrite alist_get_set_neq; auto.
      intros ->. apply Hfree. apply alist_get_In in Hold.
      change id with (fst (id, {| promise := p'; timeout := t' |})). now apply in_map.
  - intros id' pa Hk. apply in_app_iff in Hk as [Hk|[Heq|[]]].
    + destruct (c9 _ _ Hk) as (n & ty' & Ht & Hn & Hg).
      exists n, ty'. repeat split; auto.
      rewrite alist_get_set_neq; auto. rewrite Ht. unfold t. intros E. inversion E. lia.
    + inversion Heq; subst id' pa. exists (next_id r), ty. repeat split; auto.
      simpl. apply alist_get_set_eq.
  - rewrite <- (alist_set_fresh string_dec _ _ e Hfree). now apply alist_NoDup_set.
  - intros q k Hk. destruct (c11 _ _ Hk) as (m & ms' & ? & ? & ? & Hg).
    exists m, ms'. repeat split; auto. rewrite alist_get_set_neq; auto. discriminate.
  - intros m Hk. apply c12 in Hk. lia.
  - intros m f Hk. apply c13 in Hk. lia.
  - intros t' tm Hg. destruct (TimerId_eq_dec t' t) as [->|Hne].
    + rewrite alist_get_set_eq in Hg. inversion Hg; subst. simpl. unfold t. eauto.
    + rewrite alist_get_set_neq in Hg by assumption. eauto.
  - intros n18 tm18 Hg18. rewrite alist_get_set_neq in Hg18 by discriminate. eauto.
Qed.

Lemma InvG_sendAction_body base unacked rest H r a s p :
  In (s, p) H ->
  InvG base unacked (Some p) rest H r -> InvG base unacked None rest H (sendAction_body a s p r).
Proof.
  intros Hin HI. open_def sendAction_body.
  destruct (negb (isConnected r)).
  - eapply InvG_flight_settle; eauto.
  - apply InvG_send.
    exact (InvG_register base unacked rest H r s p (action_type a) Hin HI).
Qed.

Lemma microtasks_update_socket s f r : microtasks (update_socket s f r) = microtasks r.
Proof. unfold update_socket. destruct (find_socket s r); reflexivity. Qed.

Lemma microtasks_send m r : microtasks (send m r) = microtasks r.
Proof.
  unfold send. destruct (ws r); auto. destruct (isConnected r); auto.
  apply microtasks_update_socket.
Qed.

Lemma microtasks_sendAction_body base unacked rest H r a s p :
  In (s, p) H -> InvG base unacked (Some p) rest H r ->
  microtasks (sendAction_body a s p r) = microtasks r.
Proof.
  intros Hin HI. open_def sendAction_body.
  destruct (negb (isConnected r)).
  - eapply microtasks_flight_settle; eauto.
  - rewrite microtasks_send. reflexivity.
Qed.

(* [await] on a settled promise: the continuation goes to the queue. *)
Lemma InvG_enqueue base unacked rest H r k o :
  In (stamp_of k, result_of k) H ->
  InvG base unacked (Some (result_of k)) rest H r ->
  InvG base unacked None rest H (set_microtasks (microtasks r ++ [(k, o)]) r).
Proof.
  intros Hin HI. unfold InvG in *; simpl.
  destruct HI as [c1 c2 c3 c4 c5 c6 c7 c8 c9 c10 c11 c12 c13 c14 c15 c16 c17 c18].
  constructor; auto.
  - intros s' p' Hin'. specialize (c1 _ _ Hin'). rewrite in_flight_some in c1.
    rewrite app_assoc, queued_count_app. unfold queued_count at 2. simpl.
    unfold is_promise. destruct (Promise_eq_dec p' (result_of k)); simpl in *; lia.
  - intros k' o' Hk. rewrite app_assoc in Hk.
    apply in_app_iff in Hk as [Hk|[Heq|[]]]; eauto. inversion Heq; subst. exact Hin.
Qed.

(* [await] on a pending waitForConnection promise: the continuation is parked. *)
Lemma InvG_park base unacked rest H r k m ms :
  In (stamp_of k, result_of k) H ->
  m < next_id r ->
  In (waitForConnection_listener m) (connectionListeners r) ->
  alist_get TimerId_eq_dec (waitForConnection_timer_id m) (timers r)
    = Some {| delay := ms; callback := waitForConnection_timeout m |} ->
  InvG base unacked (Some (result_of k)) rest H r ->
  InvG base unacked None rest H
    (set_awaiters (awaiters r ++ [(waitForConnection_promise m, k)]) r).
Proof.
  intros Hin Hm Hl Hg HI. unfold InvG in *; simpl.
  destruct HI as [c1 c2 c3 c4 c5 c6 c7 c8 c9 c10 c11 c12 c13 c14 c15 c16 c17 c18].
  constructor; auto.
  - intros s' p' Hin'. specialize (c1 _ _ Hin'). rewrite in_flight_some in c1.
    rewrite parked_count_app. unfold parked_count at 2. simpl.
    unfold is_promise. destruct (Promise_eq_dec p' (result_of k)); simpl in *; lia.
  - intros q k' Hk. apply in_app_iff in Hk as [Hk|[Heq|[]]]; eauto.
    inversion Heq; subst. exact Hin.
  - intros q k' Hk. apply in_app_iff in Hk as [Hk|[Heq|[]]]; eauto.
    inversion Heq; subst. exists m, ms. auto.
Qed.

Lemma promise_state_logged p o log : exists o', promise_state p ((p, o) :: log) = Some o'.
Proof.
  simpl. destruct (promise_state p log); eauto.
  destruct (Promise_eq_dec p p); [eauto|congruence].
Qed.

Lemma fnset_add_self_closure n cl :
  In (waitForConnection_listener n)
     (fnset_add connection_listener_id (waitForConnection_listener n) cl).
Proof.
  unfold fnset_add. destruct (existsb _ cl) eqn:E.
  - apply existsb_exists in E as (y & Hy & Hid). unfold is_fn in Hid. simpl in Hid.
    destruct (FnId_eq_dec (connection_listener_id y) (Closure n)) as [Ey|]; [|discriminate].
    destruct y; simpl in Ey; inversion Ey; subst. exact Hy.
  - apply in_app_iff. simpl. auto.
Qed.

Lemma InvG_sendAction_wait base unacked rest H r a s p ms :
  In (s, p) H ->
  InvG base unacked (Some p) rest H r ->
  InvG base unacked None rest H
    (await (snd (waitForConnection ms r)) (sendAction_resume a s p)
       (fst (waitForConnection ms r))).
Proof.
  intros Hin HI.
  pose proof (InvG_waitForConnection _ _ _ _ _ ms _ HI) as HI'.
  revert HI'. open_def waitForConnection.
  destruct (isConnected (fresh r)); cbn [fst snd]; intros HI'.
  - unfold await.
    destruct (promise_state_logged (async_return (next_id r)) (Resolved None)
                (settles (fresh r))) as [o' Ho'].
    assert (E : settles (settle (async_return (next_id r)) (Resolved None) (fresh r))
                = (async_return (next_id r), Resolved None) :: settles (fresh r))
      by reflexivity.
    rewrite E, Ho'. now apply (InvG_enqueue base unacked rest H _ (sendAction_resume a s p)).
  - unfold await.
    match goal with |- context [promise_state ?q ?l] => destruct (promise_state q l) end.
    + now apply (InvG_enqueue base unacked rest H _ (sendAction_resume a s p)).
    + apply (InvG_park base unacked rest H _ (sendAction_resume a s p) (next_id r) ms);
        [exact Hin | simpl; lia | apply fnset_add_self_closure
        | simpl; apply alist_get_set_eq | exact HI'].
Qed.

Lemma InvG_sendAction base unacked rest H r a s :
  ~ In s (map fst H) ->
  InvG base unacked None rest H r ->
  InvG base unacked None rest (H ++ [(s, action_promise (next_id r))]) (fst (sendAction a s r)).
Proof.
  intros Hs HI. pose proof (InvG_issue _ _ _ _ _ s Hs HI) as HI'.
  assert (Hin : In (s, action_promise (next_id r)) (H ++ [(s, action_promise (next_id r))]))
    by (apply in_app_iff; simpl; auto).
  open_def sendAction.
  destruct (ConnectionState_eqb (connectionState (fresh r)) reconnecting).
  - pose proof (InvG_sendAction_wait _ _ _ _ _ a s _ 60000%Z Hin HI') as Hw.
    destruct (waitForConnection 60000 (fresh r)) as [r' q]. exact Hw.
  - cbn [fst]. now apply InvG_sendAction_body.
Qed.

(* An entry leaves the pending map: its timer is cleared (or has just
   fired) and its promise is settled, in one step. *)
Lemma InvG_remove_entry base unacked x rest H r id pa o :
  alist_get string_dec id (pendingActions r) = Some pa ->
  InvG base unacked x rest H r ->
  InvG base unacked x rest H
    (settle (promise pa) o
       (set_pendingActions (alist_delete string_dec id (pendingActions r))
          (clearTimeout (timeout pa) r))).
Proof.
  intros Hg HI. unfold InvG, settle, clearTimeout in *; simpl.
  pose proof (alist_get_In _ _ _ _ Hg) as Hk.
  destruct (inv_pending_hist HI _ _ Hk) as (s & Hid & Hin).
  destruct (inv_hist_fresh HI _ _ Hin) as (n & Hp & Hn).
  destruct (no_awaiter (promise pa) HI) as [-> ->]; [rewrite Hp; discriminate|].
  simpl. rewrite app_nil_r.
  destruct HI as [c1 c2 c3 c4 c5 c6 c7 c8 c9 c10 c11 c12 c13 c14 c15 c16 c17 c18].
  destruct (c9 _ _ Hk) as (n0 & ty0 & Ht0 & Hn0 & Hg0).
  constructor; auto.
  - intros s' p' Hin'. specialize (c1 _ _ Hin'). rewrite settle_calls_cons.
    pose proof (pending_count_delete p' _ _ _ c10 Hg). lia.
  - intros id' pa' Hk'. apply alist_In_delete in Hk' as [Hk' _]. eauto.
  - intros m o' [Heq|Hin'].
    + inversion Heq; subst. exists s. congruence.
    + eauto.
  - intros t' tm id' p' ty' Hg' Hc.
    apply alist_get_delete_Some in Hg' as [Hne Hg'].
    pose proof (c8 _ _ _ _ _ Hg' Hc) as Hold.
    rewrite alist_get_delete_neq; auto.
    intros ->. rewrite Hg in Hold. inversion Hold; subst. simpl in Hne. congruence.
  - intros id' pa' Hk'. apply alist_In_delete in Hk' as [Hk' Hne].
    destruct (c9 _ _ Hk') as (n' & ty' & Ht' & Hn' & Hg').
    exists n', ty'. repeat split; auto.
    rewrite alist_get_delete_neq; auto.
    intros E. rewrite E in Hg'. rewrite Hg0 in Hg'. inversion Hg'. congruence.
  - now apply alist_NoDup_delete.
  - intros q k Hk'. destruct (c11 _ _ Hk') as (m & ms' & ? & ? & ? & Hg').
    exists m, ms'. repeat split; auto.
    rewrite alist_get_delete_neq; auto. rewrite Ht0. discriminate.
  - intros t' tm Hg'. apply alist_get_delete_Some in Hg' as [_ Hg']. eauto.
  - destruct c16 as [newer ->]. eexists (_ :: newer). reflexivity.
  - intros Hun m v [Heq|Hin17]; [rewrite Hp in Heq; discriminate|eapply c17; eauto].
  - intros n18 tm18 Hg18. apply alist_get_delete_Some in Hg18 as [_ Hg18]. eauto.
Qed.

Lemma InvG_handle_action_result base unacked x rest H m r :
  InvG base unacked x rest H r -> InvG base unacked x rest H (handle_action_result m r).
Proof.
  intros HI. unfold handle_action_result.
  destruct (_ && _); auto.
  unfold get_pending, delete_pending.
  destruct (member "actionId" m) as [[| | |id| |]|]; auto.
  destruct (alist_get string_dec id (pendingActions r)) as [pa|] eqn:Hg; auto.
  cbv zeta. destruct (truthy (member "result" m)).
  - exact (InvG_remove_entry base unacked x rest H r id pa _ Hg HI).
  - exact (InvG_remove_entry base unacked x rest H r id pa _ Hg HI).
Qed.

Lemma InvG_handle_error base unacked x rest H m r :
  InvG base unacked x rest H r -> InvG base unacked x rest H (handle_error m r).
Proof.
  intros HI. unfold handle_error.
  destruct (is_string _ _); auto. destruct (truthy _); auto.
  unfold get_pending, delete_pending.
  destruct (member "actionId" m) as [[| | |id| |]|]; auto.
  destruct (alist_get string_dec id (pendingActions r)) as [pa|] eqn:Hg; auto.
  cbv zeta. exact (InvG_remove_entry base unacked x rest H r id pa _ Hg HI).
Qed.

Lemma InvG_handleMessage base unacked x rest H data r :
  InvG base unacked x rest H r -> InvG base unacked x rest H (fst (handleMessage data r)).
Proof.
  intros HI. unfold handleMessage.
  destruct (JSON_parse data) as [m|]; auto.
  assert (Hgo : InvG base unacked x rest H (handle_error m (handle_action_result m (handle_state m r)))).
  { now apply InvG_handle_error, InvG_handle_action_result, InvG_handle_state. }
  destruct m; auto.
Qed.

Lemma InvG_close_pending base unacked x rest H l r :
  InvG base unacked x rest H (set_pendingActions l r) ->
  InvG base unacked x rest H (set_pendingActions [] (fold_left reject_pending l r)).
Proof.
  revert r. induction l as [|[id pa] l IH]; intros r HI; simpl; auto.
  apply IH.
  assert (Hnd : NoDup (keys ((id, pa) :: l))) by exact (inv_keys HI).
  inversion Hnd as [|? ? Hnotin Hnd']; subst.
  assert (Hg : alist_get string_dec id (pendingActions (set_pendingActions ((id, pa) :: l) r))
               = Some pa).
  { simpl. destruct (string_dec id id); congruence. }
  pose proof (InvG_remove_entry base unacked x rest H _ id pa (Rejected Connection_closed) Hg HI) as HI'.
  assert (Hdel : alist_delete string_dec id ((id, pa) :: l) = l).
  { simpl. destruct (string_dec id id); [|congruence].
    clear -Hnotin. induction l as [|[k v] l IH]; simpl in *; auto.
    destruct (string_dec id k) as [->|]; [tauto|]. f_equal. apply IH. tauto. }
  simpl pendingActions in HI'. rewrite Hdel in HI'.
  eapply InvG_ext; [..|exact HI']; reflexivity.
Qed.

Lemma InvG_onclose base unacked x rest H r : InvG base unacked x rest H r -> InvG base unacked x rest H (onclose r).
Proof.
  intros HI. open_def onclose.
  match goal with |- InvG _ _ _ _ _ (if _ then scheduleReconnect ?r' else _) =>
    assert (H1 : InvG base unacked x rest H r')
  end.
  { apply (InvG_close_pending base unacked x rest H _ (set_ws None (set_connectPromise None r))).
    exact HI. }
  destruct (_ && _).
  - now apply InvG_scheduleReconnect.
  - now apply InvG_setConnectionState.
Qed.

Lemma InvG_run_callback base unacked x rest H r t tm :
  alist_get TimerId_eq_dec t (timers r) = Some tm ->
  InvG base unacked x rest H r -> InvG base unacked x rest H (run_callback (callback tm) (clearTimeout t r)).
Proof.
  intros Hg HI. pose proof (inv_timer_kind HI _ _ Hg) as Hk.
  destruct (callback tm) as [n| |id p ty|n|n] eqn:Hcb; simpl in Hk; open_def run_callback.
  - subst t.
    match goal with |- InvG _ _ _ _ _ (match ws ?r1 with _ => _ end) =>
      assert (H1 : InvG base unacked x rest H r1);
        [|destruct (ws r1); auto using InvG_ws_close_method]
    end.
    apply InvG_settle_quiet; try discriminate; try (intros _ ? ?; discriminate). apply InvG_clear_quiet; simpl; auto.
  - destruct Hk as [n ->]. apply InvG_connect. strip.
    apply InvG_clear_quiet; simpl; auto.
  - pose proof (inv_timer_entry HI _ _ _ _ _ Hg Hcb) as He.
    exact (InvG_remove_entry base unacked x rest H r id _ _ He HI).
  - subst t. apply InvG_wake. exact HI.
  - subst t. apply InvG_settle_quiet; try discriminate; try (intros _ ? ?; discriminate).
    apply InvG_unsubscribe_state. apply InvG_clear_quiet; simpl; auto.
Qed.

Lemma queued_count_cons p k o l :
  queued_count p ((k, o) :: l)
  = (if Promise_eq_dec p (result_of k) then 1 else 0) + queued_count p l.
Proof.
  unfold queued_count. simpl. unfold is_promise.
  destruct (Promise_eq_dec p (result_of k)); reflexivity.
Qed.

(* A continuation is taken from the head of the queue by the running code. *)
Lemma InvG_dequeue base unacked rest H r k o :
  InvG base unacked None ((k, o) :: rest) H r ->
  InvG base unacked (Some (result_of k)) rest H r /\ In (stamp_of k, result_of k) H.
Proof.
  intros HI. unfold InvG in *.
  destruct HI as [c1 c2 c3 c4 c5 c6 c7 c8 c9 c10 c11 c12 c13 c14 c15 c16 c17 c18].
  split; [|apply (c4 k o); simpl; auto].
  constructor; auto.
  - intros s' p' Hin'. specialize (c1 _ _ Hin'). rewrite in_flight_some.
    change (((k, o) :: rest) ++ microtasks r) with ((k, o) :: (rest ++ microtasks r)) in c1.
    rewrite queued_count_cons in c1. simpl in_flight in c1. lia.
  - intros k' o' Hk. apply (c4 k' o'). simpl. auto.
Qed.

Lemma InvG_resume base unacked rest H r ko :
  InvG base unacked None (ko :: rest) H r ->
  InvG base unacked None rest H (resume r ko) /\ microtasks (resume r ko) = microtasks r.
Proof.
  destruct ko as [k o]. intros HI.
  apply InvG_dequeue in HI as [HI Hin].
  unfold resume. destruct k as [a s p]. simpl in *.
  destruct o as [v|e].
  - split; [now apply InvG_sendAction_body|eapply microtasks_sendAction_body; eauto].
  - split; [eapply InvG_flight_settle; eauto|eapply microtasks_flight_settle; eauto].
Qed.

Lemma InvG_drain base unacked H l r :
  microtasks r = [] -> InvG base unacked None l H r ->
  Inv base unacked H (fold_left resume l r) /\ microtasks (fold_left resume l r) = [].
Proof.
  revert r. induction l as [|ko l IH]; intros r Hq HI; simpl.
  - split; auto.
  - destruct (InvG_resume _ _ _ _ _ _ HI) as [HI' Hq']. apply IH; congruence.
Qed.

Lemma Inv_run_microtasks base unacked H r :
  Inv base unacked H r -> Inv base unacked H (run_microtasks r) /\ microtasks (run_microtasks r) = [].
Proof.
  intros HI. unfold run_microtasks. apply InvG_drain; [reflexivity|].
  unfold Inv, InvG in *. simpl in *. now rewrite app_nil_r.
Qed.

(** ** The invariant along a trace *)


Lemma Inv_task base unacked H r e :
  (forall s, In s (stamp_drawn e) -> ~ In s (map fst H)) ->
  Inv base unacked H r ->
  Inv base (unacked && negb (is_ack e)) (H ++ issued r e) (task e r).
Proof.
  intros Hs HI. unfold Inv in *.
  destruct e; simpl issued; simpl is_ack; try rewrite andb_true_r;
    try rewrite app_nil_r; unfold task.
  - now apply InvG_connect.
  - now apply InvG_disconnect.
  - apply InvG_sendAction; auto. apply Hs. simpl. auto.
  - now apply InvG_waitForConnection.
  - now apply InvG_waitForCondition.
  - now apply InvG_onStateUpdate.
  - now apply InvG_unsubscribe_state.
  - now apply InvG_onConnectionStateChange.
  - now apply InvG_unsubscribe_user.
  - destruct (find_socket s r) as [sock|]; auto. destruct (readyState sock); auto.
    now apply InvG_onopen, InvG_update_socket.
  - assert (Hw : InvG base (unacked && negb (acks data)) None [] H r).
    { destruct (unacked && negb (acks data)) eqn:E.
      - apply andb_prop in E as [-> _]. exact HI.
      - eapply InvG_weaken; eauto. }
    destruct (find_socket s r) as [sock|]; auto. destruct (readyState sock); auto.
    cbv zeta. destruct (checkConnected_attached sock).
    + now apply InvG_checkConnected, InvG_handleMessage.
    + now apply InvG_handleMessage.
  - destruct (find_socket s r) as [sock|]; auto.
    destruct (readyState sock); auto using InvG_onerror.
  - destruct (find_socket s r) as [sock|]; auto.
    destruct (readyState sock); auto using InvG_onclose, InvG_update_socket.
  - destruct (alist_get TimerId_eq_dec t (timers r)) as [tm|] eqn:Hg; auto.
    now apply InvG_run_callback.
Qed.

Lemma Inv_step base unacked H r e :
  (forall s, In s (stamp_drawn e) -> ~ In s (map fst H)) ->
  Inv base unacked H r ->
  Inv base (unacked && negb (is_ack e)) (H ++ issued r e) (step r e)
  /\ microtasks (step r e) = [].
Proof.
  intros Hs HI. unfold step. apply Inv_run_microtasks. now apply Inv_task.
Qed.

Lemma map_fst_issued r e : map fst (issued r e) = stamp_drawn e.
Proof. destruct e; reflexivity. Qed.

Lemma fresh_stamp {A} (H : list (string * A)) drawn (later : list string) :
  NoDup (map fst H ++ drawn ++ later) ->
  forall s, In s drawn -> ~ In s (map fst H).
Proof.
  intros Hnd s Hin Hin'.
  rewrite app_assoc in Hnd. apply NoDup_app_remove_r in Hnd.
  induction (map fst H) as [|a l IHl]; simpl in *; [tauto|].
  inversion Hnd as [|? ? Hnotin Hnd']; subst.
  destruct Hin' as [->|Hin']; [|auto].
  apply Hnotin. apply in_app_iff. auto.
Qed.

Lemma Inv_run base trace : forall unacked H r,
  NoDup (map fst H ++ stamps trace) ->
  Inv base unacked H r ->
  Inv base (unacked && unacked_trace trace) (H ++ calls r trace) (run r trace)
  /\ (microtasks r = [] -> microtasks (run r trace) = []).
Proof.
  induction trace as [|e trace IH]; intros unacked H r Hnd HI; simpl.
  - rewrite app_nil_r, andb_true_r. auto.
  - unfold stamps in Hnd. simpl in Hnd. fold (stamps trace) in Hnd.
    destruct (Inv_step base unacked H r e (fresh_stamp H _ _ Hnd) HI) as [HI' Hq'].
    rewrite app_assoc, andb_assoc.
    assert (Hnd' : NoDup (map fst (H ++ issued r e) ++ stamps trace)).
    { rewrite map_app, map_fst_issued, <- app_assoc. exact Hnd. }
    destruct (IH _ _ _ Hnd' HI') as [HI2 Hq2].
    split; auto.
Qed.

Lemma Inv_constructor c clientId : Inv [] true [] (constructor c clientId).
Proof.
  unfold Inv, InvG, constructor; simpl.
  constructor; simpl; try tauto; try discriminate; try constructor.
  exists []. reflexivity.
Qed.

Lemma run_app r t1 t2 : run r (t1 ++ t2) = run (run r t1) t2.
Proof. unfold run. apply fold_left_app. Qed.

Lemma reachable_Inv c clientId trace :
  NoDup (stamps trace) ->
  Inv [] (unacked_trace trace) (calls (constructor c clientId) trace)
      (run (constructor c clientId) trace)
  /\ microtasks (run (constructor c clientId) trace) = [].
Proof.
  intros Hnd.
  destruct (Inv_run [] trace true [] (constructor c clientId) Hnd
              (Inv_constructor c clientId)) as [HI Hq].
  split; [exact HI|now apply Hq].
Qed.

Lemma settle_calls_le_1_same p log o1 o2 :
  settle_calls p log <= 1 -> In (p, o1) log -> In (p, o2) log -> o1 = o2.
Proof.
  induction log as [|[q o] log IH]; simpl; [tauto|].
  intros Hle H1 H2. destruct (Promise_eq_dec p q) as [->|Hne].
  - assert (Hz : forall o', ~ In (q, o') log).
    { intros o' Hin. assert (0 < settle_calls q log); [|lia].
      clear -Hin. induction log as [|[q' o''] log IH]; simpl in *; [tauto|].
      destruct Hin as [E|Hin].
      - inversion E; subst. destruct (Promise_eq_dec q q); [lia|congruence].
      - apply IH in Hin. lia. }
    destruct H1 as [E1|H1]; [|exfalso; eapply Hz; eauto].
    destruct H2 as [E2|H2]; [|exfalso; eapply Hz; eauto].
    congruence.
  - destruct H1 as [E1|H1]; [congruence|].
    destruct H2 as [E2|H2]; [congruence|].
    apply IH; auto.
Qed.




Lemma is_string_excl lit1 lit2 v :
  lit1 <> lit2 -> is_string lit1 v = true -> is_string lit2 v = false.
Proof.
  unfold is_string. destruct v as [[| | |s| |]|]; try discriminate.
  intros Hne H1. apply String.eqb_eq in H1. subst s.
  now apply String.eqb_neq.
Qed.

Lemma run_microtasks_idle r : microtasks r = [] -> run_microtasks r = r.
Proof.
  unfold run_microtasks. intros Hq. destruct r; simpl in *; subst; reflexivity.
Qed.


Lemma handle_action_result_unmatched m r :
  get_pending (member "actionId" m) r = None -> handle_action_result m r = r.
Proof.
  intros Hg. unfold handle_action_result. rewrite Hg. now destruct (_ && _).
Qed.

Lemma handle_error_unmatched m r :
  get_pending (member "actionId" m) r = None -> handle_error m r = r.
Proof.
  intros Hg. unfold handle_error. rewrite Hg.
  destruct (is_string _ _); auto. now destruct (truthy _).
Qed.

Lemma handleMessage_skips data r :
  passed_over r data -> handleMessage data r = (r, Returns).
Proof.
  unfold passed_over, handleMessage.
  destruct (JSON_parse data) as [m|]; [|reflexivity].
  assert (Hgo :
    (is_string "sdk_state" (member "type" m) = false
       /\ is_string "sdk_action_result" (member "type" m) = false
       /\ is_string "sdk_error" (member "type" m) = false)
      \/ ((is_string "sdk_action_result" (member "type" m) = true
           \/ is_string "sdk_error" (member "type" m) = true)
          /\ get_pending (member "actionId" m) r = None) ->
    handle_error m (handle_action_result m (handle_state m r)) = r).
  { intros [(Hs & Ha & He)|(Hty & Hg)].
    - unfold handle_state, handle_action_result, handle_error.
      rewrite Hs. simpl. rewrite Ha. simpl. rewrite He. reflexivity.
    - assert (Hs : is_string "sdk_state" (member "type" m) = false).
      { destruct Hty as [Hty|Hty]; revert Hty; apply is_string_excl; discriminate. }
      unfold handle_state. rewrite Hs. simpl.
      rewrite handle_action_result_unmatched by assumption.
      now apply handle_error_unmatched. }
  destruct m; try tauto; intros Hp; cbv zeta; now rewrite Hgo.
Qed.




(* The one JSON value outside the cases above: on null the read of
   [message.type] throws, with nothing changed. *)
Lemma handleMessage_null r : handleMessage (JSON JNull) r = (r, Throws TypeError).
Proof. reflexivity. Qed.

Lemma checkConnected_other_type s m r :
  is_string "sdk_connected" (member "type" m) = false -> checkConnected s (JSON m) r = r.
Proof.
  intros Hty. unfold checkConnected. simpl. rewrite Hty. now destruct m.
Qed.

Lemma ws_message_passed_over s data r :
  microtasks r = [] ->
  passed_over r data ->
  (forall m, JSON_parse data = Some m -> is_string "sdk_connected" (member "type" m) = false) ->
  step r (ws_message s data) = r.
Proof.
  intros Hq Hp Hc. unfold step, task.
  destruct (find_socket s r) as [sock|]; [|now apply run_microtasks_idle].
  destruct (readyState sock); try now apply run_microtasks_idle.
  rewrite handleMessage_skips by assumption. cbv zeta. simpl fst.
  destruct (checkConnected_attached sock); [|now apply run_microtasks_idle].
  destruct data as [text|m]; simpl.
  - now apply run_microtasks_idle.
  - rewrite checkConnected_other_type by (apply Hc; reflexivity).
    now apply run_microtasks_idle.
Qed.

Lemma Inv_rebase base unacked H r :
  Inv base unacked H r -> Inv (settles r) unacked H r.
Proof.
  unfold Inv, InvG. intros [c1 c2 c3 c4 c5 c6 c7 c8 c9 c10 c11 c12 c13 c14 c15 c16 c17 c18].
  constructor; auto. exists []. reflexivity.
Qed.

Lemma map_fst_calls trace : forall r, map fst (calls r trace) = stamps trace.
Proof.
  induction trace as [|e trace IH]; intros r; simpl; auto.
  rewrite map_app, map_fst_issued, IH. reflexivity.
Qed.

Lemma stamps_app t1 t2 : stamps (t1 ++ t2) = stamps t1 ++ stamps t2.
Proof. unfold stamps. apply flat_map_app. Qed.

Lemma settle_calls_app p l1 l2 :
  settle_calls p (l1 ++ l2) = settle_calls p l1 + settle_calls p l2.
Proof.
  induction l1 as [|[q o] l1 IH]; simpl; auto. rewrite IH. lia.
Qed.

Lemma promise_state_unsettled p log : settle_calls p log = 0 -> promise_state p log = None.
Proof.
  induction log as [|[q o] log IH]; simpl; auto.
  destruct (Promise_eq_dec p q); simpl; [discriminate|].
  intros Hz. now rewrite IH.
Qed.

(* An action id that has been answered or has timed out stays out of the
   pending map as long as later calls draw other stamps. *)
Lemma settled_id_stays_out base unacked H r s p later id :
  Inv base unacked H r -> microtasks r = [] ->
  In (s, p) H -> 0 < settle_calls p (settles r) ->
  NoDup (map fst H ++ stamps later) ->
  id = actionId_of s ->
  alist_get string_dec id (pendingActions (run r later)) = None.
Proof.
  intros HI Hq Hin Hpos Hnd ->.
  apply Inv_rebase in HI.
  destruct (Inv_run (settles r) later unacked H r Hnd HI) as [HI2 _].
  destruct (alist_get string_dec (actionId_of s) (pendingActions (run r later)))
    as [pa2|] eqn:Hg; auto. exfalso.
  apply alist_get_In in Hg.
  destruct (inv_pending_hist HI2 _ _ Hg) as (s2 & E & Hin2).
  apply actionId_of_inj in E. subst s2.
  assert (Hin' : In (s, p) (H ++ calls r later)) by (apply in_app_iff; auto).
  assert (Hp : promise pa2 = p).
  { eapply NoDup_fst_functional; [|exact Hin2|exact Hin'].
    rewrite map_app, map_fst_calls. exact Hnd. }
  pose proof (pending_count_pos _ _ _ _ Hg Hp) as Hpc.
  pose proof (inv_conserve HI2 _ _ Hin') as Hc.
  destruct (inv_log_grows HI2) as [newer Hlog].
  rewrite Hlog, settle_calls_app in Hc. lia.
Qed.

(* The deadline of a pending action elapses. *)
Lemma step_action_timeout base unacked H r id pa :
  Inv base unacked H r -> microtasks r = [] ->
  alist_get string_dec id (pendingActions r) = Some pa ->
  exists ty,
    alist_get TimerId_eq_dec (timeout pa) (timers r)
      = Some {| delay := actionTimeout (config r);
                callback := action_timeout id (promise pa) ty |}
    /\ settles (step r (timer_fires (timeout pa)))
       = (promise pa, Rejected (Action_timed_out ty)) :: settles r
    /\ pendingActions (step r (timer_fires (timeout pa)))
       = alist_delete string_dec id (pendingActions r)
    /\ settle_calls (promise pa) (settles r) = 0.
Proof.
  intros HI Hq Hg. pose proof (alist_get_In _ _ _ _ Hg) as Hk.
  destruct (inv_entry_timer HI _ _ Hk) as (n & ty & Ht & Hn & Hgt).
  destruct (inv_pending_hist HI _ _ Hk) as (s & Hid & Hin).
  destruct (inv_hist_fresh HI _ _ Hin) as (k & Hp & Hk').
  destruct (no_awaiter (promise pa) HI) as [Hw _]; [rewrite Hp; discriminate|].
  exists ty. split; [exact Hgt|].
  assert (Hz : settle_calls (promise pa) (settles r) = 0).
  { pose proof (inv_conserve HI _ _ Hin) as Hc.
    pose proof (pending_count_pos _ _ _ _ Hk eq_refl). lia. }
  unfold step, task. rewrite Hgt. cbn [callback run_callback].
  unfold run_microtasks, settle, clearTimeout; simpl.
  rewrite Hw, Hq. simpl. auto.
Qed.

Lemma pending_id_truthy base unacked H r id pa :
  Inv base unacked H r -> alist_get string_dec id (pendingActions r) = Some pa ->
  truthy (Some (JStr id)) = true.
Proof.
  intros HI Hg. apply alist_get_In in Hg.
  destruct (inv_pending_hist HI _ _ Hg) as (s & -> & _). reflexivity.
Qed.

Lemma settle_unawaited p o r :
  microtasks r = [] -> filter (awaits p) (awaiters r) = [] ->
  run_microtasks (settle p o r) = settle p o r.
Proof.
  intros Hq Hw. apply run_microtasks_idle. unfold settle. simpl. now rewrite Hw, Hq.
Qed.

(* An sdk_action_result for a pending id: the entry goes and the promise is
   settled, in that step. *)
Lemma step_action_result base unacked H r s sock m id pa :
  Inv base unacked H r -> microtasks r = [] ->
  find_socket s r = Some sock -> readyState sock = OPEN ->
  is_string "sdk_action_result" (member "type" m) = true ->
  member "actionId" m = Some (JStr id) ->
  alist_get string_dec id (pendingActions r) = Some pa ->
  let r' := step r (ws_message s (JSON m)) in
  settles r'
  = (promise pa,
     if truthy (member "result" m) then Resolved (member "result" m)
     else Rejected No_result_in_action_response) :: settles r
  /\ pendingActions r' = alist_delete string_dec id (pendingActions r)
  /\ timers r' = alist_delete TimerId_eq_dec (timeout pa) (timers r).
Proof.
  intros HI Hq Hf Ho Hty Hid Hg r'.
  pose proof (alist_get_In _ _ _ _ Hg) as Hk.
  destruct (inv_pending_hist HI _ _ Hk) as (s0 & Hid0 & Hin).
  destruct (inv_hist_fresh HI _ _ Hin) as (k & Hp & _).
  destruct (no_awaiter (promise pa) HI) as [Hw _]; [rewrite Hp; discriminate|].
  assert (Hs : is_string "sdk_state" (member "type" m) = false)
    by (revert Hty; apply is_string_excl; discriminate).
  assert (He : is_string "sdk_error" (member "type" m) = false)
    by (revert Hty; apply is_string_excl; discriminate).
  assert (Hc : is_string "sdk_connected" (member "type" m) = false)
    by (revert Hty; apply is_string_excl; discriminate).
  assert (Hm : m <> JNull) by (intros ->; discriminate).
  set (o := if truthy (member "result" m) then Resolved (member "result" m)
            else Rejected No_result_in_action_response).
  set (d := set_pendingActions (alist_delete string_dec id (pendingActions r))
              (clearTimeout (timeout pa) r)).
  assert (Eh : handleMessage (JSON m) r = (settle (promise pa) o d, Returns)).
  { unfold handleMessage. simpl JSON_parse.
    assert (E1 : handle_state m r = r) by (unfold handle_state; now rewrite Hs).
    assert (E2 : handle_action_result m r = settle (promise pa) o d).
    { unfold handle_action_result. rewrite Hty, Hid.
      rewrite (pending_id_truthy _ _ _ _ _ _ HI Hg). cbn [andb].
      unfold get_pending. rewrite Hg. cbv zeta. unfold delete_pending.
      unfold o, d. now destruct (truthy (member "result" m)). }
    assert (E3 : handle_error m (settle (promise pa) o d) = settle (promise pa) o d)
      by (unfold handle_error; now rewrite He).
    destruct m; try congruence; cbv zeta; now rewrite E1, E2, E3. }
  assert (Er : r' = settle (promise pa) o d).
  { unfold r', step, task. rewrite Hf, Ho, Eh. cbv zeta. cbn [fst].
    rewrite (checkConnected_other_type s m _ Hc).
    destruct (checkConnected_attached sock); apply settle_unawaited; auto. }
  rewrite Er. repeat split.
Qed.

Lemma step_action_error base unacked H r s sock m id pa :
  Inv base unacked H r -> microtasks r = [] ->
  find_socket s r = Some sock -> readyState sock = OPEN ->
  is_string "sdk_error" (member "type" m) = true ->
  member "actionId" m = Some (JStr id) ->
  alist_get string_dec id (pendingActions r) = Some pa ->
  let r' := step r (ws_message s (JSON m)) in
  settles r' = (promise pa, Rejected (error_of (member "error" m))) :: settles r
  /\ pendingActions r' = alist_delete string_dec id (pendingActions r)
  /\ timers r' = alist_delete TimerId_eq_dec (timeout pa) (timers r).
Proof.
  intros HI Hq Hf Ho Hty Hid Hg r'.
  pose proof (alist_get_In _ _ _ _ Hg) as Hk.
  destruct (inv_pending_hist HI _ _ Hk) as (s0 & Hid0 & Hin).
  destruct (inv_hist_fresh HI _ _ Hin) as (k & Hp & _).
  destruct (no_awaiter (promise pa) HI) as [Hw _]; [rewrite Hp; discriminate|].
  assert (Hs : is_string "sdk_state" (member "type" m) = false)
    by (revert Hty; apply is_string_excl; discriminate).
  assert (Ha : is_string "sdk_action_result" (member "type" m) = false)
    by (revert Hty; apply is_string_excl; discriminate).
  assert (Hc : is_string "sdk_connected" (member "type" m) = false)
    by (revert Hty; apply is_string_excl; discriminate).
  assert (Hm : m <> JNull) by (intros ->; discriminate).
  set (o := Rejected (error_of (member "error" m))).
  set (d := set_pendingActions (alist_delete string_dec id (pendingActions r))
              (clearTimeout (timeout pa) r)).
  assert (Eh : handleMessage (JSON m) r = (settle (promise pa) o d, Returns)).
  { unfold handleMessage. simpl JSON_parse.
    assert (E1 : handle_state m r = r) by (unfold handle_state; now rewrite Hs).
    assert (E2 : handle_action_result m r = r)
      by (unfold handle_action_result; now rewrite Ha).
    assert (E3 : handle_error m r = settle (promise pa) o d).
    { unfold handle_error. rewrite Hty, Hid.
      rewrite (pending_id_truthy _ _ _ _ _ _ HI Hg).
      unfold get_pending. rewrite Hg. cbv zeta. unfold delete_pending. reflexivity. }
    destruct m; try congruence; cbv zeta; now rewrite E1, E2, E3. }
  assert (Er : r' = settle (promise pa) o d).
  { unfold r', step, task. rewrite Hf, Ho, Eh. cbv zeta. cbn [fst].
    rewrite (checkConnected_other_type s m _ Hc).
    destruct (checkConnected_attached sock); apply settle_unawaited; auto. }
  rewrite Er. repeat split.
Qed.

(** C1.  Along every trace in which the calls of sendAction drew distinct
    stamps (hence distinct action ids), the promise returned by a call is
    settled at most once, two calls of resolve/reject on it never disagree,
    and it has been settled exactly once precisely when it is no longer held
    (in the pending map or parked on the reconnection wait).  While an entry
    of the pending map holds it, it is unsettled, and each of the three
    events that can end the wait (an sdk_action_result with the id, an
    sdk_error with the id, the firing of the deadline timer) settles it, by
    one call, in the step that removes the entry. *)
Theorem sendAction_settled_once c clientId trace stamp p :
  NoDup (stamps trace) ->
  In (stamp, p) (calls (constructor c clientId) trace) ->
  let r := run (constructor c clientId) trace in
  settle_calls p (settles r) <= 1
  /\ (forall o1 o2, In (p, o1) (settles r) -> In (p, o2) (settles r) -> o1 = o2)
  /\ pending_count p (pendingActions r) + parked_count p (awaiters r)
       + settle_calls p (settles r) = 1
  /\ (forall id pa, In (id, pa) (pendingActions r) -> promise pa = p ->
        settle_calls p (settles r) = 0
        /\ (forall s sock m,
              find_socket s r = Some sock -> readyState sock = OPEN ->
              is_string "sdk_action_result" (member "type" m) = true
              \/ is_string "sdk_error" (member "type" m) = true ->
              member "actionId" m = Some (JStr id) ->
              settle_calls p (settles (step r (ws_message s (JSON m)))) = 1
              /\ alist_get string_dec id
                   (pendingActions (step r (ws_message s (JSON m)))) = None)
        /\ settle_calls p (settles (step r (timer_fires (timeout pa)))) = 1
        /\ alist_get string_dec id
             (pendingActions (step r (timer_fires (timeout pa)))) = None).
Proof.
  intros Hnd Hin r.
  destruct (reachable_Inv c clientId trace Hnd) as [HI Hq]. fold r in HI, Hq.
  pose proof (inv_conserve HI _ _ Hin) as Hc. simpl in Hc. rewrite Hq in Hc.
  change (queued_count p []) with 0 in Hc.
  assert (Hle : settle_calls p (settles r) <= 1) by lia.
  split; [exact Hle|]. split; [intros o1 o2; now apply settle_calls_le_1_same|].
  split; [lia|].
  intros id pa Hk Hp.
  assert (Hz : settle_calls p (settles r) = 0)
    by (pose proof (pending_count_pos _ _ _ _ Hk Hp); lia).
  assert (Hg : alist_get string_dec id (pendingActions r) = Some pa)
    by (apply alist_In_get; [exact (inv_keys HI)|exact Hk]).
  assert (Hone : forall o, settle_calls p ((promise pa, o) :: settles r) = 1).
  { intros o. simpl. rewrite Hp, Hz.
    destruct (Promise_eq_dec p p); [reflexivity|congruence]. }
  split; [exact Hz|]. split.
  - intros s sock m Hf Ho [Hty|Hty] Hid.
    + destruct (step_action_result _ _ _ _ _ _ _ _ _ HI Hq Hf Ho Hty Hid Hg) as (Es & Ep & _).
      rewrite Es, Ep. split; [apply Hone|apply alist_get_delete_eq].
    + destruct (step_action_error _ _ _ _ _ _ _ _ _ HI Hq Hf Ho Hty Hid Hg) as (Es & Ep & _).
      rewrite Es, Ep. split; [apply Hone|apply alist_get_delete_eq].
  - destruct (step_action_timeout _ _ _ _ _ _ HI Hq Hg) as (ty & _ & Es & Ep & _).
    rewrite Es, Ep. split; [apply Hone|apply alist_get_delete_eq].
Qed.

Lemma sendAction_settled_once_witness :
  let r := run (constructor demo_config "sdk-1") waiting_trace in
  NoDup (stamps waiting_trace)
  /\ In ("1-a", action_promise 2) (calls (constructor demo_config "sdk-1") waiting_trace)
  /\ settle_calls (action_promise 2) (settles r) = 0
  /\ settle_calls (action_promise 2)
       (settles (step r (ws_message 1 (action_result_message "act-1-a")))) = 1
  /\ settle_calls (action_promise 2)
       (settles (step r (timer_fires (action_timer_id 3)))) = 1.
Proof.
  intros r.
  assert (Hnd : NoDup (stamps waiting_trace)).
  { simpl. repeat constructor; simpl; intuition discriminate. }
  assert (Hin : In ("1-a", action_promise 2)
                   (calls (constructor demo_config "sdk-1") waiting_trace)).
  { vm_compute. auto. }
  assert (Hk : In ("act-1-a", {| promise := action_promise 2; timeout := action_timer_id 3 |})
                  (pendingActions r)).
  { vm_compute. auto. }
  split; [exact Hnd|]. split; [exact Hin|].
  destruct (sendAction_settled_once demo_config "sdk-1" waiting_trace "1-a"
              (action_promise 2) Hnd Hin) as (_ & _ & _ & Hent).
  destruct (Hent _ _ Hk eq_refl) as (Hz & Hmsg & Htim & _).
  split; [exact Hz|]. split; [|exact Htim].
  destruct (find_socket 1 r) as [sock|] eqn:Hf; [|vm_compute in Hf; discriminate].
  assert (Ho : readyState sock = OPEN).
  { vm_compute in Hf. injection Hf as <-. reflexivity. }
  exact (proj1 (Hmsg 1 sock
                  (JObj [("type", JStr "sdk_action_result"); ("actionId", JStr "act-1-a");
                         ("result", JObj [("success", JBool true)])])
                  Hf Ho (or_introl eq_refl) eq_refl)).
Defined.

(** C2.  While an action is pending its deadline timer is set, with the
    configured action timeout as delay.  When it fires without an
    acknowledgement having come, the promise is rejected with the
    action-timed-out error and the entry leaves the pending map; from then
    on, as long as later calls draw other stamps, an sdk_action_result
    carrying that id changes nothing at all. *)
Theorem action_timeout_then_late_ack c clientId trace id pa :
  NoDup (stamps trace) ->
  alist_get string_dec id (pendingActions (run (constructor c clientId) trace)) = Some pa ->
  let r := run (constructor c clientId) trace in
  let r1 := step r (timer_fires (timeout pa)) in
  exists ty,
    alist_get TimerId_eq_dec (timeout pa) (timers r)
      = Some {| delay := actionTimeout (config r);
                callback := action_timeout id (promise pa) ty |}
    /\ settles r1 = (promise pa, Rejected (Action_timed_out ty)) :: settles r
    /\ promise_state (promise pa) (settles r1) = Some (Rejected (Action_timed_out ty))
    /\ alist_get string_dec id (pendingActions r1) = None
    /\ forall later s m,
         NoDup (stamps (trace ++ later)) ->
         is_string "sdk_action_result" (member "type" m) = true ->
         member "actionId" m = Some (JStr id) ->
         step (run r1 later) (ws_message s (JSON m)) = run r1 later.
Proof.
  intros Hnd Hg r r1.
  destruct (reachable_Inv c clientId trace Hnd) as [HI Hq]. fold r in HI, Hq.
  destruct (step_action_timeout _ _ _ _ _ _ HI Hq Hg) as (ty & Hgt & Hs & Hp & Hz).
  fold r1 in Hs, Hp.
  exists ty. split; [exact Hgt|]. split; [exact Hs|]. split; [|split].
  - rewrite Hs. simpl. rewrite (promise_state_unsettled _ _ Hz).
    destruct (Promise_eq_dec (promise pa) (promise pa)); [reflexivity|congruence].
  - rewrite Hp. apply alist_get_delete_eq.
  - intros later s m Hnd' Hty Hid.
    pose proof (alist_get_In _ _ _ _ Hg) as Hk.
    destruct (inv_pending_hist HI _ _ Hk) as (s0 & Hid0 & Hin).
    assert (Hs1 : forall s', In s' (stamp_drawn (timer_fires (timeout pa))) ->
                             ~ In s' (map fst (calls (constructor c clientId) trace)))
      by (simpl; tauto).
    destruct (Inv_step _ _ _ _ _ Hs1 HI) as [HI1 Hq1].
    simpl issued in HI1. rewrite app_nil_r in HI1. fold r1 in HI1, Hq1.
    assert (Hnd1 : NoDup (map fst (calls (constructor c clientId) trace) ++ stamps later)).
    { rewrite map_fst_calls, <- stamps_app. exact Hnd'. }
    assert (Hout : alist_get string_dec id (pendingActions (run r1 later)) = None).
    { apply (settled_id_stays_out _ _ _ r1 s0 (promise pa) later id HI1 Hq1 Hin); auto.
      rewrite Hs. simpl.
      destruct (Promise_eq_dec (promise pa) (promise pa)); [lia|congruence]. }
    apply ws_message_passed_over.
    + destruct (Inv_run _ later _ _ r1 Hnd1 HI1) as [_ Hq2]. now apply Hq2.
    + unfold passed_over. simpl. destruct m; try discriminate.
      right. split; auto. rewrite Hid. exact Hout.
    + intros m' E. simpl in E. inversion E; subst m'.
      revert Hty. apply is_string_excl. discriminate.
Qed.

Lemma action_timeout_then_late_ack_witness :
  NoDup (stamps waiting_trace)
  /\ alist_get string_dec "act-1-a"
       (pendingActions (run (constructor demo_config "sdk-1") waiting_trace))
     = Some {| promise := action_promise 2; timeout := action_timer_id 3 |}
  /\ exists ty,
       settles (step (run (constructor demo_config "sdk-1") waiting_trace)
                  (timer_fires (action_timer_id 3)))
       = (action_promise 2, Rejected (Action_timed_out ty))
           :: settles (run (constructor demo_config "sdk-1") waiting_trace).
Proof.
  assert (Hnd : NoDup (stamps waiting_trace)).
  { simpl. repeat constructor; simpl; intuition discriminate. }
  assert (Hg : alist_get string_dec "act-1-a"
                 (pendingActions (run (constructor demo_config "sdk-1") waiting_trace))
               = Some {| promise := action_promise 2; timeout := action_timer_id 3 |})
    by (vm_compute; reflexivity).
  split; [exact Hnd|]. split; [exact Hg|].
  destruct (action_timeout_then_late_ack demo_config "sdk-1" waiting_trace "act-1-a" _ Hnd Hg)
    as (ty & _ & Hs & _).
  exists ty. exact Hs.
Defined.


(** ** What promise, timer and listener bookkeeping leaves alone *)


Lemma plain_settle p o r : plain (settle p o r) = plain r.
Proof. reflexivity. Qed.

Lemma plain_clearTimeout t r : plain (clearTimeout t r) = plain r.
Proof. reflexivity. Qed.

Lemma plain_setTimeout t cb ms r : plain (setTimeout t cb ms r) = plain r.
Proof. reflexivity. Qed.

Lemma plain_fresh r : plain (fresh r) = plain r.
Proof. reflexivity. Qed.

Lemma plain_call_connection_listener st attempt l r :
  plain (try_catch (call_connection_listener st attempt l) r) = plain r.
Proof. destruct l as [fn throws|n]; [reflexivity|]. destruct st; reflexivity. Qed.

Lemma plain_setConnectionState st attempt r :
  plain (setConnectionState st attempt r) = plain (set_connectionState st r).
Proof.
  unfold setConnectionState. cbv zeta.
  apply (fold_left_keeps (fun a => plain a = plain (set_connectionState st r))); auto.
  intros a l Ha. now rewrite plain_call_connection_listener.
Qed.


Lemma plain_reject_pending l : forall r, plain (fold_left reject_pending l r) = plain r.
Proof. induction l as [|e l IH]; intros r; simpl; auto. now rewrite IH. Qed.





(* Field readers for a fact stated on [plain]. *)
Lemma plain_fields r r' :
  plain r' = plain r ->
  config r' = config r /\ ws r' = ws r /\ connectPromise r' = connectPromise r
  /\ connectionState r' = connectionState r /\ reconnectAttempt r' = reconnectAttempt r
  /\ reconnectTimer r' = reconnectTimer r
  /\ intentionalDisconnect r' = intentionalDisconnect r
  /\ sockets r' = sockets r /\ pendingActions r' = pendingActions r
  /\ state r' = state r /\ notified r' = notified r.
Proof. unfold plain. intros E. inversion E. repeat split; assumption. Qed.


Lemma plain_link r r' : plain r' = plain r -> link r' = link r.
Proof. unfold plain, link. intros E. inversion E. reflexivity. Qed.

Lemma link_update_socket s f r : link (update_socket s f r) = link r.
Proof. unfold update_socket. destruct (find_socket s r); reflexivity. Qed.

Lemma link_send m r : link (send m r) = link r.
Proof.
  unfold send. destruct (ws r); auto. destruct (isConnected r); auto.
  apply link_update_socket.
Qed.

Lemma link_sendAction_body a s p r : link (sendAction_body a s p r) = link r.
Proof.
  unfold sendAction_body. destruct (negb (isConnected r)); [reflexivity|].
  cbv zeta. now rewrite link_send.
Qed.

Lemma link_resume r ko : link (resume r ko) = link r.
Proof.
  unfold resume. destruct (fst ko). destruct (snd ko); auto using link_sendAction_body.
Qed.

Lemma link_run_microtasks r : link (run_microtasks r) = link r.
Proof.
  unfold run_microtasks.
  apply (fold_left_keeps (fun a => link a = link r)); auto.
  intros a ko Ha. now rewrite link_resume.
Qed.

Lemma link_fields r r' :
  link r' = link r ->
  config r' = config r /\ connectionState r' = connectionState r
  /\ reconnectAttempt r' = reconnectAttempt r /\ reconnectTimer r' = reconnectTimer r
  /\ intentionalDisconnect r' = intentionalDisconnect r.
Proof. unfold link. intros E. inversion E. repeat split; assumption. Qed.


(** ** Reconnection *)

Lemma broadcast_reconnecting attempt l : forall r,
  fold_left (fun r x => try_catch (call_connection_listener reconnecting attempt x) r) l r
  = r.
Proof.
  induction l as [|x l IH]; intros r; simpl; auto.
  rewrite <- (IH r) at 2. f_equal. destruct x; reflexivity.
Qed.

Lemma setConnectionState_reconnecting attempt r :
  setConnectionState reconnecting attempt r = set_connectionState reconnecting r.
Proof. unfold setConnectionState. cbv zeta. apply broadcast_reconnecting. Qed.






(** ** Connection-state transitions *)


Lemma connection_link r r' : link r' = link r -> connection r' = connection r.
Proof. unfold link, connection. intros E. now inversion E. Qed.

Lemma connection_step r e : connection (step r e) = connection (task e r).
Proof. unfold step. apply connection_link, link_run_microtasks. Qed.

Lemma connection_setConnectionState st attempt r :
  connection (setConnectionState st attempt r) = (st, reconnectAttempt r).
Proof.
  rewrite (connection_link (set_connectionState st r)); [reflexivity|].
  apply plain_link, plain_setConnectionState.
Qed.

Lemma link_scheduleReconnect r :
  connection (scheduleReconnect r)
  = if reaches (reconnectAttempt r) (reconnectMaxRetries (config r))
    then (disconnected, reconnectAttempt r)
    else (reconnecting, (reconnectAttempt r + 1)%Z).
Proof.
  unfold scheduleReconnect. destruct (reaches _ _).
  - apply connection_setConnectionState.
  - cbv zeta. rewrite setConnectionState_reconnecting. reflexivity.
Qed.

Lemma connection_onclose r : connection (onclose r) = after_close r.
Proof.
  unfold onclose, after_close. cbv zeta.
  set (r1 := set_pendingActions [] _).
  assert (E : link r1 = link r).
  { unfold r1. change (link (fold_left reject_pending (pendingActions r)
                                (set_ws None (set_connectPromise None r))) = link r).
    rewrite (plain_link _ _ (plain_reject_pending _ _)). reflexivity. }
  apply link_fields in E as (Ec & Es & Ea & _ & Ei).
  rewrite Ec, Ei.
  destruct (autoReconnect (config r) && negb (intentionalDisconnect r)).
  - rewrite link_scheduleReconnect. now rewrite Ea, Ec.
  - rewrite connection_setConnectionState. now rewrite Ea.
Qed.

Lemma connection_update_socket s f r : connection (update_socket s f r) = connection r.
Proof. apply connection_link, link_update_socket. Qed.

Lemma after_close_update_socket s f r : after_close (update_socket s f r) = after_close r.
Proof.
  unfold after_close.
  destruct (link_fields _ _ (link_update_socket s f r)) as (Ec & _ & Ea & _ & Ei).
  now rewrite Ec, Ea, Ei.
Qed.

Lemma checkConnected_ack s m r :
  is_string "sdk_connected" (member "type" m) = true ->
  checkConnected s (JSON m) r
  = settle (connect_promise s) (Resolved None)
      (setConnectionState connected None
         (set_reconnectAttempt 0
            match ws r with
            | Some current =>
                if Nat.eqb current s then update_socket s without_checkConnected r else r
            | None => r
            end)).
Proof.
  intros Hty. unfold checkConnected. simpl JSON_parse.
  destruct m; try discriminate. cbv zeta. now rewrite Hty.
Qed.

Lemma link_settle p o r : link (settle p o r) = link r.
Proof. reflexivity. Qed.

Lemma link_clearTimeout t r : link (clearTimeout t r) = link r.
Proof. reflexivity. Qed.

Lemma link_setTimeout t cb ms r : link (setTimeout t cb ms r) = link r.
Proof. reflexivity. Qed.

Lemma link_waitForConnection ms r : link (fst (waitForConnection ms r)) = link r.
Proof. unfold waitForConnection. cbv zeta. now destruct (isConnected (fresh r)). Qed.

Lemma link_waitForCondition f ms r : link (fst (waitForCondition f ms r)) = link r.
Proof.
  unfold waitForCondition. cbv zeta.
  destruct (state (fresh r)); [|reflexivity]. now destruct (_ && _).
Qed.

Lemma link_sendAction a s r : link (fst (sendAction a s r)) = link r.
Proof.
  unfold sendAction. cbv zeta. destruct (ConnectionState_eqb _ _).
  - pose proof (link_waitForConnection 60000 (fresh r)) as E.
    destruct (waitForConnection 60000 (fresh r)) as [r1 p]. cbn [fst] in *.
    unfold await. now destruct (promise_state p (settles r1)).
  - cbn [fst]. now rewrite link_sendAction_body.
Qed.

Lemma link_call_state_listener snapshot l r :
  link (try_catch (call_state_listener snapshot l) r) = link r.
Proof.
  unfold try_catch, call_state_listener. destruct l as [fn th|n f]; [reflexivity|].
  now destruct (f snapshot).
Qed.

Lemma link_handle_state m r : link (handle_state m r) = link r.
Proof.
  unfold handle_state. destruct (_ && _); [|reflexivity].
  destruct (member "state" m) as [snapshot|]; [|reflexivity]. cbv zeta.
  apply (fold_left_keeps (fun a => link a = link r)); [|reflexivity].
  intros a x Ha. now rewrite link_call_state_listener.
Qed.

Lemma link_delete_pending id r : link (delete_pending id r) = link r.
Proof. unfold delete_pending. now destruct id as [[| | |s| |]|]. Qed.

Lemma link_handle_action_result m r : link (handle_action_result m r) = link r.
Proof.
  unfold handle_action_result. destruct (_ && _); [|reflexivity].
  destruct (get_pending _ r); [|reflexivity]. cbv zeta.
  destruct (truthy _); rewrite link_settle, link_delete_pending; reflexivity.
Qed.

Lemma link_handle_error m r : link (handle_error m r) = link r.
Proof.
  unfold handle_error. destruct (is_string _ _); [|reflexivity].
  destruct (truthy _); [|reflexivity].
  destruct (get_pending _ r); [|reflexivity]. cbv zeta.
  rewrite link_settle, link_delete_pending. reflexivity.
Qed.

Lemma link_handleMessage data r : link (fst (handleMessage data r)) = link r.
Proof.
  unfold handleMessage. destruct (JSON_parse data) as [m|]; [|reflexivity].
  assert (E : link (handle_error m (handle_action_result m (handle_state m r))) = link r)
    by now rewrite link_handle_error, link_handle_action_result, link_handle_state.
  destruct m; cbn [fst]; auto.
Qed.

Lemma connection_checkConnected s data r :
  connection (checkConnected s data r) = connection r
  \/ connection (checkConnected s data r) = (connected, 0%Z).
Proof.
  destruct (acks data) eqn:Ha.
  - right. unfold acks in Ha. destruct data as [t|m]; [discriminate|]. simpl in Ha.
    rewrite (checkConnected_ack s m r Ha).
    match goal with |- connection (settle _ _ (setConnectionState _ _ ?r1)) = _ =>
      exact (connection_setConnectionState connected None r1) end.
  - left. now rewrite checkConnected_not_ack.
Qed.

Lemma connection_connect r :
  connection (fst (connect r)) = connection r
  \/ connection (fst (connect r))
     = (if ConnectionState_eqb (connectionState r) reconnecting
        then reconnecting else connecting, reconnectAttempt r).
Proof.
  unfold connect. destruct (isConnected r); [left; reflexivity|].
  destruct (connectPromise r); [left; reflexivity|]. right.
  cbv zeta. cbn [fst].
  change (connectionState (set_intentionalDisconnect false r)) with (connectionState r).
  destruct (ConnectionState_eqb (connectionState r) reconnecting) eqn:E.
  - unfold connection. simpl. destruct (connectionState r); try discriminate. reflexivity.
  - match goal with |- connection (set_connectPromise _ (setTimeout _ _ _
        (set_ws _ (set_sockets _ (fresh ?r1))))) = _ =>
      change (connection r1 = (connecting, reconnectAttempt r)) end.
    exact (connection_setConnectionState connecting None
             (set_intentionalDisconnect false r)).
Qed.

Lemma connection_run_callback cb t r :
  connection (run_callback cb (clearTimeout t r)) = connection r
  \/ connection (run_callback cb (clearTimeout t r))
     = (if ConnectionState_eqb (connectionState r) reconnecting
        then reconnecting else connecting, reconnectAttempt r).
Proof.
  destruct cb as [n| |id p ty|n|n]; unfold run_callback; cbv zeta.
  - left. match goal with |- connection match ws ?y with _ => _ end = _ =>
      destruct (ws y); [exact (connection_update_socket _ _ y)|reflexivity] end.
  - exact (connection_connect (set_reconnectTimer None (clearTimeout t r))).
  - left. reflexivity.
  - left. reflexivity.
  - left. reflexivity.
Qed.

(* No event takes the connection elsewhere than [transitions] says. *)
Lemma connection_task r e : In (connection (task e r)) (transitions r e).
Proof.
  destruct e; unfold task, transitions.
  - destruct (connection_connect r) as [E|E]; rewrite E; simpl; auto.
  - left. symmetry. unfold disconnect. cbv zeta. cbn [fst].
    match goal with |- connection (settle _ _ (fresh (setConnectionState _ _ ?r1))) = _ =>
      change (connection (setConnectionState disconnected None r1) = (disconnected, 0%Z));
      apply (connection_setConnectionState disconnected None r1) end.
  - left. symmetry. apply connection_link, link_sendAction.
  - left. symmetry. apply connection_link, link_waitForConnection.
  - left. symmetry. apply connection_link, link_waitForCondition.
  - left. reflexivity.
  - left. reflexivity.
  - left. reflexivity.
  - left. reflexivity.
  - left. symmetry. destruct (find_socket s r) as [sock|]; [|reflexivity].
    destruct (readyState sock); try reflexivity.
    unfold onopen. cbv zeta. apply connection_link.
    now rewrite link_send, link_clearTimeout, link_update_socket.
  - destruct (find_socket s r) as [sock|]; [|now left].
    destruct (readyState sock); try now left.
    cbv zeta. pose proof (connection_link _ _ (link_handleMessage data r)) as Eh.
    destruct (checkConnected_attached sock); [|left; now rewrite Eh].
    destruct (connection_checkConnected s data (fst (handleMessage data r))) as [E|E];
      rewrite E; simpl; auto.
  - left. symmetry. destruct (find_socket s r) as [sock|]; [|reflexivity].
    destruct (readyState sock); reflexivity.
  - destruct (find_socket s r) as [sock|]; [|now left].
    destruct (readyState sock); try (now left);
      right; left; rewrite connection_onclose; symmetry; apply after_close_update_socket.
  - destruct (alist_get TimerId_eq_dec t (timers r)) as [tm|]; [|now left].
    destruct (connection_run_callback (callback tm) t r) as [E|E]; rewrite E; simpl; auto.
Qed.

(** C4 as amended.  Every event moves the connection state and the attempt
    counter as [transitions] lists, and no otherwise: connect() from a state
    other than reconnecting enters connecting (during a scheduled retry the
    state stays reconnecting); sdk_connected on a socket that still waits
    for it enters connected and resets the attempt counter; the close of a
    socket, whether it ends a handshake, a connection or a retry, enters
    reconnecting with the counter incremented when auto-reconnect is on, the
    close was not asked for and the counter has not reached the maximum, and
    disconnected with the counter kept otherwise; disconnect() enters
    disconnected with the counter at zero; a socket error changes no state
    by itself. *)
Theorem connection_transitions r :
  (forall e, In (connection (step r e)) (transitions r e))
  /\ (isConnected r = false -> connectPromise r = None ->
     connection (step r call_connect)
     = (if ConnectionState_eqb (connectionState r) reconnecting
        then reconnecting else connecting, reconnectAttempt r))
  /\ (forall s sock m,
        find_socket s r = Some sock -> readyState sock = OPEN ->
        checkConnected_attached sock = true ->
        is_string "sdk_connected" (member "type" m) = true ->
        connection (step r (ws_message s (JSON m))) = (connected, 0%Z))
  /\ (forall s sock,
        find_socket s r = Some sock -> readyState sock <> CLOSED ->
        connection (step r (ws_close s)) = after_close r)
  /\ connection (step r call_disconnect) = (disconnected, 0%Z)
  /\ (forall s, connection (step r (ws_error s)) = connection r).
Proof.
  split; [intros e; rewrite connection_step; apply connection_task|].
  repeat split.
  - intros Hc Hp. rewrite connection_step. unfold task, connect. rewrite Hc, Hp.
    cbv zeta. cbn [fst].
    change (connectionState (set_intentionalDisconnect false r)) with (connectionState r).
    destruct (ConnectionState_eqb (connectionState r) reconnecting) eqn:E.
    + unfold connection. simpl. destruct (connectionState r); try discriminate. reflexivity.
    + match goal with |- connection (set_connectPromise _ (setTimeout _ _ _
          (set_ws _ (set_sockets _ (fresh ?r1))))) = _ =>
        change (connection r1 = (connecting, reconnectAttempt r)) end.
      exact (connection_setConnectionState connecting None
               (set_intentionalDisconnect false r)).
  - intros s sock m Hf Ho Ha Hty. rewrite connection_step. unfold task.
    rewrite Hf, Ho. rewrite handleMessage_skips.
    + cbv zeta. cbn [fst]. rewrite Ha. rewrite checkConnected_ack by assumption.
      match goal with |- connection (settle _ _ (setConnectionState _ _ ?r1)) = _ =>
        exact (connection_setConnectionState connected None r1) end.
    + unfold passed_over. simpl. destruct m; try discriminate. left.
      repeat split; revert Hty; apply is_string_excl; discriminate.
  - intros s sock Hf Hn. rewrite connection_step. unfold task. rewrite Hf.
    destruct (readyState sock) eqn:E; try congruence;
      rewrite connection_onclose; apply after_close_update_socket.
  - rewrite connection_step. unfold task, disconnect. cbv zeta. cbn [fst].
    match goal with |- connection (settle _ _ (fresh (setConnectionState _ _ ?r1))) = _ =>
      change (connection (setConnectionState disconnected None r1) = (disconnected, 0%Z));
      apply (connection_setConnectionState disconnected None r1) end.
  - intros s. rewrite connection_step. unfold task.
    destruct (find_socket s r) as [sock|]; auto. destruct (readyState sock); reflexivity.
Qed.

Lemma connection_transitions_witness :
  connection (step (run (constructor demo_config "sdk-1") [call_connect; ws_error 1])
                (ws_close 1))
  = (reconnecting, 1%Z).
Proof.
  set (r := run (constructor demo_config "sdk-1") [call_connect; ws_error 1]).
  destruct (connection_transitions r) as (_ & _ & _ & Hclose & _).
  assert (Hf : find_socket 1 r
               = Some {| readyState := CONNECTING; sent := [];
                         checkConnected_attached := true |}) by reflexivity.
  rewrite (Hclose 1 _ Hf); [reflexivity|discriminate].
Defined.

(** The claim C4 as stated fails: with the default configuration a failed
    handshake leaves the state connecting for reconnecting, an edge that is
    not in the table of section 4.4. *)
Lemma handshake_failure_counterexample :
  let r := run (constructor demo_config "sdk-1") [call_connect; ws_error 1] in
  connectionState r = connecting
  /\ connectionState (step r (ws_close 1)) = reconnecting
  /\ connectionState (step r (ws_close 1)) <> disconnected
  /\ table_4_4 connecting reconnecting = false.
Proof. vm_compute. repeat split; discriminate. Qed.


(** ** The handshake *)

Lemma handshake_callback base unacked H r n tm :
  Inv base unacked H r ->
  alist_get TimerId_eq_dec (handshake_timer_id n) (timers r) = Some tm ->
  tm = {| delay := 10000; callback := connect_timeout n |}.
Proof.
  intros HI Hg.
  pose proof (inv_timer_kind HI _ _ Hg) as Hk.
  pose proof (inv_handshake_delay HI _ _ Hg) as Hd.
  destruct tm as [ms cb]. simpl in *. subst ms.
  destruct cb; simpl in Hk; try discriminate; try (destruct Hk; discriminate).
  inversion Hk; subst. reflexivity.
Qed.






(** ** State pushes *)


Lemma handle_state_push m snapshot r :
  is_string "sdk_state" (member "type" m) = true ->
  member "state" m = Some snapshot -> truthy (Some snapshot) = true ->
  handle_state m r
  = fan_out snapshot (stateListeners r) (set_state (Some snapshot) r).
Proof.
  intros Hty Hm Ht. unfold handle_state. rewrite Hty, Hm, Ht. reflexivity.
Qed.

Lemma handleMessage_push m snapshot r :
  is_string "sdk_state" (member "type" m) = true ->
  member "state" m = Some snapshot -> truthy (Some snapshot) = true ->
  handleMessage (JSON m) r
  = (fan_out snapshot (stateListeners r) (set_state (Some snapshot) r), Returns).
Proof.
  intros Hty Hm Ht. unfold handleMessage. simpl JSON_parse.
  assert (E : handle_error m (handle_action_result m (handle_state m r))
              = fan_out snapshot (stateListeners r) (set_state (Some snapshot) r)).
  { rewrite (handle_state_push m snapshot r Hty Hm Ht).
    unfold handle_action_result, handle_error.
    rewrite (is_string_excl "sdk_state" "sdk_action_result" _ ltac:(discriminate) Hty).
    rewrite (is_string_excl "sdk_state" "sdk_error" _ ltac:(discriminate) Hty).
    reflexivity. }
  destruct m; try discriminate; cbv zeta; now rewrite E.
Qed.

Lemma fan_out_cons snapshot x l r :
  fan_out snapshot (x :: l) r
  = fan_out snapshot l (try_catch (call_state_listener snapshot x) r).
Proof. reflexivity. Qed.

Lemma fan_out_notified snapshot l : forall r,
  notified (fan_out snapshot l r) = rev (owed_calls snapshot l) ++ notified r
  /\ state (fan_out snapshot l r) = state r.
Proof.
  induction l as [|x l IH]; intros r; [simpl; auto|].
  rewrite fan_out_cons.
  destruct (IH (try_catch (call_state_listener snapshot x) r)) as [IH1 IH2].
  rewrite IH1, IH2. unfold try_catch, owed_calls. simpl flat_map.
  destruct x as [fn throws|n f]; simpl.
  - rewrite <- app_assoc. auto.
  - destruct (f snapshot); auto.
Qed.


Lemma wait_over_call snapshot x n o r :
  wait_over n o r -> wait_over n o (try_catch (call_state_listener snapshot x) r).
Proof.
  intros (Hl & Hs & Ht). unfold wait_over, try_catch, call_state_listener.
  destruct x as [fn throws|k f]; simpl; [repeat split; auto|].
  destruct (f snapshot); simpl; [|repeat split; auto].
  repeat split.
  - intros x Hin. apply fnset_delete_In in Hin as [Hin _]. auto.
  - simpl. auto.
  - destruct (TimerId_eq_dec (waitForCondition_timer_id n) (waitForCondition_timer_id k))
      as [E|Hne].
    + rewrite <- E. apply alist_get_delete_eq.
    + rewrite alist_get_delete_neq; auto.
Qed.

Lemma wait_over_resolve snapshot n f r :
  f snapshot = true ->
  wait_over n (Resolved (Some snapshot))
    (try_catch (call_state_listener snapshot (waitForCondition_listener n f)) r).
Proof.
  intros Hf. unfold wait_over, try_catch, call_state_listener. rewrite Hf. simpl.
  repeat split.
  - intros x Hin. apply fnset_delete_In in Hin as [_ Hne]. exact Hne.
  - auto.
  - apply alist_get_delete_eq.
Qed.

Lemma fan_out_resolves snapshot n f l : forall r,
  f snapshot = true ->
  In (waitForCondition_listener n f) l \/ wait_over n (Resolved (Some snapshot)) r ->
  wait_over n (Resolved (Some snapshot)) (fan_out snapshot l r).
Proof.
  induction l as [|x l IH]; intros r Hf [Hin|Hdone]; auto.
  - destruct Hin.
  - rewrite fan_out_cons. apply IH; auto. destruct Hin as [->|Hin]; [right|left; auto].
    now apply wait_over_resolve.
  - rewrite fan_out_cons. apply IH; auto. right. now apply wait_over_call.
Qed.

(** C9.  A state push replaces the stored snapshot and reaches every
    subscribed listener: each caller's listener is called once with the
    pushed snapshot, in subscription order, whichever of the listeners throw,
    each waitForCondition whose predicate holds is resolved with it, and
    handleMessage returns normally. *)
Theorem state_push_reaches_all m snapshot r :
  is_string "sdk_state" (member "type" m) = true ->
  member "state" m = Some snapshot ->
  truthy (Some snapshot) = true ->
  snd (handleMessage (JSON m) r) = Returns
  /\ state (fst (handleMessage (JSON m) r)) = Some snapshot
  /\ notified (fst (handleMessage (JSON m) r))
     = rev (owed_calls snapshot (stateListeners r)) ++ notified r
  /\ (forall fn throws, In (user_state_listener fn throws) (stateListeners r) ->
        In (UserFn fn, snapshot) (notified (fst (handleMessage (JSON m) r))))
  /\ (forall n f, In (waitForCondition_listener n f) (stateListeners r) ->
        f snapshot = true ->
        In (waitForCondition_promise n, Resolved (Some snapshot))
           (settles (fst (handleMessage (JSON m) r)))).
Proof.
  intros Hty Hm Ht. rewrite (handleMessage_push m snapshot r Hty Hm Ht). cbn [fst snd].
  destruct (fan_out_notified snapshot (stateListeners r) (set_state (Some snapshot) r))
    as [Hn Hs].
  repeat split; auto.
  - intros fn throws Hin. rewrite Hn. apply in_app_iff. left. apply in_rev.
    rewrite rev_involutive. unfold owed_calls. apply in_flat_map.
    exists (user_state_listener fn throws). simpl. auto.
  - intros n f Hin Hf.
    now apply (fan_out_resolves snapshot n f (stateListeners r)
                 (set_state (Some snapshot) r) Hf (or_introl Hin)).
Qed.


Lemma state_push_reaches_all_witness :
  let r := run (constructor demo_config "sdk-1")
             [call_onStateUpdate 1 thrower; call_onStateUpdate 2 quiet_listener] in
  notified (fst (handleMessage (JSON (state_message tick_7)) r))
  = [(UserFn 2, tick_7); (UserFn 1, tick_7)].
Proof.
  intros r.
  destruct (state_push_reaches_all (state_message tick_7) tick_7 r
              eq_refl eq_refl eq_refl) as (_ & _ & Hn & _).
  exact Hn.
Defined.

Lemma wait_over_timeout n r :
  wait_over n (Rejected waitForCondition_timed_out)
    (run_callback (waitForCondition_timeout n)
       (clearTimeout (waitForCondition_timer_id n) r)).
Proof.
  unfold wait_over, run_callback. simpl. repeat split.
  - intros x Hin. apply fnset_delete_In in Hin as [_ Hne]. exact Hne.
  - auto.
  - apply alist_get_delete_eq.
Qed.

Lemma fnset_add_new_closure n f sl :
  (forall m g, In (waitForCondition_listener m g) sl -> m <> n) ->
  In (waitForCondition_listener n f)
     (fnset_add state_listener_id (waitForCondition_listener n f) sl).
Proof.
  intros Hnew. unfold fnset_add. destruct (existsb _ sl) eqn:E.
  - apply existsb_exists in E as (y & Hy & Hid). unfold is_fn in Hid. simpl in Hid.
    destruct (FnId_eq_dec (state_listener_id y) (Closure n)) as [Ey|]; [|discriminate].
    destruct y as [fn t|m g]; simpl in Ey; inversion Ey; subst.
    exfalso. eapply Hnew; eauto.
  - apply in_app_iff. simpl. auto.
Qed.

(** C7.  waitForCondition looks at the current snapshot before it
    subscribes: if there is one and the predicate holds on it, the call is
    resolved with it at once, with no listener subscribed, no timer set and
    no push awaited.  Otherwise it subscribes a listener and sets its timer;
    on the push that satisfies the predicate, and on the firing of the
    timer, that listener is removed from the set (the timer is gone and the
    promise settled). *)
Theorem waitForCondition_checks_first c clientId trace f ms :
  NoDup (stamps trace) ->
  let r := run (constructor c clientId) trace in
  let n := next_id r in
  (forall snapshot, state r = Some snapshot -> f snapshot = true ->
     snd (waitForCondition f ms r) = async_return n
     /\ settles (fst (waitForCondition f ms r))
        = (async_return n, Resolved (Some snapshot)) :: settles r
     /\ stateListeners (fst (waitForCondition f ms r)) = stateListeners r
     /\ timers (fst (waitForCondition f ms r)) = timers r)
  /\ ((state r = None \/ exists snapshot, state r = Some snapshot /\ f snapshot = false) ->
      snd (waitForCondition f ms r) = waitForCondition_promise n
      /\ In (waitForCondition_listener n f) (stateListeners (fst (waitForCondition f ms r)))
      /\ alist_get TimerId_eq_dec (waitForCondition_timer_id n)
           (timers (fst (waitForCondition f ms r)))
         = Some {| delay := ms; callback := waitForCondition_timeout n |})
  /\ (forall r0 k g m snapshot,
        In (waitForCondition_listener k g) (stateListeners r0) ->
        is_string "sdk_state" (member "type" m) = true ->
        member "state" m = Some snapshot -> truthy (Some snapshot) = true ->
        g snapshot = true ->
        wait_over k (Resolved (Some snapshot)) (fst (handleMessage (JSON m) r0)))
  /\ (forall r0 k tm,
        alist_get TimerId_eq_dec (waitForCondition_timer_id k) (timers r0) = Some tm ->
        callback tm = waitForCondition_timeout k ->
        wait_over k (Rejected waitForCondition_timed_out)
          (task (timer_fires (waitForCondition_timer_id k)) r0)).
Proof.
  intros Hnd r n.
  destruct (reachable_Inv c clientId trace Hnd) as [HI Hq]. fold r in HI, Hq.
  split; [|split; [|split]].
  - intros snapshot Hs Hf. unfold waitForCondition. cbv zeta.
    change (state (fresh r)) with (state r). rewrite Hs.
    rewrite (inv_state_truthy HI _ Hs), Hf. simpl. auto.
  - intros Hno.
    assert (E : waitForCondition f ms r = subscribe_waitForCondition f ms n (fresh r)).
    { unfold waitForCondition. cbv zeta. change (state (fresh r)) with (state r).
      destruct Hno as [->|(snapshot & -> & Hf)]; [reflexivity|].
      rewrite Hf, andb_false_r. reflexivity. }
    rewrite E. unfold subscribe_waitForCondition. cbv zeta. cbn [fst snd].
    split; [reflexivity|]. split.
    + unfold onStateUpdate. simpl. apply fnset_add_new_closure.
      intros m g Hin. pose proof (inv_sl_fresh HI _ _ Hin). unfold n. lia.
    + simpl. apply alist_get_set_eq.
  - intros r0 k g m snapshot Hin Hty Hm Ht Hg.
    rewrite (handleMessage_push m snapshot r0 Hty Hm Ht). cbn [fst].
    now apply (fan_out_resolves snapshot k g (stateListeners r0)
                 (set_state (Some snapshot) r0) Hg (or_introl Hin)).
  - intros r0 k tm Hg Hcb. unfold task. rewrite Hg, Hcb. apply wait_over_timeout.
Qed.


Lemma waitForCondition_checks_first_witness :
  let trace := [call_connect; ws_open 1; ws_message 1 push_7] in
  NoDup (stamps trace)
  /\ settles (fst (waitForCondition any_snapshot 30000
                     (run (constructor demo_config "sdk-1") trace)))
     = [(async_return 2, Resolved (Some tick_7))].
Proof.
  intros trace.
  assert (Hnd : NoDup (stamps trace)) by constructor.
  split; [exact Hnd|].
  destruct (waitForCondition_checks_first demo_config "sdk-1" trace any_snapshot 30000 Hnd)
    as (Hnow & _).
  destruct (Hnow tick_7 eq_refl eq_refl) as (_ & Hs & _).
  exact Hs.
Defined.

(** ** disconnect() and the close that follows *)


Lemma settle_calls_once_state p o log :
  settle_calls p log = 1 -> In (p, o) log -> promise_state p log = Some o.
Proof.
  induction log as [|[q o'] log IH]; simpl; [discriminate|].
  destruct (Promise_eq_dec p q) as [->|Hne]; simpl.
  - intros Hz [Heq|Hin].
    + inversion Heq; subst. rewrite promise_state_unsettled by lia. reflexivity.
    + exfalso. assert (0 < settle_calls q log); [|lia].
      clear -Hin. induction log as [|[q' o''] log IH]; simpl in *; [tauto|].
      destruct Hin as [E|Hin].
      * inversion E; subst. destruct (Promise_eq_dec q q); [lia|congruence].
      * apply IH in Hin. lia.
  - intros Hz [Heq|Hin]; [congruence|]. now rewrite IH.
Qed.


Lemma disconnect_plain r :
  plain (fst (disconnect r))
  = plain (set_connectionState disconnected
             (set_reconnectAttempt 0
                (set_connectPromise None
                   (set_reconnectTimer None
                      (set_intentionalDisconnect true
                         match ws r with
                         | Some w => set_ws None (ws_close_method w r)
                         | None => r
                         end))))).
Proof.
  unfold disconnect. cbv zeta. cbn [fst].
  rewrite plain_settle, plain_fresh, plain_setConnectionState.
  change (reconnectTimer (set_intentionalDisconnect true r)) with (reconnectTimer r).
  destruct (reconnectTimer r) as [n|] eqn:Ht.
  - change (ws (set_reconnectTimer None (clearTimeout (reconnect_timer_id n)
                                           (set_intentionalDisconnect true r))))
      with (ws r).
    destruct (ws r) as [w|] eqn:Hw; [|reflexivity].
    unfold plain, ws_close_method, update_socket, find_socket. simpl.
    destruct (alist_get Nat.eq_dec w (sockets r)); reflexivity.
  - change (ws (set_intentionalDisconnect true r)) with (ws r).
    destruct (ws r) as [w|] eqn:Hw.
    + unfold plain, ws_close_method, update_socket, find_socket. simpl.
      destruct (alist_get Nat.eq_dec w (sockets r)); simpl; now rewrite ?Ht.
    + unfold plain. simpl. now rewrite Ht.
Qed.

Lemma disconnect_fields r :
  let d := fst (disconnect r) in
  intentionalDisconnect d = true /\ reconnectTimer d = None
  /\ connectionState d = disconnected /\ reconnectAttempt d = 0%Z
  /\ ws d = None /\ connectPromise d = None
  /\ pendingActions d = pendingActions r /\ config d = config r
  /\ sockets d = match ws r with
                 | Some w => sockets (ws_close_method w r)
                 | None => sockets r
                 end.
Proof.
  intros d.
  destruct (plain_fields _ _ (disconnect_plain r))
    as (E1 & E2 & E3 & E4 & E5 & E6 & E7 & E8 & E9 & _).
  fold d in E1, E2, E3, E4, E5, E6, E7, E8, E9.
  rewrite E1, E2, E3, E4, E5, E6, E7, E8, E9.
  destruct (ws r) as [w|] eqn:Hw; simpl; rewrite ?Hw;
    unfold ws_close_method, update_socket; try destruct (find_socket w r);
    simpl; repeat split; reflexivity.
Qed.




Lemma offline_set_microtasks d l : ws d = None -> isConnected (set_microtasks l d) = false.
Proof. intros Hw. unfold isConnected. simpl. now rewrite Hw. Qed.








Lemma action_timer_gone base unacked H r n :
  Inv base unacked H r -> pendingActions r = [] ->
  alist_get TimerId_eq_dec (action_timer_id n) (timers r) = None.
Proof.
  intros HI Hp.
  destruct (alist_get TimerId_eq_dec (action_timer_id n) (timers r)) as [tm|] eqn:Hg; auto.
  pose proof (inv_timer_kind HI _ _ Hg) as Hk.
  destruct (callback tm) as [k| |id p ty|k|k] eqn:Hcb; simpl in Hk;
    try discriminate; try (destruct Hk; discriminate).
  pose proof (inv_timer_entry HI _ _ _ _ _ Hg Hcb) as He.
  rewrite Hp in He. discriminate.
Qed.



Lemma pending_unsettled base unacked H r id pa :
  Inv base unacked H r ->
  In (id, pa) (pendingActions r) ->
  promise_state (promise pa) (settles r) = None.
Proof.
  intros HI Hin.
  destruct (inv_pending_hist HI _ _ Hin) as (s0 & Hid & Hin0).
  pose proof (inv_conserve HI _ _ Hin0) as Hc. simpl in Hc.
  pose proof (pending_count_pos _ _ _ _ Hin eq_refl).
  apply promise_state_unsettled. lia.
Qed.










(** ** The promise of a waitForConnection call is new *)


Lemma W_settle p o r :
  (forall m, p = waitForConnection_promise m -> m < next_id r) ->
  (forall m, p = async_return m -> exists v, o = Resolved v) ->
  wait_fresh r -> wait_fresh (settle p o r).
Proof.
  intros Hp Ha (A & A' & B & C). unfold wait_fresh, settle. simpl.
  split; [|split; [|split]]; auto.
  - intros m o' [E|Hin]; [|eauto]. inversion E; subst. now apply Hp.
  - intros m o' [E|Hin]; [|eauto]. inversion E; subst. now apply (Ha m).
Qed.

Lemma W_settle_other p o r : not_wait p -> wait_fresh r -> wait_fresh (settle p o r).
Proof.
  intros [Hn Ha]. apply W_settle.
  - intros m E. now elim (Hn m).
  - intros m E. now elim (Ha m).
Qed.

Lemma W_settle_async n v r :
  wait_fresh r -> wait_fresh (settle (async_return n) (Resolved v) r).
Proof. apply W_settle; [discriminate|]. intros m _. now exists v. Qed.

Lemma W_clearTimeout t r : wait_fresh r -> wait_fresh (clearTimeout t r).
Proof.
  intros (A & A' & B & C). unfold wait_fresh, clearTimeout. simpl.
  split; [|split; [|split]]; auto.
  intros t' tm m Hg. destruct (TimerId_eq_dec t' t) as [->|Hne].
  - rewrite alist_get_delete_eq in Hg. discriminate.
  - rewrite alist_get_delete_neq in Hg by exact Hne. eauto.
Qed.

Lemma W_setTimeout t cb ms r :
  (forall m, cb = waitForConnection_timeout m -> m < next_id r) ->
  wait_fresh r -> wait_fresh (setTimeout t cb ms r).
Proof.
  intros Hcb (A & A' & B & C). unfold wait_fresh, setTimeout. simpl.
  split; [|split; [|split]]; auto.
  intros t' tm m Hg. destruct (TimerId_eq_dec t' t) as [->|Hne].
  - rewrite alist_get_set_eq in Hg. inversion Hg; subst. simpl. auto.
  - rewrite alist_get_set_neq in Hg by exact Hne. eauto.
Qed.

Lemma W_fresh r : wait_fresh r -> wait_fresh (fresh r).
Proof.
  intros (A & A' & B & C). unfold wait_fresh, fresh. simpl.
  split; [|split; [|split]]; intros.
  - apply Nat.lt_lt_succ_r. eauto.
  - eauto.
  - apply Nat.lt_lt_succ_r. eauto.
  - apply Nat.lt_lt_succ_r. eauto.
Qed.

Lemma W_unsubscribe_connection fn r :
  wait_fresh r -> wait_fresh (unsubscribe_connection fn r).
Proof.
  intros (A & A' & B & C). unfold wait_fresh, unsubscribe_connection. simpl.
  split; [|split; [|split]]; auto.
  intros m Hin. unfold fnset_delete in Hin. apply filter_In in Hin. apply C, Hin.
Qed.

Lemma W_onConnectionStateChange l r :
  (forall m, l = waitForConnection_listener m -> m < next_id r) ->
  wait_fresh r -> wait_fresh (onConnectionStateChange l r).
Proof.
  intros Hl (A & A' & B & C). unfold wait_fresh, onConnectionStateChange. simpl.
  split; [|split; [|split]]; auto.
  intros m Hin. unfold fnset_add in Hin.
  destruct (existsb _ _); auto.
  apply in_app_iff in Hin as [Hin|[E|[]]]; auto.
Qed.

Lemma W_update_socket s f r : wait_fresh r -> wait_fresh (update_socket s f r).
Proof. unfold update_socket. destruct (find_socket s r); auto. Qed.

Lemma W_send m r : wait_fresh r -> wait_fresh (send m r).
Proof.
  unfold send. destruct (ws r); auto. destruct (isConnected r); auto.
  apply W_update_socket.
Qed.

Lemma next_id_settle p o r : next_id (settle p o r) = next_id r.
Proof. reflexivity. Qed.

Lemma W_call_connection_listener st attempt l r :
  (forall m, l = waitForConnection_listener m -> m < next_id r) ->
  wait_fresh r ->
  wait_fresh (try_catch (call_connection_listener st attempt l) r)
  /\ next_id (try_catch (call_connection_listener st attempt l) r) = next_id r.
Proof.
  intros Hl HW. unfold try_catch, call_connection_listener.
  destruct l as [fn throws|n]; cbn [fst]; auto.
  destruct st; cbn [fst]; auto.
  - split; [|reflexivity].
    apply W_settle; [intros m E; inversion E; subst; now apply Hl|discriminate|].
    now apply W_unsubscribe_connection, W_clearTimeout.
  - split; [|reflexivity].
    apply W_settle; [intros m E; inversion E; subst; now apply Hl|discriminate|].
    now apply W_unsubscribe_connection, W_clearTimeout.
Qed.

Lemma W_broadcast st attempt l : forall r,
  (forall m, In (waitForConnection_listener m) l -> m < next_id r) ->
  wait_fresh r ->
  wait_fresh (fold_left (fun r x => try_catch (call_connection_listener st attempt x) r) l r)
  /\ next_id (fold_left (fun r x => try_catch (call_connection_listener st attempt x) r) l r)
     = next_id r.
Proof.
  induction l as [|x l IH]; intros r Hl HW; simpl; auto.
  destruct (W_call_connection_listener st attempt x r) as [HW' Hn']; auto.
  { intros m ->. apply Hl. simpl. auto. }
  destruct (IH (try_catch (call_connection_listener st attempt x) r)) as [HW2 Hn2]; auto.
  { intros m Hin. rewrite Hn'. apply Hl. simpl. auto. }
  split; [exact HW2|congruence].
Qed.

Lemma W_setConnectionState st attempt r :
  wait_fresh r ->
  wait_fresh (setConnectionState st attempt r)
  /\ next_id (setConnectionState st attempt r) = next_id r.
Proof.
  intros HW. unfold setConnectionState. cbv zeta.
  apply (W_broadcast st attempt _ (set_connectionState st r)); [|exact HW].
  destruct HW as (_ & _ & _ & C). exact C.
Qed.


Lemma not_wait_connect n : not_wait (connect_promise n).
Proof. split; intros m; discriminate. Qed.

Lemma not_wait_action n : not_wait (action_promise n).
Proof. split; intros m; discriminate. Qed.

Lemma not_wait_condition n : not_wait (waitForCondition_promise n).
Proof. split; intros m; discriminate. Qed.

Lemma W_connect r : wait_fresh r -> wait_fresh (fst (connect r)).
Proof.
  intros HW. unfold connect.
  destruct (isConnected r).
  { cbn [fst]. apply W_settle_async. now apply W_fresh. }
  destruct (connectPromise r); [exact HW|].
  cbv zeta. cbn [fst]. wstrip.
  apply W_setTimeout; [discriminate|]. wstrip. apply W_fresh.
  destruct (ConnectionState_eqb _ _).
  - exact HW.
  - now apply W_setConnectionState.
Qed.

Lemma W_scheduleReconnect r : wait_fresh r -> wait_fresh (scheduleReconnect r).
Proof.
  intros HW. unfold scheduleReconnect.
  destruct (reaches _ _).
  - now apply W_setConnectionState.
  - cbv zeta. wstrip. apply W_setTimeout; [discriminate|]. apply W_fresh.
    now apply W_setConnectionState.
Qed.

Lemma W_disconnect r : wait_fresh r -> wait_fresh (fst (disconnect r)).
Proof.
  intros HW. unfold disconnect. cbv zeta. cbn [fst].
  apply W_settle_async. apply W_fresh.
  apply W_setConnectionState. wstrip.
  assert (H1 : wait_fresh
                 match reconnectTimer (set_intentionalDisconnect true r) with
                 | Some n => set_reconnectTimer None
                               (clearTimeout (reconnect_timer_id n)
                                  (set_intentionalDisconnect true r))
                 | None => set_intentionalDisconnect true r
                 end).
  { destruct (reconnectTimer _); wstrip; [now apply W_clearTimeout|exact HW]. }
  revert H1. generalize (match reconnectTimer (set_intentionalDisconnect true r) with
                 | Some n => set_reconnectTimer None
                               (clearTimeout (reconnect_timer_id n)
                                  (set_intentionalDisconnect true r))
                 | None => set_intentionalDisconnect true r
                 end).
  intros r0 H0. destruct (ws r0); wstrip; [now apply W_update_socket|exact H0].
Qed.

Lemma W_waitForConnection ms r : wait_fresh r -> wait_fresh (fst (waitForConnection ms r)).
Proof.
  intros HW. unfold waitForConnection. cbv zeta.
  destruct (isConnected (fresh r)); cbn [fst].
  - apply W_settle_async. now apply W_fresh.
  - apply W_onConnectionStateChange.
    + intros m E. inversion E; subst. simpl. apply Nat.lt_succ_diag_r.
    + apply W_setTimeout; [|now apply W_fresh].
      intros m E. inversion E; subst. simpl. apply Nat.lt_succ_diag_r.
Qed.

Lemma W_onStateUpdate l r : wait_fresh r -> wait_fresh (onStateUpdate l r).
Proof. auto. Qed.

Lemma W_unsubscribe_state fn r : wait_fresh r -> wait_fresh (unsubscribe_state fn r).
Proof. auto. Qed.

Lemma W_waitForCondition f ms r : wait_fresh r -> wait_fresh (fst (waitForCondition f ms r)).
Proof.
  intros HW. unfold waitForCondition. cbv zeta.
  assert (Hs : wait_fresh (fst (subscribe_waitForCondition f ms (next_id r) (fresh r)))).
  { unfold subscribe_waitForCondition. cbv zeta. cbn [fst].
    apply W_onStateUpdate. apply W_setTimeout; [discriminate|]. now apply W_fresh. }
  destruct (state (fresh r)); [|exact Hs].
  destruct (_ && _); [|exact Hs].
  cbn [fst]. apply W_settle_async. now apply W_fresh.
Qed.

Lemma W_call_state_listener snapshot l r :
  wait_fresh r -> wait_fresh (try_catch (call_state_listener snapshot l) r).
Proof.
  intros HW. unfold try_catch, call_state_listener.
  destruct l as [fn throws|n f]; cbn [fst]; [exact HW|].
  destruct (f snapshot); cbn [fst]; [|exact HW].
  apply W_settle_other; [apply not_wait_condition|].
  now apply W_unsubscribe_state, W_clearTimeout.
Qed.

Lemma W_handle_state m r : wait_fresh r -> wait_fresh (handle_state m r).
Proof.
  intros HW. unfold handle_state.
  destruct (_ && _); [|exact HW].
  destruct (member "state" m); [|exact HW].
  cbv zeta. apply fold_left_keeps; [|exact HW].
  intros a x. apply W_call_state_listener.
Qed.

Lemma W_sendAction_body a s p r :
  not_wait p -> wait_fresh r -> wait_fresh (sendAction_body a s p r).
Proof.
  intros Hp HW. unfold sendAction_body.
  destruct (negb (isConnected r)); [now apply W_settle_other|].
  cbv zeta. apply W_send. wstrip.
  apply W_setTimeout; [discriminate|]. now apply W_fresh.
Qed.

Lemma W_await p k r : wait_fresh r -> wait_fresh (await p k r).
Proof. intros HW. unfold await. destruct (promise_state p (settles r)); exact HW. Qed.

Lemma W_sendAction a s r : wait_fresh r -> wait_fresh (fst (sendAction a s r)).
Proof.
  intros HW. unfold sendAction. cbv zeta.
  destruct (ConnectionState_eqb _ _).
  - pose proof (W_waitForConnection 60000 (fresh r) (W_fresh r HW)) as H1.
    destruct (waitForConnection 60000 (fresh r)) as [r1 p]. cbn [fst] in *.
    now apply W_await.
  - cbn [fst]. apply W_sendAction_body; [apply not_wait_action|]. now apply W_fresh.
Qed.

Lemma W_resume r ko :
  not_wait (result_of (fst ko)) -> wait_fresh r -> wait_fresh (resume r ko).
Proof.
  intros Hp HW. unfold resume. destruct (fst ko) as [a s p]. simpl in Hp.
  destruct (snd ko); [now apply W_sendAction_body|now apply W_settle_other].
Qed.

Lemma W_drain l : forall r,
  (forall ko, In ko l -> not_wait (result_of (fst ko))) ->
  wait_fresh r -> wait_fresh (fold_left resume l r).
Proof.
  induction l as [|ko l IH]; intros r Hl HW; simpl; auto.
  apply IH; [intros; apply Hl; simpl; auto|].
  apply W_resume; [apply Hl; simpl; auto|exact HW].
Qed.

Lemma W_run_microtasks r :
  (forall ko, In ko (microtasks r) -> not_wait (result_of (fst ko))) ->
  wait_fresh r -> wait_fresh (run_microtasks r).
Proof. intros Hl HW. unfold run_microtasks. apply W_drain; auto. Qed.


Lemma InvG_pending_not_wait base unacked x rest H r :
  InvG base unacked x rest H r -> pending_not_wait r.
Proof.
  intros HI id pa Hin.
  destruct (inv_pending_hist HI _ _ Hin) as (s & _ & Hh).
  destruct (inv_hist_fresh HI _ _ Hh) as (n & -> & _). apply not_wait_action.
Qed.

Lemma InvG_queued_not_wait base unacked x H r :
  InvG base unacked x [] H r ->
  forall ko, In ko (microtasks r) -> not_wait (result_of (fst ko)).
Proof.
  intros HI [k o] Hin. simpl.
  pose proof (inv_queued_hist HI k o Hin) as Hh.
  destruct (inv_hist_fresh HI _ _ Hh) as (n & -> & _). apply not_wait_action.
Qed.

Lemma W_handle_action_result m r :
  pending_not_wait r -> wait_fresh r -> wait_fresh (handle_action_result m r).
Proof.
  intros Hp HW. unfold handle_action_result.
  destruct (_ && _); [|exact HW].
  destruct (get_pending (member "actionId" m) r) as [pending|] eqn:Hg; [|exact HW].
  assert (Hn : not_wait (promise pending)).
  { unfold get_pending in Hg. destruct (member "actionId" m) as [[| | |id| |]|]; try discriminate.
    apply alist_get_In in Hg. exact (Hp _ _ Hg). }
  assert (Hd : wait_fresh (delete_pending (member "actionId" m)
                             (clearTimeout (timeout pending) r))).
  { unfold delete_pending. destruct (member "actionId" m) as [[| | |id| |]|]; wstrip;
      now apply W_clearTimeout. }
  cbv zeta. destruct (truthy _); now apply W_settle_other.
Qed.

Lemma W_handle_error m r :
  pending_not_wait r -> wait_fresh r -> wait_fresh (handle_error m r).
Proof.
  intros Hp HW. unfold handle_error.
  destruct (is_string _ _); [|exact HW]. destruct (truthy _); [|exact HW].
  destruct (get_pending (member "actionId" m) r) as [pending|] eqn:Hg; [|exact HW].
  assert (Hn : not_wait (promise pending)).
  { unfold get_pending in Hg. destruct (member "actionId" m) as [[| | |id| |]|]; try discriminate.
    apply alist_get_In in Hg. exact (Hp _ _ Hg). }
  assert (Hd : wait_fresh (delete_pending (member "actionId" m)
                             (clearTimeout (timeout pending) r))).
  { unfold delete_pending. destruct (member "actionId" m) as [[| | |id| |]|]; wstrip;
      now apply W_clearTimeout. }
  cbv zeta. now apply W_settle_other.
Qed.

Lemma W_handleMessage base unacked x rest H data r :
  InvG base unacked x rest H r ->
  wait_fresh r -> wait_fresh (fst (handleMessage data r)).
Proof.
  intros HI HW. unfold handleMessage.
  destruct (JSON_parse data) as [m|]; [|exact HW].
  assert (Hgo : wait_fresh (handle_error m (handle_action_result m (handle_state m r)))).
  { pose proof (InvG_handle_state _ _ _ _ _ m _ HI) as H1.
    pose proof (InvG_handle_action_result _ _ _ _ _ m _ H1) as H2.
    apply W_handle_error; [exact (InvG_pending_not_wait _ _ _ _ _ _ H2)|].
    apply W_handle_action_result; [exact (InvG_pending_not_wait _ _ _ _ _ _ H1)|].
    now apply W_handle_state. }
  destruct m; cbn [fst]; auto.
Qed.

Lemma W_onopen s r : wait_fresh r -> wait_fresh (onopen s r).
Proof. intros HW. unfold onopen. cbv zeta. now apply W_send, W_clearTimeout. Qed.

Lemma W_onerror s r : wait_fresh r -> wait_fresh (onerror s r).
Proof.
  intros HW. unfold onerror. cbv zeta.
  apply W_settle_other; [apply not_wait_connect|]. now apply W_clearTimeout.
Qed.

Lemma W_checkConnected s data r : wait_fresh r -> wait_fresh (checkConnected s data r).
Proof.
  intros HW. unfold checkConnected.
  destruct (JSON_parse data) as [m|]; [|exact HW].
  assert (Hgo : wait_fresh
    (if is_string "sdk_connected" (member "type" m)
     then settle (connect_promise s) (Resolved None)
            (setConnectionState connected None
               (set_reconnectAttempt 0
                  match ws r with
                  | Some current =>
                      if Nat.eqb current s then update_socket s without_checkConnected r
                      else r
                  | None => r
                  end))
     else r)).
  { destruct (is_string _ _); [|exact HW].
    apply W_settle_other; [apply not_wait_connect|].
    apply W_setConnectionState. wstrip.
    destruct (ws r); [|exact HW]. destruct (Nat.eqb _ _); [|exact HW].
    now apply W_update_socket. }
  destruct m; auto.
Qed.

Lemma W_reject_all l : forall r,
  (forall e, In e l -> not_wait (promise (snd e))) ->
  wait_fresh r -> wait_fresh (fold_left reject_pending l r).
Proof.
  induction l as [|e l IH]; intros r Hl HW; simpl; auto.
  apply IH; [intros; apply Hl; simpl; auto|].
  unfold reject_pending. cbv zeta.
  apply W_settle_other; [apply Hl; simpl; auto|]. now apply W_clearTimeout.
Qed.

Lemma W_onclose r : pending_not_wait r -> wait_fresh r -> wait_fresh (onclose r).
Proof.
  intros Hp HW. unfold onclose. cbv zeta.
  set (m := set_pendingActions [] _).
  assert (Hm : wait_fresh m).
  { unfold m. wstrip. apply W_reject_all.
    - intros [id pa] Hin. exact (Hp id pa Hin).
    - exact HW. }
  clearbody m.
  destruct (_ && _).
  - now apply W_scheduleReconnect.
  - now apply W_setConnectionState.
Qed.

Lemma W_run_callback base unacked x rest H r t tm :
  InvG base unacked x rest H r ->
  alist_get TimerId_eq_dec t (timers r) = Some tm ->
  wait_fresh r -> wait_fresh (run_callback (callback tm) (clearTimeout t r)).
Proof.
  intros HI Hg HW.
  pose proof (W_clearTimeout t r HW) as HW1.
  destruct (callback tm) as [n| |id p ty|n|n] eqn:Hcb; unfold run_callback; cbv zeta.
  - assert (H1 : wait_fresh (settle (connect_promise n) (Rejected Connection_timeout)
                               (clearTimeout t r))).
    { apply W_settle_other; [apply not_wait_connect|exact HW1]. }
    revert H1. generalize (settle (connect_promise n) (Rejected Connection_timeout)
                             (clearTimeout t r)).
    intros r0 H0. destruct (ws r0); [now apply W_update_socket|exact H0].
  - apply W_connect. wstrip. exact HW1.
  - apply W_settle_other; [|wstrip; exact HW1].
    pose proof (inv_timer_entry HI _ _ _ _ _ Hg Hcb) as He.
    apply alist_get_In in He.
    exact (InvG_pending_not_wait _ _ _ _ _ _ HI _ _ He).
  - apply W_settle; [|discriminate|now apply W_unsubscribe_connection].
    intros m E. inversion E; subst.
    destruct HW as (_ & _ & B & _). exact (B _ _ _ Hg Hcb).
  - apply W_settle_other; [apply not_wait_condition|]. now apply W_unsubscribe_state.
Qed.

Lemma W_task base unacked H r e :
  Inv base unacked H r -> wait_fresh r -> wait_fresh (task e r).
Proof.
  intros HI HW. unfold Inv in HI. destruct e; unfold task.
  - now apply W_connect.
  - now apply W_disconnect.
  - now apply W_sendAction.
  - now apply W_waitForConnection.
  - now apply W_waitForCondition.
  - exact HW.
  - exact HW.
  - apply W_onConnectionStateChange; [discriminate|exact HW].
  - now apply W_unsubscribe_connection.
  - destruct (find_socket s r) as [sock|]; auto. destruct (readyState sock); auto.
    now apply W_onopen, W_update_socket.
  - destruct (find_socket s r) as [sock|]; auto. destruct (readyState sock); auto.
    cbv zeta. pose proof (W_handleMessage _ _ _ _ _ data _ HI HW) as H1.
    destruct (checkConnected_attached sock); [now apply W_checkConnected|exact H1].
  - destruct (find_socket s r) as [sock|]; auto.
    destruct (readyState sock); auto using W_onerror.
  - destruct (find_socket s r) as [sock|]; auto.
    assert (H1 : wait_fresh (onclose (update_socket s (with_readyState CLOSED) r))).
    { apply W_onclose; [|now apply W_update_socket].
      apply (InvG_pending_not_wait base unacked None [] H).
      now apply InvG_update_socket. }
    destruct (readyState sock); auto.
  - destruct (alist_get TimerId_eq_dec t (timers r)) as [tm|] eqn:Hg; auto.
    now apply (W_run_callback _ _ _ _ _ _ _ _ HI Hg).
Qed.

Lemma W_step base unacked H r e :
  (forall s, In s (stamp_drawn e) -> ~ In s (map fst H)) ->
  Inv base unacked H r -> wait_fresh r -> wait_fresh (step r e).
Proof.
  intros Hs HI HW. unfold step.
  apply W_run_microtasks; [|now apply (W_task _ _ _ _ _ HI)].
  apply (InvG_queued_not_wait _ _ _ _ _ (Inv_task _ _ _ _ _ Hs HI)).
Qed.

Lemma W_run base trace : forall unacked H r,
  NoDup (map fst H ++ stamps trace) ->
  Inv base unacked H r -> wait_fresh r -> wait_fresh (run r trace).
Proof.
  induction trace as [|e trace IH]; intros unacked H r Hnd HI HW; simpl; auto.
  unfold stamps in Hnd. simpl in Hnd. fold (stamps trace) in Hnd.
  destruct (Inv_step base unacked H r e (fresh_stamp H _ _ Hnd) HI) as [HI' _].
  apply (IH (unacked && negb (is_ack e)) (H ++ issued r e) (step r e)); [|exact HI'|].
  - rewrite map_app, map_fst_issued, <- app_assoc. exact Hnd.
  - exact (W_step _ _ _ _ _ (fresh_stamp H _ _ Hnd) HI HW).
Qed.

Lemma reachable_wait_fresh c clientId trace :
  NoDup (stamps trace) -> wait_fresh (run (constructor c clientId) trace).
Proof.
  intros Hnd. apply (W_run [] trace true [] _ Hnd (Inv_constructor c clientId)).
  unfold wait_fresh, WaitFresh, constructor. simpl.
  split; [|split; [|split]]; intros; try tauto; discriminate.
Qed.

(** ** sendAction while the state is reconnecting *)

Lemma wait_promise_new r m :
  wait_fresh r -> next_id r <= m ->
  promise_state (waitForConnection_promise m) (settles r) = None.
Proof.
  intros (A & _) Hle. apply promise_state_unsettled, settle_calls_zero.
  intros o Hin. apply A in Hin. lia.
Qed.

Lemma sendAction_parks a stamp r :
  wait_fresh r -> microtasks r = [] ->
  connectionState r = reconnecting -> isConnected r = false ->
  step r (call_sendAction a stamp)
  = set_awaiters
      (awaiters r ++ [(waitForConnection_promise (S (next_id r)),
                       sendAction_resume a stamp (action_promise (next_id r)))])
      (onConnectionStateChange (waitForConnection_listener (S (next_id r)))
         (setTimeout (waitForConnection_timer_id (S (next_id r)))
            (waitForConnection_timeout (S (next_id r))) 60000 (fresh (fresh r)))).
Proof.
  intros HW Hq Hst Hc.
  unfold step, task, sendAction. cbv zeta.
  change (connectionState (fresh r)) with (connectionState r). rewrite Hst.
  cbn [ConnectionState_eqb].
  unfold waitForConnection. cbv zeta.
  change (isConnected (fresh (fresh r))) with (isConnected r). rewrite Hc.
  cbn [fst]. unfold await.
  change (settles (onConnectionStateChange _ _)) with (settles r).
  change (next_id (fresh r)) with (S (next_id r)).
  rewrite (wait_promise_new r (S (next_id r)) HW) by lia.
  apply run_microtasks_idle. exact Hq.
Qed.

Lemma no_awaiter_of_async base unacked H r n :
  Inv base unacked H r -> filter (awaits (async_return n)) (awaiters r) = [].
Proof.
  intros HI. apply filter_none. intros [q k] Hin.
  destruct (inv_parked_wait HI _ _ Hin) as (m & ms & -> & _).
  unfold awaits. cbn [fst].
  destruct (Promise_eq_dec (waitForConnection_promise m) (async_return n));
    [discriminate|reflexivity].
Qed.

Lemma async_return_resolved r n v :
  wait_fresh r ->
  exists v', promise_state (async_return n) ((async_return n, Resolved v) :: settles r)
             = Some (Resolved v').
Proof.
  intros (_ & A' & _). simpl.
  destruct (promise_state (async_return n) (settles r)) as [o|] eqn:Hp.
  - assert (Hin : In (async_return n, o) (settles r)).
    { clear -Hp. induction (settles r) as [|[q o'] l IH]; simpl in *; [discriminate|].
      destruct (promise_state (async_return n) l) as [o1|].
      - inversion Hp; subst. auto.
      - destruct (Promise_eq_dec (async_return n) q) as [<-|]; [|discriminate].
        inversion Hp; subst. auto. }
    destruct (A' _ _ Hin) as (v' & ->). eauto.
  - destruct (Promise_eq_dec _ _); [eauto|congruence].
Qed.

Lemma update_socket_fields s f r :
  pendingActions (update_socket s f r) = pendingActions r
  /\ timers (update_socket s f r) = timers r
  /\ settles (update_socket s f r) = settles r
  /\ connectionState (update_socket s f r) = connectionState r
  /\ awaiters (update_socket s f r) = awaiters r
  /\ microtasks (update_socket s f r) = microtasks r
  /\ ws (update_socket s f r) = ws r.
Proof. unfold update_socket. destruct (find_socket s r); repeat split. Qed.

Lemma send_fields m r :
  pendingActions (send m r) = pendingActions r
  /\ timers (send m r) = timers r
  /\ settles (send m r) = settles r
  /\ connectionState (send m r) = connectionState r
  /\ awaiters (send m r) = awaiters r
  /\ microtasks (send m r) = microtasks r
  /\ ws (send m r) = ws r.
Proof.
  unfold send. destruct (ws r) eqn:Hw; [|repeat split; auto].
  destruct (isConnected r); [|repeat split; auto].
  destruct (update_socket_fields n (with_sent m) r) as (A & B & C & D & E & F & G).
  repeat split; congruence.
Qed.


Lemma sendAction_body_registers a stamp p r :
  isConnected r = true -> registered a stamp p r (sendAction_body a stamp p r).
Proof.
  intros Hc. unfold sendAction_body. rewrite Hc. cbn [negb]. cbv zeta.
  set (msg := sdk_action _ _ _).
  set (y := set_pendingActions _ _).
  destruct (send_fields msg y) as (A & B & C & D & _ & _ & G).
  destruct (link_fields _ _ (link_send msg y)) as (Ecfg & _).
  unfold registered. rewrite A, B, C, D.
  do 4 (split; [reflexivity|]).
  unfold isConnected in Hc.
  destruct (ws r) as [s|] eqn:Hw; [|discriminate].
  destruct (find_socket s r) as [sock|] eqn:Hf; [|discriminate].
  exists s, sock. split; [reflexivity|]. split; [exact Hf|].
  split; [destruct (readyState sock); simpl in Hc; congruence|].
  split; [|split; [rewrite G; exact Hw|exact Ecfg]].
  assert (Hcy : isConnected y = true).
  { unfold isConnected. change (ws y) with (ws r). rewrite Hw.
    change (find_socket s y) with (find_socket s r). rewrite Hf. exact Hc. }
  unfold send. change (ws y) with (ws r). rewrite Hw, Hcy.
  unfold update_socket. change (find_socket s y) with (find_socket s r). rewrite Hf.
  unfold find_socket. cbn [sockets set_sockets]. apply alist_get_set_eq.
Qed.

Lemma sendAction_at_once base unacked H a stamp r :
  Inv base unacked H r -> wait_fresh r -> microtasks r = [] ->
  connectionState r = reconnecting -> isConnected r = true ->
  let p := action_promise (next_id r) in
  let r1 := step r (call_sendAction a stamp) in
  pendingActions r1
  = alist_set string_dec (actionId_of stamp)
      {| promise := p; timeout := action_timer_id (S (S (next_id r))) |} (pendingActions r)
  /\ timers r1
     = alist_set TimerId_eq_dec (action_timer_id (S (S (next_id r))))
         {| delay := actionTimeout (config r);
            callback := action_timeout (actionId_of stamp) p (action_type a) |} (timers r)
  /\ settles r1 = (async_return (S (next_id r)), Resolved None) :: settles r
  /\ connectionState r1 = reconnecting
  /\ exists s sock,
       ws r = Some s /\ find_socket s r = Some sock /\ readyState sock = OPEN
       /\ find_socket s r1
          = Some (with_sent (sdk_action (botUsername (config r)) (actionId_of stamp) a) sock).
Proof.
  intros HI HW Hq Hst Hc p r1.
  set (S0 := settle (async_return (S (next_id r))) (Resolved None) (fresh (fresh r))).
  assert (Hm : microtasks S0 = []).
  { unfold S0, settle. cbn [microtasks set_microtasks set_awaiters set_settles awaiters fresh
                            set_next_id].
    rewrite (no_awaiter_of_async _ _ _ _ _ HI), Hq. reflexivity. }
  destruct (async_return_resolved r (S (next_id r)) None HW) as (v' & Hv).
  assert (E : r1 = sendAction_body a stamp p
                     (set_microtasks []
                        (set_microtasks
                           (microtasks S0 ++ [(sendAction_resume a stamp p, Resolved v')])
                           S0))).
  { unfold r1, step, task, sendAction. cbv zeta.
    change (connectionState (fresh r)) with (connectionState r). rewrite Hst.
    cbn [ConnectionState_eqb].
    unfold waitForConnection. cbv zeta.
    change (isConnected (fresh (fresh r))) with (isConnected r). rewrite Hc.
    cbn [fst]. change (next_id (fresh r)) with (S (next_id r)). fold S0. fold p.
    unfold await.
    change (settles S0) with ((async_return (S (next_id r)), Resolved None) :: settles r).
    rewrite Hv. unfold run_microtasks.
    cbn [microtasks set_microtasks]. rewrite Hm. reflexivity. }
  set (X := set_microtasks [] _) in E.
  assert (Hcx : isConnected X = true) by exact Hc.
  destruct (sendAction_body_registers a stamp p X Hcx)
    as (A & B & C & D & s & sock & F1 & F2 & F3 & F4 & _).
  rewrite <- E in A, B, C, D, F4.
  split; [exact A|]. split; [exact B|]. split; [exact C|].
  split; [rewrite D; exact Hst|]. exists s, sock. auto.
Qed.

Lemma sendAction_offline base unacked H a stamp r :
  Inv base unacked H r -> microtasks r = [] ->
  connectionState r <> reconnecting -> isConnected r = false ->
  step r (call_sendAction a stamp)
  = set_settles ((action_promise (next_id r), Rejected (Not_connected (connectionState r)))
                   :: settles r) (fresh r).
Proof.
  intros HI Hq Hst Hc.
  assert (Hnone : forall q, filter (awaits (action_promise q)) (awaiters r) = []).
  { intros q. apply filter_none. intros [q' k] Hin.
    destruct (inv_parked_wait HI _ _ Hin) as (m & ms & -> & _).
    unfold awaits. cbn [fst].
    destruct (Promise_eq_dec (waitForConnection_promise m) (action_promise q));
      [discriminate|reflexivity]. }
  assert (Hall : forall q, filter (fun a => negb (awaits (action_promise q) a)) (awaiters r)
                           = awaiters r).
  { intros q. apply filter_all. intros [q' k] Hin.
    destruct (inv_parked_wait HI _ _ Hin) as (m & ms & -> & _).
    unfold awaits. cbn [fst].
    destruct (Promise_eq_dec (waitForConnection_promise m) (action_promise q));
      [discriminate|reflexivity]. }
  unfold step, task, sendAction. cbv zeta.
  change (connectionState (fresh r)) with (connectionState r).
  assert (E : ConnectionState_eqb (connectionState r) reconnecting = false)
    by (destruct (connectionState r); simpl; congruence).
  rewrite E. cbn [fst]. unfold sendAction_body.
  change (isConnected (fresh r)) with (isConnected r). rewrite Hc. cbn [negb].
  change (connectionState (fresh r)) with (connectionState r).
  rewrite run_microtasks_idle.
  - unfold settle. cbn [microtasks set_microtasks set_awaiters set_settles awaiters settles fresh
                            set_next_id].
    rewrite Hnone, Hall. clear -Hq. destruct r. simpl in *. subst. reflexivity.
  - unfold settle. cbn [microtasks set_microtasks set_awaiters set_settles awaiters settles fresh
                          set_next_id].
    rewrite Hnone, Hq. reflexivity.
Qed.

Lemma resume_log_grows r ko : exists newer, settles (resume r ko) = newer ++ settles r.
Proof.
  unfold resume. destruct (fst ko) as [a s p]. destruct (snd ko) as [v|e].
  - unfold sendAction_body. destruct (negb (isConnected r)).
    + eexists [_]. reflexivity.
    + cbv zeta. exists []. 
      match goal with |- settles (send ?m ?y) = _ =>
        destruct (send_fields m y) as (_ & _ & C & _); rewrite C end.
      reflexivity.
  - eexists [_]. reflexivity.
Qed.

Lemma drain_log_grows l : forall r,
  exists newer, settles (fold_left resume l r) = newer ++ settles r.
Proof.
  induction l as [|ko l IH]; intros r; simpl.
  - exists []. reflexivity.
  - destruct (IH (resume r ko)) as (n1 & E1).
    destruct (resume_log_grows r ko) as (n2 & E2).
    exists (n1 ++ n2). rewrite E1, E2. now rewrite app_assoc.
Qed.

Lemma drain_rejects k e l : forall r,
  In (k, Rejected e) l ->
  In (result_of k, Rejected e) (settles (fold_left resume l r)).
Proof.
  induction l as [|ko l IH]; intros r Hin; simpl; [destruct Hin|].
  destruct Hin as [->|Hin]; [|now apply IH].
  destruct (drain_log_grows l (resume r (k, Rejected e))) as (newer & E).
  rewrite E. apply in_app_iff. right.
  unfold resume. cbn [fst snd]. destruct k as [a s p]. simpl. auto.
Qed.

Lemma settle_calls_In p o log : In (p, o) log -> 0 < settle_calls p log.
Proof.
  induction log as [|[q o'] log IH]; simpl; [tauto|].
  intros [E|Hin].
  - inversion E; subst. destruct (Promise_eq_dec p p); [lia|congruence].
  - apply IH in Hin. lia.
Qed.

(* A continuation that leaves the queue with a rejection: the promise of
   its sendAction call is rejected with that error, and no pending action
   holds it. *)
Lemma queued_rejection base unacked H r ev k e :
  (forall s, In s (stamp_drawn ev) -> ~ In s (map fst H)) ->
  Inv base unacked H r ->
  In (stamp_of k, result_of k) H ->
  In (k, Rejected e) (microtasks (task ev r)) ->
  promise_state (result_of k) (settles (step r ev)) = Some (Rejected e)
  /\ forall id pa, In (id, pa) (pendingActions (step r ev)) -> promise pa <> result_of k.
Proof.
  intros Hs HI Hh Hin.
  destruct (Inv_step _ _ _ _ _ Hs HI) as [HI2 Hq2].
  assert (Hlog : In (result_of k, Rejected e) (settles (step r ev))).
  { unfold step, run_microtasks. now apply drain_rejects. }
  assert (Hh2 : In (stamp_of k, result_of k) (H ++ issued r ev))
    by (apply in_app_iff; auto).
  pose proof (inv_conserve HI2 _ _ Hh2) as Hc. simpl in Hc.
  pose proof (settle_calls_In _ _ _ Hlog) as Hpos.
  split.
  - apply settle_calls_once_state; [lia|exact Hlog].
  - intros id pa Hk Hp. pose proof (pending_count_pos _ _ _ _ Hk Hp). lia.
Qed.


Lemma settle_queue_grows p o r x : In x (microtasks r) -> In x (microtasks (settle p o r)).
Proof. intros Hin. unfold settle. simpl. apply in_app_iff. auto. Qed.

Lemma settle_wakes p o k r : In (p, k) (awaiters r) -> In (k, o) (microtasks (settle p o r)).
Proof.
  intros Hin. unfold settle. simpl. apply in_app_iff. right.
  apply (in_map (fun a => (snd a, o)) _ (p, k)).
  apply filter_In. split; [exact Hin|].
  unfold awaits. cbn [fst]. destruct (Promise_eq_dec p p); [reflexivity|congruence].
Qed.

Lemma settle_leaves_parked p o q k r :
  q <> p -> In (q, k) (awaiters r) -> In (q, k) (awaiters (settle p o r)).
Proof.
  intros Hne Hin. unfold settle. simpl. apply filter_In. split; [exact Hin|].
  unfold awaits. cbn [fst]. destruct (Promise_eq_dec q p); [congruence|reflexivity].
Qed.

Lemma call_listener_wake st o attempt m k l r :
  wait_outcome st = Some o ->
  let r' := try_catch (call_connection_listener st attempt l) r in
  (In (k, o) (microtasks r) -> In (k, o) (microtasks r'))
  /\ (In (waitForConnection_promise m, k) (awaiters r) ->
      In (waitForConnection_promise m, k) (awaiters r') \/ In (k, o) (microtasks r'))
  /\ (l = waitForConnection_listener m ->
      In (waitForConnection_promise m, k) (awaiters r) -> In (k, o) (microtasks r')).
Proof.
  intros Ho. unfold try_catch, call_connection_listener.
  destruct l as [fn throws|n]; cbn [fst].
  { split; [auto|]. split; [auto|]. discriminate. }
  destruct st; try discriminate; inversion Ho; subst; cbn [fst].
  - split; [intros Hin; apply settle_queue_grows; exact Hin|]. split.
    + intros Hin. destruct (Nat.eq_dec m n) as [->|Hne].
      * right. apply settle_wakes. exact Hin.
      * left. apply settle_leaves_parked; [congruence|exact Hin].
    + intros E Hin. inversion E; subst. apply settle_wakes. exact Hin.
  - split; [intros Hin; apply settle_queue_grows; exact Hin|]. split.
    + intros Hin. destruct (Nat.eq_dec m n) as [->|Hne].
      * right. apply settle_wakes. exact Hin.
      * left. apply settle_leaves_parked; [congruence|exact Hin].
    + intros E Hin. inversion E; subst. apply settle_wakes. exact Hin.
Qed.

Lemma broadcast_queue_grows st o attempt k l : forall r,
  wait_outcome st = Some o ->
  In (k, o) (microtasks r) ->
  In (k, o) (microtasks
               (fold_left (fun r x => try_catch (call_connection_listener st attempt x) r) l r)).
Proof.
  induction l as [|x l IH]; intros r Ho Hin; simpl; auto.
  apply IH; [exact Ho|].
  now apply (proj1 (call_listener_wake st o attempt 0 k x r Ho)).
Qed.

Lemma broadcast_wake st o attempt m k l : forall r,
  wait_outcome st = Some o ->
  In (waitForConnection_listener m) l ->
  In (waitForConnection_promise m, k) (awaiters r) ->
  In (k, o) (microtasks
               (fold_left (fun r x => try_catch (call_connection_listener st attempt x) r) l r)).
Proof.
  induction l as [|x l IH]; intros r Ho Hl Hin; simpl; [destruct Hl|].
  destruct (call_listener_wake st o attempt m k x r Ho) as (_ & Hstay & Hcall).
  destruct Hl as [->|Hl].
  - apply broadcast_queue_grows; [exact Ho|]. now apply Hcall.
  - destruct (Hstay Hin) as [Hp|Hq].
    + now apply IH.
    + now apply broadcast_queue_grows.
Qed.

Lemma wake_setConnectionState st o attempt m k r :
  wait_outcome st = Some o ->
  In (waitForConnection_listener m) (connectionListeners r) ->
  In (waitForConnection_promise m, k) (awaiters r) ->
  In (k, o) (microtasks (setConnectionState st attempt r)).
Proof.
  intros Ho Hl Hin. unfold setConnectionState. cbv zeta.
  now apply (broadcast_wake st o attempt m k _ (set_connectionState st r) Ho).
Qed.

Lemma wake_timer m k t r :
  In (waitForConnection_promise m, k) (awaiters r) ->
  In (k, Rejected waitForConnection_timed_out)
     (microtasks (run_callback (waitForConnection_timeout m) (clearTimeout t r))).
Proof. intros Hin. unfold run_callback. cbv zeta. apply settle_wakes. exact Hin. Qed.

Lemma wake_disconnect m k r :
  In (waitForConnection_listener m) (connectionListeners r) ->
  In (waitForConnection_promise m, k) (awaiters r) ->
  In (k, Rejected Connection_failed) (microtasks (fst (disconnect r))).
Proof.
  intros Hl Hin. unfold disconnect. cbv zeta. cbn [fst].
  apply settle_queue_grows.
  match goal with |- In ?e (microtasks (fresh ?x)) => change (In e (microtasks x)) end.
  apply (wake_setConnectionState disconnected _ None m k); [reflexivity| |].
  - cbn [connectionListeners set_reconnectAttempt set_connectPromise].
    destruct (reconnectTimer (set_intentionalDisconnect true r));
      match goal with |- context [ws ?y] => destruct (ws y) end;
      cbn [connectionListeners set_ws]; unfold ws_close_method;
      try match goal with |- context [update_socket ?s ?f ?y] =>
        unfold update_socket; destruct (find_socket s y) end; exact Hl.
  - cbn [awaiters set_reconnectAttempt set_connectPromise].
    destruct (reconnectTimer (set_intentionalDisconnect true r));
      match goal with |- context [ws ?y] => destruct (ws y) end;
      cbn [awaiters set_ws]; unfold ws_close_method;
      try match goal with |- context [update_socket ?s ?f ?y] =>
        unfold update_socket; destruct (find_socket s y) end; exact Hin.
Qed.


Lemma isConnected_settle p o r : isConnected (settle p o r) = isConnected r.
Proof. reflexivity. Qed.

Lemma registered_isConnected a stamp p r r' :
  registered a stamp p r r' -> isConnected r' = true.
Proof.
  intros (_ & _ & _ & _ & s & sock & _ & _ & Ho & Hf & Hw & _).
  unfold isConnected. rewrite Hw, Hf. simpl. now rewrite Ho.
Qed.

Lemma resume_keeps_registered a stamp p user r ko :
  (stamp_of (fst ko) = stamp -> result_of (fst ko) = p) ->
  registered_for a stamp p user r -> registered_for a stamp p user (resume r ko).
Proof.
  intros Hfun (Hc & (pa & Hg & Hp) & s & sock & Hw & Hf & Hs).
  unfold resume. destruct ko as [[a' s' p'] o]. cbn [fst snd] in *.
  assert (Hsettle : forall e, registered_for a stamp p user (settle p' (Rejected e) r)).
  { intros e. split; [exact Hc|]. split; [exists pa; auto|]. exists s, sock. auto. }
  destruct o as [v|e]; [|apply Hsettle].
  pose proof (sendAction_body_registers a' s' p' r Hc) as Hr.
  pose proof (registered_isConnected _ _ _ _ _ Hr) as Hc'.
  destruct Hr as (A & _ & _ & _ & s0 & sock0 & W0 & F0 & _ & F1 & W1 & _).
  rewrite Hw in W0. inversion W0; subst s0. rewrite Hf in F0. inversion F0; subst sock0.
  split; [exact Hc'|]. split.
  - rewrite A. destruct (string_dec (actionId_of stamp) (actionId_of s')) as [E|Hne].
    + rewrite E, alist_get_set_eq. eexists. split; [reflexivity|]. simpl.
      apply actionId_of_inj in E. exact (Hfun (eq_sym E)).
    + rewrite alist_get_set_neq by exact Hne. exists pa. auto.
  - exists s, (with_sent (sdk_action (botUsername (config r)) (actionId_of s') a') sock).
    split; [exact W1|]. split; [exact F1|]. simpl. apply in_app_iff. auto.
Qed.

Lemma drain_keeps_registered a stamp p user l : forall r,
  (forall ko, In ko l -> stamp_of (fst ko) = stamp -> result_of (fst ko) = p) ->
  registered_for a stamp p user r -> registered_for a stamp p user (fold_left resume l r).
Proof.
  induction l as [|ko l IH]; intros r Hfun Hr; simpl; auto.
  apply IH; [intros; apply Hfun; simpl; auto|].
  apply resume_keeps_registered; [apply Hfun; simpl; auto|exact Hr].
Qed.

Lemma isConnected_resume r ko : isConnected r = true -> isConnected (resume r ko) = true.
Proof.
  intros Hc. unfold resume. destruct (fst ko) as [a s p]. destruct (snd ko); [|exact Hc].
  exact (registered_isConnected _ _ _ _ _ (sendAction_body_registers a s p r Hc)).
Qed.

Lemma config_resume r ko : config (resume r ko) = config r.
Proof. now destruct (link_fields _ _ (link_resume r ko)). Qed.

Lemma drain_registers a stamp p v l : forall r,
  isConnected r = true ->
  In (sendAction_resume a stamp p, Resolved v) l ->
  (forall ko, In ko l -> stamp_of (fst ko) = stamp -> result_of (fst ko) = p) ->
  registered_for a stamp p (botUsername (config r)) (fold_left resume l r).
Proof.
  induction l as [|ko l IH]; intros r Hc Hin Hfun; simpl; [destruct Hin|].
  destruct Hin as [->|Hin].
  - apply drain_keeps_registered; [intros; apply Hfun; simpl; auto|].
    unfold resume. cbn [fst snd].
    pose proof (sendAction_body_registers a stamp p r Hc) as Hr.
    pose proof (registered_isConnected _ _ _ _ _ Hr) as Hc'.
    destruct Hr as (A & _ & _ & _ & s & sock & _ & _ & _ & F1 & W1 & _).
    split; [exact Hc'|]. split.
    + rewrite A, alist_get_set_eq. eexists. split; reflexivity.
    + exists s, (with_sent (sdk_action (botUsername (config r)) (actionId_of stamp) a) sock).
      split; [exact W1|]. split; [exact F1|]. simpl. apply in_app_iff. simpl. auto.
  - rewrite <- (config_resume r ko).
    apply IH; [now apply isConnected_resume|exact Hin|].
    intros; apply Hfun; simpl; auto.
Qed.

Lemma handleMessage_ack m r :
  is_string "sdk_connected" (member "type" m) = true ->
  handleMessage (JSON m) r = (r, Returns).
Proof.
  intros Hty. apply handleMessage_skips. unfold passed_over. simpl.
  destruct m; try discriminate; left;
    repeat split; revert Hty; apply is_string_excl; discriminate.
Qed.

Lemma task_ack s sock m r :
  find_socket s r = Some sock -> readyState sock = OPEN ->
  checkConnected_attached sock = true ->
  is_string "sdk_connected" (member "type" m) = true ->
  task (ws_message s (JSON m)) r
  = settle (connect_promise s) (Resolved None)
      (setConnectionState connected None
         (set_reconnectAttempt 0
            match ws r with
            | Some current =>
                if Nat.eqb current s then update_socket s without_checkConnected r else r
            | None => r
            end)).
Proof.
  intros Hf Ho Ha Hty. unfold task. rewrite Hf, Ho.
  rewrite (handleMessage_ack m r Hty). cbv zeta. cbn [fst]. rewrite Ha.
  now apply checkConnected_ack.
Qed.

Lemma ack_on_current_socket s sock m r :
  ws r = Some s -> find_socket s r = Some sock -> readyState sock = OPEN ->
  checkConnected_attached sock = true ->
  is_string "sdk_connected" (member "type" m) = true ->
  let t := task (ws_message s (JSON m)) r in
  isConnected t = true /\ config t = config r /\ connectionState t = connected
  /\ forall mw k, In (waitForConnection_listener mw) (connectionListeners r) ->
       In (waitForConnection_promise mw, k) (awaiters r) ->
       In (k, Resolved None) (microtasks t).
Proof.
  intros Hw Hf Ho Ha Hty t.
  assert (Et : t = settle (connect_promise s) (Resolved None)
                 (setConnectionState connected None
                    (set_reconnectAttempt 0 (update_socket s without_checkConnected r)))).
  { unfold t. rewrite (task_ack s sock m r Hf Ho Ha Hty), Hw, Nat.eqb_refl. reflexivity. }
  set (u := update_socket s without_checkConnected r) in Et.
  assert (Hu : ws u = Some s /\ find_socket s u = Some (without_checkConnected sock)
               /\ config u = config r /\ connectionListeners u = connectionListeners r
               /\ awaiters u = awaiters r).
  { unfold u, update_socket. rewrite Hf. unfold find_socket. cbn.
    rewrite alist_get_set_eq. auto. }
  destruct Hu as (Uw & Uf & Uc & Ul & Ua).
  destruct (plain_fields _ _ (plain_setConnectionState connected None (set_reconnectAttempt 0 u)))
    as (Pc & Pw & _ & Pst & _ & _ & _ & Pso & _).
  rewrite Et. clearbody u. clear Et.
  split; [|split; [|split]].
  - unfold isConnected. cbn [ws settle set_awaiters set_microtasks set_settles].
    rewrite Pw. cbn [ws set_reconnectAttempt set_connectionState]. rewrite Uw.
    unfold find_socket in *. cbn [sockets settle set_awaiters set_microtasks set_settles].
    rewrite Pso. cbn [sockets set_reconnectAttempt set_connectionState]. rewrite Uf.
    simpl. now rewrite Ho.
  - cbn [config settle set_awaiters set_microtasks set_settles]. rewrite Pc. exact Uc.
  - cbn [connectionState settle set_awaiters set_microtasks set_settles]. rewrite Pst.
    reflexivity.
  - intros mw k Hl Hin. apply settle_queue_grows.
    apply (wake_setConnectionState connected _ None mw k); [reflexivity| |].
    + cbn [connectionListeners set_reconnectAttempt]. now rewrite Ul.
    + cbn [awaiters set_reconnectAttempt]. now rewrite Ua.
Qed.

(* The acknowledgement arrives on the current socket while a sendAction call
   waits: the state becomes connected and the call registers and sends. *)
Lemma parked_then_connected base unacked H r s sock m mw a stamp p :
  Inv base unacked H r ->
  In (waitForConnection_promise mw, sendAction_resume a stamp p) (awaiters r) ->
  ws r = Some s -> find_socket s r = Some sock -> readyState sock = OPEN ->
  checkConnected_attached sock = true ->
  is_string "sdk_connected" (member "type" m) = true ->
  let r2 := step r (ws_message s (JSON m)) in
  connectionState r2 = connected
  /\ registered_for a stamp p (botUsername (config r)) r2
  /\ promise_state p (settles r2) = None.
Proof.
  intros HI Hin Hw Hf Ho Ha Hty r2.
  assert (Hs : forall s', In s' (stamp_drawn (ws_message s (JSON m))) -> ~ In s' (map fst H))
    by (simpl; tauto).
  pose proof (Inv_task _ _ _ _ _ Hs HI) as HT.
  destruct (Inv_step _ _ _ _ _ Hs HI) as [HI2 _]. fold r2 in HI2.
  simpl issued in HT, HI2. rewrite app_nil_r in HT, HI2.
  destruct (inv_parked_wait HI _ _ Hin) as (m' & ms & Em & _ & Hl & _).
  inversion Em; subst m'.
  pose proof (inv_parked_hist HI _ _ Hin) as Hh. simpl in Hh.
  destruct (ack_on_current_socket s sock m r Hw Hf Ho Ha Hty) as (Tc & Tcfg & Tst & Twake).
  specialize (Twake mw _ Hl Hin).
  set (t := task (ws_message s (JSON m)) r) in *.
  assert (Hreg : registered_for a stamp p (botUsername (config r)) r2).
  { unfold r2, step. fold t. unfold run_microtasks. rewrite <- Tcfg.
    apply (drain_registers a stamp p None (microtasks t) (set_microtasks [] t)).
    - exact Tc.
    - exact Twake.
    - intros [k o] Hk Hst. cbn [fst] in *.
      pose proof (inv_queued_hist HT k o Hk) as Hkh. rewrite Hst in Hkh.
      exact (NoDup_fst_functional _ _ _ _ (inv_hist_stamps HI) Hkh Hh). }
  split; [|split; [exact Hreg|]].
  - unfold r2, step. fold t.
    destruct (link_fields _ _ (link_run_microtasks t)) as (_ & E & _). now rewrite E.
  - destruct Hreg as (_ & (pa & Hg & Hp) & _).
    apply alist_get_In in Hg. rewrite <- Hp.
    exact (pending_unsettled _ _ _ _ _ _ HI2 Hg).
Qed.

Lemma parked_then_timeout base unacked H r mw k :
  Inv base unacked H r ->
  In (waitForConnection_promise mw, k) (awaiters r) ->
  let r2 := step r (timer_fires (waitForConnection_timer_id mw)) in
  promise_state (result_of k) (settles r2) = Some (Rejected waitForConnection_timed_out)
  /\ forall id pa, In (id, pa) (pendingActions r2) -> promise pa <> result_of k.
Proof.
  intros HI Hin r2.
  destruct (inv_parked_wait HI _ _ Hin) as (m' & ms & Em & _ & _ & Ht).
  inversion Em; subst m'.
  apply (queued_rejection base unacked H r).
  - simpl; tauto.
  - exact HI.
  - exact (inv_parked_hist HI _ _ Hin).
  - unfold task. rewrite Ht. cbn [callback]. now apply wake_timer.
Qed.

Lemma parked_then_disconnect base unacked H r mw k :
  Inv base unacked H r ->
  In (waitForConnection_promise mw, k) (awaiters r) ->
  let r2 := step r call_disconnect in
  promise_state (result_of k) (settles r2) = Some (Rejected Connection_failed)
  /\ forall id pa, In (id, pa) (pendingActions r2) -> promise pa <> result_of k.
Proof.
  intros HI Hin r2.
  destruct (inv_parked_wait HI _ _ Hin) as (m' & ms & Em & _ & Hl & _).
  inversion Em; subst m'.
  apply (queued_rejection base unacked H r).
  - simpl; tauto.
  - exact HI.
  - exact (inv_parked_hist HI _ _ Hin).
  - unfold task. now apply (wake_disconnect mw k r).
Qed.

Lemma reject_all_leaves_parked q k l : forall r,
  (forall e, In e l -> promise (snd e) <> q) ->
  In (q, k) (awaiters r) ->
  In (q, k) (awaiters (fold_left reject_pending l r))
  /\ connectionListeners (fold_left reject_pending l r) = connectionListeners r.
Proof.
  induction l as [|e l IH]; intros r Hl Hin; simpl; auto.
  destruct (IH (reject_pending r e)) as [A B].
  - intros; apply Hl; simpl; auto.
  - unfold reject_pending. cbv zeta. apply settle_leaves_parked.
    + intros E. apply (Hl e); simpl; auto.
    + exact Hin.
  - split; [exact A|]. rewrite B. reflexivity.
Qed.

Lemma wake_onclose base unacked H r mw k :
  Inv base unacked H r ->
  In (waitForConnection_promise mw, k) (awaiters r) ->
  fst (after_close r) = disconnected ->
  In (k, Rejected Connection_failed) (microtasks (onclose r)).
Proof.
  intros HI Hin Hac.
  destruct (inv_parked_wait HI _ _ Hin) as (m' & ms & Em & _ & Hl & _).
  inversion Em; subst m'.
  unfold onclose. cbv zeta.
  set (m := set_pendingActions [] _).
  assert (Hm : In (waitForConnection_promise mw, k) (awaiters m)
               /\ connectionListeners m = connectionListeners r).
  { unfold m. cbn [awaiters connectionListeners set_pendingActions].
    apply (reject_all_leaves_parked _ k (pendingActions r)
             (set_ws None (set_connectPromise None r))); [|exact Hin].
    intros [id pa] He. cbn [snd].
    destruct (InvG_pending_not_wait _ _ _ _ _ _ HI id pa He) as [Hn _]. apply Hn. }
  destruct Hm as [Ha Hc].
  assert (E : link m = link r).
  { unfold m. change (link (fold_left reject_pending (pendingActions r)
                              (set_ws None (set_connectPromise None r))) = link r).
    rewrite (plain_link _ _ (plain_reject_pending _ _)). reflexivity. }
  destruct (link_fields _ _ E) as (Ec & _ & Eat & _ & Ei).
  clearbody m.
  assert (Hgo : In (k, Rejected Connection_failed)
                   (microtasks (setConnectionState disconnected None m))).
  { apply (wake_setConnectionState disconnected _ None mw k); [reflexivity| |exact Ha].
    now rewrite Hc. }
  unfold after_close in Hac. rewrite Ec, Ei.
  destruct (autoReconnect (config r) && negb (intentionalDisconnect r)); [|exact Hgo].
  unfold scheduleReconnect. rewrite Eat, Ec.
  destruct (reaches (reconnectAttempt r) (reconnectMaxRetries (config r)));
    [exact Hgo|discriminate].
Qed.

Lemma parked_then_given_up base unacked H r s sock mw k :
  Inv base unacked H r ->
  In (waitForConnection_promise mw, k) (awaiters r) ->
  find_socket s r = Some sock -> readyState sock <> CLOSED ->
  fst (after_close r) = disconnected ->
  let r2 := step r (ws_close s) in
  promise_state (result_of k) (settles r2) = Some (Rejected Connection_failed)
  /\ forall id pa, In (id, pa) (pendingActions r2) -> promise pa <> result_of k.
Proof.
  intros HI Hin Hf Hn Hac r2.
  apply (queued_rejection base unacked H r).
  - simpl; tauto.
  - exact HI.
  - exact (inv_parked_hist HI _ _ Hin).
  - assert (Et : task (ws_close s) r = onclose (update_socket s (with_readyState CLOSED) r)).
    { unfold task. rewrite Hf. destruct (readyState sock); try reflexivity. now elim Hn. }
    rewrite Et.
    apply (wake_onclose base unacked H _ mw k).
    + now apply InvG_update_socket.
    + destruct (update_socket_fields s (with_readyState CLOSED) r) as (_ & _ & _ & _ & Ea & _).
      now rewrite Ea.
    + now rewrite after_close_update_socket.
Qed.

Lemma action_promise_new base unacked H r n :
  Inv base unacked H r -> next_id r <= n ->
  promise_state (action_promise n) (settles r) = None.
Proof.
  intros HI Hle. apply promise_state_unsettled, settle_calls_zero.
  intros o Hin.
  destruct (inv_settled_hist HI _ _ Hin) as (s & Hh).
  destruct (inv_hist_fresh HI _ _ Hh) as (n' & E & Hlt). inversion E; subst. lia.
Qed.

Lemma parked_waits base unacked H r q k :
  Inv base unacked H r -> In (q, k) (awaiters r) ->
  promise_state (result_of k) (settles r) = None
  /\ forall id pa, In (id, pa) (pendingActions r) -> promise pa <> result_of k.
Proof.
  intros HI Hin.
  pose proof (inv_conserve HI _ _ (inv_parked_hist HI _ _ Hin)) as Hc. simpl in Hc.
  assert (Hpos : 0 < parked_count (result_of k) (awaiters r)).
  { unfold parked_count. clear -Hin.
    induction (awaiters r) as [|x l IH]; simpl in *; [tauto|].
    destruct Hin as [->|Hin].
    - cbn [snd]. unfold is_promise.
      destruct (Promise_eq_dec (result_of k) (result_of k)); [simpl; lia|congruence].
    - apply IH in Hin. destruct (is_promise _ _); simpl; lia. }
  split.
  - apply promise_state_unsettled. lia.
  - intros id pa Hk Hp. pose proof (pending_count_pos _ _ _ _ Hk Hp). lia.
Qed.


(** C6 as amended.  In a state the SDK can reach, a call of sendAction
    - made while the state is reconnecting and the socket is not open settles
      nothing and registers nothing: it parks on the promise of a
      waitForConnection call, which has a timer of 60000 ms of its own and a
      connection listener;
    - made while the state is reconnecting and the socket is already open
      registers and sends at once, the state still being reconnecting;
    - made while the state is not reconnecting and the socket is not open is
      rejected at once with the not-connected error, nothing is registered
      or sent.
    And a call that waits stays unsettled and unregistered; it is rejected,
    with nothing registered, with the timed-out error of waitForConnection
    when that timer fires, and with the connection-failed error when
    disconnect() is called or a close ends the retries; when sdk_connected
    arrives on the current socket the state becomes connected and the action
    is registered and sent. *)
Theorem sendAction_while_reconnecting c clientId trace :
  NoDup (stamps trace) ->
  let r := run (constructor c clientId) trace in
  (forall a stamp,
     let p := action_promise (next_id r) in
     let r1 := step r (call_sendAction a stamp) in
     (connectionState r = reconnecting -> isConnected r = false ->
        let n := S (next_id r) in
        promise_state p (settles r1) = None
        /\ pendingActions r1 = pendingActions r /\ sockets r1 = sockets r
        /\ connectionState r1 = reconnecting
        /\ awaiters r1
           = awaiters r ++ [(waitForConnection_promise n, sendAction_resume a stamp p)]
        /\ alist_get TimerId_eq_dec (waitForConnection_timer_id n) (timers r1)
           = Some {| delay := 60000; callback := waitForConnection_timeout n |}
        /\ In (waitForConnection_listener n) (connectionListeners r1))
     /\ (connectionState r = reconnecting -> isConnected r = true ->
         pendingActions r1
         = alist_set string_dec (actionId_of stamp)
             {| promise := p; timeout := action_timer_id (S (S (next_id r))) |}
             (pendingActions r)
         /\ connectionState r1 = reconnecting
         /\ promise_state p (settles r1) = None
         /\ exists s sock,
              ws r = Some s /\ find_socket s r = Some sock
              /\ find_socket s r1
                 = Some (with_sent
                           (sdk_action (botUsername (config r)) (actionId_of stamp) a) sock))
     /\ (connectionState r <> reconnecting -> isConnected r = false ->
         promise_state p (settles r1) = Some (Rejected (Not_connected (connectionState r)))
         /\ pendingActions r1 = pendingActions r /\ sockets r1 = sockets r))
  /\ (forall mw a stamp p,
        In (waitForConnection_promise mw, sendAction_resume a stamp p) (awaiters r) ->
        (promise_state p (settles r) = None
         /\ forall id pa, In (id, pa) (pendingActions r) -> promise pa <> p)
        /\ (let r2 := step r (timer_fires (waitForConnection_timer_id mw)) in
            promise_state p (settles r2) = Some (Rejected waitForConnection_timed_out)
            /\ forall id pa, In (id, pa) (pendingActions r2) -> promise pa <> p)
        /\ (let r2 := step r call_disconnect in
            promise_state p (settles r2) = Some (Rejected Connection_failed)
            /\ forall id pa, In (id, pa) (pendingActions r2) -> promise pa <> p)
        /\ (forall s sock,
              find_socket s r = Some sock -> readyState sock <> CLOSED ->
              fst (after_close r) = disconnected ->
              let r2 := step r (ws_close s) in
              promise_state p (settles r2) = Some (Rejected Connection_failed)
              /\ forall id pa, In (id, pa) (pendingActions r2) -> promise pa <> p)
        /\ (forall s sock m,
              ws r = Some s -> find_socket s r = Some sock -> readyState sock = OPEN ->
              checkConnected_attached sock = true ->
              is_string "sdk_connected" (member "type" m) = true ->
              let r2 := step r (ws_message s (JSON m)) in
              connectionState r2 = connected
              /\ registered_for a stamp p (botUsername (config r)) r2
              /\ promise_state p (settles r2) = None)).
Proof.
  intros Hnd r.
  destruct (reachable_Inv c clientId trace Hnd) as [HI Hq]. fold r in HI, Hq.
  pose proof (reachable_wait_fresh c clientId trace Hnd) as HW. fold r in HW.
  split.
  - intros a stamp p r1. split; [|split].
    + intros Hst Hc n. unfold r1. rewrite (sendAction_parks a stamp r HW Hq Hst Hc).
      cbn [settles pendingActions sockets connectionState awaiters timers
           connectionListeners set_awaiters onConnectionStateChange
           set_connectionListeners setTimeout set_timers fresh set_next_id].
      split; [unfold p; apply (action_promise_new _ _ _ _ _ HI); lia|].
      do 4 (split; [auto|]). split.
      * apply alist_get_set_eq.
      * unfold fnset_add. destruct (existsb _ _) eqn:Ex.
        -- apply existsb_exists in Ex as (l & Hl & Hid). unfold is_fn in Hid.
           destruct (FnId_eq_dec _ _) as [E|]; [|discriminate].
           destruct l as [fn th|m]; simpl in E; inversion E; subst. exact Hl.
        -- apply in_app_iff. right. simpl. auto.
    + intros Hst Hc.
      destruct (sendAction_at_once _ _ _ a stamp r HI HW Hq Hst Hc)
        as (A & _ & C & D & s & sock & F1 & F2 & _ & F4).
      fold r1 in A, C, D, F4. fold p in A.
      split; [exact A|]. split; [exact D|]. split.
      * rewrite C. unfold p. simpl.
        rewrite (action_promise_new _ _ _ _ _ HI) by lia.
        destruct (Promise_eq_dec (action_promise (next_id r)) (async_return (S (next_id r))));
          [discriminate|reflexivity].
      * exists s, sock. auto.
    + intros Hst Hc. unfold r1. rewrite (sendAction_offline _ _ _ a stamp r HI Hq Hst Hc).
      cbn [settles pendingActions sockets set_settles fresh set_next_id].
      split; [|auto]. unfold p. simpl.
      rewrite (action_promise_new _ _ _ _ _ HI) by lia.
      destruct (Promise_eq_dec (action_promise (next_id r)) (action_promise (next_id r)));
        [reflexivity|congruence].
  - intros mw a stamp p Hin.
    split; [exact (parked_waits _ _ _ _ _ _ HI Hin)|].
    split; [exact (parked_then_timeout _ _ _ _ _ _ HI Hin)|].
    split; [exact (parked_then_disconnect _ _ _ _ _ _ HI Hin)|].
    split.
    + intros s sock Hf Hn Hac. exact (parked_then_given_up _ _ _ _ _ _ _ _ HI Hin Hf Hn Hac).
    + intros s sock m Hw Hf Ho Ha Hty.
      exact (parked_then_connected _ _ _ _ _ _ _ _ _ _ _ HI Hin Hw Hf Ho Ha Hty).
Qed.

Lemma sendAction_while_reconnecting_witness :
  let r := run (constructor demo_config "sdk-1") dropped_trace in
  let r1 := step r (call_sendAction walkTo "1-a") in
  NoDup (stamps dropped_trace)
  /\ connectionState r = reconnecting /\ isConnected r = false
  /\ promise_state (action_promise (next_id r)) (settles r1) = None
  /\ pendingActions r1 = pendingActions r
  /\ alist_get TimerId_eq_dec (waitForConnection_timer_id (S (next_id r))) (timers r1)
     = Some {| delay := 60000; callback := waitForConnection_timeout (S (next_id r)) |}.
Proof.
  intros r r1.
  assert (Hnd : NoDup (stamps dropped_trace)) by (simpl; constructor).
  assert (Hst : connectionState r = reconnecting) by (vm_compute; reflexivity).
  assert (Hc : isConnected r = false) by (vm_compute; reflexivity).
  split; [exact Hnd|]. split; [exact Hst|]. split; [exact Hc|].
  destruct (sendAction_while_reconnecting demo_config "sdk-1" dropped_trace Hnd) as [HA _].
  destruct (HA walkTo "1-a") as (H1 & _).
  destruct (H1 Hst Hc) as (P1 & P2 & _ & _ & _ & P6 & _).
  split; [exact P1|]. split; [exact P2|exact P6].
Defined.

(** C6 as stated fails: once the socket of a retry is open, and before
    sdk_connected has come, a call of sendAction does not wait; it registers
    and sends while the state is reconnecting.  And a call that did wait is
    rejected, when disconnect() ends the wait, with the connection-failed
    error of waitForConnection. *)
Lemma sendAction_before_ack_counterexample :
  let r := run (constructor demo_config "sdk-1") reopened_trace in
  let r1 := step r (call_sendAction walkTo "1-a") in
  let w := step (run (constructor demo_config "sdk-1") dropped_trace)
             (call_sendAction walkTo "1-a") in
  connectionState r = reconnecting
  /\ connectionState r1 = reconnecting
  /\ pendingActions r1
     = [("act-1-a", {| promise := action_promise 4; timeout := action_timer_id 6 |})]
  /\ awaiters r1 = []
  /\ promise_state (action_promise 3) (settles w) = None
  /\ promise_state (action_promise 3) (settles (step w call_disconnect))
     = Some (Rejected Connection_failed).
Proof. vm_compute. repeat split. Qed.


(** * Further properties of the plumbing layer *)

(** ** The configuration is fixed by the constructor *)

Lemma config_setConnectionState st attempt r :
  config (setConnectionState st attempt r) = config r.
Proof. now destruct (plain_fields _ _ (plain_setConnectionState st attempt r)). Qed.

Lemma config_scheduleReconnect r : config (scheduleReconnect r) = config r.
Proof.
  unfold scheduleReconnect. destruct (reaches _ _).
  - apply config_setConnectionState.
  - cbv zeta. cbn [config set_reconnectTimer setTimeout set_timers fresh set_next_id].
    now rewrite config_setConnectionState.
Qed.

Lemma config_connect r : config (fst (connect r)) = config r.
Proof.
  unfold connect. destruct (isConnected r); [reflexivity|].
  destruct (connectPromise r); [reflexivity|]. cbv zeta. cbn [fst].
  destruct (ConnectionState_eqb _ _); [reflexivity|].
  cbn [config set_connectPromise setTimeout set_timers set_ws set_sockets fresh set_next_id].
  now rewrite config_setConnectionState.
Qed.

Lemma config_onclose r : config (onclose r) = config r.
Proof.
  unfold onclose. cbv zeta.
  set (m := set_pendingActions [] _).
  assert (E : config m = config r).
  { unfold m. cbn [config set_pendingActions].
    now destruct (plain_fields _ _ (plain_reject_pending (pendingActions r)
                                     (set_ws None (set_connectPromise None r)))). }
  clearbody m. destruct (_ && _).
  - now rewrite config_scheduleReconnect.
  - now rewrite config_setConnectionState.
Qed.

Lemma config_checkConnected s data r : config (checkConnected s data r) = config r.
Proof.
  destruct (acks data) eqn:Ha; [|now rewrite checkConnected_not_ack].
  unfold acks in Ha. destruct data as [t|m]; [discriminate|]. simpl in Ha.
  rewrite (checkConnected_ack s m r Ha).
  cbn [config settle set_awaiters set_microtasks set_settles].
  rewrite config_setConnectionState. cbn [config set_reconnectAttempt].
  destruct (ws r) as [c|]; [|reflexivity]. destruct (Nat.eqb c s); [|reflexivity].
  now destruct (link_fields _ _ (link_update_socket s without_checkConnected r)).
Qed.

Lemma config_run_callback cb t r : config (run_callback cb (clearTimeout t r)) = config r.
Proof.
  destruct cb as [n| |id p ty|n|n]; unfold run_callback; cbv zeta; try reflexivity.
  - match goal with |- config match ws ?y with _ => _ end = _ => destruct (ws y) end;
      [|reflexivity].
    unfold ws_close_method.
    match goal with |- config (update_socket ?s ?f ?y) = _ =>
      now destruct (link_fields _ _ (link_update_socket s f y)) end.
  - now rewrite config_connect.
Qed.

Lemma config_task e r : config (task e r) = config r.
Proof.
  destruct e; unfold task; try reflexivity.
  - apply config_connect.
  - now destruct (disconnect_fields r) as (_ & _ & _ & _ & _ & _ & _ & E & _).
  - now destruct (link_fields _ _ (link_sendAction action stamp r)).
  - now destruct (link_fields _ _ (link_waitForConnection ms r)).
  - now destruct (link_fields _ _ (link_waitForCondition predicate ms r)).
  - destruct (find_socket s r) as [sock|]; [|reflexivity].
    destruct (readyState sock); try reflexivity.
    unfold onopen. cbv zeta.
    match goal with |- config (send ?m ?y) = _ =>
      destruct (link_fields _ _ (link_send m y)) as (E & _); rewrite E end.
    cbn [config clearTimeout set_timers].
    now destruct (link_fields _ _ (link_update_socket s (with_readyState OPEN) r)).
  - destruct (find_socket s r) as [sock|]; [|reflexivity].
    destruct (readyState sock); try reflexivity. cbv zeta.
    destruct (link_fields _ _ (link_handleMessage data r)) as (E & _).
    destruct (checkConnected_attached sock); [|exact E].
    now rewrite config_checkConnected.
  - destruct (find_socket s r) as [sock|]; [|reflexivity].
    destruct (readyState sock); reflexivity.
  - destruct (find_socket s r) as [sock|]; [|reflexivity].
    destruct (readyState sock); try reflexivity; rewrite config_onclose;
      now destruct (link_fields _ _ (link_update_socket s (with_readyState CLOSED) r)).
  - destruct (alist_get TimerId_eq_dec t (timers r)) as [tm|]; [|reflexivity].
    apply config_run_callback.
Qed.

Lemma config_step r e : config (step r e) = config r.
Proof.
  unfold step. destruct (link_fields _ _ (link_run_microtasks (task e r))) as (E & _).
  rewrite E. apply config_task.
Qed.

Lemma config_run trace : forall r, config (run r trace) = config r.
Proof.
  induction trace as [|e trace IH]; intros r; simpl; [reflexivity|].
  rewrite IH. apply config_step.
Qed.


(** ** The attempt counter *)

Lemma attempt_ok_after_close r :
  attempt_ok (config r) (connection r) -> attempt_ok (config r) (after_close r).
Proof.
  unfold attempt_ok, after_close, connection. cbn [fst snd].
  intros (H0 & Hm & _ & _).
  destruct (autoReconnect (config r) && negb (intentionalDisconnect r));
    [destruct (reaches _ _) eqn:Hr|]; cbn [fst snd].
  - repeat split; auto; discriminate.
  - repeat split; try lia; try discriminate.
    intros m Em. unfold reaches in Hr. rewrite Em in Hr.
    apply Z.leb_gt in Hr. lia.
  - repeat split; auto; discriminate.
Qed.

Lemma attempt_ok_step r e :
  attempt_ok (config r) (connection r) -> attempt_ok (config r) (connection (step r e)).
Proof.
  intros Hok. rewrite connection_step.
  pose proof (connection_task r e) as Hin.
  assert (Hzero : forall st, st <> reconnecting -> attempt_ok (config r) (st, 0%Z)).
  { intros st Hst. unfold attempt_ok. cbn [fst snd].
    repeat split; try lia; intros; congruence. }
  assert (Hconn : attempt_ok (config r)
                    (if ConnectionState_eqb (connectionState r) reconnecting
                     then reconnecting else connecting, reconnectAttempt r)).
  { destruct Hok as (H0 & Hm & Hc & Hr). unfold connection in *. cbn [fst snd] in *.
    unfold attempt_ok. cbn [fst snd].
    destruct (connectionState r); cbn [ConnectionState_eqb];
      repeat split; auto; try discriminate. }
  destruct e; unfold transitions in Hin; cbn [In] in Hin;
    repeat match goal with
           | H : _ \/ _ |- _ => destruct H
           | H : False |- _ => destruct H
           | H : _ = connection (task _ _) |- _ => rewrite <- H
           end; auto.
  - apply Hzero. discriminate.
  - apply Hzero. discriminate.
  - now apply attempt_ok_after_close.
Qed.

Lemma attempt_ok_run trace : forall r,
  attempt_ok (config r) (connection r) ->
  attempt_ok (config r) (connection (run r trace)).
Proof.
  induction trace as [|e trace IH]; intros r Hok; simpl; [exact Hok|].
  rewrite <- (config_step r e). apply IH. rewrite config_step. now apply attempt_ok_step.
Qed.

(** X1.  In every state the SDK can reach the attempt counter is not
    negative, it does not exceed the configured maximum of retries (when
    that is a number and not negative), it is zero while the state is
    connected and at least one while the state is reconnecting. *)
Theorem reconnect_attempt_bounds c clientId trace :
  let r := run (constructor c clientId) trace in
  (0 <= reconnectAttempt r)%Z
  /\ (forall m, reconnectMaxRetries (config r) = Finite m ->
        (reconnectAttempt r <= Z.max 0 m)%Z)
  /\ (connectionState r = connected -> reconnectAttempt r = 0%Z)
  /\ (connectionState r = reconnecting -> (1 <= reconnectAttempt r)%Z).
Proof.
  intros r.
  assert (H0 : attempt_ok (config (constructor c clientId))
                 (connection (constructor c clientId))).
  { unfold attempt_ok, connection, constructor. cbn [fst snd connectionState reconnectAttempt].
    repeat split; try lia; discriminate. }
  pose proof (attempt_ok_run trace _ H0) as H.
  unfold r. rewrite config_run. exact H.
Qed.

(** ** Configurations without retries *)

Lemma retries_off_step r e :
  retries_off (config r) ->
  connectionState r <> reconnecting /\ reconnectAttempt r = 0%Z ->
  connectionState (step r e) <> reconnecting /\ reconnectAttempt (step r e) = 0%Z.
Proof.
  intros Hoff [Hst Ha].
  assert (Hac : after_close r = (disconnected, 0%Z)).
  { unfold after_close. rewrite Ha. destruct Hoff as [Hauto|(m & Em & Hm)].
    - now rewrite Hauto.
    - rewrite Em. unfold reaches.
      assert (E : (m <=? 0)%Z = true) by now apply Z.leb_le.
      rewrite E. now destruct (_ && _). }
  assert (Hnr : ConnectionState_eqb (connectionState r) reconnecting = false)
    by (destruct (connectionState r); try reflexivity; congruence).
  change (fst (connection (step r e)) <> reconnecting
          /\ snd (connection (step r e)) = 0%Z).
  rewrite connection_step.
  pose proof (connection_task r e) as Hin.
  destruct e; unfold transitions in Hin; rewrite ?Hnr, ?Hac in Hin; cbn [In] in Hin;
    repeat match goal with
           | H : _ \/ _ |- _ => destruct H
           | H : False |- _ => destruct H
           | H : _ = connection (task _ _) |- _ => rewrite <- H
           end; unfold connection; cbn [fst snd]; split; auto; discriminate.
Qed.

(** X2.  When the configuration turns auto-reconnect off, or allows no
    retry (a maximum of retries that is zero or negative), the state is
    never reconnecting and the attempt counter stays zero, whatever happens;
    every close of a socket leads to disconnected. *)
Theorem never_reconnecting c clientId trace :
  retries_off (config (constructor c clientId)) ->
  let r := run (constructor c clientId) trace in
  connectionState r <> reconnecting
  /\ reconnectAttempt r = 0%Z
  /\ after_close r = (disconnected, 0%Z)
  /\ forall s sock, find_socket s r = Some sock -> readyState sock <> CLOSED ->
       connectionState (step r (ws_close s)) = disconnected.
Proof.
  intros Hoff r.
  assert (Hgen : forall tr r0, retries_off (config r0) ->
            connectionState r0 <> reconnecting /\ reconnectAttempt r0 = 0%Z ->
            connectionState (run r0 tr) <> reconnecting
            /\ reconnectAttempt (run r0 tr) = 0%Z).
  { induction tr as [|e tr IH]; intros r0 Ho Hi; simpl; [exact Hi|].
    apply IH; [now rewrite config_step|now apply retries_off_step]. }
  destruct (Hgen trace (constructor c clientId) Hoff) as [Hst Ha].
  { split; [discriminate|reflexivity]. }
  fold r in Hst, Ha.
  assert (Hoff' : retries_off (config r)) by (unfold r; now rewrite config_run).
  assert (Hac : after_close r = (disconnected, 0%Z)).
  { unfold after_close. rewrite Ha. destruct Hoff' as [Hauto|(m & Em & Hm)].
    - now rewrite Hauto.
    - rewrite Em. unfold reaches.
      assert (E : (m <=? 0)%Z = true) by now apply Z.leb_le.
      rewrite E. now destruct (_ && _). }
  split; [exact Hst|]. split; [exact Ha|]. split; [exact Hac|].
  intros s sock Hf Hn.
  change (fst (connection (step r (ws_close s))) = disconnected).
  rewrite connection_step. unfold task. rewrite Hf.
  destruct (readyState sock) eqn:E; try congruence;
    rewrite connection_onclose, after_close_update_socket, Hac; reflexivity.
Qed.

Lemma never_reconnecting_witness :
  let r := run (constructor no_retries_config "sdk-1")
             [call_connect; ws_open 1; ws_message 1 sdk_connected_message] in
  retries_off (config (constructor no_retries_config "sdk-1"))
  /\ connectionState r = connected
  /\ connectionState (step r (ws_close 1)) = disconnected.
Proof.
  intros r.
  assert (Hoff : retries_off (config (constructor no_retries_config "sdk-1"))).
  { right. exists 0%Z. split; [reflexivity|lia]. }
  split; [exact Hoff|]. split; [vm_compute; reflexivity|].
  destruct (never_reconnecting no_retries_config "sdk-1"
              [call_connect; ws_open 1; ws_message 1 sdk_connected_message] Hoff)
    as (_ & _ & _ & Hclose).
  fold r in Hclose.
  destruct (find_socket 1 r) as [sock|] eqn:Hf; [|vm_compute in Hf; discriminate].
  apply (Hclose 1 sock Hf).
  vm_compute in Hf. injection Hf as <-. discriminate.
Defined.


(** ** Backoff *)



(** ** What an acknowledgement makes of a pending action *)

Lemma head_settles p o log :
  settle_calls p log = 0 -> promise_state p ((p, o) :: log) = Some o.
Proof.
  intros Hz. simpl. rewrite (promise_state_unsettled _ _ Hz).
  destruct (Promise_eq_dec p p); [reflexivity|congruence].
Qed.

(** X4.  While an action is pending, a message on an open socket that
    carries its id settles its promise as follows and clears its deadline
    timer: an sdk_action_result resolves it with the result when the result
    is truthy and rejects it with the no-result error when the result is
    missing or falsy; an sdk_error rejects it with the error the server
    sent, or with the unknown-error when that is missing or falsy. *)
Theorem acknowledgement_outcome c clientId trace id pa s sock m :
  NoDup (stamps trace) ->
  let r := run (constructor c clientId) trace in
  alist_get string_dec id (pendingActions r) = Some pa ->
  find_socket s r = Some sock -> readyState sock = OPEN ->
  member "actionId" m = Some (JStr id) ->
  let r' := step r (ws_message s (JSON m)) in
  (is_string "sdk_action_result" (member "type" m) = true ->
     promise_state (promise pa) (settles r')
     = Some (if truthy (member "result" m) then Resolved (member "result" m)
             else Rejected No_result_in_action_response)
     /\ alist_get TimerId_eq_dec (timeout pa) (timers r') = None
     /\ alist_get string_dec id (pendingActions r') = None)
  /\ (is_string "sdk_error" (member "type" m) = true ->
      promise_state (promise pa) (settles r')
      = Some (Rejected match member "error" m with
                       | Some e => if truthy (Some e) then Server_error e else Unknown_error
                       | None => Unknown_error
                       end)
      /\ alist_get TimerId_eq_dec (timeout pa) (timers r') = None
      /\ alist_get string_dec id (pendingActions r') = None).
Proof.
  intros Hnd r Hg Hf Ho Hid r'.
  destruct (reachable_Inv c clientId trace Hnd) as [HI Hq]. fold r in HI, Hq.
  pose proof (alist_get_In _ _ _ _ Hg) as Hk.
  destruct (inv_pending_hist HI _ _ Hk) as (s0 & _ & Hin).
  assert (Hz : settle_calls (promise pa) (settles r) = 0).
  { pose proof (inv_conserve HI _ _ Hin) as Hc. simpl in Hc.
    pose proof (pending_count_pos _ _ _ _ Hk eq_refl). lia. }
  split; intros Hty.
  - destruct (step_action_result _ _ _ _ _ _ _ _ _ HI Hq Hf Ho Hty Hid Hg) as (Es & Ep & Et).
    fold r' in Es, Ep, Et. rewrite Es, Ep, Et.
    split; [now apply head_settles|].
    split; apply alist_get_delete_eq.
  - destruct (step_action_error _ _ _ _ _ _ _ _ _ HI Hq Hf Ho Hty Hid Hg) as (Es & Ep & Et).
    fold r' in Es, Ep, Et. rewrite Es, Ep, Et.
    split; [now apply head_settles|].
    split; apply alist_get_delete_eq.
Qed.

Lemma acknowledgement_outcome_witness :
  let r := run (constructor demo_config "sdk-1") waiting_trace in
  NoDup (stamps waiting_trace)
  /\ promise_state (action_promise 2)
       (settles (step r (ws_message 1 (action_result_message "act-1-a"))))
     = Some (Resolved (Some (JObj [("success", JBool true)]))).
Proof.
  intros r.
  assert (Hnd : NoDup (stamps waiting_trace)).
  { simpl. repeat constructor; simpl; intuition discriminate. }
  split; [exact Hnd|].
  assert (Hg : alist_get string_dec "act-1-a" (pendingActions r)
               = Some {| promise := action_promise 2; timeout := action_timer_id 3 |})
    by (vm_compute; reflexivity).
  destruct (find_socket 1 r) as [sock|] eqn:Hf; [|vm_compute in Hf; discriminate].
  assert (Ho : readyState sock = OPEN).
  { vm_compute in Hf. injection Hf as <-. reflexivity. }
  destruct (acknowledgement_outcome demo_config "sdk-1" waiting_trace "act-1-a" _ 1 sock
              (JObj [("type", JStr "sdk_action_result"); ("actionId", JStr "act-1-a");
                     ("result", JObj [("success", JBool true)])])
              Hnd Hg Hf Ho eq_refl) as [Hres _].
  exact (proj1 (Hres eq_refl)).
Defined.

(** ** Pending actions and their deadline timers *)

(** X5.  In every state the SDK can reach the pending map and the live
    action timers agree: an action id is pending at most once; each pending
    action has its own live timer, set with the configured action timeout,
    whose firing names that id and that promise, and its promise is
    unsettled; each live action timer belongs to a pending action; so that
    no action timer is left when nothing is pending. *)
Theorem pending_actions_and_timers c clientId trace :
  NoDup (stamps trace) ->
  let r := run (constructor c clientId) trace in
  NoDup (keys (pendingActions r))
  /\ (forall id pa, In (id, pa) (pendingActions r) ->
        promise_state (promise pa) (settles r) = None
        /\ exists ty,
             alist_get TimerId_eq_dec (timeout pa) (timers r)
             = Some {| delay := actionTimeout (config r);
                       callback := action_timeout id (promise pa) ty |})
  /\ (forall id id' pa pa', In (id, pa) (pendingActions r) ->
        In (id', pa') (pendingActions r) -> timeout pa = timeout pa' -> id = id')
  /\ (forall n tm, alist_get TimerId_eq_dec (action_timer_id n) (timers r) = Some tm ->
        exists id p ty,
          callback tm = action_timeout id p ty
          /\ alist_get string_dec id (pendingActions r)
             = Some {| promise := p; timeout := action_timer_id n |})
  /\ (pendingActions r = [] ->
      forall n, alist_get TimerId_eq_dec (action_timer_id n) (timers r) = None).
Proof.
  intros Hnd r.
  destruct (reachable_Inv c clientId trace Hnd) as [HI _]. fold r in HI.
  split; [exact (inv_keys HI)|]. split; [|split; [|split]].
  - intros id pa Hin. split; [exact (pending_unsettled _ _ _ _ _ _ HI Hin)|].
    destruct (inv_entry_timer HI _ _ Hin) as (n & ty & _ & _ & Ht). eauto.
  - intros id id' pa pa' Hin Hin' Et.
    destruct (inv_entry_timer HI _ _ Hin) as (n & ty & _ & _ & Ht).
    destruct (inv_entry_timer HI _ _ Hin') as (n' & ty' & _ & _ & Ht').
    rewrite Et in Ht. rewrite Ht in Ht'. now inversion Ht'.
  - intros n tm Hg. pose proof (inv_timer_kind HI _ _ Hg) as Hk.
    destruct (callback tm) as [k| |id p ty|k|k] eqn:Hcb; simpl in Hk;
      try discriminate; try (destruct Hk; discriminate).
    exists id, p, ty. split; [reflexivity|].
    exact (inv_timer_entry HI _ _ _ _ _ Hg Hcb).
  - intros Hp n. exact (action_timer_gone _ _ _ _ n HI Hp).
Qed.

Lemma pending_actions_and_timers_witness :
  NoDup (stamps two_waiting_trace)
  /\ NoDup (keys (pendingActions (run (constructor demo_config "sdk-1") two_waiting_trace))).
Proof.
  assert (Hnd : NoDup (stamps two_waiting_trace)).
  { simpl. repeat constructor; simpl; intuition discriminate. }
  split; [exact Hnd|].
  exact (proj1 (pending_actions_and_timers demo_config "sdk-1" two_waiting_trace Hnd)).
Defined.


(** ** waitForConnection *)

Lemma connection_wait_over_call st attempt x n o r :
  connection_wait_over n o r ->
  connection_wait_over n o (try_catch (call_connection_listener st attempt x) r).
Proof.
  intros (Hl & Hs & Ht). unfold try_catch, call_connection_listener.
  destruct x as [fn throws|k]; cbn [fst]; [repeat split; auto|].
  assert (Hgo : forall o', connection_wait_over n o
            (settle (waitForConnection_promise k) o'
               (unsubscribe_connection (Closure k)
                  (clearTimeout (waitForConnection_timer_id k) r)))).
  { intros o'. unfold connection_wait_over. simpl. repeat split.
    - intros x Hin. apply fnset_delete_In in Hin as [Hin _]. auto.
    - auto.
    - destruct (TimerId_eq_dec (waitForConnection_timer_id n) (waitForConnection_timer_id k))
        as [E|Hne].
      + rewrite E. apply alist_get_delete_eq.
      + rewrite alist_get_delete_neq; auto. }
  destruct st; cbn [fst]; auto; repeat split; auto.
Qed.

Lemma connection_wait_over_settle st attempt o n r :
  wait_outcome st = Some o ->
  connection_wait_over n o
    (try_catch (call_connection_listener st attempt (waitForConnection_listener n)) r).
Proof.
  intros Ho. unfold try_catch, call_connection_listener.
  destruct st; try discriminate; inversion Ho; subst; cbn [fst];
    unfold connection_wait_over; simpl; repeat split; auto;
    try (intros x Hin; apply fnset_delete_In in Hin as [_ Hne]; exact Hne);
    apply alist_get_delete_eq.
Qed.

Lemma broadcast_settles st attempt o n l : forall r,
  wait_outcome st = Some o ->
  In (waitForConnection_listener n) l \/ connection_wait_over n o r ->
  connection_wait_over n o
    (fold_left (fun r x => try_catch (call_connection_listener st attempt x) r) l r).
Proof.
  induction l as [|x l IH]; intros r Ho [Hin|Hdone]; simpl; auto.
  - destruct Hin.
  - apply IH; auto. destruct Hin as [->|Hin]; [right|left; auto].
    now apply connection_wait_over_settle.
  - apply IH; auto. right. now apply connection_wait_over_call.
Qed.

Lemma broadcast_unheard st attempt l : forall r,
  wait_outcome st = None ->
  fold_left (fun r x => try_catch (call_connection_listener st attempt x) r) l r = r.
Proof.
  induction l as [|x l IH]; intros r Ho; simpl; auto.
  rewrite <- (IH r Ho) at 2. f_equal.
  destruct x; [reflexivity|]. destruct st; try discriminate; reflexivity.
Qed.

(** X6.  waitForConnection returns a promise that is fulfilled in the call
    itself, with no timer set and no listener subscribed, when the socket is
    open.  Otherwise its promise is new and unsettled, with a timer of the
    given length and a listener.  Whatever other listeners are subscribed,
    and whether they throw or not, a change of state to connected fulfils
    it and a change to disconnected rejects it with the connection-failed
    error; a change to connecting or reconnecting is not heard; the firing
    of the timer rejects it with the timed-out error.  Each of the three
    endings removes the listener and the timer. *)
Theorem waitForConnection_outcomes c clientId trace ms :
  NoDup (stamps trace) ->
  let r := run (constructor c clientId) trace in
  let n := next_id r in
  (isConnected r = true ->
     snd (waitForConnection ms r) = async_return n
     /\ settles (fst (waitForConnection ms r)) = (async_return n, Resolved None) :: settles r
     /\ connectionListeners (fst (waitForConnection ms r)) = connectionListeners r
     /\ timers (fst (waitForConnection ms r)) = timers r)
  /\ (isConnected r = false ->
      snd (waitForConnection ms r) = waitForConnection_promise n
      /\ promise_state (waitForConnection_promise n)
           (settles (fst (waitForConnection ms r))) = None
      /\ In (waitForConnection_listener n)
            (connectionListeners (fst (waitForConnection ms r)))
      /\ alist_get TimerId_eq_dec (waitForConnection_timer_id n)
           (timers (fst (waitForConnection ms r)))
         = Some {| delay := ms; callback := waitForConnection_timeout n |})
  /\ (forall r0 k st attempt o,
        In (waitForConnection_listener k) (connectionListeners r0) ->
        wait_outcome st = Some o ->
        connection_wait_over k o (setConnectionState st attempt r0))
  /\ (forall r0 st attempt,
        wait_outcome st = None ->
        setConnectionState st attempt r0 = set_connectionState st r0)
  /\ (forall r0 k tm,
        alist_get TimerId_eq_dec (waitForConnection_timer_id k) (timers r0) = Some tm ->
        callback tm = waitForConnection_timeout k ->
        connection_wait_over k (Rejected waitForConnection_timed_out)
          (task (timer_fires (waitForConnection_timer_id k)) r0)).
Proof.
  intros Hnd r n.
  pose proof (reachable_wait_fresh c clientId trace Hnd) as HW. fold r in HW.
  split; [|split; [|split; [|split]]].
  - intros Hc. unfold waitForConnection. cbv zeta.
    change (isConnected (fresh r)) with (isConnected r). rewrite Hc.
    cbn [fst snd]. repeat split.
  - intros Hc. unfold waitForConnection. cbv zeta.
    change (isConnected (fresh r)) with (isConnected r). rewrite Hc.
    cbn [fst snd]. split; [reflexivity|]. split; [|split].
    + change (promise_state (waitForConnection_promise n) (settles r) = None).
      apply wait_promise_new; [exact HW|]. unfold n. lia.
    + apply fnset_add_self_closure.
    + simpl. apply alist_get_set_eq.
  - intros r0 k st attempt o Hin Ho. unfold setConnectionState. cbv zeta.
    apply broadcast_settles; [exact Ho|]. left. exact Hin.
  - intros r0 st attempt Ho. unfold setConnectionState. cbv zeta.
    now apply broadcast_unheard.
  - intros r0 k tm Hg Hcb. unfold task. rewrite Hg, Hcb.
    unfold connection_wait_over, run_callback. simpl. repeat split.
    + intros x Hin. apply fnset_delete_In in Hin as [_ Hne]. exact Hne.
    + auto.
    + apply alist_get_delete_eq.
Qed.

Lemma waitForConnection_outcomes_witness :
  let r := run (constructor demo_config "sdk-1") [call_connect] in
  NoDup (stamps [call_connect])
  /\ isConnected r = false
  /\ snd (waitForConnection 5000 r) = waitForConnection_promise (next_id r)
  /\ promise_state (waitForConnection_promise (next_id r))
       (settles (fst (waitForConnection 5000 r))) = None.
Proof.
  intros r.
  assert (Hnd : NoDup (stamps [call_connect])) by constructor.
  assert (Hc : isConnected r = false) by (vm_compute; reflexivity).
  split; [exact Hnd|]. split; [exact Hc|].
  destruct (waitForConnection_outcomes demo_config "sdk-1" [call_connect] 5000 Hnd)
    as (_ & Hoff & _).
  destruct (Hoff Hc) as (P1 & P2 & _). split; [exact P1|exact P2].
Defined.


(** ** Subscribing to state pushes and unsubscribing *)

Lemma fnset_add_absent {A} (ident : A -> FnId) x (l : list A) :
  (forall y, In y l -> ident y <> ident x) -> fnset_add ident x l = l ++ [x].
Proof.
  intros Hno. unfold fnset_add.
  destruct (existsb (is_fn ident (ident x)) l) eqn:E; [|reflexivity].
  apply existsb_exists in E as (y & Hy & Hid). unfold is_fn in Hid.
  destruct (FnId_eq_dec (ident y) (ident x)) as [Ey|]; [|discriminate].
  now elim (Hno y Hy).
Qed.

Lemma fnset_add_present {A} (ident : A -> FnId) x (l : list A) y :
  In y l -> ident y = ident x -> fnset_add ident x l = l.
Proof.
  intros Hy Hid. unfold fnset_add.
  assert (E : existsb (is_fn ident (ident x)) l = true).
  { apply existsb_exists. exists y. split; [exact Hy|]. unfold is_fn.
    destruct (FnId_eq_dec (ident y) (ident x)); [reflexivity|congruence]. }
  now rewrite E.
Qed.

Lemma fnset_add_twice {A} (ident : A -> FnId) x (l : list A) :
  fnset_add ident x (fnset_add ident x l) = fnset_add ident x l.
Proof.
  destruct (existsb (is_fn ident (ident x)) l) eqn:E.
  - assert (E1 : fnset_add ident x l = l) by (unfold fnset_add; now rewrite E).
    now rewrite !E1.
  - assert (E1 : fnset_add ident x l = l ++ [x]) by (unfold fnset_add; now rewrite E).
    rewrite E1. apply (fnset_add_present ident x _ x); [|reflexivity].
    apply in_app_iff. simpl. auto.
Qed.

Lemma fnset_delete_absent {A} (ident : A -> FnId) f (l : list A) :
  (forall y, In y l -> ident y <> f) -> fnset_delete ident f l = l.
Proof.
  intros Hno. unfold fnset_delete. apply filter_all. intros y Hy.
  unfold is_fn. destruct (FnId_eq_dec (ident y) f) as [E|]; [|reflexivity].
  now elim (Hno y Hy).
Qed.

Lemma fnset_delete_add {A} (ident : A -> FnId) x (l : list A) :
  (forall y, In y l -> ident y <> ident x) ->
  fnset_delete ident (ident x) (fnset_add ident x l) = l.
Proof.
  intros Hno. rewrite (fnset_add_absent ident x l Hno).
  unfold fnset_delete. rewrite filter_app. cbn [filter].
  unfold is_fn at 2. destruct (FnId_eq_dec (ident x) (ident x)); [|congruence].
  cbn [negb]. rewrite app_nil_r. now apply fnset_delete_absent.
Qed.

Lemma owed_calls_absent snapshot fn l :
  (forall y, In y l -> state_listener_id y <> UserFn fn) ->
  forall s, ~ In (UserFn fn, s) (owed_calls snapshot l).
Proof.
  intros Hno s Hin. unfold owed_calls in Hin. apply in_flat_map in Hin as (y & Hy & Hin).
  destruct y as [g th|k f]; [|destruct Hin].
  destruct Hin as [E|[]]. inversion E; subst. now apply (Hno _ Hy).
Qed.

(** X7.  Subscriptions to state pushes behave as a set keyed by the
    listener: subscribing a listener that is subscribed already changes
    nothing; subscribing a new listener and then calling the function that
    onStateUpdate returned restores the set; once that function has been
    called, a push owes the listener no call, while a push after the
    subscription calls it with the snapshot pushed. *)
Theorem state_subscription_round_trip fn throws m snapshot r :
  is_string "sdk_state" (member "type" m) = true ->
  member "state" m = Some snapshot ->
  truthy (Some snapshot) = true ->
  let l := user_state_listener fn throws in
  onStateUpdate l (onStateUpdate l r) = onStateUpdate l r
  /\ ((forall y, In y (stateListeners r) -> state_listener_id y <> UserFn fn) ->
      stateListeners (unsubscribe_state (UserFn fn) (onStateUpdate l r)) = stateListeners r)
  /\ (forall s,
        In (UserFn fn, s)
           (notified (fst (handleMessage (JSON m) (unsubscribe_state (UserFn fn) r)))) ->
        In (UserFn fn, s) (notified r))
  /\ In (UserFn fn, snapshot)
        (notified (fst (handleMessage (JSON m) (onStateUpdate l r)))).
Proof.
  intros Hty Hm Ht l. split; [|split; [|split]].
  - unfold onStateUpdate. cbn [stateListeners set_stateListeners].
    rewrite fnset_add_twice. reflexivity.
  - intros Hno. unfold unsubscribe_state, onStateUpdate.
    cbn [stateListeners set_stateListeners].
    exact (fnset_delete_add state_listener_id l (stateListeners r) Hno).
  - intros s Hin.
    rewrite (handleMessage_push m snapshot _ Hty Hm Ht) in Hin. cbn [fst] in Hin.
    destruct (fan_out_notified snapshot
                (stateListeners (unsubscribe_state (UserFn fn) r))
                (set_state (Some snapshot) (unsubscribe_state (UserFn fn) r))) as [E _].
    change (stateListeners (set_state (Some snapshot) (unsubscribe_state (UserFn fn) r)))
      with (stateListeners (unsubscribe_state (UserFn fn) r)) in Hin.
    rewrite E in Hin. apply in_app_iff in Hin as [Hin|Hin]; [|exact Hin].
    apply in_rev in Hin. exfalso. revert Hin. apply owed_calls_absent.
    intros y Hy. unfold unsubscribe_state in Hy. cbn [stateListeners set_stateListeners] in Hy.
    now apply fnset_delete_In in Hy as [_ Hne].
  - rewrite (handleMessage_push m snapshot _ Hty Hm Ht). cbn [fst].
    destruct (fan_out_notified snapshot (stateListeners (onStateUpdate l r))
                (set_state (Some snapshot) (onStateUpdate l r))) as [E _].
    change (stateListeners (set_state (Some snapshot) (onStateUpdate l r)))
      with (stateListeners (onStateUpdate l r)).
    rewrite E. apply in_app_iff. left. apply in_rev. rewrite rev_involutive.
    unfold onStateUpdate. cbn [stateListeners set_stateListeners].
    unfold fnset_add. destruct (existsb _ (stateListeners r)) eqn:Ex.
    + apply existsb_exists in Ex as (y & Hy & Hid). unfold is_fn in Hid.
      destruct (FnId_eq_dec (state_listener_id y) (state_listener_id l)) as [Ey|];
        [|discriminate].
      unfold owed_calls. apply in_flat_map. exists y. split; [exact Hy|].
      destruct y as [g th|k f]; simpl in Ey; inversion Ey; subst. simpl. auto.
    + unfold owed_calls. apply in_flat_map. exists l. split; [|simpl; auto].
      apply in_app_iff. simpl. auto.
Qed.

Lemma state_subscription_round_trip_witness :
  let r := constructor demo_config "sdk-1" in
  In (UserFn 7, tick_7)
     (notified (fst (handleMessage push_7 (onStateUpdate (user_state_listener 7 thrower) r))))
  /\ stateListeners (unsubscribe_state (UserFn 7)
                       (onStateUpdate (user_state_listener 7 thrower) r)) = [].
Proof.
  intros r.
  destruct (state_subscription_round_trip 7 thrower (state_message tick_7) tick_7 r
              eq_refl eq_refl eq_refl) as (_ & Hrt & _ & Hcall).
  split; [exact Hcall|]. apply Hrt. intros y [].
Defined.


(** ** The sockets and the identify message *)

Lemma S_settle p o r :
  (forall n, p = connect_promise n -> n < next_id r) ->
  sockets_ok r -> sockets_ok (settle p o r).
Proof.
  intros Hp (A & B & C & D & E & F & G). unfold sockets_ok, settle. simpl.
  repeat split; auto.
  intros n o' [Eq|Hin]; [|eauto]. inversion Eq; subst. now apply Hp.
Qed.

Lemma S_settle_other p o r :
  (forall n, p <> connect_promise n) -> sockets_ok r -> sockets_ok (settle p o r).
Proof. intros Hn. apply S_settle. intros n E. now elim (Hn n). Qed.

Lemma S_settle_action p o r : is_action p -> sockets_ok r -> sockets_ok (settle p o r).
Proof. intros (k & ->). apply S_settle_other. discriminate. Qed.

Lemma S_clearTimeout t r : sockets_ok r -> sockets_ok (clearTimeout t r).
Proof.
  intros (A & B & C & D & E & F & G). unfold sockets_ok, clearTimeout. simpl.
  repeat split; auto.
  intros n tm Hg. destruct (TimerId_eq_dec (handshake_timer_id n) t) as [<-|Hne].
  - rewrite alist_get_delete_eq in Hg. discriminate.
  - rewrite alist_get_delete_neq in Hg by exact Hne. eauto.
Qed.

Lemma S_setTimeout t cb ms r :
  (forall n, t = handshake_timer_id n -> n < next_id r) ->
  sockets_ok r -> sockets_ok (setTimeout t cb ms r).
Proof.
  intros Ht (A & B & C & D & E & F & G). unfold sockets_ok, setTimeout. simpl.
  repeat split; auto.
  intros n tm Hg. destruct (TimerId_eq_dec (handshake_timer_id n) t) as [Eq|Hne].
  - apply Ht. now symmetry.
  - rewrite alist_get_set_neq in Hg by exact Hne. eauto.
Qed.

Lemma S_fresh r : sockets_ok r -> sockets_ok (fresh r).
Proof.
  intros (A & B & C & D & E & F & G). unfold sockets_ok, fresh. simpl.
  repeat split; auto; intros.
  - apply Nat.lt_lt_succ_r. eauto.
  - apply Nat.lt_lt_succ_r. eauto.
  - apply Nat.lt_lt_succ_r. eauto.
Qed.

(* One socket changes, and the current socket stays or is dropped. *)
Lemma SocketsOk_edit user cid socks cur cp nid setl tim s f cur' :
  SocketsOk user cid socks cur cp nid setl tim ->
  cur' = cur \/ cur' = None ->
  (forall sock, alist_get Nat.eq_dec s socks = Some sock ->
     (readyState (f sock) = CONNECTING -> sent (f sock) = [])
     /\ identified user cid (sent (f sock))
     /\ (cur' = Some s ->
         readyState (f sock) <> CLOSED /\ (readyState (f sock) = OPEN -> sent (f sock) <> []))) ->
  SocketsOk user cid
    match alist_get Nat.eq_dec s socks with
    | Some sock => alist_set Nat.eq_dec s (f sock) socks
    | None => socks
    end cur' (option_map connect_promise cur') nid setl tim.
Proof.
  intros (A & B & C & D & E & F & G) Hcur Hf.
  assert (Hlook : forall s' sock',
            alist_get Nat.eq_dec s'
              match alist_get Nat.eq_dec s socks with
              | Some sock => alist_set Nat.eq_dec s (f sock) socks
              | None => socks
              end = Some sock' ->
            alist_get Nat.eq_dec s' socks = Some sock'
            \/ (s' = s /\ exists sock, alist_get Nat.eq_dec s socks = Some sock
                                       /\ sock' = f sock)).
  { intros s' sock' Hg. destruct (alist_get Nat.eq_dec s socks) as [sock|] eqn:Hs; [|auto].
    destruct (Nat.eq_dec s' s) as [->|Hne].
    - rewrite alist_get_set_eq in Hg. inversion Hg; subst. right. eauto.
    - rewrite alist_get_set_neq in Hg by exact Hne. auto. }
  split; [|split; [|split; [|split; [|split; [|split]]]]]; auto.
  - intros s' sock' Hg. destruct (Hlook _ _ Hg) as [Hold|(E1 & sock & Hs & _)]; [eauto|subst s'; eauto].
  - intros s' sock' Hg Hst. destruct (Hlook _ _ Hg) as [Hold|(E1 & sock & Hs & E2)]; [eauto|].
    subst s' sock'. now apply (Hf sock Hs).
  - intros s' sock' Hg. destruct (Hlook _ _ Hg) as [Hold|(E1 & sock & Hs & E2)]; [eauto|].
    subst s' sock'. now apply (Hf sock Hs).
  - intros s' Hc. destruct Hcur as [-> | ->]; [|discriminate].
    destruct (D s' Hc) as (sock' & Hg' & Hn' & Ho').
    destruct (Nat.eq_dec s' s) as [->|Hne].
    + rewrite Hg'. rewrite alist_get_set_eq. exists (f sock'). split; [reflexivity|].
      now apply (Hf sock' Hg').
    + exists sock'. split; [|auto].
      destruct (alist_get Nat.eq_dec s socks); [|exact Hg'].
      now rewrite alist_get_set_neq.
Qed.

Lemma S_update_socket s f r :
  sockets_ok r ->
  (forall sock, find_socket s r = Some sock ->
     (readyState (f sock) = CONNECTING -> sent (f sock) = [])
     /\ identified (botUsername (config r)) (sdkClientId r) (sent (f sock))
     /\ (ws r = Some s ->
         readyState (f sock) <> CLOSED /\ (readyState (f sock) = OPEN -> sent (f sock) <> []))) ->
  sockets_ok (update_socket s f r).
Proof.
  intros HS Hf.
  pose proof (SocketsOk_edit _ _ _ _ _ _ _ _ s f (ws r) HS (or_introl eq_refl) Hf) as H.
  destruct HS as (_ & _ & _ & _ & E & _). rewrite <- E in H.
  unfold sockets_ok, update_socket. unfold find_socket.
  destruct (alist_get Nat.eq_dec s (sockets r)); exact H.
Qed.

Lemma S_drop_socket s f r :
  sockets_ok r ->
  (forall sock, find_socket s r = Some sock ->
     (readyState (f sock) = CONNECTING -> sent (f sock) = [])
     /\ identified (botUsername (config r)) (sdkClientId r) (sent (f sock))) ->
  sockets_ok (set_ws None (set_connectPromise None (update_socket s f r))).
Proof.
  intros HS Hf.
  assert (Hf' : forall sock, alist_get Nat.eq_dec s (sockets r) = Some sock ->
     (readyState (f sock) = CONNECTING -> sent (f sock) = [])
     /\ identified (botUsername (config r)) (sdkClientId r) (sent (f sock))
     /\ (@None nat = Some s ->
         readyState (f sock) <> CLOSED /\ (readyState (f sock) = OPEN -> sent (f sock) <> []))).
  { intros sock Hg. destruct (Hf sock Hg). repeat split; auto; discriminate. }
  pose proof (SocketsOk_edit _ _ _ _ _ _ _ _ s f None HS (or_intror eq_refl) Hf') as H.
  unfold sockets_ok, update_socket. unfold find_socket.
  destruct (alist_get Nat.eq_dec s (sockets r)); exact H.
Qed.

Lemma sockets_ok_ext r r' :
  config r' = config r -> sdkClientId r' = sdkClientId r -> sockets r' = sockets r ->
  ws r' = ws r -> connectPromise r' = connectPromise r -> next_id r' = next_id r ->
  settles r' = settles r -> timers r' = timers r ->
  sockets_ok r -> sockets_ok r'.
Proof. unfold sockets_ok. intros -> -> -> -> -> -> -> ->. auto. Qed.

Lemma S_ws_close_method s r : sockets_ok r -> sockets_ok (ws_close_method s r).
Proof.
  intros HS. unfold ws_close_method. apply S_update_socket; [exact HS|].
  intros sock Hf. destruct HS as (_ & B & C & D & _).
  pose proof (C s sock Hf) as Hc.
  destruct (readyState sock) eqn:Hst; cbn [readyState sent with_readyState];
    try rewrite Hst; (split; [intros; try discriminate; now apply (B s sock Hf)|]);
    (split; [exact Hc|]); intros Hw; destruct (D s Hw) as (sock' & Hf' & Hn' & Ho');
    unfold find_socket in Hf; rewrite Hf in Hf'; inversion Hf'; subst sock';
    (split; [congruence || discriminate|intros; try discriminate; auto]).
Qed.

Lemma S_send m r :
  own_message (botUsername (config r)) (sdkClientId r) m ->
  sockets_ok r -> sockets_ok (send m r).
Proof.
  intros Hm HS. unfold send. destruct (ws r) as [s|] eqn:Hw; [|exact HS].
  destruct (isConnected r) eqn:Hc; [|exact HS].
  apply S_update_socket; [exact HS|].
  intros sock Hf. unfold isConnected in Hc. rewrite Hw, Hf in Hc.
  assert (Ho : readyState sock = OPEN) by (destruct (readyState sock); simpl in Hc; congruence).
  destruct HS as (_ & _ & C & D & _).
  destruct (D s Hw) as (sock' & Hf' & _ & Ho').
  unfold find_socket in Hf. rewrite Hf in Hf'. inversion Hf'; subst sock'.
  cbn [readyState sent with_sent]. rewrite Ho.
  split; [discriminate|]. split.
  - right. destruct (C s sock Hf) as [E|(rest & E & Hall)].
    + now elim (Ho' Ho).
    + rewrite E. exists (rest ++ [m]). split; [reflexivity|].
      apply Forall_app. split; [exact Hall|]. constructor; [exact Hm|constructor].
  - intros _. split; [discriminate|]. intros _. now destruct (sent sock).
Qed.

Lemma S_call_connection_listener st attempt l r :
  sockets_ok r -> sockets_ok (try_catch (call_connection_listener st attempt l) r).
Proof.
  intros HS. unfold try_catch, call_connection_listener.
  destruct l as [fn th|n]; cbn [fst]; [exact HS|].
  destruct st; cbn [fst]; try exact HS;
    (apply S_settle_other; [discriminate|]); unfold unsubscribe_connection; sstrip;
    now apply S_clearTimeout.
Qed.

Lemma S_setConnectionState st attempt r :
  sockets_ok r -> sockets_ok (setConnectionState st attempt r).
Proof.
  intros HS. unfold setConnectionState. cbv zeta.
  apply fold_left_keeps; [|exact HS].
  intros a x. apply S_call_connection_listener.
Qed.

Lemma next_id_setConnectionState st attempt r :
  next_id (setConnectionState st attempt r) = next_id r.
Proof.
  unfold setConnectionState. cbv zeta.
  apply (fold_left_keeps (fun a => next_id a = next_id r)); [|reflexivity].
  intros a x Ha. rewrite <- Ha. unfold try_catch, call_connection_listener.
  destruct x as [fn th|n]; [reflexivity|]. destruct st; reflexivity.
Qed.

(* connect() makes a socket: it carries the next serial number, its promise
   and its timer carry the same. *)
Lemma S_new_socket r :
  sockets_ok r ->
  sockets_ok
    (set_connectPromise (Some (connect_promise (next_id r)))
       (setTimeout (handshake_timer_id (next_id r)) (connect_timeout (next_id r)) 10000
          (set_ws (Some (next_id r))
             (set_sockets
                (alist_set Nat.eq_dec (next_id r)
                   {| readyState := CONNECTING; sent := [];
                      checkConnected_attached := true |} (sockets (fresh r)))
                (fresh r))))).
Proof.
  intros (A & B & C & D & E & F & G). unfold sockets_ok. simpl.
  assert (Hlook : forall s sock,
            alist_get Nat.eq_dec s
              (alist_set Nat.eq_dec (next_id r)
                 {| readyState := CONNECTING; sent := []; checkConnected_attached := true |}
                 (sockets r)) = Some sock ->
            alist_get Nat.eq_dec s (sockets r) = Some sock
            \/ (s = next_id r
                /\ sock = {| readyState := CONNECTING; sent := [];
                             checkConnected_attached := true |})).
  { intros s sock Hg. destruct (Nat.eq_dec s (next_id r)) as [->|Hne].
    - rewrite alist_get_set_eq in Hg. inversion Hg. auto.
    - rewrite alist_get_set_neq in Hg by exact Hne. auto. }
  split; [|split; [|split; [|split; [|split; [|split]]]]].
  - intros s sock Hg. destruct (Hlook _ _ Hg) as [Hold|[-> _]]; [|lia].
    apply Nat.lt_lt_succ_r. eauto.
  - intros s sock Hg Hst. destruct (Hlook _ _ Hg) as [Hold|[_ ->]]; [eauto|reflexivity].
  - intros s sock Hg. destruct (Hlook _ _ Hg) as [Hold|[_ ->]]; [eauto|now left].
  - intros s Hs. inversion Hs; subst s. rewrite alist_get_set_eq.
    eexists. split; [reflexivity|]. simpl. split; discriminate.
  - reflexivity.
  - intros n o Hin. apply Nat.lt_lt_succ_r. eauto.
  - intros n tm Hg.
    destruct (TimerId_eq_dec (handshake_timer_id n) (handshake_timer_id (next_id r)))
      as [Eq|Hne].
    + inversion Eq. lia.
    + rewrite alist_get_set_neq in Hg by exact Hne. apply Nat.lt_lt_succ_r. eauto.
Qed.

Lemma S_connect r : sockets_ok r -> sockets_ok (fst (connect r)).
Proof.
  intros HS. unfold connect.
  destruct (isConnected r).
  { cbn [fst]. apply S_settle_other; [discriminate|]. now apply S_fresh. }
  destruct (connectPromise r); [exact HS|].
  cbv zeta. cbn [fst].
  destruct (ConnectionState_eqb _ _).
  - exact (S_new_socket (set_intentionalDisconnect false r) HS).
  - exact (S_new_socket (setConnectionState connecting None (set_intentionalDisconnect false r))
             (S_setConnectionState _ _ (set_intentionalDisconnect false r) HS)).
Qed.

Lemma S_scheduleReconnect r : sockets_ok r -> sockets_ok (scheduleReconnect r).
Proof.
  intros HS. unfold scheduleReconnect. destruct (reaches _ _).
  - now apply S_setConnectionState.
  - cbv zeta. sstrip. apply S_setTimeout; [discriminate|]. apply S_fresh.
    now apply S_setConnectionState.
Qed.

Lemma S_drop_current r :
  sockets_ok r ->
  sockets_ok (set_connectPromise None
                match ws r with
                | Some s => set_ws None (ws_close_method s r)
                | None => r
                end).
Proof.
  intros HS. destruct (ws r) as [s|] eqn:Hw.
  - unfold ws_close_method.
    change (sockets_ok (set_ws None (set_connectPromise None
              (update_socket s
                 (fun sock => match readyState sock with
                              | CONNECTING | OPEN => with_readyState CLOSING sock
                              | CLOSING | CLOSED => sock
                              end) r)))).
    apply S_drop_socket; [exact HS|].
    intros sock Hf. destruct HS as (_ & B & C & _).
    pose proof (C s sock Hf) as Hc.
    destruct (readyState sock) eqn:Hst; cbn [readyState sent with_readyState];
      try rewrite Hst; (split; [intros; try discriminate; now apply (B s sock Hf)|exact Hc]).
  - destruct HS as (A & B & C & D & E & F & G). unfold sockets_ok. simpl.
    rewrite Hw in *. repeat split; auto.
Qed.

Lemma S_disconnect r : sockets_ok r -> sockets_ok (fst (disconnect r)).
Proof.
  intros HS. unfold disconnect. cbv zeta. cbn [fst].
  apply S_settle_other; [discriminate|]. apply S_fresh.
  apply S_setConnectionState. sstrip.
  apply S_drop_current.
  destruct (reconnectTimer (set_intentionalDisconnect true r)); sstrip;
    [now apply S_clearTimeout|exact HS].
Qed.

Lemma S_waitForConnection ms r : sockets_ok r -> sockets_ok (fst (waitForConnection ms r)).
Proof.
  intros HS. unfold waitForConnection. cbv zeta.
  destruct (isConnected (fresh r)); cbn [fst].
  - apply S_settle_other; [discriminate|]. now apply S_fresh.
  - unfold onConnectionStateChange. sstrip.
    apply S_setTimeout; [discriminate|]. now apply S_fresh.
Qed.

Lemma S_waitForCondition f ms r : sockets_ok r -> sockets_ok (fst (waitForCondition f ms r)).
Proof.
  intros HS. unfold waitForCondition. cbv zeta.
  assert (Hs : sockets_ok (fst (subscribe_waitForCondition f ms (next_id r) (fresh r)))).
  { unfold subscribe_waitForCondition. cbv zeta. cbn [fst]. unfold onStateUpdate. sstrip.
    apply S_setTimeout; [discriminate|]. now apply S_fresh. }
  destruct (state (fresh r)); [|exact Hs].
  destruct (_ && _); [|exact Hs].
  cbn [fst]. apply S_settle_other; [discriminate|]. now apply S_fresh.
Qed.

Lemma S_call_state_listener snapshot l r :
  sockets_ok r -> sockets_ok (try_catch (call_state_listener snapshot l) r).
Proof.
  intros HS. unfold try_catch, call_state_listener.
  destruct l as [fn th|n f]; cbn [fst]; [exact HS|].
  destruct (f snapshot); cbn [fst]; [|exact HS].
  apply S_settle_other; [discriminate|]. unfold unsubscribe_state. sstrip.
  now apply S_clearTimeout.
Qed.

Lemma S_handle_state m r : sockets_ok r -> sockets_ok (handle_state m r).
Proof.
  intros HS. unfold handle_state.
  destruct (_ && _); [|exact HS].
  destruct (member "state" m); [|exact HS].
  cbv zeta. apply fold_left_keeps; [|exact HS].
  intros a x. apply S_call_state_listener.
Qed.

Lemma S_sendAction_body a s p r :
  is_action p -> sockets_ok r -> sockets_ok (sendAction_body a s p r).
Proof.
  intros Hp HS. unfold sendAction_body.
  destruct (negb (isConnected r)); [now apply S_settle_action|].
  cbv zeta. apply S_send; [right; now eexists; eexists|]. sstrip.
  apply S_setTimeout; [discriminate|]. now apply S_fresh.
Qed.

Lemma S_sendAction a s r : sockets_ok r -> sockets_ok (fst (sendAction a s r)).
Proof.
  intros HS. unfold sendAction. cbv zeta.
  destruct (ConnectionState_eqb _ _).
  - pose proof (S_waitForConnection 60000 (fresh r) (S_fresh r HS)) as H1.
    destruct (waitForConnection 60000 (fresh r)) as [r1 p]. cbn [fst] in *.
    unfold await. destruct (promise_state p (settles r1)); exact H1.
  - cbn [fst]. apply S_sendAction_body; [now eexists|]. now apply S_fresh.
Qed.

Lemma S_resume r ko :
  is_action (result_of (fst ko)) -> sockets_ok r -> sockets_ok (resume r ko).
Proof.
  intros Hp HS. unfold resume. destruct (fst ko) as [a s p]. simpl in Hp.
  destruct (snd ko); [now apply S_sendAction_body|now apply S_settle_action].
Qed.

Lemma S_drain l : forall r,
  (forall ko, In ko l -> is_action (result_of (fst ko))) ->
  sockets_ok r -> sockets_ok (fold_left resume l r).
Proof.
  induction l as [|ko l IH]; intros r Hl HS; simpl; auto.
  apply IH; [intros; apply Hl; simpl; auto|].
  apply S_resume; [apply Hl; simpl; auto|exact HS].
Qed.

Lemma alist_set_set {K V} (eq_dec : forall a b : K, {a = b} + {a <> b}) k (v v' : V) m :
  alist_set eq_dec k v' (alist_set eq_dec k v m) = alist_set eq_dec k v' m.
Proof.
  induction m as [|[k' w] m IH]; simpl.
  - destruct (eq_dec k k); [reflexivity|congruence].
  - destruct (eq_dec k k') as [E|N]; simpl.
    + destruct (eq_dec k k); [reflexivity|congruence].
    + destruct (eq_dec k k'); [congruence|]. now rewrite IH.
Qed.

(* The open event: the socket turns OPEN, the handshake timer is cleared and
   the identify message is the first thing written to it. *)
Lemma S_onopen s sock r :
  sockets_ok r -> find_socket s r = Some sock -> readyState sock = CONNECTING ->
  sockets_ok (onopen s (update_socket s (with_readyState OPEN) r)).
Proof.
  intros HS Hf Hst. unfold onopen. cbv zeta.
  assert (Hother : ws r <> Some s ->
            sockets_ok (update_socket s (with_readyState OPEN) r)).
  { intros Hne. apply S_update_socket; [exact HS|].
    intros sock' Hf'. cbn [readyState sent with_readyState].
    destruct HS as (_ & _ & C & _).
    split; [discriminate|]. split; [exact (C s sock' Hf')|]. intros E. now elim Hne. }
  destruct (ws r) as [c|] eqn:Hw; [destruct (Nat.eq_dec c s) as [->|Hne]|].
  - assert (E : send (sdk_connect (botUsername (config r)) (sdkClientId r))
                   (clearTimeout (handshake_timer_id s)
                      (update_socket s (with_readyState OPEN) r))
                 = set_sockets
                     (alist_set Nat.eq_dec s
                        (with_sent (sdk_connect (botUsername (config r)) (sdkClientId r))
                           (with_readyState OPEN sock))
                        (alist_set Nat.eq_dec s (with_readyState OPEN sock) (sockets r)))
                     (clearTimeout (handshake_timer_id s)
                        (set_sockets
                           (alist_set Nat.eq_dec s (with_readyState OPEN sock) (sockets r))
                           r))).
    { unfold update_socket at 1. rewrite Hf.
      unfold send, isConnected, update_socket, find_socket. simpl.
      rewrite Hw. rewrite alist_get_set_eq. reflexivity. }
    assert (E' : update_socket s
                   (fun x => with_sent (sdk_connect (botUsername (config r)) (sdkClientId r))
                               (with_readyState OPEN x))
                   (clearTimeout (handshake_timer_id s) r)
                 = set_sockets
                     (alist_set Nat.eq_dec s
                        (with_sent (sdk_connect (botUsername (config r)) (sdkClientId r))
                           (with_readyState OPEN sock)) (sockets r))
                     (clearTimeout (handshake_timer_id s) r)).
    { unfold update_socket, find_socket in *. simpl. rewrite Hf. reflexivity. }
    assert (Hok : sockets_ok
                    (update_socket s
                       (fun x => with_sent
                                   (sdk_connect (botUsername (config r)) (sdkClientId r))
                                   (with_readyState OPEN x))
                       (clearTimeout (handshake_timer_id s) r))).
    { apply S_update_socket; [now apply S_clearTimeout|].
      intros sock' Hf'. cbn [readyState sent with_readyState with_sent].
      assert (sock' = sock) by (unfold find_socket, clearTimeout in *; simpl in *; congruence).
      subst sock'.
      destruct HS as (_ & B & _). rewrite (B s sock Hf Hst).
      split; [discriminate|]. split; [right; exists []; split; [reflexivity|constructor]|].
      intros _. split; discriminate. }
    assert (Eu : update_socket s (with_readyState OPEN) r
                 = set_sockets
                     (alist_set Nat.eq_dec s (with_readyState OPEN sock) (sockets r)) r).
    { unfold update_socket. now rewrite Hf. }
    rewrite Eu in *.
    change (sockets_ok
              (send (sdk_connect (botUsername (config r)) (sdkClientId r))
                 (clearTimeout (handshake_timer_id s)
                    (set_sockets
                       (alist_set Nat.eq_dec s (with_readyState OPEN sock) (sockets r)) r)))).
    rewrite E. rewrite E' in Hok.
    revert Hok. apply sockets_ok_ext; simpl; try reflexivity. apply alist_set_set.
  - apply S_send; [now left|]. apply S_clearTimeout, Hother. congruence.
  - apply S_send; [now left|]. apply S_clearTimeout, Hother. discriminate.
Qed.

Lemma InvG_pending_action base unacked x rest H r :
  InvG base unacked x rest H r ->
  forall id pa, In (id, pa) (pendingActions r) -> is_action (promise pa).
Proof.
  intros HI id pa Hin.
  destruct (inv_pending_hist HI _ _ Hin) as (s & _ & Hh).
  destruct (inv_hist_fresh HI _ _ Hh) as (n & -> & _). now exists n.
Qed.

Lemma InvG_queued_action base unacked x H r :
  InvG base unacked x [] H r ->
  forall ko, In ko (microtasks r) -> is_action (result_of (fst ko)).
Proof.
  intros HI [k o] Hin. simpl.
  pose proof (inv_queued_hist HI k o Hin) as Hh.
  destruct (inv_hist_fresh HI _ _ Hh) as (n & -> & _). now exists n.
Qed.

Lemma S_handle_action_result m r :
  (forall id pa, In (id, pa) (pendingActions r) -> is_action (promise pa)) ->
  sockets_ok r -> sockets_ok (handle_action_result m r).
Proof.
  intros Hp HS. unfold handle_action_result.
  destruct (_ && _); [|exact HS].
  destruct (get_pending (member "actionId" m) r) as [pending|] eqn:Hg; [|exact HS].
  assert (Hn : is_action (promise pending)).
  { unfold get_pending in Hg. destruct (member "actionId" m) as [[| | |id| |]|]; try discriminate.
    apply alist_get_In in Hg. exact (Hp _ _ Hg). }
  assert (Hd : sockets_ok (delete_pending (member "actionId" m)
                             (clearTimeout (timeout pending) r))).
  { unfold delete_pending. destruct (member "actionId" m) as [[| | |id| |]|]; sstrip;
      now apply S_clearTimeout. }
  cbv zeta. destruct (truthy _); now apply S_settle_action.
Qed.

Lemma S_handle_error m r :
  (forall id pa, In (id, pa) (pendingActions r) -> is_action (promise pa)) ->
  sockets_ok r -> sockets_ok (handle_error m r).
Proof.
  intros Hp HS. unfold handle_error.
  destruct (is_string _ _); [|exact HS]. destruct (truthy _); [|exact HS].
  destruct (get_pending (member "actionId" m) r) as [pending|] eqn:Hg; [|exact HS].
  assert (Hn : is_action (promise pending)).
  { unfold get_pending in Hg. destruct (member "actionId" m) as [[| | |id| |]|]; try discriminate.
    apply alist_get_In in Hg. exact (Hp _ _ Hg). }
  assert (Hd : sockets_ok (delete_pending (member "actionId" m)
                             (clearTimeout (timeout pending) r))).
  { unfold delete_pending. destruct (member "actionId" m) as [[| | |id| |]|]; sstrip;
      now apply S_clearTimeout. }
  cbv zeta. now apply S_settle_action.
Qed.

Lemma S_handleMessage base unacked x rest H data r :
  InvG base unacked x rest H r ->
  sockets_ok r -> sockets_ok (fst (handleMessage data r)).
Proof.
  intros HI HS. unfold handleMessage.
  destruct (JSON_parse data) as [m|]; [|exact HS].
  assert (Hgo : sockets_ok (handle_error m (handle_action_result m (handle_state m r)))).
  { pose proof (InvG_handle_state _ _ _ _ _ m _ HI) as H1.
    pose proof (InvG_handle_action_result _ _ _ _ _ m _ H1) as H2.
    apply S_handle_error; [exact (InvG_pending_action _ _ _ _ _ _ H2)|].
    apply S_handle_action_result; [exact (InvG_pending_action _ _ _ _ _ _ H1)|].
    now apply S_handle_state. }
  destruct m; cbn [fst]; auto.
Qed.

Lemma next_id_handle_state m r : next_id (handle_state m r) = next_id r.
Proof.
  unfold handle_state.
  destruct (_ && _); [|reflexivity].
  destruct (member "state" m); [|reflexivity].
  cbv zeta.
  apply (fold_left_keeps (fun a => next_id a = next_id r)); [|reflexivity].
  intros a l Ha. rewrite <- Ha. unfold try_catch, call_state_listener.
  destruct l as [fn th|n f]; [reflexivity|]. destruct (f j); reflexivity.
Qed.

Lemma sockets_handle_state m r : sockets (handle_state m r) = sockets r.
Proof.
  unfold handle_state.
  destruct (_ && _); [|reflexivity].
  destruct (member "state" m); [|reflexivity].
  cbv zeta.
  apply (fold_left_keeps (fun a => sockets a = sockets r)); [|reflexivity].
  intros a l Ha. rewrite <- Ha. unfold try_catch, call_state_listener.
  destruct l as [fn th|n f]; [reflexivity|]. destruct (f j); reflexivity.
Qed.

Lemma sockets_handle_action_result m r : sockets (handle_action_result m r) = sockets r.
Proof.
  unfold handle_action_result.
  destruct (_ && _); [|reflexivity].
  destruct (get_pending _ r); [|reflexivity].
  cbv zeta. unfold delete_pending.
  destruct (truthy _); destruct (member "actionId" m) as [[| | |id| |]|]; reflexivity.
Qed.

Lemma sockets_handle_error m r : sockets (handle_error m r) = sockets r.
Proof.
  unfold handle_error.
  destruct (is_string _ _); [|reflexivity]. destruct (truthy _); [|reflexivity].
  destruct (get_pending _ r); [|reflexivity].
  cbv zeta. unfold delete_pending.
  destruct (member "actionId" m) as [[| | |id| |]|]; reflexivity.
Qed.

Lemma sockets_handleMessage data r : sockets (fst (handleMessage data r)) = sockets r.
Proof.
  unfold handleMessage. destruct (JSON_parse data) as [m|]; [|reflexivity].
  assert (E : sockets (handle_error m (handle_action_result m (handle_state m r)))
              = sockets r).
  { now rewrite sockets_handle_error, sockets_handle_action_result, sockets_handle_state. }
  destruct m; cbn [fst]; auto.
Qed.

Lemma S_onerror s r : s < next_id r -> sockets_ok r -> sockets_ok (onerror s r).
Proof.
  intros Hs HS. unfold onerror. cbv zeta.
  apply S_settle; [|now apply S_clearTimeout].
  intros n E. inversion E; subst. exact Hs.
Qed.

Lemma S_without_checkConnected s r :
  sockets_ok r -> sockets_ok (update_socket s without_checkConnected r).
Proof.
  intros HS. apply S_update_socket; [exact HS|].
  intros sock Hf. cbn [readyState sent without_checkConnected].
  destruct HS as (_ & B & C & D & _).
  split; [exact (B s sock Hf)|]. split; [exact (C s sock Hf)|].
  intros Hw. destruct (D s Hw) as (sock' & Hf' & Hn' & Ho').
  unfold find_socket in Hf. rewrite Hf in Hf'. inversion Hf'; subst sock'. auto.
Qed.

Lemma next_id_update_socket s f r : next_id (update_socket s f r) = next_id r.
Proof. unfold update_socket. now destruct (find_socket s r). Qed.

Lemma S_checkConnected s data r :
  s < next_id r -> sockets_ok r -> sockets_ok (checkConnected s data r).
Proof.
  intros Hs HS. unfold checkConnected.
  destruct (JSON_parse data) as [m|]; [|exact HS].
  assert (Hgo : sockets_ok
    (if is_string "sdk_connected" (member "type" m)
     then settle (connect_promise s) (Resolved None)
            (setConnectionState connected None
               (set_reconnectAttempt 0
                  match ws r with
                  | Some current =>
                      if Nat.eqb current s then update_socket s without_checkConnected r
                      else r
                  | None => r
                  end))
     else r)).
  { destruct (is_string _ _); [|exact HS].
    apply S_settle.
    - intros n E. inversion E; subst n. rewrite next_id_setConnectionState.
      cbn [next_id set_reconnectAttempt].
      destruct (ws r); [|exact Hs]. destruct (Nat.eqb _ _); [|exact Hs].
      now rewrite next_id_update_socket.
    - apply S_setConnectionState. sstrip.
      destruct (ws r); [|exact HS]. destruct (Nat.eqb _ _); [|exact HS].
      now apply S_without_checkConnected. }
  destruct m; auto.
Qed.

Lemma S_reject_all l : forall r,
  (forall e, In e l -> is_action (promise (snd e))) ->
  sockets_ok r -> sockets_ok (fold_left reject_pending l r).
Proof.
  induction l as [|e l IH]; intros r Hl HS; simpl; auto.
  apply IH; [intros; apply Hl; simpl; auto|].
  unfold reject_pending. cbv zeta.
  apply S_settle_action; [apply Hl; simpl; auto|]. now apply S_clearTimeout.
Qed.

(* The close event of socket [s]: the socket is CLOSED, and the handler lets
   go of the current socket and of the connect promise before anything else. *)
Lemma S_onclose s r :
  (forall id pa, In (id, pa) (pendingActions r) -> is_action (promise pa)) ->
  sockets_ok r -> sockets_ok (onclose (update_socket s (with_readyState CLOSED) r)).
Proof.
  intros Hp HS. unfold onclose. cbv zeta.
  set (m := set_pendingActions [] _).
  assert (Hm : sockets_ok m).
  { unfold m. sstrip. apply S_reject_all.
    - intros [id pa] Hin. simpl in Hin.
      assert (E : pendingActions (update_socket s (with_readyState CLOSED) r)
                  = pendingActions r)
        by (unfold update_socket; now destruct (find_socket s r)).
      rewrite E in Hin. exact (Hp id pa Hin).
    - apply S_drop_socket; [exact HS|].
      intros sock Hf. cbn [readyState sent with_readyState].
      destruct HS as (_ & _ & C & _).
      split; [discriminate|exact (C s sock Hf)]. }
  clearbody m.
  destruct (_ && _).
  - now apply S_scheduleReconnect.
  - now apply S_setConnectionState.
Qed.

Lemma S_run_callback base unacked x rest H r t tm :
  InvG base unacked x rest H r ->
  alist_get TimerId_eq_dec t (timers r) = Some tm ->
  sockets_ok r -> sockets_ok (run_callback (callback tm) (clearTimeout t r)).
Proof.
  intros HI Hg HS.
  pose proof (S_clearTimeout t r HS) as HS1.
  pose proof (inv_timer_kind HI _ _ Hg) as Hk.
  destruct (callback tm) as [n| |id p ty|n|n] eqn:Hcb; unfold run_callback; cbv zeta.
  - assert (H1 : sockets_ok (settle (connect_promise n) (Rejected Connection_timeout)
                               (clearTimeout t r))).
    { apply S_settle; [|exact HS1]. intros k E. inversion E; subst k.
      simpl in Hk. subst t. destruct HS as (_ & _ & _ & _ & _ & _ & G).
      exact (G _ _ Hg). }
    revert H1. generalize (settle (connect_promise n) (Rejected Connection_timeout)
                             (clearTimeout t r)).
    intros r0 H0. destruct (ws r0); [now apply S_ws_close_method|exact H0].
  - apply S_connect. sstrip. exact HS1.
  - apply S_settle_action; [|sstrip; exact HS1].
    pose proof (inv_timer_entry HI _ _ _ _ _ Hg Hcb) as He.
    apply alist_get_In in He.
    exact (InvG_pending_action _ _ _ _ _ _ HI _ _ He).
  - apply S_settle_other; [discriminate|]. unfold unsubscribe_connection. sstrip. exact HS1.
  - apply S_settle_other; [discriminate|]. unfold unsubscribe_state. sstrip. exact HS1.
Qed.

Lemma S_task base unacked H r e :
  Inv base unacked H r -> sockets_ok r -> sockets_ok (task e r).
Proof.
  intros HI HS. unfold Inv in HI. destruct e; unfold task.
  - now apply S_connect.
  - now apply S_disconnect.
  - now apply S_sendAction.
  - now apply S_waitForConnection.
  - now apply S_waitForCondition.
  - exact HS.
  - exact HS.
  - exact HS.
  - exact HS.
  - destruct (find_socket s r) as [sock|] eqn:Hf; auto.
    destruct (readyState sock) eqn:Hst; auto.
    exact (S_onopen s sock r HS Hf Hst).
  - destruct (find_socket s r) as [sock|] eqn:Hf; auto. destruct (readyState sock); auto.
    cbv zeta. pose proof (S_handleMessage _ _ _ _ _ data _ HI HS) as H1.
    destruct (checkConnected_attached sock); [|exact H1].
    apply S_checkConnected; [|exact H1].
    assert (Hlt : s < next_id r) by (destruct HS as (A & _); exact (A s sock Hf)).
    assert (E : next_id (fst (handleMessage data r)) = next_id r).
    { unfold handleMessage. destruct (JSON_parse data) as [m|]; [|reflexivity].
      assert (E : next_id (handle_error m (handle_action_result m (handle_state m r)))
                  = next_id r).
      { rewrite <- (next_id_handle_state m r).
        generalize (handle_state m r). intros r0.
        unfold handle_error, handle_action_result, delete_pending.
        repeat match goal with
               | |- context [if ?b then _ else _] => destruct b
               | |- context [match get_pending ?a ?b with _ => _ end] =>
                   destruct (get_pending a b)
               | |- context [match member ?a ?b with _ => _ end] =>
                   destruct (member a b) as [[| | | | |]|]
               end; reflexivity. }
      destruct m; cbn [fst]; auto. }
    now rewrite E.
  - destruct (find_socket s r) as [sock|] eqn:Hf; auto.
    assert (Hlt : s < next_id r) by (destruct HS as (A & _); exact (A s sock Hf)).
    destruct (readyState sock); auto using S_onerror.
  - destruct (find_socket s r) as [sock|]; auto.
    assert (H1 : sockets_ok (onclose (update_socket s (with_readyState CLOSED) r))).
    { apply S_onclose; [|exact HS]. exact (InvG_pending_action _ _ _ _ _ _ HI). }
    destruct (readyState sock); auto.
  - destruct (alist_get TimerId_eq_dec t (timers r)) as [tm|] eqn:Hg; auto.
    now apply (S_run_callback _ _ _ _ _ _ _ _ HI Hg).
Qed.

Lemma S_step base unacked H r e :
  (forall s, In s (stamp_drawn e) -> ~ In s (map fst H)) ->
  Inv base unacked H r -> sockets_ok r -> sockets_ok (step r e).
Proof.
  intros Hs HI HS. unfold step, run_microtasks.
  apply S_drain; [|sstrip; now apply (S_task _ _ _ _ _ HI)].
  apply (InvG_queued_action _ _ _ _ _ (Inv_task _ _ _ _ _ Hs HI)).
Qed.

Lemma S_run base trace : forall unacked H r,
  NoDup (map fst H ++ stamps trace) ->
  Inv base unacked H r -> sockets_ok r -> sockets_ok (run r trace).
Proof.
  induction trace as [|e trace IH]; intros unacked H r Hnd HI HS; simpl; auto.
  unfold stamps in Hnd. simpl in Hnd. fold (stamps trace) in Hnd.
  destruct (Inv_step base unacked H r e (fresh_stamp H _ _ Hnd) HI) as [HI' _].
  apply (IH (unacked && negb (is_ack e)) (H ++ issued r e) (step r e)); [|exact HI'|].
  - rewrite map_app, map_fst_issued, <- app_assoc. exact Hnd.
  - exact (S_step _ _ _ _ _ (fresh_stamp H _ _ Hnd) HI HS).
Qed.

Lemma reachable_sockets_ok c clientId trace :
  NoDup (stamps trace) -> sockets_ok (run (constructor c clientId) trace).
Proof.
  intros Hnd. apply (S_run [] trace true [] _ Hnd (Inv_constructor c clientId)).
  unfold sockets_ok, SocketsOk, constructor. simpl.
  repeat split; intros; try tauto; discriminate.
Qed.

(** ** The client id is fixed at construction *)

Lemma sdkClientId_update_socket s f r : sdkClientId (update_socket s f r) = sdkClientId r.
Proof. unfold update_socket. now destruct (find_socket s r). Qed.

Lemma sdkClientId_send m r : sdkClientId (send m r) = sdkClientId r.
Proof.
  unfold send. destruct (ws r); [|reflexivity]. destruct (isConnected r); [|reflexivity].
  apply sdkClientId_update_socket.
Qed.

Lemma sdkClientId_setConnectionState st attempt r :
  sdkClientId (setConnectionState st attempt r) = sdkClientId r.
Proof.
  unfold setConnectionState. cbv zeta.
  apply (fold_left_keeps (fun a => sdkClientId a = sdkClientId r)); [|reflexivity].
  intros a x Ha. rewrite <- Ha. unfold try_catch, call_connection_listener.
  destruct x as [fn th|n]; [reflexivity|]. destruct st; reflexivity.
Qed.

Lemma sdkClientId_connect r : sdkClientId (fst (connect r)) = sdkClientId r.
Proof.
  unfold connect. destruct (isConnected r); [reflexivity|].
  destruct (connectPromise r); [reflexivity|]. cbv zeta. cbn [fst].
  destruct (ConnectionState_eqb _ _); [reflexivity|].
  cbn [sdkClientId set_connectPromise setTimeout set_timers set_ws set_sockets fresh
       set_next_id].
  now rewrite sdkClientId_setConnectionState.
Qed.

Lemma sdkClientId_scheduleReconnect r : sdkClientId (scheduleReconnect r) = sdkClientId r.
Proof.
  unfold scheduleReconnect. destruct (reaches _ _).
  - apply sdkClientId_setConnectionState.
  - cbv zeta. cbn [sdkClientId set_reconnectTimer setTimeout set_timers fresh set_next_id].
    now rewrite sdkClientId_setConnectionState.
Qed.

Lemma sdkClientId_disconnect r : sdkClientId (fst (disconnect r)) = sdkClientId r.
Proof.
  unfold disconnect. cbv zeta. cbn [fst].
  cbn [sdkClientId settle set_awaiters set_microtasks set_settles fresh set_next_id].
  rewrite sdkClientId_setConnectionState.
  cbn [sdkClientId set_reconnectAttempt set_connectPromise].
  match goal with |- sdkClientId match ws ?y with _ => _ end = _ =>
    assert (E : sdkClientId y = sdkClientId r)
      by (destruct (reconnectTimer (set_intentionalDisconnect true r)); reflexivity);
    destruct (ws y); [|exact E];
    cbn [sdkClientId set_ws]; unfold ws_close_method;
    now rewrite sdkClientId_update_socket
  end.
Qed.

Lemma sdkClientId_waitForConnection ms r :
  sdkClientId (fst (waitForConnection ms r)) = sdkClientId r.
Proof. unfold waitForConnection. cbv zeta. now destruct (isConnected (fresh r)). Qed.

Lemma sdkClientId_waitForCondition f ms r :
  sdkClientId (fst (waitForCondition f ms r)) = sdkClientId r.
Proof.
  unfold waitForCondition, subscribe_waitForCondition. cbv zeta.
  destruct (state (fresh r)); [|reflexivity]. now destruct (_ && _).
Qed.

Lemma sdkClientId_handle_state m r : sdkClientId (handle_state m r) = sdkClientId r.
Proof.
  unfold handle_state.
  destruct (_ && _); [|reflexivity].
  destruct (member "state" m); [|reflexivity].
  cbv zeta.
  apply (fold_left_keeps (fun a => sdkClientId a = sdkClientId r)); [|reflexivity].
  intros a l Ha. rewrite <- Ha. unfold try_catch, call_state_listener.
  destruct l as [fn th|n f]; [reflexivity|]. destruct (f j); reflexivity.
Qed.

Lemma sdkClientId_handle_action_result m r :
  sdkClientId (handle_action_result m r) = sdkClientId r.
Proof.
  unfold handle_action_result.
  destruct (_ && _); [|reflexivity].
  destruct (get_pending _ r); [|reflexivity].
  cbv zeta. unfold delete_pending.
  destruct (truthy _); destruct (member "actionId" m) as [[| | |id| |]|]; reflexivity.
Qed.

Lemma sdkClientId_handle_error m r : sdkClientId (handle_error m r) = sdkClientId r.
Proof.
  unfold handle_error.
  destruct (is_string _ _); [|reflexivity]. destruct (truthy _); [|reflexivity].
  destruct (get_pending _ r); [|reflexivity].
  cbv zeta. unfold delete_pending.
  destruct (member "actionId" m) as [[| | |id| |]|]; reflexivity.
Qed.

Lemma sdkClientId_handleMessage data r :
  sdkClientId (fst (handleMessage data r)) = sdkClientId r.
Proof.
  unfold handleMessage. destruct (JSON_parse data) as [m|]; [|reflexivity].
  assert (E : sdkClientId (handle_error m (handle_action_result m (handle_state m r)))
              = sdkClientId r).
  { now rewrite sdkClientId_handle_error, sdkClientId_handle_action_result,
      sdkClientId_handle_state. }
  destruct m; cbn [fst]; auto.
Qed.

Lemma sdkClientId_sendAction_body a s p r :
  sdkClientId (sendAction_body a s p r) = sdkClientId r.
Proof.
  unfold sendAction_body. destruct (negb (isConnected r)); [reflexivity|].
  cbv zeta. now rewrite sdkClientId_send.
Qed.

Lemma sdkClientId_sendAction a s r : sdkClientId (fst (sendAction a s r)) = sdkClientId r.
Proof.
  unfold sendAction. cbv zeta.
  destruct (ConnectionState_eqb _ _).
  - pose proof (sdkClientId_waitForConnection 60000 (fresh r)) as H1.
    destruct (waitForConnection 60000 (fresh r)) as [r1 p]. cbn [fst] in *.
    unfold await. destruct (promise_state p (settles r1)); exact H1.
  - cbn [fst]. now rewrite sdkClientId_sendAction_body.
Qed.

Lemma sdkClientId_resume r ko : sdkClientId (resume r ko) = sdkClientId r.
Proof.
  unfold resume. destruct (fst ko) as [a s p].
  destruct (snd ko); [apply sdkClientId_sendAction_body|reflexivity].
Qed.

Lemma sdkClientId_run_microtasks r : sdkClientId (run_microtasks r) = sdkClientId r.
Proof.
  unfold run_microtasks.
  apply (fold_left_keeps (fun a => sdkClientId a = sdkClientId r)); [|reflexivity].
  intros a ko Ha. now rewrite sdkClientId_resume.
Qed.

Lemma sdkClientId_onclose r : sdkClientId (onclose r) = sdkClientId r.
Proof.
  unfold onclose. cbv zeta.
  set (m := set_pendingActions [] _).
  assert (E : sdkClientId m = sdkClientId r).
  { unfold m. cbn [sdkClientId set_pendingActions].
    apply (fold_left_keeps (fun a => sdkClientId a = sdkClientId r)); [|reflexivity].
    intros a e Ha. rewrite <- Ha. reflexivity. }
  clearbody m. destruct (_ && _).
  - now rewrite sdkClientId_scheduleReconnect.
  - now rewrite sdkClientId_setConnectionState.
Qed.

Lemma sdkClientId_checkConnected s data r :
  sdkClientId (checkConnected s data r) = sdkClientId r.
Proof.
  unfold checkConnected.
  destruct (JSON_parse data) as [m|]; [|reflexivity].
  assert (Hgo : sdkClientId
    (if is_string "sdk_connected" (member "type" m)
     then settle (connect_promise s) (Resolved None)
            (setConnectionState connected None
               (set_reconnectAttempt 0
                  match ws r with
                  | Some current =>
                      if Nat.eqb current s then update_socket s without_checkConnected r
                      else r
                  | None => r
                  end))
     else r) = sdkClientId r).
  { destruct (is_string _ _); [|reflexivity].
    cbn [sdkClientId settle set_awaiters set_microtasks set_settles].
    rewrite sdkClientId_setConnectionState. cbn [sdkClientId set_reconnectAttempt].
    destruct (ws r); [|reflexivity]. destruct (Nat.eqb _ _); [|reflexivity].
    apply sdkClientId_update_socket. }
  destruct m; auto.
Qed.

Lemma sdkClientId_run_callback cb t r :
  sdkClientId (run_callback cb (clearTimeout t r)) = sdkClientId r.
Proof.
  destruct cb as [n| |id p ty|n|n]; unfold run_callback; cbv zeta; try reflexivity.
  - match goal with |- sdkClientId match ws ?y with _ => _ end = _ => destruct (ws y) end;
      [|reflexivity].
    unfold ws_close_method. now rewrite sdkClientId_update_socket.
  - now rewrite sdkClientId_connect.
Qed.

Lemma sdkClientId_task e r : sdkClientId (task e r) = sdkClientId r.
Proof.
  destruct e; unfold task; try reflexivity.
  - apply sdkClientId_connect.
  - apply sdkClientId_disconnect.
  - apply sdkClientId_sendAction.
  - apply sdkClientId_waitForConnection.
  - apply sdkClientId_waitForCondition.
  - destruct (find_socket s r) as [sock|]; [|reflexivity].
    destruct (readyState sock); try reflexivity.
    unfold onopen. cbv zeta. rewrite sdkClientId_send.
    cbn [sdkClientId clearTimeout set_timers]. apply sdkClientId_update_socket.
  - destruct (find_socket s r) as [sock|]; [|reflexivity].
    destruct (readyState sock); try reflexivity. cbv zeta.
    destruct (checkConnected_attached sock).
    + now rewrite sdkClientId_checkConnected, sdkClientId_handleMessage.
    + apply sdkClientId_handleMessage.
  - destruct (find_socket s r) as [sock|]; [|reflexivity].
    destruct (readyState sock); reflexivity.
  - destruct (find_socket s r) as [sock|]; [|reflexivity].
    destruct (readyState sock); try reflexivity; rewrite sdkClientId_onclose;
      apply sdkClientId_update_socket.
  - destruct (alist_get TimerId_eq_dec t (timers r)) as [tm|]; [|reflexivity].
    apply sdkClientId_run_callback.
Qed.

Lemma sdkClientId_run trace : forall r, sdkClientId (run r trace) = sdkClientId r.
Proof.
  induction trace as [|e trace IH]; intros r; simpl; [reflexivity|].
  rewrite IH. unfold step. now rewrite sdkClientId_run_microtasks, sdkClientId_task.
Qed.

(** X8.  On every socket the SDK ever made, nothing is written while the
    socket is connecting, and what is written begins with the identify
    message of this SDK (its bot username and client id) and goes on with
    messages of this SDK only; the current socket, once open, has had the
    identify message; so an action message is never the first message on a
    socket, and it carries the configured bot username. *)
Theorem identify_comes_first c clientId trace :
  NoDup (stamps trace) ->
  let r := run (constructor c clientId) trace in
  forall s sock, find_socket s r = Some sock ->
    (readyState sock = CONNECTING -> sent sock = [])
    /\ identified (in_botUsername c) clientId (sent sock)
    /\ (ws r = Some s -> readyState sock = OPEN ->
        exists rest, sent sock = sdk_connect (in_botUsername c) clientId :: rest)
    /\ (forall user actionId action, In (sdk_action user actionId action) (sent sock) ->
        user = in_botUsername c
        /\ exists rest, sent sock = sdk_connect (in_botUsername c) clientId :: rest
                        /\ In (sdk_action user actionId action) rest).
Proof.
  intros Hnd r s sock Hf.
  pose proof (reachable_sockets_ok c clientId trace Hnd) as HS. fold r in HS.
  assert (Eu : botUsername (config r) = in_botUsername c)
    by (unfold r; now rewrite config_run).
  assert (Ec : sdkClientId r = clientId) by (unfold r; now rewrite sdkClientId_run).
  destruct HS as (_ & B & C & D & _). rewrite Eu, Ec in C.
  pose proof (C s sock Hf) as Hid.
  split; [exact (B s sock Hf)|]. split; [exact Hid|]. split.
  - intros Hw Ho. destruct (D s Hw) as (sock' & Hf' & _ & Hne).
    unfold find_socket in Hf. rewrite Hf in Hf'. inversion Hf'; subst sock'.
    destruct Hid as [E|(rest & E & _)]; [now elim (Hne Ho)|eauto].
  - intros user actionId action Hin.
    destruct Hid as [E|(rest & E & Hall)]; [rewrite E in Hin; destruct Hin|].
    rewrite E in Hin. destruct Hin as [Eq|Hin]; [discriminate|].
    split; [|eauto].
    rewrite Forall_forall in Hall.
    destruct (Hall _ Hin) as [Eq|(id & a & Eq)]; [discriminate|]. now inversion Eq.
Qed.

Lemma identify_comes_first_witness :
  NoDup (stamps waiting_trace)
  /\ exists sock,
       find_socket 1 (run (constructor demo_config "sdk-1") waiting_trace) = Some sock
       /\ identified "bot" "sdk-1" (sent sock).
Proof.
  assert (Hnd : NoDup (stamps waiting_trace)).
  { simpl. repeat constructor; simpl; intuition discriminate. }
  split; [exact Hnd|].
  destruct (find_socket 1 (run (constructor demo_config "sdk-1") waiting_trace))
    as [sock|] eqn:Hf; [|vm_compute in Hf; discriminate].
  exists sock. split; [reflexivity|].
  exact (proj1 (proj2 (identify_comes_first demo_config "sdk-1" waiting_trace Hnd 1 sock Hf))).
Defined.

Lemma sockets_setConnectionState st attempt r :
  sockets (setConnectionState st attempt r) = sockets r.
Proof.
  now destruct (plain_fields _ _ (plain_setConnectionState st attempt r))
    as (_ & _ & _ & _ & _ & _ & _ & E & _).
Qed.

Lemma connect_new_socket r :
  sockets_ok r -> ws r = None ->
  let n := next_id r in
  let r' := fst (connect r) in
  snd (connect r) = connect_promise n
  /\ find_socket n r = None
  /\ find_socket n r'
     = Some {| readyState := CONNECTING; sent := []; checkConnected_attached := true |}
  /\ (forall s, s <> n -> find_socket s r' = find_socket s r)
  /\ ws r' = Some n
  /\ connectPromise r' = Some (connect_promise n)
  /\ promise_state (connect_promise n) (settles r') = None
  /\ alist_get TimerId_eq_dec (handshake_timer_id n) (timers r')
     = Some {| delay := 10000; callback := connect_timeout n |}
  /\ next_id r' = S n.
Proof.
  intros HS Hw n r'.
  assert (Hcp : connectPromise r = None).
  { destruct HS as (_ & _ & _ & _ & E & _). rewrite E, Hw. reflexivity. }
  assert (Hc : isConnected r = false) by (unfold isConnected; now rewrite Hw).
  assert (Hn : find_socket n r = None).
  { destruct (find_socket n r) as [sock|] eqn:Hf; [|reflexivity].
    destruct HS as (A & _). pose proof (A n sock Hf). unfold n in *. lia. }
  set (m := if ConnectionState_eqb (connectionState (set_intentionalDisconnect false r))
                 reconnecting
            then set_intentionalDisconnect false r
            else setConnectionState connecting None (set_intentionalDisconnect false r)).
  assert (Hm : sockets_ok m).
  { unfold m. destruct (ConnectionState_eqb _ _); [exact HS|].
    exact (S_setConnectionState _ _ (set_intentionalDisconnect false r) HS). }
  assert (Enid : next_id m = n).
  { unfold m. destruct (ConnectionState_eqb _ _); [reflexivity|].
    now rewrite next_id_setConnectionState. }
  assert (Esock : sockets m = sockets r).
  { unfold m. destruct (ConnectionState_eqb _ _); [reflexivity|].
    now rewrite sockets_setConnectionState. }
  assert (Econ : connect r
                 = (set_connectPromise (Some (connect_promise (next_id m)))
                      (setTimeout (handshake_timer_id (next_id m))
                         (connect_timeout (next_id m)) 10000
                         (set_ws (Some (next_id m))
                            (set_sockets
                               (alist_set Nat.eq_dec (next_id m)
                                  {| readyState := CONNECTING; sent := [];
                                     checkConnected_attached := true |}
                                  (sockets (fresh m))) (fresh m)))),
                    connect_promise (next_id m))).
  { unfold connect. rewrite Hc, Hcp. reflexivity. }
  clearbody m. unfold r'. rewrite Econ. cbn [fst snd]. rewrite Enid.
  split; [reflexivity|]. split; [exact Hn|].
  unfold find_socket. simpl. rewrite Esock.
  split; [apply alist_get_set_eq|].
  split; [intros s Hs; now apply alist_get_set_neq|].
  split; [reflexivity|]. split; [reflexivity|].
  split; [|split; [apply alist_get_set_eq|simpl; now rewrite Enid]].
  apply promise_state_unsettled, settle_calls_zero.
  intros o Hin. destruct Hm as (_ & _ & _ & _ & _ & F & _).
  apply F in Hin. lia.
Qed.




(** ** The handshake timer *)

Lemma handshake_timer_fires base unacked H r n tm :
  Inv base unacked H r -> microtasks r = [] ->
  alist_get TimerId_eq_dec (handshake_timer_id n) (timers r) = Some tm ->
  let r' := step r (timer_fires (handshake_timer_id n)) in
  settles r' = (connect_promise n, Rejected Connection_timeout) :: settles r
  /\ timers r' = alist_delete TimerId_eq_dec (handshake_timer_id n) (timers r)
  /\ ws r' = ws r /\ connectPromise r' = connectPromise r
  /\ connection r' = connection r
  /\ pendingActions r' = pendingActions r
  /\ sockets r' = sockets match ws r with
                          | Some s => ws_close_method s r
                          | None => r
                          end.
Proof.
  intros HI Hq Hg r'. unfold r', step, task. rewrite Hg.
  rewrite (handshake_callback _ _ _ _ _ _ HI Hg). cbn [callback run_callback].
  destruct (no_awaiter (connect_promise n) HI) as [Hw _]; [discriminate|].
  set (r1 := settle (connect_promise n) (Rejected Connection_timeout)
               (clearTimeout (handshake_timer_id n) r)).
  assert (Hq1 : microtasks r1 = []).
  { unfold r1, settle, clearTimeout. simpl. rewrite Hw, Hq. reflexivity. }
  assert (E1 : settles r1 = (connect_promise n, Rejected Connection_timeout) :: settles r)
    by reflexivity.
  assert (E2 : timers r1 = alist_delete TimerId_eq_dec (handshake_timer_id n) (timers r))
    by reflexivity.
  assert (E3 : ws r1 = ws r) by reflexivity.
  assert (E4 : connectPromise r1 = connectPromise r) by reflexivity.
  assert (E5 : connection r1 = connection r) by reflexivity.
  assert (E6 : pendingActions r1 = pendingActions r) by reflexivity.
  assert (E7 : sockets r1 = sockets r) by reflexivity.
  clearbody r1. rewrite E3.
  destruct (ws r) as [s|].
  - rewrite run_microtasks_idle
      by (unfold ws_close_method; now rewrite microtasks_update_socket).
    unfold ws_close_method, update_socket, find_socket, connection in *.
    rewrite E7. destruct (alist_get Nat.eq_dec s (sockets r)); simpl;
      rewrite ?E7; repeat split; auto; congruence.
  - rewrite run_microtasks_idle by exact Hq1. repeat split; auto.
Qed.

(** X10.  The handshake timer of a connect() call, when it fires, rejects
    the promise of that call with the connection-timeout error and calls
    close() on whatever socket is current at that moment, not on the socket
    it was set for: the current socket, if connecting or open, turns
    closing, so that isConnected() is false, while every other socket,
    the connection state, the attempt counter and the pending actions stay
    as they are until the close event. *)
Theorem handshake_timeout_closes_current c clientId trace :
  NoDup (stamps trace) ->
  let r := run (constructor c clientId) trace in
  forall n tm,
    alist_get TimerId_eq_dec (handshake_timer_id n) (timers r) = Some tm ->
    let r' := step r (timer_fires (handshake_timer_id n)) in
    settles r' = (connect_promise n, Rejected Connection_timeout) :: settles r
    /\ alist_get TimerId_eq_dec (handshake_timer_id n) (timers r') = None
    /\ ws r' = ws r /\ connectPromise r' = connectPromise r
    /\ connection r' = connection r
    /\ pendingActions r' = pendingActions r
    /\ (forall s, ws r <> Some s -> find_socket s r' = find_socket s r)
    /\ (forall s sock, ws r = Some s -> find_socket s r = Some sock ->
          find_socket s r'
          = Some match readyState sock with
                 | CONNECTING | OPEN => with_readyState CLOSING sock
                 | CLOSING | CLOSED => sock
                 end)
    /\ isConnected r' = false.
Proof.
  intros Hnd r n tm Hg r'.
  destruct (reachable_Inv c clientId trace Hnd) as [HI Hq]. fold r in HI, Hq.
  pose proof (reachable_sockets_ok c clientId trace Hnd) as HS. fold r in HS.
  destruct (handshake_timer_fires _ _ _ r n tm HI Hq Hg)
    as (E1 & E2 & E3 & E4 & E5 & E6 & E7).
  fold r' in E1, E2, E3, E4, E5, E6, E7. clearbody r r'.
  assert (Hcur : forall s sock, ws r = Some s -> find_socket s r = Some sock ->
            find_socket s r'
            = Some match readyState sock with
                   | CONNECTING | OPEN => with_readyState CLOSING sock
                   | CLOSING | CLOSED => sock
                   end).
  { intros s sock Hw Hf. unfold find_socket in *. rewrite E7, Hw.
    unfold ws_close_method, update_socket, find_socket. rewrite Hf. simpl.
    apply alist_get_set_eq. }
  split; [exact E1|]. split; [rewrite E2; apply alist_get_delete_eq|].
  split; [exact E3|]. split; [exact E4|]. split; [exact E5|]. split; [exact E6|].
  split; [|split; [exact Hcur|]].
  - intros s Hne. unfold find_socket. rewrite E7.
    destruct (ws r) as [cur|]; [|reflexivity].
    unfold ws_close_method, update_socket, find_socket.
    destruct (alist_get Nat.eq_dec cur (sockets r)); [|reflexivity]. simpl.
    apply alist_get_set_neq. congruence.
  - destruct (ws r) as [s|] eqn:Hws;
      [|unfold isConnected; now rewrite E3].
    destruct HS as (_ & _ & _ & D & _).
    destruct (D s Hws) as (sock & Hf & Hn & _).
    unfold isConnected. rewrite E3. rewrite (Hcur s sock eq_refl Hf).
    destruct (readyState sock) eqn:Hst; simpl; rewrite ?Hst; reflexivity || now elim Hn.
Qed.

Lemma handshake_timeout_closes_current_witness :
  NoDup (stamps stale_timer_trace)
  /\ isConnected (run (constructor demo_config "sdk-1") stale_timer_trace) = true
  /\ isConnected (step (run (constructor demo_config "sdk-1") stale_timer_trace)
                    (timer_fires (handshake_timer_id 1))) = false.
Proof.
  assert (Hnd : NoDup (stamps stale_timer_trace)) by constructor.
  split; [exact Hnd|]. split; [vm_compute; reflexivity|].
  destruct (alist_get TimerId_eq_dec (handshake_timer_id 1)
              (timers (run (constructor demo_config "sdk-1") stale_timer_trace)))
    as [tm|] eqn:Hg; [|vm_compute in Hg; discriminate].
  apply (handshake_timeout_closes_current demo_config "sdk-1" stale_timer_trace Hnd 1 tm Hg).
Defined.


(** ** The configuration *)

(** X11.  The configuration and the client id are fixed at construction and
    no event changes them.  The action timeout is never zero: a timeout
    that is missing or zero gives 30000, any other value is kept; the
    reconnect settings are kept as given, zero included, and a missing one
    gets its default. *)
Theorem configuration_is_fixed c clientId trace :
  let r := run (constructor c clientId) trace in
  config r = config (constructor c clientId)
  /\ sdkClientId r = clientId
  /\ botUsername (config r) = in_botUsername c
  /\ actionTimeout (config r) <> 0%Z
  /\ actionTimeout (config r)
     = match in_actionTimeout c with
       | Some ms => if (ms =? 0)%Z then 30000%Z else ms
       | None => 30000%Z
       end
  /\ autoReconnect (config r)
     = match in_autoReconnect c with Some b => b | None => true end
  /\ reconnectMaxRetries (config r)
     = match in_reconnectMaxRetries c with Some m => m | None => Infinity end
  /\ reconnectBaseDelay (config r)
     = match in_reconnectBaseDelay c with Some d => d | None => 1000%Z end
  /\ reconnectMaxDelay (config r)
     = match in_reconnectMaxDelay c with Some d => d | None => 30000%Z end.
Proof.
  intros r. unfold r. rewrite config_run, sdkClientId_run. simpl.
  repeat split; try reflexivity.
  unfold or_default. destruct (in_actionTimeout c) as [ms|]; [|discriminate].
  destruct (ms =? 0)%Z eqn:E; [discriminate|]. now apply Z.eqb_neq.
Qed.

(** ** A retry is on its way while the state is reconnecting *)

Lemma Q_refl r : same_retry r r.
Proof. split; auto. Qed.

Lemma Q_trans a b c : same_retry a b -> same_retry b c -> same_retry a c.
Proof.
  intros (E1 & F1) (E2 & F2). split; [congruence|]. intros n. now rewrite F2, F1.
Qed.

Lemma Q_pending r r' : same_retry r r' -> retry_pending r -> retry_pending r'.
Proof.
  intros (E & F) [Hw|(n & tm & Hg)]; [left; congruence|].
  right. exists n, tm. now rewrite F.
Qed.

Lemma Q_clearTimeout a t r :
  other_timer t -> same_retry a r -> same_retry a (clearTimeout t r).
Proof.
  intros Ht (E & F). split; [exact E|]. intros n. rewrite <- F.
  unfold clearTimeout. simpl. apply alist_get_delete_neq. apply not_eq_sym, Ht.
Qed.

Lemma Q_setTimeout a t cb ms r :
  other_timer t -> same_retry a r -> same_retry a (setTimeout t cb ms r).
Proof.
  intros Ht (E & F). split; [exact E|]. intros n. rewrite <- F.
  unfold setTimeout. simpl. apply alist_get_set_neq. apply not_eq_sym, Ht.
Qed.

Lemma Q_update_socket a s f r : same_retry a r -> same_retry a (update_socket s f r).
Proof.
  intros HQ. unfold update_socket. destruct (find_socket s r); [|exact HQ]. now qstrip.
Qed.

Lemma Q_send a m r : same_retry a r -> same_retry a (send m r).
Proof.
  intros HQ. unfold send. destruct (ws r); [|exact HQ].
  destruct (isConnected r); [|exact HQ]. now apply Q_update_socket.
Qed.

Lemma Q_call_connection_listener a st attempt l r :
  same_retry a r -> same_retry a (try_catch (call_connection_listener st attempt l) r).
Proof.
  intros HQ. unfold try_catch, call_connection_listener.
  destruct l as [fn th|n]; cbn [fst]; [exact HQ|].
  destruct st; cbn [fst]; try exact HQ; qstrip; unfold unsubscribe_connection; qstrip;
    (apply Q_clearTimeout; [discriminate|exact HQ]).
Qed.

Lemma Q_setConnectionState a st attempt r :
  same_retry a r -> same_retry a (setConnectionState st attempt r).
Proof.
  intros HQ. unfold setConnectionState. cbv zeta.
  apply fold_left_keeps; [|now qstrip].
  intros b x. apply Q_call_connection_listener.
Qed.

Lemma Q_waitForConnection a ms r :
  same_retry a r -> same_retry a (fst (waitForConnection ms r)).
Proof.
  intros HQ. unfold waitForConnection. cbv zeta.
  destruct (isConnected (fresh r)); cbn [fst]; qstrip; [exact HQ|].
  unfold onConnectionStateChange. qstrip.
  apply Q_setTimeout; [discriminate|]. now qstrip.
Qed.

Lemma Q_waitForCondition a f ms r :
  same_retry a r -> same_retry a (fst (waitForCondition f ms r)).
Proof.
  intros HQ. unfold waitForCondition. cbv zeta.
  assert (Hs : same_retry a (fst (subscribe_waitForCondition f ms (next_id r) (fresh r)))).
  { unfold subscribe_waitForCondition. cbv zeta. cbn [fst]. unfold onStateUpdate. qstrip.
    apply Q_setTimeout; [discriminate|]. now qstrip. }
  destruct (state (fresh r)); [|exact Hs].
  destruct (_ && _); [|exact Hs].
  cbn [fst]. now qstrip.
Qed.

Lemma Q_call_state_listener a snapshot l r :
  same_retry a r -> same_retry a (try_catch (call_state_listener snapshot l) r).
Proof.
  intros HQ. unfold try_catch, call_state_listener.
  destruct l as [fn th|n f]; cbn [fst]; [now qstrip|].
  destruct (f snapshot); cbn [fst]; [|exact HQ].
  qstrip. unfold unsubscribe_state. qstrip.
  apply Q_clearTimeout; [discriminate|exact HQ].
Qed.

Lemma Q_handle_state a m r : same_retry a r -> same_retry a (handle_state m r).
Proof.
  intros HQ. unfold handle_state.
  destruct (_ && _); [|exact HQ].
  destruct (member "state" m); [|exact HQ].
  cbv zeta. apply fold_left_keeps; [|now qstrip].
  intros b x. apply Q_call_state_listener.
Qed.

Lemma Q_sendAction_body a act s p r :
  same_retry a r -> same_retry a (sendAction_body act s p r).
Proof.
  intros HQ. unfold sendAction_body.
  destruct (negb (isConnected r)); [now qstrip|].
  cbv zeta. apply Q_send. qstrip.
  apply Q_setTimeout; [discriminate|]. now qstrip.
Qed.

Lemma Q_sendAction a act s r : same_retry a r -> same_retry a (fst (sendAction act s r)).
Proof.
  intros HQ. unfold sendAction. cbv zeta.
  destruct (ConnectionState_eqb _ _).
  - assert (H0 : same_retry a (fresh r)) by now qstrip.
    pose proof (Q_waitForConnection a 60000 (fresh r) H0) as H1.
    destruct (waitForConnection 60000 (fresh r)) as [r1 p]. cbn [fst] in *.
    unfold await. destruct (promise_state p (settles r1)); now qstrip.
  - cbn [fst]. apply Q_sendAction_body. now qstrip.
Qed.

Lemma Q_resume a r ko : same_retry a r -> same_retry a (resume r ko).
Proof.
  intros HQ. unfold resume. destruct (fst ko) as [act s p].
  destruct (snd ko); [now apply Q_sendAction_body|now qstrip].
Qed.

Lemma Q_run_microtasks a r : same_retry a r -> same_retry a (run_microtasks r).
Proof.
  intros HQ. unfold run_microtasks.
  apply fold_left_keeps; [|now qstrip].
  intros b ko. apply Q_resume.
Qed.

Lemma InvG_pending_timer base unacked x rest H r :
  InvG base unacked x rest H r ->
  forall id pa, In (id, pa) (pendingActions r) -> other_timer (timeout pa).
Proof.
  intros HI id pa Hin n.
  destruct (inv_entry_timer HI _ _ Hin) as (k & ty & E & _). rewrite E. discriminate.
Qed.

Lemma Q_handle_action_result a m r :
  (forall id pa, In (id, pa) (pendingActions r) -> other_timer (timeout pa)) ->
  same_retry a r -> same_retry a (handle_action_result m r).
Proof.
  intros Hp HQ. unfold handle_action_result.
  destruct (_ && _); [|exact HQ].
  destruct (get_pending (member "actionId" m) r) as [pending|] eqn:Hg; [|exact HQ].
  assert (Hn : other_timer (timeout pending)).
  { unfold get_pending in Hg. destruct (member "actionId" m) as [[| | |id| |]|]; try discriminate.
    apply alist_get_In in Hg. exact (Hp _ _ Hg). }
  assert (Hd : same_retry a (delete_pending (member "actionId" m)
                               (clearTimeout (timeout pending) r))).
  { unfold delete_pending. destruct (member "actionId" m) as [[| | |id| |]|]; qstrip;
      now apply Q_clearTimeout. }
  cbv zeta. destruct (truthy _); now qstrip.
Qed.

Lemma Q_handle_error a m r :
  (forall id pa, In (id, pa) (pendingActions r) -> other_timer (timeout pa)) ->
  same_retry a r -> same_retry a (handle_error m r).
Proof.
  intros Hp HQ. unfold handle_error.
  destruct (is_string _ _); [|exact HQ]. destruct (truthy _); [|exact HQ].
  destruct (get_pending (member "actionId" m) r) as [pending|] eqn:Hg; [|exact HQ].
  assert (Hn : other_timer (timeout pending)).
  { unfold get_pending in Hg. destruct (member "actionId" m) as [[| | |id| |]|]; try discriminate.
    apply alist_get_In in Hg. exact (Hp _ _ Hg). }
  assert (Hd : same_retry a (delete_pending (member "actionId" m)
                               (clearTimeout (timeout pending) r))).
  { unfold delete_pending. destruct (member "actionId" m) as [[| | |id| |]|]; qstrip;
      now apply Q_clearTimeout. }
  cbv zeta. now qstrip.
Qed.

Lemma Q_handleMessage base unacked x rest H a data r :
  InvG base unacked x rest H r ->
  same_retry a r -> same_retry a (fst (handleMessage data r)).
Proof.
  intros HI HQ. unfold handleMessage.
  destruct (JSON_parse data) as [m|]; [|exact HQ].
  assert (Hgo : same_retry a (handle_error m (handle_action_result m (handle_state m r)))).
  { pose proof (InvG_handle_state _ _ _ _ _ m _ HI) as H1.
    pose proof (InvG_handle_action_result _ _ _ _ _ m _ H1) as H2.
    apply Q_handle_error; [exact (InvG_pending_timer _ _ _ _ _ _ H2)|].
    apply Q_handle_action_result; [exact (InvG_pending_timer _ _ _ _ _ _ H1)|].
    now apply Q_handle_state. }
  destruct m; cbn [fst]; auto.
Qed.

Lemma Q_checkConnected a s data r :
  same_retry a r -> same_retry a (checkConnected s data r).
Proof.
  intros HQ. unfold checkConnected.
  destruct (JSON_parse data) as [m|]; [|exact HQ].
  assert (Hgo : same_retry a
    (if is_string "sdk_connected" (member "type" m)
     then settle (connect_promise s) (Resolved None)
            (setConnectionState connected None
               (set_reconnectAttempt 0
                  match ws r with
                  | Some current =>
                      if Nat.eqb current s then update_socket s without_checkConnected r
                      else r
                  | None => r
                  end))
     else r)).
  { destruct (is_string _ _); [|exact HQ].
    qstrip. apply Q_setConnectionState. qstrip.
    destruct (ws r); [|exact HQ]. destruct (Nat.eqb _ _); [|exact HQ].
    now apply Q_update_socket. }
  destruct m; auto.
Qed.

Lemma connect_has_socket r : sockets_ok r -> ws (fst (connect r)) <> None.
Proof.
  intros HS. unfold connect.
  destruct (isConnected r) eqn:Hc.
  { cbn [fst]. unfold isConnected in Hc. simpl. destruct (ws r); discriminate. }
  destruct (connectPromise r) eqn:Hcp.
  { cbn [fst]. destruct HS as (_ & _ & _ & _ & E & _). rewrite E in Hcp.
    destruct (ws r); discriminate. }
  cbv zeta. cbn [fst]. simpl. discriminate.
Qed.

Lemma R_onclose r : retry_ok (onclose r).
Proof.
  unfold onclose. cbv zeta.
  generalize (set_pendingActions []
                (fold_left reject_pending
                   (pendingActions (set_ws None (set_connectPromise None r)))
                   (set_ws None (set_connectPromise None r)))).
  intros m. destruct (_ && _).
  - unfold scheduleReconnect. destruct (reaches _ _).
    + intros Hst.
      pose proof (connection_setConnectionState disconnected None m) as E.
      unfold connection in E. inversion E. congruence.
    + cbv zeta. intros _. right. eexists. eexists. simpl. apply alist_get_set_eq.
  - intros Hst.
    pose proof (connection_setConnectionState disconnected None m) as E.
    unfold connection in E. inversion E. congruence.
Qed.

Lemma reconnect_callback base unacked x rest H r n tm :
  InvG base unacked x rest H r ->
  alist_get TimerId_eq_dec (reconnect_timer_id n) (timers r) = Some tm ->
  callback tm = reconnect_timer.
Proof.
  intros HI Hg. pose proof (inv_timer_kind HI _ _ Hg) as Hk.
  destruct (callback tm); simpl in Hk; try discriminate; try reflexivity.
  destruct Hk; discriminate.
Qed.

Lemma Q_run_callback base unacked x rest H r t tm :
  InvG base unacked x rest H r ->
  alist_get TimerId_eq_dec t (timers r) = Some tm ->
  callback tm <> reconnect_timer ->
  same_retry r (run_callback (callback tm) (clearTimeout t r)).
Proof.
  intros HI Hg Hcb.
  pose proof (inv_timer_kind HI _ _ Hg) as Hk.
  assert (Ht : other_timer t).
  { intros n ->. now rewrite (reconnect_callback _ _ _ _ _ _ _ _ HI Hg) in Hcb. }
  pose proof (Q_clearTimeout r t r Ht (Q_refl r)) as H1.
  destruct (callback tm) as [n| |id p ty|n|n]; unfold run_callback; cbv zeta.
  - match goal with |- same_retry _ match ws ?y with _ => _ end =>
      destruct (ws y); [unfold ws_close_method; apply Q_update_socket|]; now qstrip end.
  - now elim Hcb.
  - now qstrip.
  - qstrip. unfold unsubscribe_connection. now qstrip.
  - qstrip. unfold unsubscribe_state. now qstrip.
Qed.

Lemma state_back r e :
  (forall s, e <> ws_close s) ->
  connectionState (task e r) = reconnecting -> connectionState r = reconnecting.
Proof.
  intros Hne Hst. pose proof (connection_task r e) as Hin.
  assert (Hfst : fst (connection (task e r)) = reconnecting) by exact Hst.
  revert Hin Hfst. generalize (connection (task e r)). intros x Hin Hfst.
  assert (Hcase : x = connection r \/ x = (connected, 0%Z) \/ x = (disconnected, 0%Z)
                  \/ x = (if ConnectionState_eqb (connectionState r) reconnecting
                          then reconnecting else connecting, reconnectAttempt r)).
  { destruct e; unfold transitions in Hin; cbn [In] in Hin;
      try (now elim (Hne s)); intuition (subst; auto). }
  destruct Hcase as [-> | [-> | [-> | ->]]]; simpl in Hfst; try discriminate; auto.
  destruct (ConnectionState_eqb (connectionState r) reconnecting) eqn:E; [|discriminate].
  now destruct (connectionState r).
Qed.

Lemma callback_cases cb : cb = reconnect_timer \/ cb <> reconnect_timer.
Proof. destruct cb; (left; reflexivity) || (right; discriminate). Qed.

Lemma R_task base unacked H r e :
  Inv base unacked H r -> sockets_ok r -> retry_ok r -> retry_ok (task e r).
Proof.
  intros HI HS HR. unfold Inv in HI.
  assert (Hquiet : (forall s, e <> ws_close s) -> same_retry r (task e r) ->
                   retry_ok (task e r)).
  { intros Hne HQ Hst. apply (Q_pending r); [exact HQ|]. apply HR.
    exact (state_back r e Hne Hst). }
  destruct e.
  - intros _. left. apply connect_has_socket, HS.
  - intros Hst. pose proof (connection_task r call_disconnect) as Hin.
    unfold transitions in Hin. cbn [In] in Hin. destruct Hin as [E|[]].
    unfold connection in E. inversion E. congruence.
  - apply Hquiet; [discriminate|]. apply Q_sendAction, Q_refl.
  - apply Hquiet; [discriminate|]. apply Q_waitForConnection, Q_refl.
  - apply Hquiet; [discriminate|]. apply Q_waitForCondition, Q_refl.
  - apply Hquiet; [discriminate|]. unfold task, onStateUpdate. qstrip. apply Q_refl.
  - apply Hquiet; [discriminate|]. unfold task, unsubscribe_state. qstrip. apply Q_refl.
  - apply Hquiet; [discriminate|]. unfold task, onConnectionStateChange. qstrip.
    apply Q_refl.
  - apply Hquiet; [discriminate|]. unfold task, unsubscribe_connection. qstrip.
    apply Q_refl.
  - apply Hquiet; [discriminate|]. unfold task.
    destruct (find_socket s r) as [sock|]; [|apply Q_refl].
    destruct (readyState sock); try apply Q_refl.
    unfold onopen. cbv zeta. apply Q_send. apply Q_clearTimeout; [discriminate|].
    apply Q_update_socket, Q_refl.
  - apply Hquiet; [discriminate|]. unfold task.
    destruct (find_socket s r) as [sock|]; [|apply Q_refl].
    destruct (readyState sock); try apply Q_refl. cbv zeta.
    pose proof (Q_handleMessage _ _ _ _ _ r data r HI (Q_refl r)) as H1.
    destruct (checkConnected_attached sock); [now apply Q_checkConnected|exact H1].
  - apply Hquiet; [discriminate|]. unfold task.
    destruct (find_socket s r) as [sock|]; [|apply Q_refl].
    destruct (readyState sock); try apply Q_refl;
      unfold onerror; cbv zeta; qstrip; (apply Q_clearTimeout; [discriminate|apply Q_refl]).
  - unfold task. destruct (find_socket s r) as [sock|]; [|exact HR].
    destruct (readyState sock); try exact HR; apply R_onclose.
  - unfold task.
    destruct (alist_get TimerId_eq_dec t (timers r)) as [tm|] eqn:Hg; [|exact HR].
    destruct (callback_cases (callback tm)) as [E|Hne].
    + rewrite E. unfold run_callback. intros _. left.
      apply connect_has_socket. sstrip. now apply S_clearTimeout.
    + intros Hst. apply (Q_pending r).
      * exact (Q_run_callback _ _ _ _ _ _ _ _ HI Hg Hne).
      * apply HR.
        assert (Ht : task (timer_fires t) r = run_callback (callback tm) (clearTimeout t r))
          by (unfold task; now rewrite Hg).
        rewrite <- Ht in Hst. apply (state_back r (timer_fires t)); [discriminate|exact Hst].
Qed.

Lemma R_step base unacked H r e :
  Inv base unacked H r -> sockets_ok r -> retry_ok r -> retry_ok (step r e).
Proof.
  intros HI HS HR Hst. unfold step in *.
  apply (Q_pending (task e r)); [apply Q_run_microtasks, Q_refl|].
  apply (R_task _ _ _ _ _ HI HS HR).
  pose proof (connection_step r e) as E. unfold step, connection in E.
  inversion E. congruence.
Qed.

Lemma R_run base trace : forall unacked H r,
  NoDup (map fst H ++ stamps trace) ->
  Inv base unacked H r -> sockets_ok r -> retry_ok r -> retry_ok (run r trace).
Proof.
  induction trace as [|e trace IH]; intros unacked H r Hnd HI HS HR; simpl; auto.
  unfold stamps in Hnd. simpl in Hnd. fold (stamps trace) in Hnd.
  destruct (Inv_step base unacked H r e (fresh_stamp H _ _ Hnd) HI) as [HI' _].
  apply (IH (unacked && negb (is_ack e)) (H ++ issued r e) (step r e)); [|exact HI'| |].
  - rewrite map_app, map_fst_issued, <- app_assoc. exact Hnd.
  - exact (S_step _ _ _ _ _ (fresh_stamp H _ _ Hnd) HI HS).
  - exact (R_step _ _ _ _ _ HI HS HR).
Qed.

Lemma reachable_retry_ok c clientId trace :
  NoDup (stamps trace) -> retry_ok (run (constructor c clientId) trace).
Proof.
  intros Hnd. apply (R_run [] trace true [] _ Hnd (Inv_constructor c clientId)).
  - unfold sockets_ok, SocketsOk, constructor. simpl.
    repeat split; intros; try tauto; discriminate.
  - intros Hst. discriminate.
Qed.

Lemma connect_reconnect_timers r n :
  alist_get TimerId_eq_dec (reconnect_timer_id n) (timers (fst (connect r)))
  = alist_get TimerId_eq_dec (reconnect_timer_id n) (timers r).
Proof.
  unfold connect. destruct (isConnected r); [reflexivity|].
  destruct (connectPromise r); [reflexivity|]. cbv zeta. cbn [fst].
  cbn [timers set_connectPromise]. unfold setTimeout. cbn [timers set_timers].
  rewrite alist_get_set_neq by discriminate.
  cbn [timers set_ws set_sockets fresh set_next_id].
  destruct (ConnectionState_eqb _ _); [reflexivity|].
  exact (proj2 (Q_setConnectionState (set_intentionalDisconnect false r) connecting None
                  (set_intentionalDisconnect false r) (Q_refl _)) n).
Qed.

Lemma connect_with_socket r :
  sockets_ok r -> ws r <> None ->
  ws (fst (connect r)) = ws r /\ connection (fst (connect r)) = connection r
  /\ sockets (fst (connect r)) = sockets r.
Proof.
  intros HS Hw. unfold connect. destruct (isConnected r); [repeat split|].
  destruct (connectPromise r) eqn:Hcp; [repeat split|].
  destruct HS as (_ & _ & _ & _ & E & _). rewrite E in Hcp.
  destruct (ws r); [discriminate|now elim Hw].
Qed.

Lemma connect_without_socket r :
  sockets_ok r -> ws r = None ->
  connection (fst (connect r))
  = (if ConnectionState_eqb (connectionState r) reconnecting
     then reconnecting else connecting, reconnectAttempt r).
Proof.
  intros HS Hw.
  assert (Hcp : connectPromise r = None).
  { destruct HS as (_ & _ & _ & _ & E & _). rewrite E, Hw. reflexivity. }
  assert (Hc : isConnected r = false) by (unfold isConnected; now rewrite Hw).
  unfold connect. rewrite Hc, Hcp. cbv zeta. cbn [fst].
  change (connectionState (set_intentionalDisconnect false r)) with (connectionState r).
  destruct (ConnectionState_eqb (connectionState r) reconnecting) eqn:E.
  - unfold connection. simpl. destruct (connectionState r); try discriminate. reflexivity.
  - exact (connection_setConnectionState connecting None (set_intentionalDisconnect false r)).
Qed.

Lemma reconnect_timer_fires base unacked H r n tm :
  Inv base unacked H r -> sockets_ok r ->
  alist_get TimerId_eq_dec (reconnect_timer_id n) (timers r) = Some tm ->
  let r' := step r (timer_fires (reconnect_timer_id n)) in
  callback tm = reconnect_timer
  /\ alist_get TimerId_eq_dec (reconnect_timer_id n) (timers r') = None
  /\ ws r' <> None
  /\ (ws r = None ->
      ws r' = Some (next_id r)
      /\ connection r'
         = (if ConnectionState_eqb (connectionState r) reconnecting
            then reconnecting else connecting, reconnectAttempt r))
  /\ (ws r <> None -> ws r' = ws r /\ connection r' = connection r).
Proof.
  intros HI HS Hg r'.
  pose proof (reconnect_callback _ _ _ _ _ _ _ _ HI Hg) as Hcb.
  split; [exact Hcb|].
  set (r0 := set_reconnectTimer None (clearTimeout (reconnect_timer_id n) r)).
  assert (Er : r' = run_microtasks (fst (connect r0))).
  { unfold r', step, task. rewrite Hg, Hcb. reflexivity. }
  assert (HS0 : sockets_ok r0) by (unfold r0; sstrip; now apply S_clearTimeout).
  destruct (Q_run_microtasks _ _ (Q_refl (fst (connect r0)))) as (Ew & Et).
  rewrite <- Er in Ew, Et.
  assert (Ec : connection r' = connection (fst (connect r0))).
  { rewrite Er. apply connection_link, link_run_microtasks. }
  split; [|split; [|split]].
  - rewrite Et, connect_reconnect_timers. unfold r0, clearTimeout. simpl.
    apply alist_get_delete_eq.
  - rewrite Ew. now apply connect_has_socket.
  - intros Hw. rewrite Ew, Ec.
    destruct (connect_new_socket r0 HS0 Hw) as (_ & _ & _ & _ & E & _).
    split; [exact E|]. exact (connect_without_socket r0 HS0 Hw).
  - intros Hw. rewrite Ew, Ec.
    destruct (connect_with_socket r0 HS0 Hw) as (E1 & E2 & _). split; assumption.
Qed.

(** X12.  While the connection state is reconnecting a retry is on its way:
    a socket is current or a reconnect timer is set.  A reconnect timer that
    is set calls connect() when it fires: the timer is gone and a socket is
    current afterwards; with no socket current before, connect() makes the
    socket of the next serial number, the state staying reconnecting if it
    was, and becoming connecting otherwise; with a socket current before,
    the current socket, the state and the attempt counter stay as they
    are. *)
Theorem retry_is_under_way c clientId trace :
  NoDup (stamps trace) ->
  let r := run (constructor c clientId) trace in
  (connectionState r = reconnecting ->
     ws r <> None
     \/ exists n tm, alist_get TimerId_eq_dec (reconnect_timer_id n) (timers r) = Some tm)
  /\ (forall n tm,
        alist_get TimerId_eq_dec (reconnect_timer_id n) (timers r) = Some tm ->
        let r' := step r (timer_fires (reconnect_timer_id n)) in
        callback tm = reconnect_timer
        /\ alist_get TimerId_eq_dec (reconnect_timer_id n) (timers r') = None
        /\ ws r' <> None
        /\ (ws r = None ->
            ws r' = Some (next_id r)
            /\ connection r'
               = (if ConnectionState_eqb (connectionState r) reconnecting
                  then reconnecting else connecting, reconnectAttempt r))
        /\ (ws r <> None -> ws r' = ws r /\ connection r' = connection r)).
Proof.
  intros Hnd r.
  destruct (reachable_Inv c clientId trace Hnd) as [HI _]. fold r in HI.
  pose proof (reachable_sockets_ok c clientId trace Hnd) as HS. fold r in HS.
  pose proof (reachable_retry_ok c clientId trace Hnd) as HR. fold r in HR.
  split; [exact HR|].
  intros n tm Hg. exact (reconnect_timer_fires _ _ _ r n tm HI HS Hg).
Qed.

Lemma retry_is_under_way_witness :
  NoDup (stamps dropped_trace)
  /\ connectionState (run (constructor demo_config "sdk-1") dropped_trace) = reconnecting
  /\ (ws (run (constructor demo_config "sdk-1") dropped_trace) <> None
      \/ exists n tm,
           alist_get TimerId_eq_dec (reconnect_timer_id n)
             (timers (run (constructor demo_config "sdk-1") dropped_trace)) = Some tm).
Proof.
  assert (Hnd : NoDup (stamps dropped_trace)) by constructor.
  assert (Hst : connectionState (run (constructor demo_config "sdk-1") dropped_trace)
                = reconnecting) by (vm_compute; reflexivity).
  split; [exact Hnd|]. split; [exact Hst|].
  exact (proj1 (retry_is_under_way demo_config "sdk-1" dropped_trace Hnd) Hst).
Defined.


(** ** Only a state push changes the snapshot *)

Lemma seen_update_socket s f r : seen (update_socket s f r) = seen r.
Proof. unfold update_socket. now destruct (find_socket s r). Qed.

Lemma seen_send m r : seen (send m r) = seen r.
Proof.
  unfold send. destruct (ws r); [|reflexivity]. destruct (isConnected r); [|reflexivity].
  apply seen_update_socket.
Qed.

Lemma seen_setConnectionState st attempt r :
  seen (setConnectionState st attempt r) = seen r.
Proof.
  unfold setConnectionState. cbv zeta.
  apply (fold_left_keeps (fun a => seen a = seen r)); [|reflexivity].
  intros a x Ha. rewrite <- Ha. unfold try_catch, call_connection_listener.
  destruct x as [fn th|n]; [reflexivity|]. destruct st; reflexivity.
Qed.

Lemma seen_connect r : seen (fst (connect r)) = seen r.
Proof.
  unfold connect. destruct (isConnected r); [reflexivity|].
  destruct (connectPromise r); [reflexivity|]. cbv zeta. cbn [fst].
  destruct (ConnectionState_eqb _ _); [reflexivity|].
  exact (seen_setConnectionState connecting None (set_intentionalDisconnect false r)).
Qed.

Lemma seen_scheduleReconnect r : seen (scheduleReconnect r) = seen r.
Proof.
  unfold scheduleReconnect. destruct (reaches _ _).
  - apply seen_setConnectionState.
  - cbv zeta.
    exact (seen_setConnectionState reconnecting _
             (set_reconnectAttempt (reconnectAttempt r + 1) r)).
Qed.

Lemma seen_disconnect r : seen (fst (disconnect r)) = seen r.
Proof.
  unfold disconnect. cbv zeta. cbn [fst].
  match goal with |- seen (settle _ _ (fresh (setConnectionState ?st ?a ?y))) = _ =>
    change (seen (setConnectionState st a y) = seen r);
    rewrite seen_setConnectionState
  end.
  match goal with |- seen (set_reconnectAttempt _ (set_connectPromise _
                             match ws ?y with _ => _ end)) = _ =>
    assert (E : seen y = seen r)
      by (destruct (reconnectTimer (set_intentionalDisconnect true r)); reflexivity);
    destruct (ws y); [|exact E];
    unfold ws_close_method;
    match goal with |- seen (set_reconnectAttempt _ (set_connectPromise _
                               (set_ws _ (update_socket ?s ?f ?z)))) = _ =>
      change (seen (update_socket s f z) = seen r); now rewrite seen_update_socket end
  end.
Qed.

Lemma seen_waitForConnection ms r : seen (fst (waitForConnection ms r)) = seen r.
Proof. unfold waitForConnection. cbv zeta. now destruct (isConnected (fresh r)). Qed.

Lemma seen_waitForCondition f ms r : seen (fst (waitForCondition f ms r)) = seen r.
Proof.
  unfold waitForCondition, subscribe_waitForCondition. cbv zeta.
  destruct (state (fresh r)); [|reflexivity]. now destruct (_ && _).
Qed.

Lemma seen_handle_action_result m r : seen (handle_action_result m r) = seen r.
Proof.
  unfold handle_action_result.
  destruct (_ && _); [|reflexivity].
  destruct (get_pending _ r); [|reflexivity].
  cbv zeta. unfold delete_pending.
  destruct (truthy _); destruct (member "actionId" m) as [[| | |id| |]|]; reflexivity.
Qed.

Lemma seen_handle_error m r : seen (handle_error m r) = seen r.
Proof.
  unfold handle_error.
  destruct (is_string _ _); [|reflexivity]. destruct (truthy _); [|reflexivity].
  destruct (get_pending _ r); [|reflexivity].
  cbv zeta. unfold delete_pending.
  destruct (member "actionId" m) as [[| | |id| |]|]; reflexivity.
Qed.

Lemma seen_sendAction_body a s p r : seen (sendAction_body a s p r) = seen r.
Proof.
  unfold sendAction_body. destruct (negb (isConnected r)); [reflexivity|].
  cbv zeta. now rewrite seen_send.
Qed.

Lemma seen_sendAction a s r : seen (fst (sendAction a s r)) = seen r.
Proof.
  unfold sendAction. cbv zeta.
  destruct (ConnectionState_eqb _ _).
  - pose proof (seen_waitForConnection 60000 (fresh r)) as H1.
    destruct (waitForConnection 60000 (fresh r)) as [r1 p]. cbn [fst] in *.
    unfold await. destruct (promise_state p (settles r1)); exact H1.
  - cbn [fst]. now rewrite seen_sendAction_body.
Qed.

Lemma seen_resume r ko : seen (resume r ko) = seen r.
Proof.
  unfold resume. destruct (fst ko) as [a s p].
  destruct (snd ko); [apply seen_sendAction_body|reflexivity].
Qed.

Lemma seen_run_microtasks r : seen (run_microtasks r) = seen r.
Proof.
  unfold run_microtasks.
  apply (fold_left_keeps (fun a => seen a = seen r)); [|reflexivity].
  intros a ko Ha. now rewrite seen_resume.
Qed.

Lemma seen_onclose r : seen (onclose r) = seen r.
Proof.
  unfold onclose. cbv zeta.
  set (m := set_pendingActions [] _).
  assert (E : seen m = seen r).
  { unfold m.
    change (seen (fold_left reject_pending
                    (pendingActions (set_ws None (set_connectPromise None r)))
                    (set_ws None (set_connectPromise None r))) = seen r).
    apply (fold_left_keeps (fun a => seen a = seen r)); [|reflexivity].
    intros a e Ha. rewrite <- Ha. reflexivity. }
  clearbody m. destruct (_ && _).
  - now rewrite seen_scheduleReconnect.
  - now rewrite seen_setConnectionState.
Qed.

Lemma seen_checkConnected s data r : seen (checkConnected s data r) = seen r.
Proof.
  unfold checkConnected.
  destruct (JSON_parse data) as [m|]; [|reflexivity].
  assert (Hgo : seen
    (if is_string "sdk_connected" (member "type" m)
     then settle (connect_promise s) (Resolved None)
            (setConnectionState connected None
               (set_reconnectAttempt 0
                  match ws r with
                  | Some current =>
                      if Nat.eqb current s then update_socket s without_checkConnected r
                      else r
                  | None => r
                  end))
     else r) = seen r).
  { destruct (is_string _ _); [|reflexivity].
    match goal with |- seen (settle _ _ (setConnectionState ?st ?a ?y)) = _ =>
      change (seen (setConnectionState st a y) = seen r);
      rewrite seen_setConnectionState end.
    destruct (ws r); [|reflexivity]. destruct (Nat.eqb _ _); [|reflexivity].
    exact (seen_update_socket s without_checkConnected r). }
  destruct m; auto.
Qed.

Lemma seen_run_callback cb t r : seen (run_callback cb (clearTimeout t r)) = seen r.
Proof.
  destruct cb as [n| |id p ty|n|n]; unfold run_callback; cbv zeta; try reflexivity.
  - match goal with |- seen match ws ?y with _ => _ end = _ => destruct (ws y) end;
      [|reflexivity].
    unfold ws_close_method. now rewrite seen_update_socket.
  - now rewrite seen_connect.
Qed.

(* A message is a push, or the snapshot and the listeners are left alone. *)
Lemma seen_handleMessage data r :
  seen (fst (handleMessage data r)) = seen r
  \/ exists snapshot,
       pushes data snapshot
       /\ seen (fst (handleMessage data r))
          = (Some snapshot, rev (owed_calls snapshot (stateListeners r)) ++ notified r).
Proof.
  destruct data as [t|m]; [left; reflexivity|].
  destruct (is_string "sdk_state" (member "type" m)) eqn:Hty.
  - destruct (member "state" m) as [snapshot|] eqn:Hm.
    + destruct (truthy (Some snapshot)) eqn:Ht.
      * destruct m; try (left; reflexivity);
          right; exists snapshot;
          (split; [eexists; repeat split; eauto; discriminate|]);
          rewrite (handleMessage_push _ snapshot r Hty Hm Ht); cbn [fst];
          destruct (fan_out_notified snapshot (stateListeners r)
                      (set_state (Some snapshot) r)) as [En Es];
          unfold seen; rewrite En, Es; reflexivity.
      * left. unfold handleMessage. simpl JSON_parse.
        assert (E : handle_state m r = r)
          by (unfold handle_state; now rewrite Hty, Hm, Ht).
        destruct m; try reflexivity; cbn [fst];
          now rewrite seen_handle_error, seen_handle_action_result, E.
    + left. unfold handleMessage. simpl JSON_parse.
      assert (E : handle_state m r = r)
        by (unfold handle_state; rewrite Hty, Hm; reflexivity).
      destruct m; try reflexivity; cbn [fst];
        now rewrite seen_handle_error, seen_handle_action_result, E.
  - left. unfold handleMessage. simpl JSON_parse.
    assert (E : handle_state m r = r) by (unfold handle_state; now rewrite Hty).
    destruct m; try reflexivity; cbn [fst];
      now rewrite seen_handle_error, seen_handle_action_result, E.
Qed.

Lemma seen_task e r :
  (forall s data, e <> ws_message s data) -> seen (task e r) = seen r.
Proof.
  intros Hne. destruct e; unfold task; try reflexivity.
  - apply seen_connect.
  - apply seen_disconnect.
  - apply seen_sendAction.
  - apply seen_waitForConnection.
  - apply seen_waitForCondition.
  - destruct (find_socket s r) as [sock|]; [|reflexivity].
    destruct (readyState sock); try reflexivity.
    unfold onopen. cbv zeta. rewrite seen_send.
    exact (seen_update_socket s (with_readyState OPEN) r).
  - now elim (Hne s data).
  - destruct (find_socket s r) as [sock|]; [|reflexivity].
    destruct (readyState sock); reflexivity.
  - destruct (find_socket s r) as [sock|]; [|reflexivity].
    destruct (readyState sock); try reflexivity; rewrite seen_onclose;
      apply seen_update_socket.
  - destruct (alist_get TimerId_eq_dec t (timers r)) as [tm|]; [|reflexivity].
    apply seen_run_callback.
Qed.

Lemma seen_message s data r :
  seen (task (ws_message s data) r) = seen r
  \/ exists sock snapshot,
       find_socket s r = Some sock /\ readyState sock = OPEN
       /\ pushes data snapshot
       /\ seen (task (ws_message s data) r)
          = (Some snapshot, rev (owed_calls snapshot (stateListeners r)) ++ notified r).
Proof.
  unfold task. destruct (find_socket s r) as [sock|] eqn:Hf; [|now left].
  destruct (readyState sock) eqn:Hst; try now left. cbv zeta.
  assert (E : seen (if checkConnected_attached sock
                    then checkConnected s data (fst (handleMessage data r))
                    else fst (handleMessage data r))
              = seen (fst (handleMessage data r))).
  { destruct (checkConnected_attached sock); [apply seen_checkConnected|reflexivity]. }
  rewrite E.
  destruct (seen_handleMessage data r) as [El|(snapshot & Hp & Er)]; [now left|].
  right. exists sock, snapshot. auto.
Qed.

(** X13.  Only a state push changes what getState() returns, and only a
    state push calls the state listeners: every other event leaves the
    snapshot and the record of listener calls as they are, so that the last
    snapshot outlives a disconnect and a reconnect; a message on an open
    socket either leaves them alone too or is a push with a truthy
    snapshot, which becomes the snapshot kept and is handed to each
    subscribed listener once.  The snapshot kept is never a falsy value
    and, once there, never goes back to null. *)
Theorem snapshot_changes_by_push_only c clientId trace :
  NoDup (stamps trace) ->
  let r := run (constructor c clientId) trace in
  (forall v, state r = Some v -> truthy (Some v) = true)
  /\ (forall e, (forall s data, e <> ws_message s data) ->
        state (step r e) = state r /\ notified (step r e) = notified r)
  /\ (forall s data,
        (state (step r (ws_message s data)) = state r
         /\ notified (step r (ws_message s data)) = notified r)
        \/ exists sock snapshot,
             find_socket s r = Some sock /\ readyState sock = OPEN
             /\ pushes data snapshot
             /\ state (step r (ws_message s data)) = Some snapshot
             /\ notified (step r (ws_message s data))
                = rev (owed_calls snapshot (stateListeners r)) ++ notified r)
  /\ (forall e, state r <> None -> state (step r e) <> None).
Proof.
  intros Hnd r.
  destruct (reachable_Inv c clientId trace Hnd) as [HI _]. fold r in HI.
  clearbody r.
  assert (Hmsg : forall s data,
            (state (step r (ws_message s data)) = state r
             /\ notified (step r (ws_message s data)) = notified r)
            \/ exists sock snapshot,
                 find_socket s r = Some sock /\ readyState sock = OPEN
                 /\ pushes data snapshot
                 /\ state (step r (ws_message s data)) = Some snapshot
                 /\ notified (step r (ws_message s data))
                    = rev (owed_calls snapshot (stateListeners r)) ++ notified r).
  { intros s data.
    pose proof (seen_run_microtasks (task (ws_message s data) r)) as E.
    fold (step r (ws_message s data)) in E.
    destruct (seen_message s data r) as [El|(sock & snapshot & Hf & Ho & Hp & Er)].
    - left. rewrite El in E. unfold seen in E. inversion E. auto.
    - right. exists sock, snapshot. rewrite Er in E. unfold seen in E. inversion E. auto. }
  assert (Hother : forall e, (forall s data, e <> ws_message s data) ->
            state (step r e) = state r /\ notified (step r e) = notified r).
  { intros e Hne. pose proof (seen_run_microtasks (task e r)) as E.
    fold (step r e) in E. rewrite (seen_task e r Hne) in E.
    unfold seen in E. inversion E. auto. }
  split; [exact (inv_state_truthy HI)|]. split; [exact Hother|]. split; [exact Hmsg|].
  intros e Hs.
  assert (Hcase : (forall s data, e <> ws_message s data) \/ exists s data, e = ws_message s data)
    by (destruct e; try (left; discriminate); right; eauto).
  destruct Hcase as [Hne|(s & data & ->)].
  - destruct (Hother e Hne) as [E _]. now rewrite E.
  - destruct (Hmsg s data) as [[E _]|(sock & snapshot & _ & _ & _ & E & _)];
      rewrite E; [exact Hs|discriminate].
Qed.

Lemma snapshot_changes_by_push_only_witness :
  NoDup (stamps waiting_trace)
  /\ state (step (run (constructor demo_config "sdk-1") waiting_trace) call_disconnect)
     = state (run (constructor demo_config "sdk-1") waiting_trace).
Proof.
  assert (Hnd : NoDup (stamps waiting_trace)).
  { simpl. repeat constructor; simpl; intuition discriminate. }
  split; [exact Hnd|].
  apply (snapshot_changes_by_push_only demo_config "sdk-1" waiting_trace Hnd).
  discriminate.
Defined.


(** ** The waits are settled once *)

Lemma settle_calls_other p q o log :
  p <> q -> settle_calls p ((q, o) :: log) = settle_calls p log.
Proof.
  intros Hne. rewrite settle_calls_cons.
  destruct (Promise_eq_dec p q); [contradiction|reflexivity].
Qed.

Lemma settle_calls_same p o log :
  settle_calls p ((p, o) :: log) = S (settle_calls p log).
Proof.
  rewrite settle_calls_cons. destruct (Promise_eq_dec p p); [reflexivity|contradiction].
Qed.

Lemma NoDup_map_filter {A B} (f : A -> B) (keep : A -> bool) l :
  NoDup (map f l) -> NoDup (map f (filter keep l)).
Proof.
  induction l as [|a l IH]; simpl; intros Hnd; [constructor|].
  inversion Hnd as [|? ? Hn Hnd']; subst.
  destruct (keep a); simpl; [constructor|]; auto.
  intros Hin. apply Hn. apply in_map_iff in Hin as (x & E & Hx).
  apply filter_In in Hx as [Hx _]. apply in_map_iff. eauto.
Qed.

Lemma NoDup_snoc {A} (x : A) l : ~ In x l -> NoDup l -> NoDup (l ++ [x]).
Proof.
  induction l as [|a l IH]; simpl; intros Hn Hnd; [repeat constructor; auto|].
  inversion Hnd; subst. constructor.
  - rewrite in_app_iff. simpl. intuition.
  - apply IH; auto.
Qed.

Lemma fnset_delete_NoDup {A} (ident : A -> FnId) f (l : list A) :
  NoDup (map ident l) -> NoDup (map ident (fnset_delete ident f l)).
Proof. apply NoDup_map_filter. Qed.

Lemma fnset_add_NoDup {A} (ident : A -> FnId) x (l : list A) :
  NoDup (map ident l) -> NoDup (map ident (fnset_add ident x l)).
Proof.
  intros Hnd. unfold fnset_add. destruct (existsb _ l) eqn:E; [exact Hnd|].
  rewrite map_app. simpl. apply NoDup_snoc; [|exact Hnd].
  intros Hin. apply in_map_iff in Hin as (y & Ey & Hy).
  assert (Ht : existsb (is_fn ident (ident x)) l = true).
  { apply existsb_exists. exists y. split; [exact Hy|]. unfold is_fn.
    destruct (FnId_eq_dec (ident y) (ident x)); [reflexivity|contradiction]. }
  congruence.
Qed.

Lemma WaitsOk_log cl sl tim setl nid p o :
  ~ wait_promise p ->
  WaitsOk cl sl tim setl nid -> WaitsOk cl sl tim ((p, o) :: setl) nid.
Proof.
  intros Hp HO.
  assert (E1 : forall k, settle_calls (waitForConnection_promise k) ((p, o) :: setl)
                         = settle_calls (waitForConnection_promise k) setl).
  { intros k. apply settle_calls_other. intros <-. now apply Hp. }
  assert (E2 : forall k, settle_calls (waitForCondition_promise k) ((p, o) :: setl)
                         = settle_calls (waitForCondition_promise k) setl).
  { intros k. apply settle_calls_other. intros <-. now apply Hp. }
  constructor; intros; rewrite ?E1, ?E2.
  - exact (wo_cl_nodup HO).
  - exact (wo_sl_nodup HO).
  - now apply (wo_cl_live HO).
  - eapply (wo_cl_timer HO); eauto.
  - apply (wo_cl_once HO).
  - eapply (wo_sl_live HO); eauto.
  - eapply (wo_sl_timer HO); eauto.
  - apply (wo_sl_once HO).
  - now apply (wo_fresh HO).
Qed.

Lemma WaitsOk_timers cl sl tim tim' setl nid :
  (forall t, wait_timer t ->
     alist_get TimerId_eq_dec t tim' = alist_get TimerId_eq_dec t tim) ->
  WaitsOk cl sl tim setl nid -> WaitsOk cl sl tim' setl nid.
Proof.
  intros Ht HO.
  assert (E1 : forall k, alist_get TimerId_eq_dec (waitForConnection_timer_id k) tim'
                         = alist_get TimerId_eq_dec (waitForConnection_timer_id k) tim)
    by (intros k; now apply Ht).
  assert (E2 : forall k, alist_get TimerId_eq_dec (waitForCondition_timer_id k) tim'
                         = alist_get TimerId_eq_dec (waitForCondition_timer_id k) tim)
    by (intros k; now apply Ht).
  constructor; intros.
  - exact (wo_cl_nodup HO).
  - exact (wo_sl_nodup HO).
  - rewrite E1. now apply (wo_cl_live HO).
  - rewrite E1 in *. eapply (wo_cl_timer HO); eauto.
  - apply (wo_cl_once HO).
  - rewrite E2. eapply (wo_sl_live HO); eauto.
  - rewrite E2 in *. eapply (wo_sl_timer HO); eauto.
  - apply (wo_sl_once HO).
  - now apply (wo_fresh HO).
Qed.

Lemma WaitsOk_fresh cl sl tim setl nid :
  WaitsOk cl sl tim setl nid -> WaitsOk cl sl tim setl (S nid).
Proof.
  intros HO. constructor; intros; try (now apply HO); try (eapply HO; now eauto).
  apply (wo_fresh HO). lia.
Qed.

Lemma WaitsOk_listeners cl cl' sl sl' tim setl nid :
  NoDup (map connection_listener_id cl') -> NoDup (map state_listener_id sl') ->
  (forall k, In (waitForConnection_listener k) cl' <-> In (waitForConnection_listener k) cl) ->
  (forall k f, In (waitForCondition_listener k f) sl'
               <-> In (waitForCondition_listener k f) sl) ->
  WaitsOk cl sl tim setl nid -> WaitsOk cl' sl' tim setl nid.
Proof.
  intros N1 N2 E1 E2 HO. constructor; intros.
  - exact N1.
  - exact N2.
  - apply (wo_cl_live HO). now apply E1.
  - apply E1. eapply (wo_cl_timer HO); eauto.
  - apply (wo_cl_once HO).
  - apply (wo_sl_live HO _ f). now apply E2.
  - destruct (wo_sl_timer HO _ _ H) as (f & Hf). exists f. now apply E2.
  - apply (wo_sl_once HO).
  - destruct (wo_fresh HO k H) as (A & B & C & D). repeat split; auto.
    + intros Hin. apply C. now apply E1.
    + intros f Hin. apply (D f). now apply E2.
Qed.

Lemma WO_settle_other p o r : ~ wait_promise p -> waits_ok r -> waits_ok (settle p o r).
Proof. intros Hp HO. unfold settle. cbv zeta. ostrip. now apply WaitsOk_log. Qed.

Lemma WO_settle_action p o r : is_action p -> waits_ok r -> waits_ok (settle p o r).
Proof. intros (k & ->). apply WO_settle_other. simpl. tauto. Qed.

Lemma WO_clearTimeout t r : ~ wait_timer t -> waits_ok r -> waits_ok (clearTimeout t r).
Proof.
  intros Ht HO. unfold waits_ok, clearTimeout. simpl.
  apply (WaitsOk_timers _ _ (timers r)); [|exact HO].
  intros t' Ht'. apply alist_get_delete_neq. intros ->. contradiction.
Qed.

Lemma WO_setTimeout t cb ms r :
  ~ wait_timer t -> waits_ok r -> waits_ok (setTimeout t cb ms r).
Proof.
  intros Ht HO. unfold waits_ok, setTimeout. simpl.
  apply (WaitsOk_timers _ _ (timers r)); [|exact HO].
  intros t' Ht'. apply alist_get_set_neq. intros ->. contradiction.
Qed.

Lemma WO_fresh r : waits_ok r -> waits_ok (fresh r).
Proof. apply WaitsOk_fresh. Qed.

Lemma WO_update_socket s f r : waits_ok r -> waits_ok (update_socket s f r).
Proof.
  intros HO. unfold update_socket. destruct (find_socket s r); [|exact HO]. now ostrip.
Qed.

Lemma WO_send m r : waits_ok r -> waits_ok (send m r).
Proof.
  intros HO. unfold send. destruct (ws r); [|exact HO].
  destruct (isConnected r); [|exact HO]. now apply WO_update_socket.
Qed.

(* Callers' listeners come and go without touching the waits. *)
Lemma WO_onStateUpdate_user fn throws r :
  waits_ok r -> waits_ok (onStateUpdate (user_state_listener fn throws) r).
Proof.
  intros HO. unfold waits_ok, onStateUpdate. simpl.
  apply (WaitsOk_listeners (connectionListeners r) _ (stateListeners r)); [| | | |exact HO].
  - exact (wo_cl_nodup HO).
  - apply fnset_add_NoDup, (wo_sl_nodup HO).
  - tauto.
  - intros k f. split.
    + intros Hin. apply fnset_add_In in Hin as [Hin|E]; [exact Hin|discriminate].
    + apply fnset_add_old.
Qed.

Lemma WO_unsubscribe_state_user fn r :
  waits_ok r -> waits_ok (unsubscribe_state (UserFn fn) r).
Proof.
  intros HO. unfold waits_ok, unsubscribe_state. simpl.
  apply (WaitsOk_listeners (connectionListeners r) _ (stateListeners r)); [| | | |exact HO].
  - exact (wo_cl_nodup HO).
  - apply fnset_delete_NoDup, (wo_sl_nodup HO).
  - tauto.
  - intros k f. rewrite fnset_delete_In. simpl. intuition discriminate.
Qed.

Lemma WO_onConnectionStateChange_user fn throws r :
  waits_ok r -> waits_ok (onConnectionStateChange (user_connection_listener fn throws) r).
Proof.
  intros HO. unfold waits_ok, onConnectionStateChange. simpl.
  apply (WaitsOk_listeners (connectionListeners r) _ (stateListeners r)); [| | | |exact HO].
  - apply fnset_add_NoDup, (wo_cl_nodup HO).
  - exact (wo_sl_nodup HO).
  - intros k. split.
    + intros Hin. apply fnset_add_In in Hin as [Hin|E]; [exact Hin|discriminate].
    + apply fnset_add_old.
  - tauto.
Qed.

Lemma WO_unsubscribe_connection_user fn r :
  waits_ok r -> waits_ok (unsubscribe_connection (UserFn fn) r).
Proof.
  intros HO. unfold waits_ok, unsubscribe_connection. simpl.
  apply (WaitsOk_listeners (connectionListeners r) _ (stateListeners r)); [| | | |exact HO].
  - apply fnset_delete_NoDup, (wo_cl_nodup HO).
  - exact (wo_sl_nodup HO).
  - intros k. rewrite fnset_delete_In. simpl. intuition discriminate.
  - tauto.
Qed.

(* A wait begins: its timer is set and its listener subscribed under a serial
   number just drawn. *)
Lemma WO_open_connection_wait ms r :
  waits_ok r ->
  waits_ok (onConnectionStateChange (waitForConnection_listener (next_id r))
              (setTimeout (waitForConnection_timer_id (next_id r))
                 (waitForConnection_timeout (next_id r)) ms (fresh r))).
Proof.
  intros HO. unfold waits_ok, onConnectionStateChange, setTimeout, fresh. simpl.
  set (n := next_id r).
  destruct (wo_fresh HO n (le_n _)) as (F1 & F2 & F3 & F4).
  constructor; intros.
  - apply fnset_add_NoDup, (wo_cl_nodup HO).
  - exact (wo_sl_nodup HO).
  - destruct (Nat.eq_dec k n) as [->|Hne].
    + split; [exact F1|]. exists ms. apply alist_get_set_eq.
    + apply fnset_add_In in H as [Hin|E]; [|inversion E; contradiction].
      rewrite alist_get_set_neq by congruence. now apply (wo_cl_live HO).
  - destruct (Nat.eq_dec k n) as [->|Hne]; [apply fnset_add_self_closure|].
    rewrite alist_get_set_neq in H by congruence.
    apply fnset_add_old. eapply (wo_cl_timer HO); eauto.
  - apply (wo_cl_once HO).
  - rewrite alist_get_set_neq by discriminate. eapply (wo_sl_live HO); eauto.
  - rewrite alist_get_set_neq in H by discriminate. eapply (wo_sl_timer HO); eauto.
  - apply (wo_sl_once HO).
  - destruct (wo_fresh HO k) as (A & B & C & D); [fold n; lia|].
    repeat split; auto. intros Hin.
    apply fnset_add_In in Hin as [Hin|E]; [now apply C|]. inversion E. fold n in H. lia.
Qed.

Lemma WO_open_condition_wait f ms r :
  waits_ok r ->
  waits_ok (onStateUpdate (waitForCondition_listener (next_id r) f)
              (setTimeout (waitForCondition_timer_id (next_id r))
                 (waitForCondition_timeout (next_id r)) ms (fresh r))).
Proof.
  intros HO. unfold waits_ok, onStateUpdate, setTimeout, fresh. simpl.
  set (n := next_id r).
  destruct (wo_fresh HO n (le_n _)) as (F1 & F2 & F3 & F4).
  assert (Hnew : forall m g, In (waitForCondition_listener m g) (stateListeners r) -> m <> n).
  { intros m g Hin ->. exact (F4 g Hin). }
  constructor; intros.
  - exact (wo_cl_nodup HO).
  - apply fnset_add_NoDup, (wo_sl_nodup HO).
  - rewrite alist_get_set_neq by discriminate. now apply (wo_cl_live HO).
  - rewrite alist_get_set_neq in H by discriminate. eapply (wo_cl_timer HO); eauto.
  - apply (wo_cl_once HO).
  - destruct (Nat.eq_dec k n) as [->|Hne].
    + split; [exact F2|]. exists ms. apply alist_get_set_eq.
    + apply fnset_add_In in H as [Hin|E]; [|inversion E; contradiction].
      rewrite alist_get_set_neq by congruence. eapply (wo_sl_live HO); eauto.
  - destruct (Nat.eq_dec k n) as [->|Hne].
    + exists f. now apply fnset_add_new_closure.
    + rewrite alist_get_set_neq in H by congruence.
      destruct (wo_sl_timer HO _ _ H) as (g & Hg). exists g. now apply fnset_add_old.
  - apply (wo_sl_once HO).
  - destruct (wo_fresh HO k) as (A & B & C & D); [fold n; lia|].
    repeat split; auto. intros g Hin.
    apply fnset_add_In in Hin as [Hin|E]; [now apply (D g)|]. inversion E. fold n in H. lia.
Qed.

(* A wait ends: timer cleared, listener removed, promise settled, in this
   order, while the listener is still subscribed. *)
Lemma WO_close_connection_wait k o r :
  waits_ok r -> In (waitForConnection_listener k) (connectionListeners r) ->
  waits_ok (settle (waitForConnection_promise k) o
              (unsubscribe_connection (Closure k)
                 (clearTimeout (waitForConnection_timer_id k) r))).
Proof.
  intros HO Hk. unfold settle. cbv zeta. ostrip.
  unfold waits_ok, unsubscribe_connection, clearTimeout. simpl.
  destruct (wo_cl_live HO k Hk) as (Hz & _).
  assert (Hlt : k < next_id r).
  { destruct (Nat.lt_ge_cases k (next_id r)) as [Hlt|Hge]; [exact Hlt|].
    destruct (wo_fresh HO k Hge) as (_ & _ & C & _). contradiction. }
  constructor; intros.
  - apply fnset_delete_NoDup, (wo_cl_nodup HO).
  - exact (wo_sl_nodup HO).
  - apply fnset_delete_In in H as [Hin Hne]. simpl in Hne.
    assert (k0 <> k) by congruence.
    rewrite settle_calls_other by congruence.
    rewrite alist_get_delete_neq by congruence. now apply (wo_cl_live HO).
  - destruct (Nat.eq_dec k0 k) as [->|Hne].
    + rewrite alist_get_delete_eq in H. discriminate.
    + rewrite alist_get_delete_neq in H by congruence.
      apply fnset_delete_In. split; [eapply (wo_cl_timer HO); eauto|]. simpl. congruence.
  - destruct (Nat.eq_dec k0 k) as [->|Hne].
    + rewrite settle_calls_same, Hz. lia.
    + rewrite settle_calls_other by congruence. apply (wo_cl_once HO).
  - rewrite settle_calls_other by discriminate.
    rewrite alist_get_delete_neq by discriminate. eapply (wo_sl_live HO); eauto.
  - rewrite alist_get_delete_neq in H by discriminate. eapply (wo_sl_timer HO); eauto.
  - rewrite settle_calls_other by discriminate. apply (wo_sl_once HO).
  - destruct (wo_fresh HO k0 H) as (A & B & C & D).
    rewrite settle_calls_other by (intros E; inversion E; lia).
    rewrite settle_calls_other by discriminate.
    repeat split; auto. intros Hin. apply fnset_delete_In in Hin as [Hin _]. now apply C.
Qed.

Lemma WO_close_condition_wait k f o r :
  waits_ok r -> In (waitForCondition_listener k f) (stateListeners r) ->
  waits_ok (settle (waitForCondition_promise k) o
              (unsubscribe_state (Closure k)
                 (clearTimeout (waitForCondition_timer_id k) r))).
Proof.
  intros HO Hk. unfold settle. cbv zeta. ostrip.
  unfold waits_ok, unsubscribe_state, clearTimeout. simpl.
  destruct (wo_sl_live HO k f Hk) as (Hz & _).
  assert (Hlt : k < next_id r).
  { destruct (Nat.lt_ge_cases k (next_id r)) as [Hlt|Hge]; [exact Hlt|].
    destruct (wo_fresh HO k Hge) as (_ & _ & _ & D). now elim (D f). }
  constructor; intros.
  - exact (wo_cl_nodup HO).
  - apply fnset_delete_NoDup, (wo_sl_nodup HO).
  - rewrite settle_calls_other by discriminate.
    rewrite alist_get_delete_neq by discriminate. now apply (wo_cl_live HO).
  - rewrite alist_get_delete_neq in H by discriminate. eapply (wo_cl_timer HO); eauto.
  - rewrite settle_calls_other by discriminate. apply (wo_cl_once HO).
  - apply fnset_delete_In in H as [Hin Hne]. simpl in Hne.
    assert (k0 <> k) by congruence.
    rewrite settle_calls_other by congruence.
    rewrite alist_get_delete_neq by congruence. eapply (wo_sl_live HO); eauto.
  - destruct (Nat.eq_dec k0 k) as [->|Hne].
    + rewrite alist_get_delete_eq in H. discriminate.
    + rewrite alist_get_delete_neq in H by congruence.
      destruct (wo_sl_timer HO _ _ H) as (g & Hg). exists g.
      apply fnset_delete_In. split; [exact Hg|]. simpl. congruence.
  - destruct (Nat.eq_dec k0 k) as [->|Hne].
    + rewrite settle_calls_same, Hz. lia.
    + rewrite settle_calls_other by congruence. apply (wo_sl_once HO).
  - destruct (wo_fresh HO k0 H) as (A & B & C & D).
    rewrite settle_calls_other by discriminate.
    rewrite settle_calls_other by (intros E; inversion E; lia).
    repeat split; auto. intros g Hin. apply fnset_delete_In in Hin as [Hin _].
    now apply (D g).
Qed.

Lemma WO_broadcast st attempt rest : forall a,
  waits_ok a -> NoDup (map connection_listener_id rest) ->
  (forall x, In x rest -> In x (connectionListeners a)) ->
  waits_ok (fold_left (fun r l => try_catch (call_connection_listener st attempt l) r)
              rest a).
Proof.
  induction rest as [|x rest IH]; intros a HO Hnd Hin; simpl; [exact HO|].
  inversion Hnd as [|? ? Hx Hnd']; subst.
  assert (Hkeep : forall y, In y rest ->
            In y (fnset_delete connection_listener_id (connection_listener_id x)
                    (connectionListeners a))).
  { intros y Hy. apply fnset_delete_In. split; [apply Hin; simpl; auto|].
    intros E. apply Hx. rewrite <- E. now apply in_map. }
  unfold try_catch at 2. unfold call_connection_listener.
  destruct x as [fn th|k]; cbn [fst].
  - apply IH; auto. intros y Hy. apply Hin. simpl. auto.
  - destruct st; cbn [fst];
      try (apply IH; [exact HO|exact Hnd'|intros y Hy; apply Hin; simpl; auto]);
      (apply IH; [apply WO_close_connection_wait; [exact HO|apply Hin; simpl; auto]
                 |exact Hnd'|exact Hkeep]).
Qed.

Lemma WO_setConnectionState st attempt r :
  waits_ok r -> waits_ok (setConnectionState st attempt r).
Proof.
  intros HO. unfold setConnectionState. cbv zeta.
  apply WO_broadcast; [now ostrip|exact (wo_cl_nodup HO)|auto].
Qed.

Lemma WO_fan_out snapshot rest : forall a,
  waits_ok a -> NoDup (map state_listener_id rest) ->
  (forall x, In x rest -> In x (stateListeners a)) ->
  waits_ok (fold_left (fun r l => try_catch (call_state_listener snapshot l) r) rest a).
Proof.
  induction rest as [|x rest IH]; intros a HO Hnd Hin; simpl; [exact HO|].
  inversion Hnd as [|? ? Hx Hnd']; subst.
  assert (Hkeep : forall y, In y rest ->
            In y (fnset_delete state_listener_id (state_listener_id x) (stateListeners a))).
  { intros y Hy. apply fnset_delete_In. split; [apply Hin; simpl; auto|].
    intros E. apply Hx. rewrite <- E. now apply in_map. }
  unfold try_catch at 2. unfold call_state_listener.
  destruct x as [fn th|k f]; cbn [fst].
  - apply IH; [now ostrip|exact Hnd'|intros y Hy; apply Hin; simpl; auto].
  - destruct (f snapshot); cbn [fst].
    + apply IH; [apply (WO_close_condition_wait k f); [exact HO|apply Hin; simpl; auto]
                |exact Hnd'|exact Hkeep].
    + apply IH; [exact HO|exact Hnd'|intros y Hy; apply Hin; simpl; auto].
Qed.

Lemma WO_handle_state m r : waits_ok r -> waits_ok (handle_state m r).
Proof.
  intros HO. unfold handle_state.
  destruct (_ && _); [|exact HO].
  destruct (member "state" m); [|exact HO].
  cbv zeta. apply WO_fan_out; [now ostrip|exact (wo_sl_nodup HO)|auto].
Qed.

Lemma WO_connect r : waits_ok r -> waits_ok (fst (connect r)).
Proof.
  intros HO. unfold connect.
  destruct (isConnected r).
  { cbn [fst]. apply WO_settle_other; [simpl; tauto|]. now apply WO_fresh. }
  destruct (connectPromise r); [exact HO|].
  cbv zeta. cbn [fst]. ostrip.
  apply WO_setTimeout; [simpl; tauto|]. ostrip. apply WO_fresh.
  destruct (ConnectionState_eqb _ _); [now ostrip|].
  apply WO_setConnectionState. now ostrip.
Qed.

Lemma WO_scheduleReconnect r : waits_ok r -> waits_ok (scheduleReconnect r).
Proof.
  intros HO. unfold scheduleReconnect. destruct (reaches _ _).
  - now apply WO_setConnectionState.
  - cbv zeta. ostrip. apply WO_setTimeout; [simpl; tauto|]. apply WO_fresh.
    apply WO_setConnectionState. now ostrip.
Qed.

Lemma WO_disconnect r : waits_ok r -> waits_ok (fst (disconnect r)).
Proof.
  intros HO. unfold disconnect. cbv zeta. cbn [fst].
  apply WO_settle_other; [simpl; tauto|]. apply WO_fresh.
  apply WO_setConnectionState. ostrip.
  assert (H1 : waits_ok
                 match reconnectTimer (set_intentionalDisconnect true r) with
                 | Some n =>
                     set_reconnectTimer None
                       (clearTimeout (reconnect_timer_id n)
                          (set_intentionalDisconnect true r))
                 | None => set_intentionalDisconnect true r
                 end).
  { destruct (reconnectTimer (set_intentionalDisconnect true r)); ostrip;
      [apply WO_clearTimeout; [simpl; tauto|now ostrip]|exact HO]. }
  revert H1. generalize (match reconnectTimer (set_intentionalDisconnect true r) with
                         | Some n =>
                             set_reconnectTimer None
                               (clearTimeout (reconnect_timer_id n)
                                  (set_intentionalDisconnect true r))
                         | None => set_intentionalDisconnect true r
                         end).
  intros y Hy. destruct (ws y); [|exact Hy]. ostrip.
  unfold ws_close_method. now apply WO_update_socket.
Qed.

Lemma WO_waitForConnection ms r : waits_ok r -> waits_ok (fst (waitForConnection ms r)).
Proof.
  intros HO. unfold waitForConnection. cbv zeta.
  destruct (isConnected (fresh r)); cbn [fst].
  - apply WO_settle_other; [simpl; tauto|]. now apply WO_fresh.
  - now apply WO_open_connection_wait.
Qed.

Lemma WO_waitForCondition f ms r : waits_ok r -> waits_ok (fst (waitForCondition f ms r)).
Proof.
  intros HO. unfold waitForCondition. cbv zeta.
  assert (Hs : waits_ok (fst (subscribe_waitForCondition f ms (next_id r) (fresh r)))).
  { unfold subscribe_waitForCondition. cbv zeta. cbn [fst].
    now apply WO_open_condition_wait. }
  destruct (state (fresh r)); [|exact Hs].
  destruct (_ && _); [|exact Hs].
  cbn [fst]. apply WO_settle_other; [simpl; tauto|]. now apply WO_fresh.
Qed.

Lemma WO_sendAction_body a s p r :
  is_action p -> waits_ok r -> waits_ok (sendAction_body a s p r).
Proof.
  intros Hp HO. unfold sendAction_body.
  destruct (negb (isConnected r)); [now apply WO_settle_action|].
  cbv zeta. apply WO_send. ostrip.
  apply WO_setTimeout; [simpl; tauto|]. now apply WO_fresh.
Qed.

Lemma WO_sendAction a s r : waits_ok r -> waits_ok (fst (sendAction a s r)).
Proof.
  intros HO. unfold sendAction. cbv zeta.
  destruct (ConnectionState_eqb _ _).
  - pose proof (WO_waitForConnection 60000 (fresh r) (WO_fresh r HO)) as H1.
    destruct (waitForConnection 60000 (fresh r)) as [r1 p]. cbn [fst] in *.
    unfold await. destruct (promise_state p (settles r1)); now ostrip.
  - cbn [fst]. apply WO_sendAction_body; [now eexists|]. now apply WO_fresh.
Qed.

Lemma WO_resume r ko :
  is_action (result_of (fst ko)) -> waits_ok r -> waits_ok (resume r ko).
Proof.
  intros Hp HO. unfold resume. destruct (fst ko) as [a s p]. simpl in Hp.
  destruct (snd ko); [now apply WO_sendAction_body|now apply WO_settle_action].
Qed.

Lemma WO_drain l : forall r,
  (forall ko, In ko l -> is_action (result_of (fst ko))) ->
  waits_ok r -> waits_ok (fold_left resume l r).
Proof.
  induction l as [|ko l IH]; intros r Hl HO; simpl; auto.
  apply IH; [intros; apply Hl; simpl; auto|].
  apply WO_resume; [apply Hl; simpl; auto|exact HO].
Qed.

Lemma InvG_pending_no_wait_timer base unacked x rest H r :
  InvG base unacked x rest H r ->
  forall id pa, In (id, pa) (pendingActions r) -> ~ wait_timer (timeout pa).
Proof.
  intros HI id pa Hin.
  destruct (inv_entry_timer HI _ _ Hin) as (k & ty & E & _). rewrite E. simpl. tauto.
Qed.

Lemma WO_handle_action_result m r :
  (forall id pa, In (id, pa) (pendingActions r) ->
     is_action (promise pa) /\ ~ wait_timer (timeout pa)) ->
  waits_ok r -> waits_ok (handle_action_result m r).
Proof.
  intros Hp HO. unfold handle_action_result.
  destruct (_ && _); [|exact HO].
  destruct (get_pending (member "actionId" m) r) as [pending|] eqn:Hg; [|exact HO].
  assert (Hn : is_action (promise pending) /\ ~ wait_timer (timeout pending)).
  { unfold get_pending in Hg. destruct (member "actionId" m) as [[| | |id| |]|]; try discriminate.
    apply alist_get_In in Hg. exact (Hp _ _ Hg). }
  destruct Hn as [Hn1 Hn2].
  assert (Hd : waits_ok (delete_pending (member "actionId" m)
                           (clearTimeout (timeout pending) r))).
  { unfold delete_pending. destruct (member "actionId" m) as [[| | |id| |]|]; ostrip;
      now apply WO_clearTimeout. }
  cbv zeta. destruct (truthy _); now apply WO_settle_action.
Qed.

Lemma WO_handle_error m r :
  (forall id pa, In (id, pa) (pendingActions r) ->
     is_action (promise pa) /\ ~ wait_timer (timeout pa)) ->
  waits_ok r -> waits_ok (handle_error m r).
Proof.
  intros Hp HO. unfold handle_error.
  destruct (is_string _ _); [|exact HO]. destruct (truthy _); [|exact HO].
  destruct (get_pending (member "actionId" m) r) as [pending|] eqn:Hg; [|exact HO].
  assert (Hn : is_action (promise pending) /\ ~ wait_timer (timeout pending)).
  { unfold get_pending in Hg. destruct (member "actionId" m) as [[| | |id| |]|]; try discriminate.
    apply alist_get_In in Hg. exact (Hp _ _ Hg). }
  destruct Hn as [Hn1 Hn2].
  assert (Hd : waits_ok (delete_pending (member "actionId" m)
                           (clearTimeout (timeout pending) r))).
  { unfold delete_pending. destruct (member "actionId" m) as [[| | |id| |]|]; ostrip;
      now apply WO_clearTimeout. }
  cbv zeta. now apply WO_settle_action.
Qed.

Lemma InvG_pending_quiet base unacked x rest H r :
  InvG base unacked x rest H r ->
  forall id pa, In (id, pa) (pendingActions r) ->
    is_action (promise pa) /\ ~ wait_timer (timeout pa).
Proof.
  intros HI id pa Hin. split.
  - exact (InvG_pending_action _ _ _ _ _ _ HI _ _ Hin).
  - exact (InvG_pending_no_wait_timer _ _ _ _ _ _ HI _ _ Hin).
Qed.

Lemma WO_handleMessage base unacked x rest H data r :
  InvG base unacked x rest H r ->
  waits_ok r -> waits_ok (fst (handleMessage data r)).
Proof.
  intros HI HO. unfold handleMessage.
  destruct (JSON_parse data) as [m|]; [|exact HO].
  assert (Hgo : waits_ok (handle_error m (handle_action_result m (handle_state m r)))).
  { pose proof (InvG_handle_state _ _ _ _ _ m _ HI) as H1.
    pose proof (InvG_handle_action_result _ _ _ _ _ m _ H1) as H2.
    apply WO_handle_error; [exact (InvG_pending_quiet _ _ _ _ _ _ H2)|].
    apply WO_handle_action_result; [exact (InvG_pending_quiet _ _ _ _ _ _ H1)|].
    now apply WO_handle_state. }
  destruct m; cbn [fst]; auto.
Qed.

Lemma WO_checkConnected s data r : waits_ok r -> waits_ok (checkConnected s data r).
Proof.
  intros HO. unfold checkConnected.
  destruct (JSON_parse data) as [m|]; [|exact HO].
  assert (Hgo : waits_ok
    (if is_string "sdk_connected" (member "type" m)
     then settle (connect_promise s) (Resolved None)
            (setConnectionState connected None
               (set_reconnectAttempt 0
                  match ws r with
                  | Some current =>
                      if Nat.eqb current s then update_socket s without_checkConnected r
                      else r
                  | None => r
                  end))
     else r)).
  { destruct (is_string _ _); [|exact HO].
    apply WO_settle_other; [simpl; tauto|].
    apply WO_setConnectionState. ostrip.
    destruct (ws r); [|exact HO]. destruct (Nat.eqb _ _); [|exact HO].
    now apply WO_update_socket. }
  destruct m; auto.
Qed.

Lemma WO_reject_all l : forall r,
  (forall e, In e l -> is_action (promise (snd e)) /\ ~ wait_timer (timeout (snd e))) ->
  waits_ok r -> waits_ok (fold_left reject_pending l r).
Proof.
  induction l as [|e l IH]; intros r Hl HO; simpl; auto.
  apply IH; [intros; apply Hl; simpl; auto|].
  unfold reject_pending. cbv zeta.
  destruct (Hl e (or_introl eq_refl)) as [H1 H2].
  apply WO_settle_action; [exact H1|]. now apply WO_clearTimeout.
Qed.

Lemma WO_onclose r :
  (forall id pa, In (id, pa) (pendingActions r) ->
     is_action (promise pa) /\ ~ wait_timer (timeout pa)) ->
  waits_ok r -> waits_ok (onclose r).
Proof.
  intros Hp HO. unfold onclose. cbv zeta.
  set (m := set_pendingActions [] _).
  assert (Hm : waits_ok m).
  { unfold m. ostrip. apply WO_reject_all.
    - intros [id pa] Hin. exact (Hp id pa Hin).
    - now ostrip. }
  clearbody m.
  destruct (_ && _).
  - now apply WO_scheduleReconnect.
  - now apply WO_setConnectionState.
Qed.

Lemma WO_run_callback base unacked x rest H r t tm :
  InvG base unacked x rest H r ->
  alist_get TimerId_eq_dec t (timers r) = Some tm ->
  waits_ok r -> waits_ok (run_callback (callback tm) (clearTimeout t r)).
Proof.
  intros HI Hg HO.
  pose proof (inv_timer_kind HI _ _ Hg) as Hk.
  destruct (callback tm) as [n| |id p ty|n|n] eqn:Hcb; unfold run_callback; cbv zeta;
    simpl in Hk.
  - subst t.
    assert (H1 : waits_ok (settle (connect_promise n) (Rejected Connection_timeout)
                             (clearTimeout (handshake_timer_id n) r))).
    { apply WO_settle_other; [simpl; tauto|]. apply WO_clearTimeout; [simpl; tauto|exact HO]. }
    revert H1. generalize (settle (connect_promise n) (Rejected Connection_timeout)
                             (clearTimeout (handshake_timer_id n) r)).
    intros r0 H0. destruct (ws r0); [now apply WO_update_socket|exact H0].
  - destruct Hk as (k & ->). apply WO_connect. ostrip.
    apply WO_clearTimeout; [simpl; tauto|exact HO].
  - destruct Hk as (k & ->). apply WO_settle_action.
    + pose proof (inv_timer_entry HI _ _ _ _ _ Hg Hcb) as He.
      apply alist_get_In in He.
      exact (InvG_pending_action _ _ _ _ _ _ HI _ _ He).
    + ostrip. apply WO_clearTimeout; [simpl; tauto|exact HO].
  - subst t. apply WO_close_connection_wait; [exact HO|].
    exact (wo_cl_timer HO _ _ Hg).
  - subst t. destruct (wo_sl_timer HO _ _ Hg) as (f & Hf).
    now apply (WO_close_condition_wait n f).
Qed.

Lemma WO_task base unacked H r e :
  Inv base unacked H r -> waits_ok r -> waits_ok (task e r).
Proof.
  intros HI HO. unfold Inv in HI. destruct e; unfold task.
  - now apply WO_connect.
  - now apply WO_disconnect.
  - now apply WO_sendAction.
  - now apply WO_waitForConnection.
  - now apply WO_waitForCondition.
  - now apply WO_onStateUpdate_user.
  - now apply WO_unsubscribe_state_user.
  - now apply WO_onConnectionStateChange_user.
  - now apply WO_unsubscribe_connection_user.
  - destruct (find_socket s r) as [sock|]; auto. destruct (readyState sock); auto.
    unfold onopen. cbv zeta. apply WO_send. apply WO_clearTimeout; [simpl; tauto|].
    now apply WO_update_socket.
  - destruct (find_socket s r) as [sock|]; auto. destruct (readyState sock); auto.
    cbv zeta. pose proof (WO_handleMessage _ _ _ _ _ data _ HI HO) as H1.
    destruct (checkConnected_attached sock); [now apply WO_checkConnected|exact H1].
  - destruct (find_socket s r) as [sock|]; auto.
    assert (H1 : waits_ok (onerror s r)).
    { unfold onerror. cbv zeta. apply WO_settle_other; [simpl; tauto|].
      apply WO_clearTimeout; [simpl; tauto|exact HO]. }
    destruct (readyState sock); auto.
  - destruct (find_socket s r) as [sock|]; auto.
    assert (H1 : waits_ok (onclose (update_socket s (with_readyState CLOSED) r))).
    { apply WO_onclose; [|now apply WO_update_socket].
      apply (InvG_pending_quiet base unacked None [] H).
      now apply InvG_update_socket. }
    destruct (readyState sock); auto.
  - destruct (alist_get TimerId_eq_dec t (timers r)) as [tm|] eqn:Hg; auto.
    now apply (WO_run_callback _ _ _ _ _ _ _ _ HI Hg).
Qed.

Lemma WO_step base unacked H r e :
  (forall s, In s (stamp_drawn e) -> ~ In s (map fst H)) ->
  Inv base unacked H r -> waits_ok r -> waits_ok (step r e).
Proof.
  intros Hs HI HO. unfold step, run_microtasks.
  apply WO_drain; [|ostrip; now apply (WO_task _ _ _ _ _ HI)].
  apply (InvG_queued_action _ _ _ _ _ (Inv_task _ _ _ _ _ Hs HI)).
Qed.

Lemma WO_run base trace : forall unacked H r,
  NoDup (map fst H ++ stamps trace) ->
  Inv base unacked H r -> waits_ok r -> waits_ok (run r trace).
Proof.
  induction trace as [|e trace IH]; intros unacked H r Hnd HI HO; simpl; auto.
  unfold stamps in Hnd. simpl in Hnd. fold (stamps trace) in Hnd.
  destruct (Inv_step base unacked H r e (fresh_stamp H _ _ Hnd) HI) as [HI' _].
  apply (IH (unacked && negb (is_ack e)) (H ++ issued r e) (step r e)); [|exact HI'|].
  - rewrite map_app, map_fst_issued, <- app_assoc. exact Hnd.
  - exact (WO_step _ _ _ _ _ (fresh_stamp H _ _ Hnd) HI HO).
Qed.

Lemma reachable_waits_ok c clientId trace :
  NoDup (stamps trace) -> waits_ok (run (constructor c clientId) trace).
Proof.
  intros Hnd. apply (WO_run [] trace true [] _ Hnd (Inv_constructor c clientId)).
  unfold waits_ok, constructor. simpl.
  constructor; simpl; intros; try tauto; try discriminate; try constructor; auto.
Qed.

(** X14.  No promise of waitForConnection or of waitForCondition is settled
    twice, so a wait never ends both fulfilled and rejected.  The listener
    of a wait is subscribed exactly while the timer of the wait is set, and
    as long as it is the promise of the wait is pending and the timer is
    the one that ends the wait: no listener and no timer of a wait is left
    behind.  The listener sets hold a function at most once. *)
Theorem waits_settle_once c clientId trace :
  NoDup (stamps trace) ->
  let r := run (constructor c clientId) trace in
  (forall k, settle_calls (waitForConnection_promise k) (settles r) <= 1
             /\ settle_calls (waitForCondition_promise k) (settles r) <= 1)
  /\ (forall p o1 o2, wait_promise p ->
        In (p, o1) (settles r) -> In (p, o2) (settles r) -> o1 = o2)
  /\ (forall k,
        In (waitForConnection_listener k) (connectionListeners r)
        <-> exists tm,
              alist_get TimerId_eq_dec (waitForConnection_timer_id k) (timers r) = Some tm)
  /\ (forall k, In (waitForConnection_listener k) (connectionListeners r) ->
        promise_state (waitForConnection_promise k) (settles r) = None
        /\ exists ms,
             alist_get TimerId_eq_dec (waitForConnection_timer_id k) (timers r)
             = Some {| delay := ms; callback := waitForConnection_timeout k |})
  /\ (forall k,
        (exists f, In (waitForCondition_listener k f) (stateListeners r))
        <-> exists tm,
              alist_get TimerId_eq_dec (waitForCondition_timer_id k) (timers r) = Some tm)
  /\ (forall k f, In (waitForCondition_listener k f) (stateListeners r) ->
        promise_state (waitForCondition_promise k) (settles r) = None
        /\ exists ms,
             alist_get TimerId_eq_dec (waitForCondition_timer_id k) (timers r)
             = Some {| delay := ms; callback := waitForCondition_timeout k |})
  /\ NoDup (map connection_listener_id (connectionListeners r))
  /\ NoDup (map state_listener_id (stateListeners r)).
Proof.
  intros Hnd r.
  pose proof (reachable_waits_ok c clientId trace Hnd) as HO. fold r in HO.
  clearbody r.
  split; [intros k; split; [apply (wo_cl_once HO)|apply (wo_sl_once HO)]|].
  split.
  { intros p o1 o2 Hp H1 H2.
    destruct p as [n|n|n|n|n]; simpl in Hp; try contradiction.
    - exact (settle_calls_le_1_same _ _ _ _ (wo_cl_once HO n) H1 H2).
    - exact (settle_calls_le_1_same _ _ _ _ (wo_sl_once HO n) H1 H2). }
  split.
  { intros k. split.
    - intros Hin. destruct (wo_cl_live HO k Hin) as (_ & ms & E). eauto.
    - intros (tm & E). exact (wo_cl_timer HO _ _ E). }
  split.
  { intros k Hin. destruct (wo_cl_live HO k Hin) as (Hz & Ht).
    split; [now apply promise_state_unsettled|exact Ht]. }
  split.
  { intros k. split.
    - intros (f & Hin). destruct (wo_sl_live HO k f Hin) as (_ & ms & E). eauto.
    - intros (tm & E). exact (wo_sl_timer HO _ _ E). }
  split.
  { intros k f Hin. destruct (wo_sl_live HO k f Hin) as (Hz & Ht).
    split; [now apply promise_state_unsettled|exact Ht]. }
  split; [exact (wo_cl_nodup HO)|exact (wo_sl_nodup HO)].
Qed.

Lemma waits_settle_once_witness :
  NoDup (stamps [call_waitForConnection 5000; call_connect; ws_open 2;
                 ws_message 2 sdk_connected_message])
  /\ settle_calls (waitForConnection_promise 1)
       (settles (run (constructor demo_config "sdk-1")
                   [call_waitForConnection 5000; call_connect; ws_open 2;
                    ws_message 2 sdk_connected_message])) <= 1.
Proof.
  assert (Hnd : NoDup (stamps [call_waitForConnection 5000; call_connect; ws_open 2;
                               ws_message 2 sdk_connected_message])) by constructor.
  split; [exact Hnd|].
  exact (proj1 (proj1 (waits_settle_once demo_config "sdk-1" _ Hnd) 1)).
Defined.


(** ** The connection state and the current socket *)













